(* ===== verification/_CoqProject ===== *)
-Q . S2P
Prelude.v
Assoc.v
Calls.v
Text.v
BTree.v
F64.v
Externals.v
Decimal.v
DecMath.v
Mandate.v
Policy.v
AlpacaTime.v
Broker.v
Kraken.v
Alpaca.v
Oanda.v
AlpacaParse.v
OandaParse.v
Nonce.v
Userref.v
KrakenParse.v
ReportFacts.v
Venue.v
Guard.v
GuardFacts.v
Planner.v
Data.v
Decision.v
PlanFacts.v
PlanBudget.v
RiskState.v
Overlay.v
RiskFacts.v
OverlayFacts.v
RiskStore.v
View.v
ViewFacts.v
Recon.v
ReconFacts.v
Flatten.v
FlattenFacts.v
FlattenEnd.v
FlattenBound.v
FlattenScenario.v
Record.v
RunStore.v
RunStoreFacts.v
RunCalls.v
RunSteps.v
RunOrders.v
Pipeline.v
RunRules.v
RunFacts.v
RunTrade.v
RunTheorems.v
RunCarried.v
RunScenario.v
Service.v
Monitor.v
Driver.v
ServiceFacts.v
MonitorFacts.v
ServiceScenario.v
