(* ===== verification/Prelude.v ===== *)
(** * SignalEngine: the exact-decimal rebalancer

    This library verifies the part of SignalEngine that decides what is traded: the rebalancer crates under
    [src/crates] (Rust). Every definition is a translation of code named in its file's header; paths below are under
    [src/crates].

    ** How the parts fit together

    A person's mandate ([mandate-core]) is validated and compiled once into exact limits ([rebalancer-core/policy]). The
    risk overlay ([rebalancer-risk]) turns broker-reported equity into a risk scale or a halt, and the account state
    machine remembers it in a compare-and-swap store. The planner ([rebalancer-core/planner]) turns sleeve targets, scaled
    by the risk scale, into an ordered list of orders: each quantity is rounded down by its venue's rules
    ([rebalancer-core/venue] over the adapters' [prepare_order] in [broker-adapters]), and each order has to pass the
    pre-trade guard ([rebalancer-core/guard]) on the account the earlier orders leave. Money is the exact decimal [Dec]
    ([broker-adapters/decimal]) throughout.

    Around these decisions the runner ([rebalancer-run]) reads the broker: the adapters' parsers turn its JSON into
    reports, balances and positions ([broker-adapters/*/parse]), [view] makes one venue-neutral snapshot of them, [recon]
    compares the snapshot with what the account should hold, and [flatten] is the kill path that closes every position.
    [decision] asks the reference rules what each sleeve wants; a run of [pipeline] takes one account through kill flag,
    mandate, decisions, snapshot, reconciliation, risk, plan, orders and reconciliation again, under a run key of the run
    store ([stores]), and leaves one immutable [record]. The unattended service ([driver]) makes a tick of runs, each
    under its account's lock; between runs the [monitor] reads every account and may halt and flatten it.

    ** Files

    - foundations: [Prelude] ([Result] and [?], machine integers, record updates), [Assoc] (maps only read by key),
      [Calls] (programs over calls, their traces, protocols and triples), [Text] (ASCII strings as the source uses them),
      [BTree] ([BTreeMap]/[BTreeSet] as sorted association lists), [F64] (IEEE doubles and how Rust prints them),
      [Externals] (third-party code as classes: chrono, sha2, rust_decimal);
    - numbers: [Decimal] (decimal.rs), [DecMath] (dec_math.rs);
    - what may be traded: [Mandate] (mandate.rs), [Policy] (policy.rs);
    - venues: [Broker] (types.rs, error.rs), [Kraken], [Alpaca], [Oanda] (tables, [prepare_order], request parameters),
      [Nonce] (nonce.rs), [Userref] (kraken/userref.rs), [Venue] (venue.rs, the [VenueLaw] class and its instances);
    - what a broker says: [AlpacaTime] (alpaca/time.rs), [AlpacaParse], [OandaParse], [KrakenParse] (the adapters' parse.rs
      over JSON values) with [ReportFacts];
    - the account: [View] with [ViewFacts] (view.rs), [Recon] with [ReconFacts] (recon.rs), [Flatten] (flatten.rs and the
      [Broker] and [Clock] traits) with [FlattenFacts], [FlattenEnd], [FlattenBound] and [FlattenScenario];
    - a run: [Data] (data.rs and the reference rules as the class [ReferenceRules]), [Decision] (decision.rs,
      cell_rules.rs), [Record] (record.rs), [RunStore] with [RunStoreFacts] (stores.rs), and pipeline.rs in four files:
      [RunCalls] (configuration, context, calls, the steps' monad), [RunSteps] (steps 1b to 5), [RunOrders] (6 to 10),
      [Pipeline] (11, 12, [run_once]); [RunRules] states what a run may do, [RunFacts] and [RunTrade] prove it of the
      steps, [RunTheorems] of whole runs, [RunCarried] reads them again for what an acted decision means, [RunScenario] runs
      the pipeline against a concrete broker and stores;
    - the service: [Service] (accounts, locks, [catch_unwind]), [Driver] (driver.rs) and [Monitor] (monitor.rs) with
      [ServiceFacts], [MonitorFacts] and [ServiceScenario];
    - decisions: [Guard] with [GuardFacts] (guard.rs), [Planner] with [PlanFacts] and [PlanBudget] (planner.rs),
      [RiskState] with [RiskFacts] (state.rs, approval.rs), [Overlay] with [OverlayFacts] (overlay.rs), [RiskStore]
      (store.rs, rng.rs).

    ** How the code is modelled

    A Rust [Result] is [result] with its error type, [?] is [let?]; a [Vec] that helpers push to is the concatenation or a
    fold; [&mut] arguments are threaded. An [i128], [u64] or [u32] is a [Z] kept in range by its operations: checked
    operations return an option, unchecked ones wrap ([wrap_i128], [wrap_u64]), since the release profile has no overflow
    checks. [String]s are ASCII ([to_lowercase], [trim] and the like act on ASCII). Messages are modelled verbatim. Traits
    become classes or records with their laws ([VenueLaw], [NonceStore], [StateStore]); clients are proved against the
    laws and the implementations discharge them. Code that calls a broker and a clock is a tree of calls ([prog]) with a
    branch for every answer, so a theorem about all its traces ([runs]) holds whatever the broker does; what a theorem asks
    of the answers (well-typed decimals, a bound on a list) is its [believable] hypothesis. A run is such a tree over the
    calls of broker, clock, data layer, stores, notifier and kill flag ([RunCalls.run_call]); its [&mut self] is the
    record [Run] its steps thread, and [Result<_, Stop>] is an option whose [None] leaves the outcome on the record. A
    [protocol] watches the calls with a ghost state and says which call may come next; [triple]s prove that a step keeps
    it. [catch_unwind] is [Service.catching]: every call made for an account may panic instead of answering, and the memo
    a panicking run leaves behind is whatever the pseudo-call [LeftMemo] answers, which covers every memo it could leave.
    Closures of [OrderPlanner::plan] and of [shortfalls] are definitions with the state they capture as arguments.

    ** What the theorems show

    - numbers: comparison, rounding, printing and parsing are exact; checked arithmetic is exact or fails ([Decimal],
      [DecMath]);
    - guard: [run] allows exactly the orders of the declarative specification [permitted] (up to overflow, which denies);
      halted accounts and expired mandates only reduce; without a valid mandate in force everything is denied; deployment
      limits never loosen a mandate;
    - planner: every planned order is permitted where it stands in the plan ([replay], which fixes its price, fee, margin
      flag and what it leaves of the buying power), reductions come first and never exceed the position, a long-only plan never sells short and its targets fit the capital base, the fitted buys fit the
      money available;
    - venues: a prepared order is never larger than asked, and on the venue's grids; nonces strictly increase over any
      interleaving of crashes and clock jumps; tags and user references stay in bijection;
    - reports: an order report of the three adapters has 0 <= executed <= quantity and a status that tells how much executed
      (an OANDA order without units has quantity zero, a Kraken [Pending] tells nothing); a page of OANDA transactions is
      complete exactly when nothing is missing;
    - account: a Kraken snapshot accounts for every balance once (its cash loses a row only when the sum overflows);
      reconciliation answers OK exactly when the account agrees
      with the records, and the expected account counts each fill once;
    - flatten: whatever the broker answers it only reduces positions, covers before it sells, touches only our own
      orders, ends within an explicit number of calls, and a clean verdict is backed by its last snapshot;
    - runs, whatever everything outside answers: every order is licensed by a plan on the last snapshot under the
      admitted policy, or is the flatten of a halting account; the kill flag is read first; live orders are looked up and
      journaled before they are sent; no saved state leaves a halt; a record counts a decision as acted only when all of
      its plan was carried out; a run key is one run with one record, and the ledger of acted decisions is exact;
    - service: what is due is due once a day, every run and reading is made under its account's lock, which a panic
      releases too; a failing account is alerted once per streak; the monitor only logs, saves what the machine reaches by
      itself, and reduces;
    - risk: halts are sticky and are left only by a recorded human resume, which is always possible; the evaluation
      equals a reference in exact integers and is monotone in equity; the state machine's invariant holds in every
      reachable state; concurrent runs over a lawful store lose no update.

    Where the code does not do what it means to, a theorem says so: [RiskFacts.halted_shrunk_account_not_loadable] (a
    shrunk account that halts cannot be loaded again), [FlattenScenario.pending_cancel_overbuys] (a cover whose cancel
    stays pending is bought a second time) and [RunScenario.crashed_attempt_counts_twice] (the fills of a crashed attempt
    are counted again at every later run, which halts a correct account); [ViewFacts.overflowing_cash_row] shows a cash row
    left out without an error.

    ** Bounds and fuel

    Recursion is structural except where noted. [Text.show_digits] has the binary size of its argument as fuel, which is at
    least its number of digits; [F64]'s shortest-digits search tries the 17 digits a double can need; [Userref]'s linear
    probing has one turn more than the table has entries ([Userref.probe_fuel]). The loops of the flatten run on the
    counts of its specification (rounds, polls, tag indexes), which are the loop bounds of the code, as do the polls of an
    order of a run; every other loop of a run is over a list.

    ** Not modelled

    Network I/O, signing and polling of the adapters; JSON decoding (serde) below the field level; SQL (the Postgres
    stores keep the contracts of the in-memory ones in constraints and triggers); the HTTP and UI layers; the runner's
    latency recorder and its system clock; the market-data feeds; the older floating-point trading path
    ([executionhandler], [orderbook], [strategyhandler], [portfolio] and the crates around them); tests and drills. Rust's visibility rules (the unforgeable approval token) are a property of the
    type system and are not restated. *)

From Stdlib Require Import ZArith Lia String Ascii.
From stdpp Require Export base tactics option list numbers strings sets.

Local Open Scope Z_scope.

(** ** Results: [Result<A, E>] with the [?] operator *)

Inductive result (E A : Type) : Type :=
| Ok (a : A)
| Err (e : E).
Arguments Ok {E A} a.
Arguments Err {E A} e.

Definition result_bind {E A B} (m : result E A) (k : A → result E B) : result E B :=
  match m with
  | Ok a => k a
  | Err e => Err e
  end.

Definition map_err {E F A} (f : E → F) (m : result E A) : result F A :=
  match m with
  | Ok a => Ok a
  | Err e => Err (f e)
  end.

Definition ok_or {E A} (o : option A) (e : E) : result E A :=
  match o with
  | Some a => Ok a
  | None => Err e
  end.

Definition ok {E A} (m : result E A) : option A :=
  match m with
  | Ok a => Some a
  | Err _ => None
  end.

Definition is_ok {E A} (m : result E A) : bool :=
  match m with
  | Ok _ => true
  | Err _ => false
  end.

(** [for x in l { s = f(s, x)?; }] *)
Fixpoint try_fold {E A S} (f : S → A → result E S) (s : S) (l : list A) : result E S :=
  match l with
  | [] => Ok s
  | x :: l' => result_bind (f s x) (fun s' => try_fold f s' l')
  end.

(** [l.iter().map(f).collect::<Result<Vec<_>, _>>()] *)
Fixpoint try_map {E A B} (f : A → result E B) (l : list A) : result E (list B) :=
  match l with
  | [] => Ok []
  | x :: l' => result_bind (f x) (fun y => result_bind (try_map f l') (fun ys => Ok (y :: ys)))
  end.

Declare Scope rust_scope.
Delimit Scope rust_scope with rust.
Notation "'let?' x ':=' m 'in' k" := (result_bind m (fun x => k))
  (at level 10, x pattern, m at level 200, k at level 200,
   format "'[v' 'let?'  x  ':='  m  'in' '/' k ']'") : rust_scope.
Notation "'let*' x ':=' m 'in' k" := (match m with Some x => k | None => None end)
  (at level 10, x pattern, m at level 200, k at level 200,
   format "'[v' 'let*'  x  ':='  m  'in' '/' k ']'") : rust_scope.
Open Scope rust_scope.

Lemma bind_ok {E A B} (m : result E A) (k : A → result E B) b :
  result_bind m k = Ok b ↔ ∃ a, m = Ok a ∧ k a = Ok b.
Proof. destruct m; simpl; naive_solver. Qed.

Lemma map_err_ok {E F A} (f : E → F) (m : result E A) a :
  map_err f m = Ok a ↔ m = Ok a.
Proof. destruct m; naive_solver. Qed.

Lemma ok_or_ok {E A} (o : option A) (e : E) a : ok_or o e = Ok a ↔ o = Some a.
Proof. destruct o; naive_solver. Qed.

Lemma ok_some {E A} (m : result E A) a : ok m = Some a ↔ m = Ok a.
Proof. destruct m; naive_solver. Qed.

Lemma try_fold_app {E A S} (f : S → A → result E S) s l1 l2 :
  try_fold f s (l1 ++ l2) = result_bind (try_fold f s l1) (fun s' => try_fold f s' l2).
Proof. revert s. induction l1 as [|x l1 IH]; intros s; simpl; [done|]. destruct (f s x); simpl; auto. Qed.

(** An invariant of the accumulator is an invariant of the loop. *)
Lemma try_fold_inv {E A S} (P : S → Prop) (f : S → A → result E S) l :
  (∀ s x s', x ∈ l → P s → f s x = Ok s' → P s') →
  ∀ s s', P s → try_fold f s l = Ok s' → P s'.
Proof.
  induction l as [|x l IH]; intros Hf s s' Hs; simpl; [naive_solver|].
  intros (s1 & H1 & H2)%bind_ok.
  eapply IH; [|eapply Hf; [by constructor|exact Hs|exact H1]|exact H2].
  intros ??? Hx. apply Hf. by constructor.
Qed.

(** The same with the part of the list that was read. *)
Lemma try_fold_prefix {E A S} (P : list A → S → Prop) (f : S → A → result E S) l s0 s' :
  P [] s0 → (∀ pre x s s1, x ∈ l → P pre s → f s x = Ok s1 → P (pre ++ [x]) s1) → try_fold f s0 l = Ok s' → P l s'.
Proof.
  revert s'. induction l as [|x l IH] using rev_ind; intros s' H0 Hf; [by intros [= <-]|].
  rewrite try_fold_app. intros (s & Hs & (s1 & Hx & [= <-])%bind_ok)%bind_ok.
  apply (Hf l x s); [set_solver| |exact Hx]. apply IH; [done| |exact Hs]. intros pre y t t1 Hy. apply Hf. set_solver.
Qed.

Lemma try_map_ok {E A B} (f : A → result E B) l ys :
  try_map f l = Ok ys ↔ Forall2 (fun x y => f x = Ok y) l ys.
Proof.
  revert ys. induction l as [|x l IH]; intros ys; simpl.
  - split; [intros [= <-]; constructor|intros H; by inversion H].
  - rewrite bind_ok. split.
    + intros (y & Hy & (ys' & Hys & [= <-])%bind_ok). constructor; [done|]. by apply IH.
    + intros H. inversion H as [|? y ? ys' Hy Hys]; subst. exists y. split; [done|].
      apply bind_ok. exists ys'. split; [by apply IH|done].
Qed.

(** Opens one layer of the [?]-chains in the hypotheses. *)
Ltac inv_ok_step :=
  match goal with
  | H : result_bind _ _ = Ok _ |- _ =>
      apply bind_ok in H; destruct H as (? & ? & H)
  | H : map_err _ _ = Ok _ |- _ => rewrite map_err_ok in H
  | H : ok_or _ _ = Ok _ |- _ => rewrite ok_or_ok in H
  | H : Ok _ = Ok _ |- _ => injection H as H; try subst
  | H : Err _ = Ok _ |- _ => discriminate H
  | H : Some _ = Some _ |- _ => injection H as H; try subst
  | H : None = Some _ |- _ => discriminate H
  | H : match ?x with Some _ => _ | None => None end = Some _ |- _ =>
      destruct x eqn:?; [|discriminate H]
  | H : (if ?b then Err _ else _) = Ok _ |- _ =>
      destruct b eqn:?; [discriminate H|]
  | H : (if ?b then _ else Err _) = Ok _ |- _ =>
      destruct b eqn:?; [|discriminate H]
  end.
Ltac inv_ok := repeat inv_ok_step.

(** ** Machine integers *)

Definition i128_min : Z := - 2 ^ 127.
Definition i128_max : Z := 2 ^ 127 - 1.
Definition in_i128 (z : Z) : Prop := i128_min ≤ z ≤ i128_max.
Definition in_i128b (z : Z) : bool := (i128_min <=? z) && (z <=? i128_max).

(** Two's complement wrap-around of an unchecked [i128] operation (the release profile has no
    overflow checks). *)
Definition wrap_i128 (z : Z) : Z := (z + 2 ^ 127) mod 2 ^ 128 - 2 ^ 127.

Definition checked_i128 (z : Z) : option Z := if in_i128b z then Some z else None.

Definition u32_max : Z := 2 ^ 32 - 1.
Definition u64_max : Z := 2 ^ 64 - 1.
Definition i64_max : Z := 2 ^ 63 - 1.
Definition i64_min : Z := - 2 ^ 63.
Definition i32_max : Z := 2 ^ 31 - 1.
Definition i32_min : Z := - 2 ^ 31.
Definition wrap_u32 (z : Z) : Z := z mod 2 ^ 32.
Definition wrap_u64 (z : Z) : Z := z mod 2 ^ 64.

(** [u32::try_from], [u32::saturating_add], [i64::saturating_mul] *)
Definition u32_try_from (z : Z) : option Z := if (0 <=? z) && (z <=? u32_max) then Some z else None.
Definition u32_saturating_add (a b : Z) : Z := Z.min (a + b) u32_max.
Definition i64_saturate (z : Z) : Z := Z.max i64_min (Z.min z i64_max).
Definition i64_saturating_mul (a b : Z) : Z := i64_saturate (a * b).

(** [div_euclid] and [rem_euclid]: the remainder is never negative. *)
Definition div_euclid (a b : Z) : Z := if 0 <? b then a / b else - (a / (- b)).
Definition rem_euclid (a b : Z) : Z := a mod Z.abs b.

Lemma in_i128b_spec z : in_i128b z = true ↔ in_i128 z.
Proof. unfold in_i128b, in_i128. rewrite andb_true_iff, !Z.leb_le. done. Qed.

Lemma wrap_i128_id z : in_i128 z → wrap_i128 z = z.
Proof. unfold in_i128, wrap_i128, i128_min, i128_max. intros H. rewrite Z.mod_small; lia. Qed.

Lemma wrap_i128_range z : in_i128 (wrap_i128 z).
Proof.
  unfold in_i128, wrap_i128, i128_min, i128_max.
  pose proof (Z.mod_pos_bound (z + 2 ^ 127) (2 ^ 128)). lia.
Qed.

Lemma checked_i128_some z r : checked_i128 z = Some r ↔ r = z ∧ in_i128 z.
Proof.
  unfold checked_i128. destruct (in_i128b z) eqn:E.
  - apply in_i128b_spec in E. naive_solver.
  - split; [done|]. intros [_ H%in_i128b_spec]. congruence.
Qed.

Lemma u32_try_from_some z r : u32_try_from z = Some r ↔ r = z ∧ 0 ≤ z ≤ u32_max.
Proof.
  unfold u32_try_from. destruct (Z.leb_spec 0 z), (Z.leb_spec z u32_max); simpl; naive_solver lia.
Qed.

Lemma checked_i128_none z : checked_i128 z = None ↔ ¬ in_i128 z.
Proof.
  unfold checked_i128. destruct (in_i128b z) eqn:E.
  - apply in_i128b_spec in E. naive_solver.
  - split; [|done]. intros _ H%in_i128b_spec. congruence.
Qed.

(** Turns every successful checked operation into its value and its bound. *)
Ltac inv_checked :=
  repeat match goal with H : checked_i128 _ = Some _ |- _ => apply checked_i128_some in H as [-> ?] end.

Lemma div_euclid_pos a b : 0 < b → div_euclid a b = a / b.
Proof. intros H. unfold div_euclid. by rewrite (proj2 (Z.ltb_lt _ _) H). Qed.

Lemma rem_euclid_pos a b : 0 < b → rem_euclid a b = a mod b.
Proof. intros H. unfold rem_euclid. by rewrite Z.abs_eq by lia. Qed.

Lemma div_shrinks x b : 1 ≤ b → Z.min x 0 ≤ x / b ≤ Z.max x 0.
Proof.
  intros Hb. pose proof (Z.div_mod x b). pose proof (Z.mod_pos_bound x b).
  destruct (Z.le_gt_cases 0 x); nia.
Qed.

Lemma in_i128_div x b : 1 ≤ b → in_i128 x → in_i128 (x / b).
Proof. intros Hb Hx. pose proof (div_shrinks x b Hb). unfold in_i128, i128_min, i128_max in *. lia. Qed.

Lemma wrap_u64_range z : 0 ≤ wrap_u64 z ≤ u64_max.
Proof. unfold wrap_u64, u64_max. pose proof (Z.mod_pos_bound z (2 ^ 64)). lia. Qed.

(** ** Record updates: [r <| f := v |>]

    The field [f] of a record with an [Eta] instance is replaced in the record's expansion. *)

Class Eta (R : Type) := eta : R → R.
Class Setter {R T : Type} (f : R → T) := setter : T → R → R.
Arguments setter {R T} f {_} v r /.

Ltac build_setter :=
  match goal with
  | |- Setter (R := ?R) (T := ?T) ?f =>
      let e := constr:(_ : Eta R) in
      exact (fun (v : T) (r : R) =>
        ltac:(let x := eval hnf in (eta (Eta := e) r) in
              let p := eval pattern (f r) in x in
              match p with ?g _ => let y := eval cbv beta in (g v) in exact y end))
  end.
#[export] Hint Extern 0 (Setter _) => build_setter : typeclass_instances.

Notation "r <| f := v |>" := (setter f v r) (at level 1, f constr, left associativity, format "r  <| f  :=  v |>") : rust_scope.
