(* ===== verification/Assoc.v ===== *)
(** * Assoc: maps that are only read and written by key

    A [BTreeMap] whose order the program never observes, over a key with decidable equality. *)

From S2P Require Import Prelude.

Definition Assoc (K V : Type) : Type := list (K * V).

Section assoc.
Context {K V : Type} `{EqDecision K}.
Implicit Types (m : Assoc K V) (k : K) (v : V).

Fixpoint as_get m k : option V :=
  match m with
  | [] => None
  | (k', v) :: m' => if bool_decide (k = k') then Some v else as_get m' k
  end.

(** [map.insert(k, v)]: in place when the key is there. *)
Fixpoint as_insert k v m : Assoc K V :=
  match m with
  | [] => [(k, v)]
  | (k', v') :: m' => if bool_decide (k = k') then (k, v) :: m' else (k', v') :: as_insert k v m'
  end.

Lemma as_get_insert k v m k' : as_get (as_insert k v m) k' = if bool_decide (k' = k) then Some v else as_get m k'.
Proof. induction m as [|[k1 v1] m IH]; simpl; repeat (case_bool_decide; simpl); naive_solver. Qed.

Lemma as_get_insert_eq k v m : as_get (as_insert k v m) k = Some v.
Proof. rewrite as_get_insert. by rewrite bool_decide_true. Qed.

Lemma as_get_insert_ne k v m k' : k' ≠ k → as_get (as_insert k v m) k' = as_get m k'.
Proof. intros Hn. rewrite as_get_insert. by rewrite bool_decide_false. Qed.
End assoc.
