(* ===== verification/Calls.v ===== *)
(** * Calls: programs over calls, and how to reason about them

    Code that talks to the outside (a broker, a clock, a store) is a tree whose nodes are its calls and whose branches
    are the answers, over a signature [E] of calls. Traces of calls and answers, protocols that watch a trace with a
    ghost state, and a program logic whose triples hold for every answer the outside could give. *)

From S2P Require Import Prelude.

(** ** Programs *)

Inductive prog (E : Type → Type) (A : Type) : Type :=
| Ret (a : A)
| Do (B : Type) (c : E B) (k : B → prog E A).
Arguments Ret {E A} a.
Arguments Do {E A B} c k.

Fixpoint prog_bind {E A B} (p : prog E A) (f : A → prog E B) : prog E B :=
  match p with
  | Ret a => f a
  | Do c k => Do c (fun b => prog_bind (k b) f)
  end.

(** The same program over a larger signature. *)
Fixpoint embed {E F A} (inj : ∀ B, E B → F B) (p : prog E A) : prog F A :=
  match p with
  | Ret a => Ret a
  | Do c k => Do (inj _ c) (fun b => embed inj (k b))
  end.

(** Programs that thread a state. *)
Definition program (E : Type → Type) (S A : Type) : Type := S → prog E (A * S).

Section program.
Context {E : Type → Type} {S : Type}.
Definition ret {A} (a : A) : program E S A := fun s => Ret (a, s).
Definition step_bind {A B} (m : program E S A) (k : A → program E S B) : program E S B :=
  fun s => prog_bind (m s) (fun x => k x.1 x.2).
Definition ask {B} (c : E B) : program E S B := fun s => Do c (fun b => Ret (b, s)).
Definition modify (g : S → S) : program E S unit := fun s => Ret (tt, g s).
Definition get : program E S S := fun s => Ret (s, s).
(** A program of a smaller signature, which does not see the state. *)
Definition call_out {F A} (inj : ∀ B, F B → E B) (p : prog F A) : program E S A :=
  fun s => prog_bind (embed inj p) (fun a => Ret (a, s)).
End program.

Notation "'let#' x ':=' m 'in' k" := (step_bind m (fun x => k))
  (at level 10, x pattern, m at level 200, k at level 200,
   format "'[v' 'let#'  x  ':='  m  'in' '/' k ']'") : rust_scope.

(** [for x in l { f(x) }] *)
Fixpoint for_each {E S A} (f : A → program E S unit) (l : list A) : program E S unit :=
  match l with
  | [] => ret tt
  | x :: l' => let# _ := f x in for_each f l'
  end.

Section runs.
Context {E : Type → Type}.

(** ** Traces *)

Inductive event :=
| Ev {B : Type} (c : E B) (b : B).

Inductive runs {A} : prog E A → list event → A → Prop :=
| runs_ret a : runs (Ret a) [] a
| runs_do B (c : E B) k b tr a : runs (k b) tr a → runs (Do c k) (Ev c b :: tr) a.

Lemma runs_inv {A} (p : prog E A) tr a : runs p tr a →
  match p with
  | Ret a' => tr = [] ∧ a = a'
  | Do c k => ∃ b tr', tr = Ev c b :: tr' ∧ runs (k b) tr' a
  end.
Proof. destruct 1 as [a|B c k b tr a Hr]; [done|]. by exists b, tr. Qed.

Lemma runs_bind {A B} (p : prog E A) (k : A → prog E B) tr b : runs (prog_bind p k) tr b →
  ∃ a tr1 tr2, tr = tr1 ++ tr2 ∧ runs p tr1 a ∧ runs (k a) tr2 b.
Proof.
  revert tr. induction p as [a|C c k' IH]; intros tr Hr; [exists a, [], tr; by repeat constructor|].
  apply runs_inv in Hr as (x & tr' & -> & Hr). destruct (IH x tr' Hr) as (a & tr1 & tr2 & -> & H1 & H2).
  exists a, (Ev c x :: tr1), tr2. by repeat constructor.
Qed.

(** A broker and clock with a state of their own. *)
Fixpoint exec {W A} (h : ∀ B, E B → W → B * W) (p : prog E A) (w : W) : list event * A :=
  match p with
  | Ret a => ([], a)
  | Do c k => let '(b, w') := h _ c w in let '(tr, a) := exec h (k b) w' in (Ev c b :: tr, a)
  end.

Lemma exec_runs {W A} (h : ∀ B, E B → W → B * W) (p : prog E A) w : runs p (exec h p w).1 (exec h p w).2.
Proof.
  revert w. induction p as [a|B c k IH]; intros w; simpl; [constructor|].
  destruct (h B c w) as [b w']. specialize (IH b w'). destruct (exec h (k b) w') as [tr a]. by constructor.
Qed.

(** ** Protocols *)

(** What may be asked in a ghost state, how an answer moves it, and which answers are considered. *)
Record protocol := {
  ghost : Type;
  allowed : ghost → ∀ B, E B → Prop;
  observe : ghost → ∀ B, E B → B → ghost;
  plausible : ∀ B, E B → B → Prop;
}.

Variable P : protocol.

Definition see (g : ghost P) (e : event) : ghost P := match e with Ev c b => observe P g _ c b end.
Definition believable (e : event) : Prop := match e with Ev c b => plausible P _ c b end.

Fixpoint always {A} (p : prog E A) (g : ghost P) (Q : A → ghost P → Prop) : Prop :=
  match p with
  | Ret a => Q a g
  | Do c k => allowed P g _ c ∧ ∀ b, plausible P _ c b → always (k b) (observe P g _ c b) Q
  end.

(** Every call of the trace is allowed where it is made. *)
Fixpoint obeys (g : ghost P) (tr : list event) : Prop :=
  match tr with
  | [] => True
  | Ev c b :: tr' => allowed P g _ c ∧ obeys (observe P g _ c b) tr'
  end.

Lemma obeys_split g tr1 B (c : E B) b tr2 : obeys g (tr1 ++ Ev c b :: tr2) → allowed P (fold_left see tr1 g) _ c.
Proof.
  revert g. induction tr1 as [|[B' c' b'] tr1 IH]; simpl; intros g Ho; [by destruct Ho|]. apply IH. by destruct Ho.
Qed.

(** A believable run obeys the protocol and ends well. *)
Lemma always_runs {A} (p : prog E A) g Q tr a : always p g Q → runs p tr a → Forall believable tr →
  obeys g tr ∧ Q a (fold_left see tr g).
Proof.
  intros Hp Hr. revert g Hp. induction Hr as [a|B c k b tr a Hr IH]; simpl; intros g Hp Hall; [done|].
  inversion Hall as [|? ? Hb Hall']; subst. destruct Hp as [Hc Hk]. destruct (IH _ (Hk b Hb) Hall'). done.
Qed.

Lemma always_mono {A} (p : prog E A) g (Q Q' : A → ghost P → Prop) :
  always p g Q → (∀ a g', Q a g' → Q' a g') → always p g Q'.
Proof.
  intros Hp HQ. revert g Hp. induction p as [a|B c k IH]; simpl; intros g Hp; [by apply HQ|].
  destruct Hp as [Hc Hk]. split; [done|]. intros b Hb. by apply IH, Hk.
Qed.

Lemma always_bind {A B} (p : prog E A) (k : A → prog E B) g Q :
  always p g (λ a g', always (k a) g' Q) → always (prog_bind p k) g Q.
Proof.
  revert g. induction p as [a|C c k' IH]; simpl; intros g Hp; [done|].
  destruct Hp as [Hc Hk]. split; [done|]. intros b Hb. by apply IH, Hk.
Qed.

(** ** Triples *)

Section triples.
Context {S : Type}.

Definition triple {A} (Pre : S → ghost P → Prop) (m : program E S A) (Post : A → S → ghost P → Prop) : Prop :=
  ∀ f g, Pre f g → always (m f) g (λ af g', Post af.1 af.2 g').

Lemma triple_ret {A} (a : A) Post : triple (Post a) (ret a) Post.
Proof. by intros f g Hp. Qed.

Lemma triple_bind {A B} (m : program E S A) (k : A → program E S B) Pre Mid Post :
  triple Pre m Mid → (∀ a, triple (Mid a) (k a) Post) → triple Pre (step_bind m k) Post.
Proof.
  intros Hm Hk f g Hp. apply always_bind. eapply always_mono; [by apply Hm|]. intros [a f'] g' Hmid. by apply Hk.
Qed.

Lemma triple_ask {B} (c : E B) (Pre : S → ghost P → Prop) Post :
  (∀ f g, Pre f g → allowed P g _ c) → (∀ f g b, Pre f g → plausible P _ c b → Post b f (observe P g _ c b)) →
  triple Pre (ask c) Post.
Proof. intros Ha Hp f g Hpre. simpl. split; [by eapply Ha|]. intros b Hb. by apply Hp. Qed.

Lemma triple_modify (h : S → S) (Pre : S → ghost P → Prop) Post :
  (∀ f g, Pre f g → Post tt (h f) g) → triple Pre (modify h) Post.
Proof. intros Hp f g Hpre. by apply Hp. Qed.

Lemma triple_get (Pre : S → ghost P → Prop) Post : (∀ f g, Pre f g → Post f f g) → triple Pre get Post.
Proof. intros Hp f g Hpre. by apply Hp. Qed.

Lemma triple_pre {A} (m : program E S A) (Pre Pre' : S → ghost P → Prop) Post :
  triple Pre' m Post → (∀ f g, Pre f g → Pre' f g) → triple Pre m Post.
Proof. intros Hm Hp f g Hpre. by apply Hm, Hp. Qed.

Lemma triple_post {A} (m : program E S A) Pre (Post Post' : A → S → ghost P → Prop) :
  triple Pre m Post → (∀ a f g, Post a f g → Post' a f g) → triple Pre m Post'.
Proof. intros Hm Hp f g Hpre. eapply always_mono; [by apply Hm|]. intros [a f'] g' Hq. by apply Hp. Qed.

Lemma triple_for_each {A} (m : A → program E S unit) (l : list A) (Inv : S → ghost P → Prop) :
  (∀ x, x ∈ l → triple Inv (m x) (λ _, Inv)) → triple Inv (for_each m l) (λ _, Inv).
Proof.
  induction l as [|x l IH]; intros Hm; simpl; [apply (triple_ret tt (λ _, Inv))|].
  eapply triple_bind; [apply Hm; left|]. intros []. apply IH. intros y Hy. apply Hm. by right.
Qed.

(** What a precondition says of values alone is a hypothesis. *)
Lemma triple_pure {A} (F : Prop) (m : program E S A) (Pre : S → ghost P → Prop) Post :
  (∀ f g, Pre f g → F) → (F → triple Pre m Post) → triple Pre m Post.
Proof. intros HF Hm f g Hpre. apply Hm; [by eapply HF|done]. Qed.
Lemma triple_conseq {A} (m : program E S A) (Pre Pre' : S → ghost P → Prop) (Post Post' : A → S → ghost P → Prop) :
  triple Pre' m Post' → (∀ f g, Pre f g → Pre' f g) → (∀ a f g, Post' a f g → Post a f g) → triple Pre m Post.
Proof. intros Hm Hpre Hpost. eapply triple_post; [by eapply triple_pre|done]. Qed.
End triples.
End runs.

Arguments protocol : clear implicits.
Arguments event : clear implicits.

(** ** Embedding a program of a smaller signature *)

Section embedding.
Context {E F : Type → Type} (inj : ∀ B, E B → F B) (P : protocol E) (P' : protocol F) (R : ghost P → ghost P' → Prop).
Hypothesis allowed_inj : ∀ g g' B (c : E B), R g g' → allowed P g _ c → allowed P' g' _ (inj _ c).
Hypothesis answer_inj : ∀ g g' B (c : E B) b, R g g' → allowed P g _ c → plausible P' _ (inj _ c) b →
  plausible P _ c b ∧ R (observe P g _ c b) (observe P' g' _ (inj _ c) b).

(** What holds of a program holds of its embedding, when the larger protocol allows what the smaller one does. *)
Lemma always_embed {A} (p : prog E A) g g' (Q : A → ghost P → Prop) : always P p g Q → R g g' →
  always P' (embed inj p) g' (λ a g'', ∃ g1, R g1 g'' ∧ Q a g1).
Proof.
  revert g g'. induction p as [a|B c k IH]; simpl; intros g g' Hp HR; [by exists g|]. destruct Hp as [Hc Hk].
  split; [by eapply allowed_inj|]. intros b Hb. destruct (answer_inj _ _ _ _ _ HR Hc Hb) as [Hb' HR']. eapply IH; [by apply Hk|done].
Qed.

Lemma triple_call_out {S A} (p : prog E A) (Pre : S → ghost P' → Prop) (Post : A → S → ghost P' → Prop) (Q : A → ghost P → Prop) g0 :
  always P p g0 Q → (∀ s g', Pre s g' → R g0 g') → (∀ s g' a g1 g'', Pre s g' → R g1 g'' → Q a g1 → Post a s g'') →
  triple P' Pre (call_out inj p) Post.
Proof.
  intros Hp Hpre Hpost s g' Hs. unfold call_out. apply always_bind. eapply always_mono; [by eapply always_embed, Hpre|].
  intros a g'' (g1 & HR & HQ). simpl. by eapply Hpost.
Qed.
End embedding.
