(* ===== verification/Text.v ===== *)
(** * Text: the string operations of the Rust standard library the program uses

    Strings are byte strings; the program's identifiers (symbols, venues, account ids, tags) are ASCII, and on
    ASCII text [to_uppercase], [to_lowercase] and [trim] are exactly the functions below (bytes outside ASCII
    are left alone). Numbers are printed in decimal as [Display] does. *)

From Stdlib Require Import ZArith Lia String Ascii.
From S2P Require Import Prelude.

Local Open Scope Z_scope.

(** ** Characters *)

Definition code (c : ascii) : Z := Z.of_N (N_of_ascii c).
Definition chr (z : Z) : ascii := ascii_of_N (Z.to_N z).

Definition is_ascii_digit (c : ascii) : bool := (48 <=? code c) && (code c <=? 57).
Definition is_ascii_uppercase (c : ascii) : bool := (65 <=? code c) && (code c <=? 90).
Definition is_ascii_lowercase (c : ascii) : bool := (97 <=? code c) && (code c <=? 122).
Definition is_ascii_alphanumeric (c : ascii) : bool :=
  is_ascii_digit c || is_ascii_uppercase c || is_ascii_lowercase c.
Definition is_ascii_graphic_or_space (c : ascii) : bool := (32 <=? code c) && (code c <=? 126).
Definition is_whitespace (c : ascii) : bool := ((9 <=? code c) && (code c <=? 13)) || (code c =? 32).
Definition upper_char (c : ascii) : ascii := if is_ascii_lowercase c then chr (code c - 32) else c.
Definition lower_char (c : ascii) : ascii := if is_ascii_uppercase c then chr (code c + 32) else c.

(** ** Strings *)

Fixpoint smap (f : ascii → ascii) (s : string) : string :=
  match s with
  | EmptyString => EmptyString
  | String c s' => String (f c) (smap f s')
  end.

Fixpoint sall (p : ascii → bool) (s : string) : bool :=
  match s with
  | EmptyString => true
  | String c s' => p c && sall p s'
  end.

Fixpoint sfilter (p : ascii → bool) (s : string) : string :=
  match s with
  | EmptyString => EmptyString
  | String c s' => if p c then String c (sfilter p s') else sfilter p s'
  end.

Fixpoint stake (n : nat) (s : string) : string :=
  match n, s with
  | S n', String c s' => String c (stake n' s')
  | _, _ => EmptyString
  end.

Fixpoint sdrop (n : nat) (s : string) : string :=
  match n, s with
  | S n', String _ s' => sdrop n' s'
  | _, _ => s
  end.

Definition slen (s : string) : Z := Z.of_nat (String.length s).
Definition is_empty (s : string) : bool := match s with EmptyString => true | _ => false end.

Definition to_uppercase : string → string := smap upper_char.
Definition to_lowercase : string → string := smap lower_char.
Definition eq_ignore_ascii_case (a b : string) : bool := String.eqb (to_lowercase a) (to_lowercase b).

Fixpoint trim_start (s : string) : string :=
  match s with
  | String c s' => if is_whitespace c then trim_start s' else s
  | EmptyString => EmptyString
  end.

Fixpoint trim_end (s : string) : string :=
  match s with
  | EmptyString => EmptyString
  | String c s' =>
      match trim_end s' with
      | EmptyString => if is_whitespace c then EmptyString else String c EmptyString
      | t => String c t
      end
  end.

Definition trim (s : string) : string := trim_end (trim_start s).

Fixpoint starts_with (s prefix : string) : bool :=
  match prefix, s with
  | EmptyString, _ => true
  | String p prefix', String c s' => Ascii.eqb p c && starts_with s' prefix'
  | String _ _, EmptyString => false
  end.

(** [s.split_once(p)]: the text before and after the first character that satisfies [p]. *)
Fixpoint split_once (p : ascii → bool) (s : string) : option (string * string) :=
  match s with
  | EmptyString => None
  | String c s' =>
      if p c then Some (EmptyString, s')
      else match split_once p s' with
           | Some (a, b) => Some (String c a, b)
           | None => None
           end
  end.

Definition contains_char (p : ascii → bool) (s : string) : bool :=
  match split_once p s with Some _ => true | None => false end.

(** [needle] occurs somewhere in [s] *)
Fixpoint contains_str (s needle : string) : bool :=
  starts_with s needle ||
  match s with
  | EmptyString => false
  | String _ s' => contains_str s' needle
  end.

Fixpoint join (sep : string) (l : list string) : string :=
  match l with
  | [] => EmptyString
  | [x] => x
  | x :: l' => x +:+ sep +:+ join sep l'
  end.

Definition concat_all (l : list string) : string := join EmptyString l.

Lemma starts_with_app p s : starts_with (p +:+ s) p = true.
Proof.
  induction p as [|c p IH]; simpl; [by destruct s|]. apply andb_true_intro. split; [apply Ascii.eqb_refl|done].
Qed.

(** ** Decimal digits *)

Definition digit_char (d : Z) : ascii := chr (48 + d).

(** [c.to_digit(10)] *)
Definition to_digit (c : ascii) : option Z := if is_ascii_digit c then Some (code c - 48) else None.

Fixpoint show_digits (fuel : nat) (n : Z) (acc : string) : string :=
  match fuel with
  | O => acc
  | S f =>
      let acc' := String (digit_char (n mod 10)) acc in
      if n <? 10 then acc' else show_digits f (n / 10) acc'
  end.

(** A nonnegative integer in decimal. The fuel is the number of binary digits, never fewer than the decimal
    ones. *)
Definition show_nonneg (n : Z) : string := show_digits (S (Z.to_nat (Z.log2 n))) n EmptyString.

Definition show_int (z : Z) : string :=
  if z <? 0 then "-" +:+ show_nonneg (- z) else show_nonneg z.

Fixpoint zeros (n : nat) : string :=
  match n with
  | O => EmptyString
  | S n' => String "0" (zeros n')
  end.

(** [{n:0width$}] *)
Definition show_padded (n : Z) (width : Z) : string :=
  let t := show_nonneg n in zeros (Z.to_nat (width - slen t)) +:+ t.

Definition show_bool (b : bool) : string := if b then "true" else "false".

(** [{s:?}]: the text between double quotes, with the escapes of [str]'s [Debug]. *)
Definition dquote : string := String (chr 34) EmptyString.
Definition newline : string := String (chr 10) EmptyString.
Definition hex_digit (d : Z) : ascii := if d <? 10 then chr (48 + d) else chr (87 + d).
Definition hex_small (n : Z) : string :=
  if n <? 16 then String (hex_digit n) EmptyString
  else String (hex_digit (n / 16)) (String (hex_digit (n mod 16)) EmptyString).
Definition escape_char (c : ascii) : string :=
  let z := code c in
  if z =? 34 then String (chr 92) dquote
  else if z =? 92 then String c (String c EmptyString)
  else if z =? 9 then "\t"
  else if z =? 10 then "\n"
  else if z =? 13 then "\r"
  else if z =? 0 then "\0"
  else if (z <? 32) || (z =? 127) then "\u{" +:+ hex_small z +:+ "}"
  else String c EmptyString.
Fixpoint escape (s : string) : string :=
  match s with
  | EmptyString => EmptyString
  | String c s' => escape_char c +:+ escape s'
  end.
Definition debug_str (s : string) : string := dquote +:+ escape s +:+ dquote.

(** The value of a text of ASCII digits, most significant first. *)
Fixpoint digits_value (acc : Z) (s : string) : Z :=
  match s with
  | EmptyString => acc
  | String c s' => digits_value (acc * 10 + (code c - 48)) s'
  end.

(** ** Facts about the digits of a number *)

Lemma code_range c : 0 ≤ code c < 256.
Proof.
  unfold code. pose proof (N_ascii_bounded c). lia.
Qed.

Lemma code_chr z : 0 ≤ z < 256 → code (chr z) = z.
Proof. intros H. unfold code, chr. rewrite N_ascii_embedding by lia. lia. Qed.

Lemma chr_code c : chr (code c) = c.
Proof. unfold code, chr. rewrite N2Z.id. apply ascii_N_embedding. Qed.

Lemma code_inj a b : code a = code b → a = b.
Proof. intros H. by rewrite <-(chr_code a), <-(chr_code b), H. Qed.

Lemma digit_char_code d : 0 ≤ d ≤ 9 → code (digit_char d) = 48 + d.
Proof. intros H. unfold digit_char. apply code_chr. lia. Qed.

Lemma digit_char_digit d : 0 ≤ d ≤ 9 → is_ascii_digit (digit_char d) = true.
Proof. intros H. unfold is_ascii_digit. rewrite digit_char_code by done. lia. Qed.

Lemma is_ascii_digit_code c : is_ascii_digit c = true ↔ 48 ≤ code c ≤ 57.
Proof. unfold is_ascii_digit. lia. Qed.

Lemma to_digit_digit c : is_ascii_digit c = true → to_digit c = Some (code c - 48).
Proof. intros H. unfold to_digit. by rewrite H. Qed.

Lemma slen_nonneg s : 0 ≤ slen s.
Proof. unfold slen. lia. Qed.

Lemma slen_cons c s : slen (String c s) = slen s + 1.
Proof. unfold slen. simpl. lia. Qed.

Lemma slen_app a b : slen (a +:+ b) = slen a + slen b.
Proof. induction a as [|c a IH]; [done|]. change (String c a +:+ b) with (String c (a +:+ b)). rewrite !slen_cons, IH. lia. Qed.

Lemma sall_app p a b : sall p (a +:+ b) = sall p a && sall p b.
Proof.
  induction a as [|c a IH]; [done|].
  change (String c a +:+ b) with (String c (a +:+ b)). simpl. by rewrite IH, andb_assoc.
Qed.

Lemma sall_impl (p q : ascii → bool) s :
  (∀ c, p c = true → q c = true) → sall p s = true → sall q s = true.
Proof.
  intros H. induction s as [|c s IH]; simpl; [done|].
  rewrite !andb_true_iff. intros [? ?]. auto.
Qed.

Lemma digits_value_acc s a : digits_value a s = a * 10 ^ slen s + digits_value 0 s.
Proof.
  revert a. induction s as [|c s IH]; intros a; cbn [digits_value].
  - change (slen EmptyString) with 0. lia.
  - rewrite IH, (IH (0 * 10 + _)), slen_cons.
    rewrite Z.pow_add_r by (pose proof (slen_nonneg s); lia). lia.
Qed.

Lemma digits_value_app a b x : digits_value x (a +:+ b) = digits_value (digits_value x a) b.
Proof.
  revert x. induction a as [|c a IH]; intros x; [done|].
  change (String c a +:+ b) with (String c (a +:+ b)). simpl. apply IH.
Qed.

Lemma digits_value_nonneg s a : sall is_ascii_digit s = true → 0 ≤ a → 0 ≤ digits_value a s.
Proof.
  revert a. induction s as [|c s IH]; intros a; simpl; [done|].
  rewrite andb_true_iff, is_ascii_digit_code. intros [? ?] ?. apply IH; [done|]. lia.
Qed.

Lemma show_digits_value f n acc :
  0 ≤ n < 10 ^ Z.of_nat f → (0 < f)%nat →
  digits_value 0 (show_digits f n acc) = n * 10 ^ slen acc + digits_value 0 acc.
Proof.
  revert n acc. induction f as [|f IH]; intros n acc Hn Hf; [lia|]. cbn [show_digits].
  pose proof (Z.mod_pos_bound n 10). pose proof (Z.div_mod n 10).
  destruct (n <? 10) eqn:E.
  - cbn [digits_value]. rewrite digits_value_acc, digit_char_code by lia.
    rewrite Z.mod_small by lia. lia.
  - assert (1 ≤ n / 10 < 10 ^ Z.of_nat f) as Hq.
    { split; [apply Z.div_le_lower_bound; lia|]. apply Z.div_lt_upper_bound; [lia|].
      rewrite <-Z.pow_succ_r by lia. replace (Z.succ (Z.of_nat f)) with (Z.of_nat (S f)) by lia. lia. }
    destruct f as [|f]; [simpl in Hq; lia|].
    rewrite IH by lia. cbn [digits_value]. rewrite digits_value_acc, digit_char_code by lia.
    rewrite slen_cons, Z.pow_add_r by (pose proof (slen_nonneg acc); lia). lia.
Qed.

Lemma show_digits_digits f n acc :
  0 ≤ n → sall is_ascii_digit acc = true → sall is_ascii_digit (show_digits f n acc) = true.
Proof.
  revert n acc. induction f as [|f IH]; intros n acc Hn Ha; [done|]. cbn [show_digits].
  assert (sall is_ascii_digit (String (digit_char (n mod 10)) acc) = true).
  { simpl. pose proof (Z.mod_pos_bound n 10). rewrite digit_char_digit by lia. done. }
  destruct (n <? 10); [done|]. apply IH; [apply Z.div_pos; lia|done].
Qed.

Lemma show_digits_len f n acc k :
  (0 < f)%nat → 0 ≤ n < 10 ^ Z.of_nat k → (0 < k)%nat → 
  slen acc < slen (show_digits f n acc) ≤ slen acc + Z.of_nat k.
Proof.
  revert n acc k. induction f as [|f IH]; intros n acc k Hf Hn Hk; [lia|]. cbn [show_digits].
  destruct (n <? 10) eqn:E; [rewrite slen_cons; lia|].
  destruct k as [|[|k]]; [lia|simpl in Hn; lia|].
  destruct f as [|f]; [simpl; rewrite slen_cons; lia|].
  specialize (IH (n / 10) (String (digit_char (n mod 10)) acc) (S k)).
  rewrite slen_cons in IH. 
  assert (0 ≤ n / 10 < 10 ^ Z.of_nat (S k)).
  { split; [apply Z.div_pos; lia|]. apply Z.div_lt_upper_bound; [lia|].
    rewrite <-Z.pow_succ_r by lia. replace (Z.succ (Z.of_nat (S k))) with (Z.of_nat (S (S k))) by lia. lia. }
  lia.
Qed.

Lemma show_fuel n : 0 ≤ n → n < 10 ^ Z.of_nat (S (Z.to_nat (Z.log2 n))).
Proof.
  intros Hn. pose proof (Z.log2_nonneg n).
  destruct (Z.eq_dec n 0) as [->|]; [vm_compute; done|].
  pose proof (Z.log2_spec n ltac:(lia)) as [_ Hl].
  replace (Z.of_nat (S (Z.to_nat (Z.log2 n)))) with (Z.succ (Z.log2 n)) by lia.
  eapply Z.lt_le_trans; [exact Hl|]. apply Z.pow_le_mono_l. lia.
Qed.

Lemma show_nonneg_value n : 0 ≤ n → digits_value 0 (show_nonneg n) = n.
Proof.
  intros Hn. unfold show_nonneg. rewrite show_digits_value; [|split; [lia|by apply show_fuel]|lia].
  change (slen EmptyString) with 0. cbn [digits_value]. lia.
Qed.

Lemma show_nonneg_digits n : 0 ≤ n → sall is_ascii_digit (show_nonneg n) = true.
Proof. intros. by apply show_digits_digits. Qed.

Lemma show_nonneg_len n k : 0 ≤ n < 10 ^ Z.of_nat k → (0 < k)%nat → 1 ≤ slen (show_nonneg n) ≤ Z.of_nat k.
Proof.
  intros Hn Hk. unfold show_nonneg.
  pose proof (show_digits_len (S (Z.to_nat (Z.log2 n))) n EmptyString k ltac:(lia) Hn Hk) as H.
  change (slen EmptyString) with 0 in H. lia.
Qed.

Lemma zeros_len n : slen (zeros n) = Z.of_nat n.
Proof. induction n; [done|]. cbn [zeros]. rewrite slen_cons. lia. Qed.

Lemma zeros_digits n : sall is_ascii_digit (zeros n) = true.
Proof. induction n; [done|]. simpl. done. Qed.

Lemma zeros_value n : digits_value 0 (zeros n) = 0.
Proof. induction n; [done|]. simpl. done. Qed.

Lemma show_padded_value n w : 0 ≤ n → digits_value 0 (show_padded n w) = n.
Proof.
  intros. unfold show_padded. rewrite digits_value_app, zeros_value. by apply show_nonneg_value.
Qed.

Lemma show_padded_digits n w : 0 ≤ n → sall is_ascii_digit (show_padded n w) = true.
Proof. intros. unfold show_padded. by rewrite sall_app, zeros_digits, show_nonneg_digits. Qed.

Lemma show_padded_len n w : 0 < w → 0 ≤ n < 10 ^ w → slen (show_padded n w) = w.
Proof.
  intros Hw Hn. unfold show_padded. rewrite slen_app, zeros_len.
  pose proof (show_nonneg_len n (Z.to_nat w)) as H.
  rewrite Z2Nat.id in H by lia. specialize (H Hn ltac:(lia)). lia.
Qed.

(** ** Trimming and splitting *)

Definition no_space (s : string) : bool := sall (fun c => negb (is_whitespace c)) s.

Lemma trim_start_no_space s : no_space s = true → trim_start s = s.
Proof. destruct s as [|c s]; [done|]. unfold no_space. simpl. destruct (is_whitespace c); [done|]. done. Qed.

Lemma trim_end_no_space s : no_space s = true → trim_end s = s.
Proof.
  induction s as [|c s IH]; [done|]. unfold no_space in *. simpl.
  rewrite andb_true_iff, negb_true_iff. intros [Hc Hs]. rewrite IH by done.
  destruct s; [by rewrite Hc|done].
Qed.

Lemma trim_no_space s : no_space s = true → trim s = s.
Proof. intros H. unfold trim. by rewrite trim_start_no_space, trim_end_no_space. Qed.

Lemma split_once_none p s : sall (fun c => negb (p c)) s = true → split_once p s = None.
Proof.
  induction s as [|c s IH]; [done|]. simpl. rewrite andb_true_iff, negb_true_iff.
  intros [-> H]. by rewrite IH.
Qed.

Lemma split_once_app p a c b :
  sall (fun c => negb (p c)) a = true → p c = true → split_once p (a +:+ String c b) = Some (a, b).
Proof.
  induction a as [|d a IH]; intros Ha Hc; simpl in *; [by rewrite Hc|].
  rewrite andb_true_iff, negb_true_iff in Ha. destruct Ha as [Hd Ha].
  change (String d a +:+ String c b) with (String d (a +:+ String c b)). simpl.
  by rewrite Hd, IH.
Qed.

Lemma eq_ignore_ascii_case_refl s : eq_ignore_ascii_case s s = true.
Proof. unfold eq_ignore_ascii_case. apply String.eqb_refl. Qed.

Lemma eq_ignore_ascii_case_sym a b : eq_ignore_ascii_case a b = eq_ignore_ascii_case b a.
Proof. unfold eq_ignore_ascii_case. apply String.eqb_sym. Qed.

Lemma eq_ignore_ascii_case_iff a b : eq_ignore_ascii_case a b = true ↔ to_lowercase a = to_lowercase b.
Proof. unfold eq_ignore_ascii_case. apply String.eqb_eq. Qed.

Lemma lower_upper_char c : lower_char (upper_char c) = lower_char c.
Proof.
  destruct c as [[] [] [] [] [] [] [] []]; vm_compute; done.
Qed.

Lemma upper_char_lower c d : lower_char c = lower_char d → upper_char c = upper_char d.
Proof.
  intros H. assert (∀ c, upper_char (lower_char c) = upper_char c) as Hu.
  { intros [[] [] [] [] [] [] [] []]; vm_compute; done. }
  by rewrite <-(Hu c), <-(Hu d), H.
Qed.

Lemma to_lowercase_uppercase s : to_lowercase (to_uppercase s) = to_lowercase s.
Proof.
  unfold to_lowercase, to_uppercase. induction s as [|c s IH]; [done|]. cbn [smap].
  by rewrite lower_upper_char, IH.
Qed.

Lemma to_uppercase_lower_eq a b : to_lowercase a = to_lowercase b → to_uppercase a = to_uppercase b.
Proof.
  unfold to_lowercase, to_uppercase. revert b.
  induction a as [|c a IH]; intros [|d b]; cbn [smap]; try discriminate; [done|].
  intros [= Hc Ha]. f_equal; [by apply upper_char_lower|by apply IH].
Qed.
