(* ===== verification/BTree.v ===== *)
(** * BTree: [BTreeMap] and [BTreeSet] as strictly sorted association lists

    The program iterates its maps in key order (a plan, a digest and a record list depend on it), so the ordered
    representation is the model. A key type comes with a [KeyOrd] instance: a decidable strict total order. *)

From Stdlib Require Import ZArith Lia String Ascii Sorting.Sorted.
From S2P Require Import Prelude.

Class KeyOrd (K : Type) := {
  kcmp : K → K → comparison;
  kcmp_eq a b : kcmp a b = Eq ↔ a = b;
  kcmp_opp a b : kcmp b a = CompOpp (kcmp a b);
  kcmp_trans a b c : kcmp a b = Lt → kcmp b c = Lt → kcmp a c = Lt;
}.

Section key_facts.
Context `{KeyOrd K}.

Lemma kcmp_refl (a : K) : kcmp a a = Eq.
Proof. by apply kcmp_eq. Qed.

Lemma kcmp_ne (a b : K) : kcmp a b = Lt → a ≠ b.
Proof. intros Hl ->. by rewrite kcmp_refl in Hl. Qed.

Lemma kcmp_gt (a b : K) : kcmp a b = Gt ↔ kcmp b a = Lt.
Proof. rewrite (kcmp_opp a b). destruct (kcmp a b); naive_solver. Qed.
End key_facts.

(** ** Instances *)

Lemma ascii_compare_trans a b c :
  Ascii.compare a b = Lt → Ascii.compare b c = Lt → Ascii.compare a c = Lt.
Proof. unfold Ascii.compare. rewrite !N.compare_lt_iff. lia. Qed.

Lemma string_compare_trans a b c :
  String.compare a b = Lt → String.compare b c = Lt → String.compare a c = Lt.
Proof.
  revert b c. induction a as [|x a IH]; intros [|y b] [|z c]; simpl; try done.
  destruct (Ascii.compare x y) eqn:Hxy; try done.
  - apply Ascii.compare_eq_iff in Hxy as ->. destruct (Ascii.compare y z) eqn:Hyz; try done. apply IH.
  - intros _. destruct (Ascii.compare y z) eqn:Hyz; try done.
    + apply Ascii.compare_eq_iff in Hyz as ->. by rewrite Hxy.
    + by rewrite (ascii_compare_trans _ _ _ Hxy Hyz).
Qed.

Lemma string_compare_refl a : String.compare a a = Eq.
Proof. induction a as [|c a IH]; simpl; [done|]. unfold Ascii.compare. by rewrite N.compare_refl. Qed.

Lemma string_compare_eq a b : String.compare a b = Eq ↔ a = b.
Proof. split; [apply String.compare_eq_iff|intros ->; apply string_compare_refl]. Qed.

(** Byte-wise lexicographic order, as [str]'s [Ord]. *)
#[export] Instance string_key : KeyOrd string := {|
  kcmp := String.compare;
  kcmp_eq := string_compare_eq;
  kcmp_opp a b := String.compare_antisym b a;
  kcmp_trans := string_compare_trans;
|}.

Definition pair_cmp `{KeyOrd A, KeyOrd B} (x y : A * B) : comparison :=
  match kcmp x.1 y.1 with
  | Eq => kcmp x.2 y.2
  | c => c
  end.

#[export] Program Instance pair_key `{KeyOrd A, KeyOrd B} : KeyOrd (A * B) := {| kcmp := pair_cmp |}.
Next Obligation.
  intros A ? B ? [a1 b1] [a2 b2]. unfold pair_cmp. simpl.
  destruct (kcmp a1 a2) eqn:E.
  - apply kcmp_eq in E as ->. rewrite kcmp_eq. naive_solver.
  - apply kcmp_ne in E. naive_solver.
  - apply kcmp_gt, kcmp_ne in E. naive_solver.
Qed.
Next Obligation.
  intros A ? B ? [a1 b1] [a2 b2]. unfold pair_cmp. simpl.
  rewrite (kcmp_opp a1 a2). destruct (kcmp a1 a2); simpl; [apply kcmp_opp|done|done].
Qed.
Next Obligation.
  intros A ? B ? [a1 b1] [a2 b2] [a3 b3]. unfold pair_cmp. simpl.
  destruct (kcmp a1 a2) eqn:E12; try done.
  - apply kcmp_eq in E12 as ->. destruct (kcmp a2 a3) eqn:E23; try done. apply kcmp_trans.
  - intros _. destruct (kcmp a2 a3) eqn:E23; try done.
    + apply kcmp_eq in E23 as ->. by rewrite E12.
    + by rewrite (kcmp_trans _ _ _ E12 E23).
Qed.

(** ** Maps *)

Definition BTreeMap (K V : Type) : Type := list (K * V).

Section maps.
  Context {K V : Type} `{KeyOrd K}.
  Implicit Types (m : BTreeMap K V) (k : K) (v : V).

Fixpoint bt_get m k : option V :=
  match m with
  | [] => None
  | (k', v') :: m' => match kcmp k k' with Eq => Some v' | _ => bt_get m' k end
  end.

Fixpoint bt_insert k v m : BTreeMap K V :=
  match m with
  | [] => [(k, v)]
  | (k', v') :: m' =>
      match kcmp k k' with
      | Lt => (k, v) :: m
      | Eq => (k, v) :: m'
      | Gt => (k', v') :: bt_insert k v m'
      end
  end.

Fixpoint bt_remove k m : BTreeMap K V :=
  match m with
  | [] => []
  | (k', v') :: m' => match kcmp k k' with Eq => bt_remove k m' | _ => (k', v') :: bt_remove k m' end
  end.

Definition bt_of_list (l : list (K * V)) : BTreeMap K V :=
  fold_left (fun m kv => bt_insert kv.1 kv.2 m) l [].

Definition bt_contains m k : bool := match bt_get m k with Some _ => true | None => false end.
Definition bt_keys m : list K := m.*1.
Definition bt_values m : list V := m.*2.

Definition bt_lt (x y : K * V) : Prop := kcmp x.1 y.1 = Lt.
Definition bt_sorted m : Prop := StronglySorted bt_lt m.

Lemma bt_get_insert k v m k' :
  bt_get (bt_insert k v m) k' = match kcmp k' k with Eq => Some v | _ => bt_get m k' end.
Proof.
  induction m as [|[k1 v1] m IH]; cbn [bt_insert bt_get]; [done|].
  destruct (kcmp k k1) eqn:E; cbn [bt_get].
  - apply kcmp_eq in E as ->. by destruct (kcmp k' k1).
  - done.
  - rewrite IH. destruct (kcmp k' k1) eqn:E1, (kcmp k' k) eqn:E2; try done.
    apply kcmp_eq in E1 as ->. apply kcmp_eq in E2 as ->. by rewrite kcmp_refl in E.
Qed.

Lemma bt_get_insert_eq k v m : bt_get (bt_insert k v m) k = Some v.
Proof. by rewrite bt_get_insert, kcmp_refl. Qed.

Lemma bt_get_insert_ne k v m k' : k' ≠ k → bt_get (bt_insert k v m) k' = bt_get m k'.
Proof.
  intros Hne. rewrite bt_get_insert. destruct (kcmp k' k) eqn:E; try done.
  by apply kcmp_eq in E.
Qed.

Lemma bt_get_remove k m k' : bt_get (bt_remove k m) k' = match kcmp k' k with Eq => None | _ => bt_get m k' end.
Proof.
  induction m as [|[k1 v1] m IH]; cbn [bt_remove bt_get]; [by destruct (kcmp k' k)|].
  destruct (kcmp k k1) eqn:E; cbn [bt_get]; rewrite IH.
  - apply kcmp_eq in E as ->. by destruct (kcmp k' k1).
  - destruct (kcmp k' k1) eqn:E1; try done. apply kcmp_eq in E1 as ->. by rewrite (kcmp_opp k k1), E.
  - destruct (kcmp k' k1) eqn:E1; try done. apply kcmp_eq in E1 as ->. by rewrite (kcmp_opp k k1), E.
Qed.

Lemma bt_get_elem m k v : bt_get m k = Some v → (k, v) ∈ m.
Proof.
  induction m as [|[k1 v1] m IH]; cbn [bt_get]; [done|].
  destruct (kcmp k k1) eqn:E; [|intros ?; right; by apply IH|intros ?; right; by apply IH].
  apply kcmp_eq in E as ->. intros [= ->]. left.
Qed.

Lemma bt_insert_elem k v m x : x ∈ bt_insert k v m → x = (k, v) ∨ x ∈ m.
Proof.
  induction m as [|[k1 v1] m IH]; cbn [bt_insert]; [set_solver|].
  destruct (kcmp k k1); set_solver.
Qed.

Lemma bt_insert_sorted k v m : bt_sorted m → bt_sorted (bt_insert k v m).
Proof.
  unfold bt_sorted. induction m as [|[k1 v1] m IH]; intros Hs; cbn [bt_insert].
  - repeat constructor.
  - inversion Hs as [|? ? Hs' Hall]; subst. destruct (kcmp k k1) eqn:E.
    + apply kcmp_eq in E as ->. by constructor.
    + constructor; [done|]. constructor; [done|].
      eapply List.Forall_impl; [|exact Hall]. intros [k2 v2]. unfold bt_lt. simpl.
      by apply kcmp_trans.
    + constructor; [by apply IH|]. apply Forall_forall. intros x Hx.
      apply bt_insert_elem in Hx as [->|Hx].
      * unfold bt_lt. simpl. by apply kcmp_gt.
      * rewrite Forall_forall in Hall. by apply Hall.
Qed.

Lemma bt_of_list_sorted l : bt_sorted (bt_of_list l).
Proof.
  unfold bt_of_list. assert (bt_sorted ([] : BTreeMap K V)) as Hm by constructor.
  revert Hm. generalize ([] : BTreeMap K V). induction l as [|x l IH]; intros m Hm; [done|].
  simpl. apply IH. by apply bt_insert_sorted.
Qed.

Lemma bt_sorted_get m k v : bt_sorted m → (k, v) ∈ m → bt_get m k = Some v.
Proof.
  induction m as [|[k1 v1] m IH]; intros Hs Hin; [by apply not_elem_of_nil in Hin|].
  inversion Hs as [|? ? Hs' Hall]; subst. cbn [bt_get]. apply elem_of_cons in Hin as [[= -> ->]|Hin].
  - by rewrite kcmp_refl.
  - rewrite Forall_forall in Hall. specialize (Hall _ Hin). unfold bt_lt in Hall. simpl in Hall.
    rewrite (kcmp_opp k1 k), Hall. simpl. by apply IH.
Qed.

Lemma bt_sorted_nodup m : bt_sorted m → NoDup (bt_keys m).
Proof.
  unfold bt_keys. induction m as [|[k1 v1] m IH]; intros Hs; simpl; [constructor|].
  inversion Hs as [|? ? Hs' Hall]; subst. constructor; [|by apply IH].
  rewrite list_elem_of_fmap. intros ([k2 v2] & -> & Hin).
  rewrite Forall_forall in Hall. specialize (Hall _ Hin). unfold bt_lt in Hall. simpl in Hall.
  by rewrite kcmp_refl in Hall.
Qed.

Lemma bt_get_sorted_lt m k k' v :
  Forall (bt_lt (k, v)) m → kcmp k' k ≠ Gt → bt_get m k' = None.
Proof.
  induction m as [|[k1 v1] m IH]; intros Hall Hle; [done|].
  inversion Hall as [|? ? H1 H2]; subst. unfold bt_lt in H1. simpl in H1. cbn [bt_get].
  assert (kcmp k' k1 = Lt) as ->; [|by apply IH].
  destruct (kcmp k' k) eqn:E; try done.
  - by apply kcmp_eq in E as ->.
  - by eapply kcmp_trans.
Qed.

(** Sorted maps are determined by their lookups. *)
Lemma bt_ext m1 m2 :
  bt_sorted m1 → bt_sorted m2 → (∀ k, bt_get m1 k = bt_get m2 k) → m1 = m2.
Proof.
  revert m2. induction m1 as [|[k1 v1] m1 IH]; intros [|[k2 v2] m2] Hs1 Hs2 Hext; [done| | |].
  - specialize (Hext k2). cbn [bt_get] in Hext. by rewrite kcmp_refl in Hext.
  - specialize (Hext k1). cbn [bt_get] in Hext. by rewrite kcmp_refl in Hext.
  - inversion Hs1 as [|? ? Hs1' Ha1]; inversion Hs2 as [|? ? Hs2' Ha2]; subst.
    assert (kcmp k1 k2 = Eq) as Heq.
    { destruct (kcmp k1 k2) eqn:E; [done| |].
      - pose proof (Hext k1) as Hk. cbn [bt_get] in Hk. rewrite kcmp_refl, E in Hk.
        rewrite (bt_get_sorted_lt _ k2 k1 v2) in Hk; [done|done|congruence].
      - pose proof (Hext k2) as Hk. cbn [bt_get] in Hk. rewrite kcmp_refl, (kcmp_opp k1 k2), E in Hk.
        simpl in Hk. rewrite (bt_get_sorted_lt _ k1 k2 v1) in Hk; [done|done|].
        rewrite (kcmp_opp k1 k2), E. done. }
    apply kcmp_eq in Heq as ->.
    pose proof (Hext k2) as Hk. cbn [bt_get] in Hk. rewrite !kcmp_refl in Hk. injection Hk as ->.
    f_equal. apply IH; [done|done|]. intros k. pose proof (Hext k) as Hk. cbn [bt_get] in Hk.
    destruct (kcmp k k2) eqn:E; [|done|done].
    rewrite !(bt_get_sorted_lt _ k2 k v2); [done|done|congruence|done|congruence].
Qed.
End maps.

(** ** Sets *)

Definition BTreeSet (K : Type) : Type := BTreeMap K unit.

Section sets.
  Context {K : Type} `{KeyOrd K}.
  Implicit Types (s : BTreeSet K) (k : K).

Definition bs_insert k s : BTreeSet K := bt_insert k tt s.
Definition bs_contains s k : bool := bt_contains s k.
Definition bs_elements s : list K := bt_keys s.
Definition bs_of_list (l : list K) : BTreeSet K := fold_left (fun s k => bs_insert k s) l [].

Lemma bs_contains_insert k s k' :
  bs_contains (bs_insert k s) k' = true ↔ k' = k ∨ bs_contains s k' = true.
Proof.
  unfold bs_contains, bt_contains, bs_insert. rewrite bt_get_insert.
  destruct (kcmp k' k) eqn:E.
  - apply kcmp_eq in E as ->. naive_solver.
  - apply kcmp_ne in E. naive_solver.
  - apply kcmp_gt, kcmp_ne in E. naive_solver.
Qed.

Lemma bs_contains_of_list l k : bs_contains (bs_of_list l) k = true ↔ k ∈ l.
Proof.
  unfold bs_of_list. assert (∀ s, bs_contains (fold_left (fun s k => bs_insert k s) l s) k = true
    ↔ k ∈ l ∨ bs_contains s k = true) as Hgen.
  { induction l as [|x l IH]; intros s; simpl.
    - split; [by right|]. intros [Hin|?]; [by apply not_elem_of_nil in Hin|done].
    - rewrite IH, bs_contains_insert, elem_of_cons. naive_solver. }
  rewrite Hgen. split; [|by left]. intros [?|Hc]; [done|]. done.
Qed.

Lemma bs_elements_spec s k : k ∈ bs_elements s ↔ bs_contains s k = true.
Proof.
  unfold bs_elements, bs_contains, bt_contains, bt_keys. induction s as [|[k1 []] s IH]; cbn [bt_get fmap list_fmap].
  - split; [by intros []%not_elem_of_nil|done].
  - rewrite elem_of_cons, IH. simpl. destruct (kcmp k k1) eqn:E.
    + apply kcmp_eq in E as ->. naive_solver.
    + apply kcmp_ne in E. naive_solver.
    + apply kcmp_gt, kcmp_ne in E. naive_solver.
Qed.

(** [for k in l { if !seen.insert(k) { return Err } }]: the loop that rejects a repeated key. *)
Fixpoint all_fresh (seen : BTreeSet K) (l : list K) : option K :=
  match l with
  | [] => None
  | k :: l' => if bs_contains seen k then Some k else all_fresh (bs_insert k seen) l'
  end.

Lemma all_fresh_none seen l :
  all_fresh seen l = None → NoDup l ∧ ∀ k, k ∈ l → bs_contains seen k = false.
Proof.
  revert seen. induction l as [|x l IH]; intros seen; cbn [all_fresh].
  - intros _. split; [constructor|]. intros k Hk. by apply not_elem_of_nil in Hk.
  - destruct (bs_contains seen x) eqn:E; [done|]. intros [Hnd Hall]%IH. split.
    + constructor; [|done]. intros Hx. specialize (Hall _ Hx).
      assert (bs_contains (bs_insert x seen) x = true) by (apply bs_contains_insert; by left). congruence.
    + intros k [->|Hk]%elem_of_cons; [done|]. specialize (Hall _ Hk).
      destruct (bs_contains seen k) eqn:E'; [|done].
      assert (bs_contains (bs_insert x seen) k = true) by (apply bs_contains_insert; by right). congruence.
Qed.
End sets.

(** ** Stable sorting: [sort] and [sort_by]

    [Vec::sort_by] is stable, and a stable sort has one result, which the insertion sort computes. *)

Section sorting.
Context {A : Type}.
Variable gt : A → A → bool.

Fixpoint sort_insert (x : A) (l : list A) : list A :=
  match l with
  | [] => [x]
  | y :: l' => if gt x y then y :: sort_insert x l' else x :: l
  end.

Definition sort_by (l : list A) : list A := foldr sort_insert [] l.

Lemma sort_insert_perm x l : sort_insert x l ≡ₚ x :: l.
Proof.
  induction l as [|y l IH]; simpl; [done|]. destruct (gt x y); [|done]. rewrite IH. constructor.
Qed.

Lemma sort_by_perm l : sort_by l ≡ₚ l.
Proof. induction l as [|x l IH]; simpl; [done|]. by rewrite sort_insert_perm, IH. Qed.

Hypothesis gt_total : ∀ x y, gt x y = true → gt y x = false.
Hypothesis gt_trans : ∀ x y z, gt x y = false → gt y z = false → gt x z = false.

Lemma sort_insert_sorted x l :
  StronglySorted (λ a b, gt a b = false) l → StronglySorted (λ a b, gt a b = false) (sort_insert x l).
Proof.
  induction l as [|y l IH]; simpl; intros Hs; [by repeat constructor|].
  inversion Hs as [|? ? Hs' Hy]; subst. destruct (gt x y) eqn:E.
  - constructor; [by apply IH|]. apply Forall_forall. intros z Hz. rewrite sort_insert_perm in Hz.
    apply elem_of_cons in Hz as [->|Hz]; [by apply gt_total|]. rewrite Forall_forall in Hy. by apply Hy.
  - constructor; [done|]. constructor; [done|]. rewrite Forall_forall in Hy |- *. intros z Hz.
    by apply (gt_trans x y z), Hy.
Qed.

Lemma sort_by_sorted l : StronglySorted (λ a b, gt a b = false) (sort_by l).
Proof. induction l as [|x l IH]; simpl; [constructor|]. by apply sort_insert_sorted. Qed.
End sorting.

(** [a.cmp(&b) == Greater], the order [sort] uses. *)
Definition key_gt `{KeyOrd K} (a b : K) : bool := match kcmp a b with Gt => true | _ => false end.

Lemma key_gt_total `{KeyOrd K} a b : key_gt a b = true → key_gt b a = false.
Proof. unfold key_gt. rewrite (kcmp_opp a b). by destruct (kcmp a b). Qed.

Lemma key_gt_trans `{KeyOrd K} a b c : key_gt a b = false → key_gt b c = false → key_gt a c = false.
Proof.
  unfold key_gt. intros Hab Hbc. destruct (kcmp a c) eqn:E; try done. apply kcmp_gt in E.
  destruct (kcmp a b) eqn:Eab; [|destruct (kcmp b c) eqn:Ebc|done].
  - apply kcmp_eq in Eab as ->. apply kcmp_gt in E. by rewrite E in Hbc.
  - apply kcmp_eq in Ebc as ->. pose proof (kcmp_trans _ _ _ Eab E) as Hx. by rewrite kcmp_refl in Hx.
  - pose proof (kcmp_trans _ _ _ (kcmp_trans _ _ _ Eab Ebc) E) as Hx. by rewrite kcmp_refl in Hx.
  - done.
Qed.

Create HintDb btree.
#[export] Hint Resolve bt_insert_sorted bt_of_list_sorted : btree.
