(* ===== verification/F64.v ===== *)
(** * F64: the IEEE-754 doubles of the mandate, and how [Display] prints them

    A double is Stdlib's [spec_float] at precision 53 and exponent 1024 (exact, executable, no axioms). Rust's
    [Display] for [f64] prints the SHORTEST decimal that reads back as the same double, in plain notation (never
    with an exponent); among the shortest it prints the one closest to the value. *)

From Stdlib Require Import ZArith Lia String Ascii.
From Stdlib Require Import Floats.SpecFloat.
From S2P Require Import Prelude Text.

Local Open Scope Z_scope.

Definition f64 : Type := spec_float.
Definition f64_ltb (a b : f64) : bool := SFltb a b.
Definition f64_leb (a b : f64) : bool := SFleb a b.
Definition f64_zero : f64 := S754_zero false.
Definition f64_one : f64 := S754_finite false 4503599627370496 (-52).

Definition is_finite (v : f64) : bool :=
  match v with
  | S754_zero _ | S754_finite _ _ _ => true
  | S754_infinity _ | S754_nan => false
  end.

(** [n as f64] of an integer *)
Definition f64_of_int (n : Z) : f64 := binary_normalize 53 1024 n 0 false.

(** The double nearest to [n / d] (round to nearest, ties to even), for writing constants: [f64_of_ratio 1 10] is
    the literal [0.1]. *)
Definition f64_of_ratio (n d : positive) : f64 :=
  SFdiv 53 1024 (binary_normalize 53 1024 (Zpos n) 0 false) (binary_normalize 53 1024 (Zpos d) 0 false).

(** [m * 10^e], rounded once: the reader of decimal text. *)
Definition f64_of_decimal (neg : bool) (m e : Z) : f64 :=
  match m with
  | Zpos p =>
      if 0 <=? e then binary_round 53 1024 neg (p * Z.to_pos (10 ^ e)) 0
      else let '(q, e', loc) := SFdiv_core_binary 53 1024 m 0 (10 ^ (- e)) 0 in binary_round_aux 53 1024 neg q e' loc
  | _ => S754_zero neg
  end.

(** ** Shortest digits

    For the finite value [m * 2^e], every decimal strictly inside the interval between the midpoints to its two
    neighbours reads back as the value; the midpoints themselves do when [m] is even. All bounds are taken as
    integers over the common denominator [den]. *)
Definition interval (m e : Z) : Z * Z * Z * Z :=
  (* (low, value, high, den): low/den < decimal < high/den *)
  let half_below := if (m =? 2 ^ 52) && negb (e =? -1074) then 1 else 2 in
  let lo := 4 * m - half_below in
  let hi := 4 * m + 2 in
  let ex := e - 2 in
  if 0 <=? ex then (lo * 2 ^ ex, 4 * m * 2 ^ ex, hi * 2 ^ ex, 1)
  else (lo, 4 * m, hi, 2 ^ (- ex)).

(** The decimals [q * 10^k] inside the interval, as the range of [q]; [None] when there is none. *)
Definition candidates (m e k : Z) : option (Z * Z * Z) :=
  let '(lo, v, hi, den) := interval m e in
  let incl := Z.even m in
  (* multiply or divide by 10^k *)
  let '(num, dn) := if 0 <=? k then (1, den * 10 ^ k) else (10 ^ (- k), den) in
  let lo' := lo * num in
  let hi' := hi * num in
  let qlo := if incl && (lo' mod dn =? 0) then lo' / dn else lo' / dn + 1 in
  let qhi := if (negb incl) && (hi' mod dn =? 0) then hi' / dn - 1 else hi' / dn in
  if qlo <=? qhi then
    (* the candidate closest to the value, ties up *)
    let near := (2 * (v * num) + dn) / (2 * dn) in
    Some (qlo, Z.max qlo (Z.min near qhi), qhi)
  else None.

(** Try the coarsest power of ten first; 17 significant digits always suffice, so the search ends. *)
Fixpoint shortest_from (fuel : nat) (m e k : Z) : Z * Z :=
  match fuel with
  | O => (0, 0)
  | S f =>
      match candidates m e k with
      | Some (_, q, _) => if 0 <? q then (q, k) else shortest_from f m e (k - 1)
      | None => shortest_from f m e (k - 1)
      end
  end.

(** The search starts two powers of ten above the value (log10 2 is 0.30103) and needs at most 17 digits. *)
Definition shortest (m e : Z) : Z * Z := shortest_from 25 m e ((Z.log2 m + e) * 30103 / 100000 + 2).

(** Plain notation of [q * 10^k]. *)
Definition plain (q k : Z) : string :=
  if 0 <=? k then show_nonneg (q * 10 ^ k)
  else show_nonneg (q / 10 ^ (- k)) +:+ "." +:+ show_padded (q mod 10 ^ (- k)) (- k).

Definition f64_display (v : f64) : string :=
  match v with
  | S754_nan => "NaN"
  | S754_infinity s => if s then "-inf" else "inf"
  | S754_zero s => if s then "-0" else "0"
  | S754_finite s m e =>
      let '(q, k) := shortest (Zpos m) e in
      (if s then "-" else EmptyString) +:+ plain q k
  end.

(** [{v:?}]: at least one fractional digit in [1e-4 <= |v| < 1e16], scientific notation outside. *)
Definition scientific (q k : Z) : string :=
  let ds := show_nonneg q in
  let e := k + slen ds - 1 in
  let rest := sdrop 1 ds in
  stake 1 ds +:+ (if is_empty rest then EmptyString else "." +:+ rest) +:+ "e" +:+ show_int e.

Definition f64_debug (v : f64) : string :=
  match v with
  | S754_zero s => if s then "-0.0" else "0.0"
  | S754_finite s m e =>
      let '(q, k) := shortest (Zpos m) e in
      let lead := k + slen (show_nonneg q) in
      (* value in [10^(lead-1), 10^lead) *)
      (if s then "-" else EmptyString) +:+
      (if (-3 <=? lead) && (lead <=? 16)
       then (if 0 <=? k then plain q k +:+ ".0" else plain q k)
       else scientific q k)
  | _ => f64_display v
  end.

Example debugs : f64_debug <$> [f64_of_ratio 1 10000; f64_of_ratio 99 1000000; f64_of_int (10 ^ 15); f64_of_int (10 ^ 16); f64_one] =
  ["0.0001"; "9.9e-5"; "1000000000000000.0"; "1e16"; "1.0"]%string.
Proof. vm_compute. reflexivity. Qed.
