(* ===== verification/Externals.v ===== *)
(** * Externals: what the program uses of code that is not part of it

    Third-party crates are parameters of the model: [chrono] (instants, dates and their printed forms), [sha2] +
    [hex] (a digest as hexadecimal text), [rust_decimal] (only to check that a mandate's money amounts are positive
    decimals) and [serde_json] (only the bytes a mandate is hashed from). *)

From Stdlib Require Import ZArith Lia String Ascii.
From S2P Require Import Prelude Text.

Local Open Scope Z_scope.

(** [chrono]: [DateTime<Utc>], [NaiveDate] and [TimeDelta] (a signed number of nanoseconds). *)
Class Chrono := {
  DateTime : Type;
  NaiveDate : Type;
  #[global] datetime_eq_dec :: EqDecision DateTime;
  #[global] naivedate_eq_dec :: EqDecision NaiveDate;
  (** [a.signed_duration_since(b)], in nanoseconds *)
  signed_duration_since : DateTime → DateTime → Z;
  (** [at.date_naive()] and [date.and_hms_opt(0, 0, 0).and_utc()] (always present in UTC) *)
  date_naive : DateTime → NaiveDate;
  midnight_utc : NaiveDate → DateTime;
  (** [a > b] on dates *)
  date_gtb : NaiveDate → NaiveDate → bool;
  dt_display : DateTime → string;
  dt_to_rfc3339 : DateTime → string;
  (** [format("%Y%m%dT%H%M%SZ")] *)
  dt_compact : DateTime → string;
  (** [at + d], of a duration in nanoseconds *)
  dt_add : DateTime → Z → DateTime;
  (** [date.and_hms_opt(h, m, s)] in UTC *)
  and_hms_opt : NaiveDate → Z → Z → Z → option DateTime;
  (** [(a - b).num_days()], [date.pred_opt()] and [date.checked_sub_signed(Duration::days(n))] *)
  date_diff_days : NaiveDate → NaiveDate → Z;
  date_pred_opt : NaiveDate → option NaiveDate;
  date_sub_days : NaiveDate → Z → option NaiveDate;
  date_display : NaiveDate → string;
}.

(** [num_milliseconds] and [num_seconds] truncate toward zero. *)
Definition num_milliseconds (d : Z) : Z := Z.quot d 1000000.
Definition num_seconds (d : Z) : Z := Z.quot d 1000000000.
(** [Duration::seconds(n)] *)
Definition duration_seconds (n : Z) : Z := n * 1000000000.

Section instants.
  Context `{Chrono}.
(** The order on instants is the order of their differences. *)
Definition dt_ltb (a b : DateTime) : bool := signed_duration_since a b <? 0.
Definition dt_leb (a b : DateTime) : bool := signed_duration_since a b <=? 0.
End instants.

(** What chrono documents about instants: differences are antisymmetric and additive, and only an instant itself is
    at distance zero. *)
Class ChronoLaws `{Chrono} : Prop := {
  duration_self a : signed_duration_since a a = 0;
  duration_add a b c : signed_duration_since a c = signed_duration_since a b + signed_duration_since b c;
  duration_zero a b : signed_duration_since a b = 0 → a = b;
  duration_dt_add a d : signed_duration_since (dt_add a d) a = d;
  date_gtb_irrefl a : date_gtb a a = false;
  date_gtb_trans a b c : date_gtb a b = true → date_gtb b c = true → date_gtb a c = true;
  date_gtb_total a b : date_gtb a b = false → date_gtb b a = false → a = b;
}.

Lemma dt_ltb_negb `{ChronoLaws} a b : dt_ltb a b = negb (dt_leb b a).
Proof.
  unfold dt_ltb, dt_leb. pose proof (duration_add a b a). rewrite duration_self in *.
  destruct (Z.ltb_spec (signed_duration_since a b) 0), (Z.leb_spec (signed_duration_since b a) 0); simpl; lia.
Qed.

Lemma dt_leb_trans `{ChronoLaws} a b c : dt_leb a b → dt_leb b c → dt_leb a c.
Proof.
  unfold dt_leb. rewrite (duration_add a b c). intros ?%Is_true_true%Z.leb_le ?%Is_true_true%Z.leb_le.
  apply Is_true_true, Z.leb_le. lia.
Qed.

(** [sha2::Sha256] followed by [hex::encode]. *)
Class Sha256 := { sha256_hex : string → string }.

(** [rust_decimal::Decimal]: parsing and comparison. *)
Class RustDecimal := {
  Decimal : Type;
  decimal_from_str : string → option Decimal;
  decimal_zero : Decimal;
  decimal_gtb : Decimal → Decimal → bool;
}.

(** ** A concrete instance of every parameter, for the concrete examples *)

(** Instants as nanoseconds since the epoch, dates as day numbers. *)
Definition ns_per_day : Z := 86400 * 1000000000.

Definition epoch_chrono : Chrono := {|
  DateTime := Z;
  NaiveDate := Z;
  signed_duration_since a b := a - b;
  date_naive t := t / ns_per_day;
  midnight_utc d := d * ns_per_day;
  date_gtb a b := b <? a;
  dt_display := show_int;
  dt_to_rfc3339 := show_int;
  dt_compact := show_int;
  dt_add t d := t + d;
  and_hms_opt d h m s :=
    if (h <? 24) && (m <? 60) && (s <? 60) then Some (d * ns_per_day + duration_seconds (3600 * h + 60 * m + s)) else None;
  date_diff_days a b := a - b;
  date_pred_opt d := Some (d - 1);
  date_sub_days d n := Some (d - n);
  date_display := show_int;
|}.

Lemma epoch_chrono_laws : @ChronoLaws epoch_chrono.
Proof. split; simpl; intros; lia. Qed.

(** The identity is injective, which is all the development needs of a digest in a concrete example; it is padded
    on the right so that prefixes of it exist. *)
Definition plain_digest : Sha256 := {| sha256_hex s := s +:+ "00000000000000000000" |}.
