(* ===== verification/Decimal.v ===== *)
(** * Decimal: the exact decimal type of crates/broker-adapters/src/decimal.rs

    A [Dec] is [units / 10^scale] with [units : i128] and [scale <= 18]. The meaning of a well-formed decimal is
    the integer [atto d], its value in units of 10^-18, so that every statement about values is a statement
    about integers. *)

From Stdlib Require Import ZArith Lia String Ascii.
From S2P Require Import Prelude Text.

Local Open Scope Z_scope.

(** ** Data *)

Definition MAX_SCALE : Z := 18.

Module DecError.
Inductive t :=
| Invalid (text : string)
| TooPrecise (text : string)
| Overflow
| ScaleTooLarge (scale : Z)
| BadStep.

(** The [thiserror] messages. *)
Definition display (e : t) : string :=
  match e with
  | Invalid s => "invalid decimal literal: " +:+ debug_str s
  | TooPrecise s => "decimal has more than " +:+ show_int MAX_SCALE +:+ " fractional digits: " +:+ debug_str s
  | Overflow => "decimal arithmetic overflow"
  | ScaleTooLarge n => "scale " +:+ show_int n +:+ " exceeds the maximum of " +:+ show_int MAX_SCALE
  | BadStep => "rounding step must be positive"
  end.
End DecError.
Abbreviation DecError := DecError.t.

Inductive Rounding := Floor | Ceil | HalfUp.

Record Dec := mkDec { units : Z; scale : Z }.

(** [10i128.pow(n)], unchecked. *)
Definition pow10 (n : Z) : Z := wrap_i128 (10 ^ n).

Definition ZERO : Dec := mkDec 0 0.

Definition dec_new (units scale : Z) : result DecError Dec :=
  if MAX_SCALE <? scale then Err (DecError.ScaleTooLarge scale) else Ok (mkDec units scale).

(** [Dec::unit]: 10^-dp *)
Definition dec_unit (dp : Z) : result DecError Dec := dec_new 1 dp.

Definition from_i64 (v : Z) : Dec := mkDec v 0.

Definition is_zero (d : Dec) : bool := units d =? 0.
Definition is_negative (d : Dec) : bool := units d <? 0.
Definition is_positive (d : Dec) : bool := 0 <? units d.

(** The loop of [normalized]; the fuel is the scale, which every turn lowers by one. *)
Fixpoint strip_zeros (fuel : nat) (d : Dec) : Dec :=
  match fuel with
  | O => d
  | S f =>
      if (0 <? scale d) && (Z.rem (units d) 10 =? 0)
      then strip_zeros f (mkDec (Z.quot (units d) 10) (scale d - 1))
      else d
  end.

Definition normalized (d : Dec) : Dec :=
  let d := strip_zeros (Z.to_nat (scale d)) d in
  if units d =? 0 then mkDec (units d) 0 else d.

Definition decimals (d : Dec) : Z := scale (normalized d).

Definition int_frac (d : Dec) : Z * Z :=
  let p := pow10 (scale d) in (div_euclid (units d) p, rem_euclid (units d) p).

Definition b2z (b : bool) : Z := if b then 1 else 0.

(** The quotient chosen by the rounding mode, from a Euclidean quotient and remainder. *)
Definition round_quotient (mode : Rounding) (q r b : Z) : Z :=
  match mode with
  | Floor => q
  | Ceil => wrap_i128 (q + b2z (negb (r =? 0)))
  | HalfUp => wrap_i128 (q + b2z (b <=? wrap_i128 (r * 2)))
  end.

Definition round_dp (d : Dec) (dp : Z) (mode : Rounding) : result DecError Dec :=
  if MAX_SCALE <? dp then Err (DecError.ScaleTooLarge dp)
  else if scale d <=? dp then Ok (mkDec (wrap_i128 (units d * pow10 (dp - scale d))) dp)
  else
    let b := pow10 (scale d - dp) in
    let q := div_euclid (units d) b in
    let r := rem_euclid (units d) b in
    Ok (mkDec (round_quotient mode q r b) dp).

Definition round_to_multiple (d step : Dec) (mode : Rounding) : result DecError Dec :=
  if negb (is_positive step) then Err DecError.BadStep
  else
    let s := Z.max (scale d) (scale step) in
    let? a := ok_or (checked_i128 (units d * pow10 (s - scale d))) DecError.Overflow in
    let? b := ok_or (checked_i128 (units step * pow10 (s - scale step))) DecError.Overflow in
    let q := div_euclid a b in
    let r := rem_euclid a b in
    let n := round_quotient mode q r b in
    let? u := ok_or (checked_i128 (n * b)) DecError.Overflow in
    Ok (mkDec u s).

(** Drop the digits beyond [MAX_SCALE] (floor). *)
Definition into_scale_floor (d : Dec) (real_scale : Z) : option Dec :=
  let drop := real_scale - MAX_SCALE in
  if 38 <? drop then None
  else Some (mkDec (div_euclid (units d) (pow10 drop)) MAX_SCALE).

Definition checked_mul (a b : Dec) : option Dec :=
  let* u := checked_i128 (units a * units b) in
  let s := wrap_u32 (scale a + scale b) in
  if s <=? MAX_SCALE then Some (mkDec u s)
  else into_scale_floor (mkDec u MAX_SCALE) s.

Definition checked_add (a b : Dec) : option Dec :=
  let s := Z.max (scale a) (scale b) in
  let* x := checked_i128 (units a * pow10 (s - scale a)) in
  let* y := checked_i128 (units b * pow10 (s - scale b)) in
  let* u := checked_i128 (x + y) in
  Some (mkDec u s).

(** [Ord::cmp]: integer parts first, then the fractions at a common scale. *)
Definition dec_cmp (a b : Dec) : comparison :=
  let '(ai, af) := int_frac a in
  let '(bi, bf) := int_frac b in
  match ai ?= bi with
  | Eq =>
      let s := Z.max (scale a) (scale b) in
      wrap_i128 (af * pow10 (s - scale a)) ?= wrap_i128 (bf * pow10 (s - scale b))
  | c => c
  end.

(** [==], [<], [<=], and [std::cmp::min] / [max] of the derived order. *)
Definition dec_eqb (a b : Dec) : bool := match dec_cmp a b with Eq => true | _ => false end.
Definition dec_ltb (a b : Dec) : bool := match dec_cmp a b with Lt => true | _ => false end.
Definition dec_leb (a b : Dec) : bool := match dec_cmp a b with Gt => false | _ => true end.
Definition dec_min (a b : Dec) : Dec := match dec_cmp a b with Gt => b | _ => a end.

(** [Display]: plain notation at the value's own scale. *)
Definition to_string (d : Dec) : string :=
  let neg := units d <? 0 in
  let a := Z.abs (units d) in
  let p := Z.abs (pow10 (scale d)) in
  let i := a / p in
  let fr := a mod p in
  let sign := if neg then "-" else EmptyString in
  if scale d =? 0 then sign +:+ show_nonneg i
  else sign +:+ show_nonneg i +:+ "." +:+ show_padded fr (scale d).

Definition to_fixed (d : Dec) (dp : Z) : result DecError string :=
  let? r := round_dp d dp Floor in
  if negb (dec_eqb r d) then Err (DecError.TooPrecise (to_string d)) else Ok (to_string r).

(** ** Parsing *)

(** [strip_prefix('-')], else an optional leading [+] *)
Definition strip_sign (s : string) : bool * string :=
  match s with
  | String c r => if Ascii.eqb c "-" then (true, r) else if Ascii.eqb c "+" then (false, r) else (false, s)
  | EmptyString => (false, s)
  end.

(** [str::parse::<i32>] *)
Definition parse_i32 (s : string) : option Z :=
  let '(neg, ds) := strip_sign s in
  if is_empty ds || negb (sall is_ascii_digit ds) then None
  else
    let v := if neg : bool then - digits_value 0 ds else digits_value 0 ds in
    if (i32_min <=? v) && (v <=? i32_max) then Some v else None.

(** The digit loop: checked multiply and add in [i128]. *)
Fixpoint parse_units (bad : DecError) (acc : Z) (s : string) : result DecError Z :=
  match s with
  | EmptyString => Ok acc
  | String c s' =>
      let? d := ok_or (to_digit c) bad in
      let? u := ok_or (let* m := checked_i128 (acc * 10) in checked_i128 (m + d)) DecError.Overflow in
      parse_units bad u s'
  end.

Definition is_exp_char (c : ascii) : bool := Ascii.eqb c "e" || Ascii.eqb c "E".
Definition is_dot (c : ascii) : bool := Ascii.eqb c ".".

Definition parse (s : string) : result DecError Dec :=
  let bad := DecError.Invalid s in
  let t := trim s in
  if is_empty t then Err bad
  else
    let? (mant, exp) :=
      match split_once is_exp_char t with
      | Some (m, e) => let? v := ok_or (parse_i32 e) bad in Ok (m, v)
      | None => Ok (t, 0)
      end in
    let '(neg, mant) := strip_sign mant in
    let '(int_part, frac_part) :=
      match split_once is_dot mant with
      | Some (i, f) => (i, f)
      | None => (mant, EmptyString)
      end in
    if is_empty int_part && is_empty frac_part then Err bad
    else if negb (sall is_ascii_digit int_part) || negb (sall is_ascii_digit frac_part) then Err bad
    else
      let? u := parse_units bad 0 (int_part +:+ frac_part) in
      let net_scale := wrap_u32 (slen frac_part) - exp in
      let? (u, sc) :=
        (if net_scale <? 0 then
           let? up := ok_or (u32_try_from (- net_scale)) DecError.Overflow in
           if 38 <? up then Err DecError.Overflow
           else
             let? v := ok_or (checked_i128 (u * pow10 up)) DecError.Overflow in
             Ok (v, 0)
         else
           let? sc := ok_or (u32_try_from net_scale) DecError.Overflow in
           Ok (u, sc)) in
      let d := mkDec (if neg : bool then wrap_i128 (- u) else u) sc in
      if MAX_SCALE <? sc then
        let n := normalized d in
        if MAX_SCALE <? scale n then Err (DecError.TooPrecise s) else Ok n
      else Ok d.


(** ** Meaning *)

(** The type's invariant: what [Dec::new], the parser and every operation keep. *)
Definition dec_ok (d : Dec) : Prop := 0 ≤ scale d ≤ MAX_SCALE ∧ in_i128 (units d).

Definition dec_okb (d : Dec) : bool :=
  (0 <=? scale d) && (scale d <=? MAX_SCALE) && in_i128b (units d).

Definition opt_dec_ok (o : option Dec) : Prop := ∀ d, o = Some d → dec_ok d.

(** The exact value, in units of 10^-18. *)
Definition atto (d : Dec) : Z := units d * 10 ^ (MAX_SCALE - scale d).

(** One whole unit, and one step of [dp] fractional digits, in the same units. *)
Definition ONE : Z := 10 ^ MAX_SCALE.
Definition grain (dp : Z) : Z := 10 ^ (MAX_SCALE - dp).

Lemma dec_okb_spec d : dec_okb d = true ↔ dec_ok d.
Proof. unfold dec_okb, dec_ok. rewrite !andb_true_iff, !Z.leb_le, in_i128b_spec. tauto. Qed.

(** ** Powers of ten *)

Lemma pow_pos n : 0 < 10 ^ n ∨ n < 0.
Proof. destruct (Z.lt_ge_cases n 0); [by right|left]. apply Z.pow_pos_nonneg; lia. Qed.

Lemma ten_pos n : 0 ≤ n → 0 < 10 ^ n.
Proof. intros. by apply Z.pow_pos_nonneg. Qed.

Lemma ten_split a b : 0 ≤ a → 0 ≤ b → 10 ^ (a + b) = 10 ^ a * 10 ^ b.
Proof. intros. by apply Z.pow_add_r. Qed.

Lemma ten_mono a b : 0 ≤ a ≤ b → 10 ^ a ≤ 10 ^ b.
Proof. intros. apply Z.pow_le_mono_r; lia. Qed.

Lemma pow10_val n : 0 ≤ n ≤ 38 → pow10 n = 10 ^ n.
Proof.
  intros Hn. unfold pow10. apply wrap_i128_id. unfold in_i128, i128_min, i128_max.
  pose proof (ten_pos n). pose proof (ten_mono n 38). 
  assert (10 ^ 38 < 2 ^ 127) by (vm_compute; done). lia.
Qed.

Lemma ONE_pos : 0 < ONE.
Proof. by apply ten_pos. Qed.

Lemma grain_pos dp : 0 ≤ dp ≤ MAX_SCALE → 0 < grain dp.
Proof. intros. apply ten_pos. unfold MAX_SCALE in *. lia. Qed.

Lemma ONE_grain s : 0 ≤ s ≤ MAX_SCALE → ONE = 10 ^ s * grain s.
Proof.
  intros. unfold ONE, grain. rewrite <-ten_split by (unfold MAX_SCALE in *; lia). f_equal. lia.
Qed.

Lemma grain_split s t : 0 ≤ s ≤ t → t ≤ MAX_SCALE → grain s = 10 ^ (t - s) * grain t.
Proof.
  intros. unfold grain. rewrite <-ten_split by (unfold MAX_SCALE in *; lia). f_equal. lia.
Qed.

Lemma atto_grain d : atto d = units d * grain (scale d).
Proof. done. Qed.

(** Rescaling to a finer scale keeps the value. *)
Lemma atto_rescale u s t : 0 ≤ s ≤ t → t ≤ MAX_SCALE → atto (mkDec (u * 10 ^ (t - s)) t) = atto (mkDec u s).
Proof. intros. rewrite !atto_grain. simpl. rewrite (grain_split s t) by done. lia. Qed.

Lemma atto_from_i64 v : atto (from_i64 v) = v * ONE.
Proof. unfold atto, from_i64. simpl. done. Qed.

Lemma atto_zero : atto ZERO = 0.
Proof. done. Qed.

Lemma ZERO_ok : dec_ok ZERO.
Proof. by apply dec_okb_spec. Qed.

Lemma from_i64_ok v : i64_min ≤ v ≤ i64_max → dec_ok (from_i64 v).
Proof. unfold i64_min, i64_max, dec_ok, in_i128, i128_min, i128_max, MAX_SCALE. simpl. lia. Qed.

(** ** Sign tests *)

Lemma atto_sign d : dec_ok d → (atto d < 0 ↔ units d < 0) ∧ (0 < atto d ↔ 0 < units d) ∧ (atto d = 0 ↔ units d = 0).
Proof.
  intros [Hs _]. rewrite atto_grain. pose proof (grain_pos _ Hs). nia.
Qed.

Lemma is_zero_atto d : dec_ok d → is_zero d = true ↔ atto d = 0.
Proof. intros H. unfold is_zero. rewrite Z.eqb_eq. destruct (atto_sign d H). tauto. Qed.

Lemma is_negative_atto d : dec_ok d → is_negative d = true ↔ atto d < 0.
Proof. intros H. unfold is_negative. rewrite Z.ltb_lt. destruct (atto_sign d H). tauto. Qed.

Lemma is_positive_atto d : dec_ok d → is_positive d = true ↔ 0 < atto d.
Proof. intros H. unfold is_positive. rewrite Z.ltb_lt. destruct (atto_sign d H). tauto. Qed.

(** ** Comparison is exact *)

Lemma int_frac_spec d : dec_ok d →
  ∃ i f, int_frac d = (i, f) ∧ units d = i * 10 ^ scale d + f ∧ 0 ≤ f < 10 ^ scale d.
Proof.
  intros [Hs _]. unfold int_frac. unfold MAX_SCALE in *. rewrite pow10_val by lia.
  pose proof (ten_pos (scale d)). rewrite div_euclid_pos, rem_euclid_pos by lia.
  eexists _, _. split; [done|]. pose proof (Z.div_mod (units d) (10 ^ scale d)).
  pose proof (Z.mod_pos_bound (units d) (10 ^ scale d)). lia.
Qed.

(** A fraction brought to a finer scale [<= 18] does not overflow. *)
Lemma frac_rescale f s t : 0 ≤ s ≤ t → t ≤ MAX_SCALE → 0 ≤ f < 10 ^ s →
  wrap_i128 (f * pow10 (t - s)) * grain t = f * grain s ∧ 0 ≤ f * grain s < ONE.
Proof.
  intros Hs Ht Hf. unfold MAX_SCALE in Ht. rewrite pow10_val by lia.
  assert (ONE = 10 ^ s * (10 ^ (t - s) * grain t)) as HO.
  { rewrite (ONE_grain s), (grain_split s t) by (unfold MAX_SCALE; lia). done. }
  rewrite HO, (grain_split s t) by (done || unfold MAX_SCALE; lia).
  pose proof (ten_pos (t - s)). pose proof (grain_pos t ltac:(unfold MAX_SCALE; lia)).
  rewrite wrap_i128_id; [split; nia|].
  assert (f * 10 ^ (t - s) < 10 ^ t).
  { replace t with (s + (t - s)) at 2 by lia. rewrite ten_split by lia. nia. }
  pose proof (ten_mono t 18 ltac:(lia)).
  assert (10 ^ 18 < 2 ^ 127) by (vm_compute; done).
  unfold in_i128, i128_min, i128_max. nia.
Qed.

Lemma dec_cmp_exact_aux a b : dec_ok a → dec_ok b → dec_cmp a b = (atto a ?= atto b).
Proof.
  intros Ha Hb. unfold dec_cmp.
  destruct (int_frac_spec a Ha) as (ai & af & -> & Hau & Haf).
  destruct (int_frac_spec b Hb) as (bi & bf & -> & Hbu & Hbf).
  destruct Ha as [Has _], Hb as [Hbs _]. set (s := Z.max (scale a) (scale b)).
  destruct (frac_rescale af (scale a) s) as [HA HA']; [lia..|].
  destruct (frac_rescale bf (scale b) s) as [HB HB']; [lia..|].
  assert (atto a = ai * ONE + af * grain (scale a)) as ->.
  { rewrite atto_grain, Hau, (ONE_grain (scale a)) by done. lia. }
  assert (atto b = bi * ONE + bf * grain (scale b)) as ->.
  { rewrite atto_grain, Hbu, (ONE_grain (scale b)) by done. lia. }
  rewrite <-HA, <-HB in *. pose proof (grain_pos s ltac:(lia)).
  destruct (Z.compare_spec ai bi) as [->|?|?].
  - destruct (Z.compare_spec (wrap_i128 (af * pow10 (s - scale a))) (wrap_i128 (bf * pow10 (s - scale b)))) as [->|?|?];
      symmetry; [apply Z.compare_eq_iff|apply Z.compare_lt_iff|apply Z.compare_gt_iff]; nia.
  - symmetry. apply Z.compare_lt_iff. nia.
  - symmetry. apply Z.compare_gt_iff. nia.
Qed.

Lemma dec_ltb_atto a b : dec_ok a → dec_ok b → dec_ltb a b = (atto a <? atto b).
Proof. intros. unfold dec_ltb, Z.ltb. by rewrite dec_cmp_exact_aux. Qed.

Lemma dec_leb_atto a b : dec_ok a → dec_ok b → dec_leb a b = (atto a <=? atto b).
Proof. intros. unfold dec_leb, Z.leb. by rewrite dec_cmp_exact_aux. Qed.

Lemma dec_eqb_atto a b : dec_ok a → dec_ok b → dec_eqb a b = (atto a =? atto b).
Proof.
  intros. unfold dec_eqb. rewrite dec_cmp_exact_aux by done.
  destruct (Z.compare_spec (atto a) (atto b)); symmetry; lia.
Qed.

Lemma dec_min_atto a b : dec_ok a → dec_ok b → atto (dec_min a b) = Z.min (atto a) (atto b).
Proof.
  intros. unfold dec_min. rewrite dec_cmp_exact_aux by done.
  destruct (Z.compare_spec (atto a) (atto b)); lia.
Qed.

Lemma dec_min_ok a b : dec_ok a → dec_ok b → dec_ok (dec_min a b).
Proof. intros. unfold dec_min. by destruct (dec_cmp a b). Qed.

(** ** Addition and multiplication *)

Lemma scale_up_atto u s t : 0 ≤ s ≤ t → t ≤ MAX_SCALE → 
  u * pow10 (t - s) * grain t = u * grain s.
Proof.
  intros Hs Ht. rewrite pow10_val by (unfold MAX_SCALE in *; lia). rewrite (grain_split s t) by done. lia.
Qed.

Lemma checked_add_atto a b r : dec_ok a → dec_ok b → checked_add a b = Some r →
  dec_ok r ∧ atto r = atto a + atto b ∧ scale r = Z.max (scale a) (scale b).
Proof.
  intros [Ha _] [Hb _] H. unfold checked_add in H.
  set (s := Z.max (scale a) (scale b)) in *. inv_ok.
  inv_checked.
  split; [split; simpl; [lia|done]|]. split; [|done].
  rewrite !atto_grain. simpl. rewrite Z.mul_add_distr_r.
  rewrite !scale_up_atto by lia. done.
Qed.

Lemma checked_mul_atto a b r : dec_ok a → dec_ok b → checked_mul a b = Some r →
  dec_ok r ∧ atto r = atto a * atto b / ONE.
Proof.
  intros [Ha _] [Hb _] H. unfold checked_mul in H. inv_ok.
  apply checked_i128_some in Heqo as [-> Hu].
  assert (wrap_u32 (scale a + scale b) = scale a + scale b) as Hw.
  { unfold wrap_u32, MAX_SCALE in *. rewrite Z.mod_small; lia. }
  rewrite Hw in H. rewrite !atto_grain. set (sa := scale a) in *. set (sb := scale b) in *.
  destruct (sa + sb <=? MAX_SCALE) eqn:E.
  - injection H as <-. split; [split; simpl; [lia|done]|]. simpl.
    assert (grain sa * grain sb = grain (sa + sb) * ONE) as HG.
    { unfold grain, ONE, MAX_SCALE in *. rewrite <-!ten_split by lia. f_equal. lia. }
    replace (units a * grain sa * (units b * grain sb)) with (units a * units b * (grain sa * grain sb)) by lia.
    rewrite HG, Z.mul_assoc.
    rewrite Z.div_mul by (pose proof ONE_pos; lia). done.
  - unfold into_scale_floor in H. unfold MAX_SCALE in *.
    destruct (38 <? sa + sb - 18) eqn:E2; [lia|]. injection H as <-. simpl.
    rewrite pow10_val by lia. pose proof (ten_pos (sa + sb - 18) ltac:(lia)).
    rewrite div_euclid_pos by lia. split.
    + split; simpl; [unfold MAX_SCALE; lia|].
      apply in_i128_div; [lia|done].
    + assert (grain sa * grain sb = 10 ^ (36 - (sa + sb))) as HG.
      { unfold grain, MAX_SCALE. rewrite <-ten_split by lia. f_equal. lia. }
      assert (ONE = 10 ^ (sa + sb - 18) * 10 ^ (36 - (sa + sb))) as HO.
      { unfold ONE, MAX_SCALE. rewrite <-ten_split by lia. f_equal. lia. }
      replace (units a * grain sa * (units b * grain sb))
        with (units a * units b * (grain sa * grain sb)) by lia.
      rewrite HG, HO. rewrite Z.div_mul_cancel_r by (pose proof (ten_pos (36 - (sa + sb))); lia).
      change (grain 18) with 1. lia.
Qed.

Lemma checked_mul_some a b r : dec_ok a → dec_ok b → checked_mul a b = Some r →
  in_i128 (units a * units b).
Proof. intros Ha Hb H. unfold checked_mul in H. inv_ok. by apply checked_i128_some in Heqo as [_ ?]. Qed.

(** Multiplication fails exactly when the product of the unit counts does not fit. *)
Lemma checked_mul_none a b : dec_ok a → dec_ok b → checked_mul a b = None ↔ ¬ in_i128 (units a * units b).
Proof.
  intros [Ha _] [Hb _]. unfold checked_mul, into_scale_floor, MAX_SCALE in *.
  assert (wrap_u32 (scale a + scale b) = scale a + scale b) as ->.
  { unfold wrap_u32. rewrite Z.mod_small; lia. }
  rewrite <-checked_i128_none. destruct (checked_i128 (units a * units b)); [|done].
  destruct (scale a + scale b <=? 18); [done|].
  destruct (38 <? scale a + scale b - 18) eqn:E; [lia|]. done.
Qed.

(** ** Rounding *)

(** The reference: the multiple of [g] next to [x] in the given direction. *)
Definition round_to (mode : Rounding) (x g : Z) : Z :=
  match mode with
  | Floor => x / g * g
  | Ceil => - ((- x) / g) * g
  | HalfUp => (2 * x + g) / (2 * g) * g
  end.

Definition round_div (mode : Rounding) (x b : Z) : Z :=
  match mode with
  | Floor => x / b
  | Ceil => - ((- x) / b)
  | HalfUp => (2 * x + b) / (2 * b)
  end.

Lemma ceil_div x b : 0 < b → - ((- x) / b) = x / b + b2z (negb (x mod b =? 0)).
Proof.
  intros Hb. pose proof (Z.div_mod x b). pose proof (Z.mod_pos_bound x b Hb).
  destruct (Z.eqb_spec (x mod b) 0) as [E|E]; simpl.
  - rewrite (Z.div_opp_l_z x b) by lia. lia.
  - rewrite (Z.div_opp_l_nz x b) by lia. lia.
Qed.

Lemma half_up_div x b : 0 < b → (2 * x + b) / (2 * b) = x / b + b2z (b <=? x mod b * 2).
Proof.
  intros Hb. pose proof (Z.div_mod x b). pose proof (Z.mod_pos_bound x b Hb).
  symmetry. destruct (b <=? x mod b * 2) eqn:E; simpl;
    [apply (Z.div_unique _ _ _ (2 * (x mod b) - b))|apply (Z.div_unique _ _ _ (2 * (x mod b) + b))]; lia.
Qed.

Lemma round_quotient_spec mode x b : 0 < b → 2 * b ≤ i128_max → in_i128 x →
  round_quotient mode (x / b) (x mod b) b = round_div mode x b ∧ in_i128 (round_div mode x b).
Proof.
  intros Hb Hbm Hx. unfold in_i128 in *.
  pose proof (Z.div_mod x b). pose proof (Z.mod_pos_bound x b Hb).
  assert (i128_min ≤ x / b ≤ i128_max) as Hq.
  { apply in_i128_div; [lia|done]. }
  assert (x mod b ≠ 0 → i128_min ≤ x / b + 1 ≤ i128_max) as Hq1.
  { intros. assert (2 ≤ b) by (destruct (Z.eq_dec b 1) as [->|]; [rewrite Z.mod_1_r in *; lia|lia]).
    pose proof (div_shrinks x b). unfold i128_min, i128_max in *. 
    destruct (Z.le_gt_cases 0 x); [|lia]. assert (2 * (x / b) ≤ x) by nia. lia. }
  destruct mode; cbn [round_quotient round_div]; [done| |].
  - rewrite ceil_div by done. rewrite wrap_i128_id; [split; [done|]|];
      destruct (Z.eqb_spec (x mod b) 0); unfold in_i128; simpl; lia.
  - rewrite half_up_div by done. rewrite (wrap_i128_id (x mod b * 2)) by (unfold in_i128, i128_min, i128_max in *; lia).
    rewrite wrap_i128_id; [split; [done|]|]; destruct (b <=? x mod b * 2) eqn:E; unfold in_i128; simpl; lia.
Qed.

Lemma round_div_scale mode x b g : 0 < b → 0 < g → round_div mode x b * (b * g) = round_to mode (x * g) (b * g).
Proof.
  intros Hb Hg. destruct mode; cbn [round_div round_to].
  - rewrite Z.div_mul_cancel_r by lia. done.
  - rewrite <-Z.mul_opp_l, Z.div_mul_cancel_r by lia. done.
  - replace (2 * (x * g) + b * g) with ((2 * x + b) * g) by lia.
    replace (2 * (b * g)) with (2 * b * g) by lia. rewrite Z.div_mul_cancel_r by lia. done.
Qed.

Lemma round_to_exact mode k g : 0 < g → round_to mode (k * g) g = k * g.
Proof.
  intros Hg. destruct mode; cbn [round_to].
  - rewrite Z.div_mul by lia. done.
  - rewrite <-Z.mul_opp_l, Z.div_mul by lia. lia.
  - f_equal. symmetry. apply (Z.div_unique _ _ _ g); lia.
Qed.

Lemma round_to_bounds mode x g : 0 < g →
  match mode with
  | Floor => round_to mode x g ≤ x < round_to mode x g + g
  | Ceil => round_to mode x g - g < x ≤ round_to mode x g
  | HalfUp => 2 * round_to mode x g - g ≤ 2 * x < 2 * round_to mode x g + g
  end.
Proof.
  intros Hg. destruct mode; cbn [round_to].
  - pose proof (Z.div_mod x g). pose proof (Z.mod_pos_bound x g Hg). lia.
  - pose proof (Z.div_mod (-x) g). pose proof (Z.mod_pos_bound (-x) g Hg). lia.
  - pose proof (Z.div_mod (2 * x + g) (2 * g)). pose proof (Z.mod_pos_bound (2 * x + g) (2 * g)). lia.
Qed.

(** The multiplication that brings a value to a finer scale is unchecked: it is exact when it fits. *)
Definition round_fits (d : Dec) (dp : Z) : Prop := scale d ≤ dp → in_i128 (units d * 10 ^ (dp - scale d)).

Lemma round_dp_atto d dp mode : dec_ok d → 0 ≤ dp ≤ MAX_SCALE → round_fits d dp →
  ∃ r, round_dp d dp mode = Ok r ∧ dec_ok r ∧ scale r = dp ∧ atto r = round_to mode (atto d) (grain dp).
Proof.
  intros [Hs Hu] Hdp Hfit. unfold round_dp, round_fits in *.
  destruct (Z.ltb_spec MAX_SCALE dp); [lia|].
  pose proof (grain_pos dp Hdp) as Hg.
  destruct (Z.leb_spec (scale d) dp).
  - eexists. split; [done|]. rewrite pow10_val by (unfold MAX_SCALE in *; lia).
    rewrite wrap_i128_id by auto. split; [split; simpl; [lia|auto]|]. split; [done|].
    rewrite !atto_grain. simpl. rewrite (grain_split (scale d) dp) by lia.
    rewrite Z.mul_assoc, round_to_exact by done. done.
  - eexists. split; [done|]. rewrite pow10_val by (unfold MAX_SCALE in *; lia).
    set (b := 10 ^ (scale d - dp)).
    assert (0 < b) as Hb by (apply ten_pos; lia).
    assert (2 * b ≤ i128_max) as Hbm.
    { unfold b, MAX_SCALE in *. pose proof (ten_mono (scale d - dp) 18).
      assert (2 * 10 ^ 18 ≤ i128_max) by (vm_compute; done). lia. }
    rewrite div_euclid_pos, rem_euclid_pos by done.
    destruct (round_quotient_spec mode (units d) b Hb Hbm Hu) as [-> Hin].
    split; [by split|]. split; [done|]. rewrite !atto_grain. simpl.
    rewrite (grain_split dp (scale d)) by lia. apply round_div_scale; [done|].
    apply grain_pos. unfold MAX_SCALE in *. lia.
Qed.

Lemma round_dp_coarser d dp : dp ≤ scale d → dec_ok d → round_fits d dp.
Proof.
  intros Hle [_ Hu] Hge. assert (dp - scale d = 0) as -> by lia. rewrite Z.pow_0_r, Z.mul_1_r. done.
Qed.

Lemma round_fits_atto d dp : dec_ok d → dp ≤ MAX_SCALE → Z.abs (atto d) ≤ i128_max → round_fits d dp.
Proof.
  intros [Hs _] Hdp Ha Hle. pose proof (atto_rescale (units d) (scale d) dp) as He.
  rewrite atto_grain in He. simpl in He. pose proof (grain_pos dp). unfold in_i128, i128_min, i128_max in *.
  replace (atto {| units := units d; scale := scale d |}) with (atto d) in He by (by destruct d).
  specialize (He ltac:(lia) ltac:(lia)). nia.
Qed.

Lemma round_dp_ok d dp mode r : dec_ok d → 0 ≤ dp → round_dp d dp mode = Ok r → dec_ok r.
Proof.
  intros Hd Hdp H. destruct (Z.lt_ge_cases dp (scale d)) as [Hlt|Hge].
  - pose proof Hd as [Hs _]. destruct (round_dp_atto d dp mode Hd ltac:(lia)) as (r' & Hr & ? & _); [by intros ?; lia|].
    congruence.
  - unfold round_dp in H. destruct (Z.ltb_spec MAX_SCALE dp); [done|]. destruct (Z.leb_spec (scale d) dp); [|lia].
    injection H as <-. split; simpl; [lia|apply wrap_i128_range].
Qed.

(** Rounding a non-negative value down never increases it, not even when bringing it to a finer scale wraps: a value
    that wraps is larger than anything the finer scale can hold. *)
Lemma round_floor_le d dp r : dec_ok d → 0 ≤ units d → 0 ≤ dp → round_dp d dp Floor = Ok r →
  dec_ok r ∧ scale r = dp ∧ atto r ≤ atto d.
Proof.
  intros Hd Hpos Hdp H. pose proof Hd as [Hs Hu]. assert (dp ≤ MAX_SCALE).
  { unfold round_dp in H. destruct (Z.ltb_spec MAX_SCALE dp); [done|lia]. }
  destruct (decide (in_i128 (units d * 10 ^ (dp - scale d)) ∨ dp < scale d)) as [Hf|Hf].
  - destruct (round_dp_atto d dp Floor Hd ltac:(lia)) as (r' & Hr' & Hok & Hsc & Ha); [by intros ?; destruct Hf; [|lia]|].
    rewrite Hr' in H. injection H as ->. split; [done|]. split; [done|]. rewrite Ha.
    pose proof (round_to_bounds Floor (atto d) (grain dp) (grain_pos dp ltac:(lia))). simpl in *. lia.
  - assert (scale d ≤ dp ∧ ¬ in_i128 (units d * 10 ^ (dp - scale d))) as [Hle Hno] by (split; [lia|tauto]).
    unfold round_dp in H. destruct (Z.ltb_spec MAX_SCALE dp); [lia|]. destruct (Z.leb_spec (scale d) dp); [|lia].
    injection H as <-. pose proof (wrap_i128_range (units d * pow10 (dp - scale d))) as Hw.
    split; [split; simpl; [lia|done]|]. split; [done|].
    pose proof (atto_rescale (units d) (scale d) dp ltac:(lia) ltac:(lia)) as He.
    replace (mkDec (units d) (scale d)) with d in He by (by destruct d). rewrite <-He, !atto_grain. simpl.
    pose proof (grain_pos dp ltac:(lia)). pose proof (ten_pos (dp - scale d) ltac:(lia)).
    apply Z.mul_le_mono_nonneg_r; [lia|]. unfold in_i128, i128_min, i128_max in *. nia.
Qed.

(** ** Multiples of a step *)

Lemma round_to_multiple_atto d step mode r :
  dec_ok d → dec_ok step → 
  round_to_multiple d step mode = Ok r → mode ≠ HalfUp →
  dec_ok r ∧ atto r = round_to mode (atto d) (atto step).
Proof.
  intros Hd Hst H Hmode. pose proof Hst as [Hss _]. pose proof Hd as [Hds _].
  unfold round_to_multiple in H. destruct (is_positive step) eqn:Hp; [|done]. cbn [negb] in H.
  apply is_positive_atto in Hp; [|done].
  set (s := Z.max (scale d) (scale step)) in *. inv_ok.
  inv_checked.
  set (a := units d * pow10 (s - scale d)) in *. set (b := units step * pow10 (s - scale step)) in *.
  assert (a * grain s = atto d) as Ha by (apply scale_up_atto; lia).
  assert (b * grain s = atto step) as Hb by (apply scale_up_atto; lia).
  pose proof (grain_pos s ltac:(lia)) as Hg.
  assert (0 < b) as Hb0 by nia.
  rewrite div_euclid_pos, rem_euclid_pos in * by done.
  assert (round_quotient mode (a / b) (a mod b) b = round_div mode a b) as Hq.
  { destruct mode; cbn [round_quotient round_div]; [done| |done].
    rewrite ceil_div by done. apply wrap_i128_id.
    pose proof (Z.div_mod a b). pose proof (Z.mod_pos_bound a b Hb0).
    pose proof (div_shrinks a b ltac:(lia)). unfold in_i128, i128_min, i128_max in *.
    destruct (Z.eqb_spec (a mod b) 0); simpl; [lia|].
    assert (2 ≤ b) by (destruct (Z.eq_dec b 1) as [Eb|]; [rewrite Eb, Z.mod_1_r in *; lia|lia]).
    destruct (Z.le_gt_cases 0 a); [|lia]. assert (2 * (a / b) ≤ a) by nia. lia. }
  rewrite Hq in *. split; [split; simpl; [lia|done]|].
  rewrite atto_grain. cbn [units scale]. rewrite <-Ha, <-Hb, <-round_div_scale by done. lia.
Qed.

(** ** Normal forms *)

Definition canonical (d : Dec) : Prop :=
  (units d = 0 → scale d = 0) ∧ (0 < scale d → units d mod 10 ≠ 0).

Lemma rem_quot_10 u : Z.rem u 10 = 0 → u = 10 * Z.quot u 10.
Proof. intros H. pose proof (Z.quot_rem' u 10). lia. Qed.

Lemma strip_zeros_spec f d : 0 ≤ scale d →
  let n := strip_zeros f d in
  0 ≤ scale n ≤ scale d ∧ units d = units n * 10 ^ (scale d - scale n) ∧ 
  (scale d ≤ Z.of_nat f → 0 < scale n → units n mod 10 ≠ 0).
Proof.
  revert d. induction f as [|f IH]; intros d Hs n; subst n; cbn [strip_zeros].
  - rewrite Z.sub_diag. lia.
  - destruct (0 <? scale d) eqn:E1, (Z.rem (units d) 10 =? 0) eqn:E2; cbn [andb];
      try (rewrite Z.sub_diag; split_and!; try lia; fail).
    + specialize (IH (mkDec (Z.quot (units d) 10) (scale d - 1)) ltac:(simpl; lia)). simpl in IH.
      destruct IH as (Hs1 & Hu & Hc). set (n := strip_zeros f _) in *.
      split; [lia|]. split; [|intros; apply Hc; lia].
      rewrite (rem_quot_10 (units d)) by lia. rewrite Hu.
      replace (scale d - scale n) with (1 + (scale d - 1 - scale n)) by lia.
      rewrite (ten_split 1) by lia. lia.
    + rewrite Z.sub_diag. split; [lia|]. split; [lia|]. intros _ _ Hm.
      apply Z.mod_divide in Hm; [|lia]. apply Z.rem_divide in Hm; lia.
Qed.

Lemma normalized_spec d : 0 ≤ scale d → in_i128 (units d) →
  0 ≤ scale (normalized d) ≤ scale d ∧ in_i128 (units (normalized d)) ∧ canonical (normalized d) ∧
  units d = units (normalized d) * 10 ^ (scale d - scale (normalized d)).
Proof.
  intros Hs Hu. unfold normalized.
  destruct (strip_zeros_spec (Z.to_nat (scale d)) d Hs) as (Hs1 & Hun & Hc).
  set (n := strip_zeros _ d) in *. specialize (Hc ltac:(lia)).
  assert (in_i128 (units n)).
  { pose proof (ten_pos (scale d - scale n) ltac:(lia)). unfold in_i128, i128_min, i128_max in *. nia. }
  destruct (Z.eqb_spec (units n) 0) as [E|E]; simpl.
  - split; [lia|]. split; [done|]. split; [split; simpl; [done|lia]|]. rewrite Hun, E. lia.
  - split; [lia|]. split; [done|]. split; [split; [done|done]|done].
Qed.

Lemma normalized_ok d : dec_ok d → dec_ok (normalized d).
Proof. intros [Hs Hu]. destruct (normalized_spec d) as (? & ? & _); [lia|done|]. split; [lia|done]. Qed.

Lemma normalized_atto d : dec_ok d → atto (normalized d) = atto d.
Proof.
  intros [Hs Hu]. destruct (normalized_spec d) as (Hs1 & _ & _ & He); [lia|done|].
  rewrite !atto_grain, He, (grain_split (scale (normalized d)) (scale d)) by lia. lia.
Qed.

Lemma normalized_canonical d : dec_ok d → canonical (normalized d).
Proof. intros [Hs Hu]. destruct (normalized_spec d) as (_ & _ & ? & _); [lia|done|done]. Qed.

Lemma canonical_scale_le a b : dec_ok a → dec_ok b → canonical a → canonical b → atto a = atto b →
  scale a ≤ scale b.
Proof.
  intros [Has _] [Hbs _] [Ha0 Ha] [Hb0 _] H. destruct (Z.le_gt_cases (scale a) (scale b)); [done|].
  rewrite !atto_grain, (grain_split (scale b) (scale a)) in H by lia.
  pose proof (grain_pos (scale a) Has).
  assert (units a = units b * 10 ^ (scale a - scale b)) as He by nia.
  exfalso. apply Ha; [lia|]. rewrite He.
  replace (scale a - scale b) with (1 + (scale a - scale b - 1)) by lia. rewrite (ten_split 1) by lia.
  replace (units b * (10 ^ 1 * 10 ^ (scale a - scale b - 1))) with (units b * 10 ^ (scale a - scale b - 1) * 10) by lia.
  apply Z_mod_mult.
Qed.

Lemma canonical_unique a b : dec_ok a → dec_ok b → canonical a → canonical b → atto a = atto b → a = b.
Proof.
  intros Ha Hb Hca Hcb H.
  assert (scale a = scale b) as Hs.
  { pose proof (canonical_scale_le a b Ha Hb Hca Hcb H).
    pose proof (canonical_scale_le b a Hb Ha Hcb Hca (eq_sym H)). lia. }
  destruct a as [ua sa], b as [ub sb]. simpl in Hs. subst sb.
  rewrite !atto_grain in H. simpl in H. pose proof (grain_pos sa (proj1 Ha)). f_equal. nia.
Qed.

(** ** Printing and parsing *)

Lemma parse_units_value bad acc s : 0 ≤ acc → sall is_ascii_digit s = true → digits_value acc s ≤ i128_max →
  parse_units bad acc s = Ok (digits_value acc s).
Proof.
  revert acc. induction s as [|c s IH]; intros acc Hacc Hd Hm; [done|].
  cbn [sall] in Hd. apply andb_true_iff in Hd as [Hc Hd]. cbn [parse_units digits_value] in *.
  rewrite to_digit_digit by done. apply is_ascii_digit_code in Hc. cbn [ok_or result_bind].
  assert (acc * 10 + (code c - 48) ≤ i128_max) as Hle.
  { rewrite digits_value_acc in Hm. pose proof (digits_value_nonneg s 0 Hd ltac:(lia)).
    pose proof (ten_pos (slen s) (slen_nonneg s)). nia. }
  assert (checked_i128 (acc * 10) = Some (acc * 10)) as ->.
  { apply checked_i128_some. split; [done|]. unfold in_i128, i128_min, i128_max in *. lia. }
  assert (checked_i128 (acc * 10 + (code c - 48)) = Some (acc * 10 + (code c - 48))) as ->.
  { apply checked_i128_some. split; [done|]. unfold in_i128, i128_min, i128_max in *. lia. }
  cbn [ok_or result_bind]. apply IH; [lia|done|done].
Qed.

Definition numeral_char (c : ascii) : bool := is_ascii_digit c || is_dot c || Ascii.eqb c "-".

Lemma numeral_no_exp c : numeral_char c = true → negb (is_exp_char c) = true.
Proof. destruct c as [[] [] [] [] [] [] [] []]; vm_compute; congruence. Qed.

Lemma numeral_no_space c : numeral_char c = true → negb (is_whitespace c) = true.
Proof. destruct c as [[] [] [] [] [] [] [] []]; vm_compute; congruence. Qed.

Lemma digit_no_dot c : is_ascii_digit c = true → negb (is_dot c) = true.
Proof. destruct c as [[] [] [] [] [] [] [] []]; vm_compute; congruence. Qed.

Lemma digit_numeral c : is_ascii_digit c = true → numeral_char c = true.
Proof. unfold numeral_char. by intros ->. Qed.

Lemma strip_sign_digits s t : sall is_ascii_digit s = true → is_empty s = false →
  strip_sign (s +:+ t) = (false, s +:+ t).
Proof.
  destruct s as [|c s]; [done|]. cbn [sall]. rewrite andb_true_iff. intros [Hc _] _.
  change (String c s +:+ t) with (String c (s +:+ t)). cbn [strip_sign].
  destruct (Ascii.eqb_spec c "-") as [->|]; [done|]. destruct (Ascii.eqb_spec c "+") as [->|]; done.
Qed.

Lemma is_empty_len s : is_empty s = false ↔ 0 < slen s.
Proof. destruct s; [done|]. rewrite slen_cons. pose proof (slen_nonneg s). split; [lia|done]. Qed.

(** The body of a printed decimal, after its sign. *)
Definition body_text (a s : Z) : string :=
  if s =? 0 then show_nonneg a
  else show_nonneg (a / 10 ^ s) +:+ "." +:+ show_padded (a mod 10 ^ s) s.

Lemma to_string_body d : dec_ok d →
  to_string d = (if units d <? 0 then "-" else EmptyString) +:+ body_text (Z.abs (units d)) (scale d).
Proof.
  intros [Hs _]. unfold to_string, body_text. unfold MAX_SCALE in *. rewrite pow10_val by lia.
  pose proof (ten_pos (scale d)). rewrite (Z.abs_eq (10 ^ _)) by lia.
  destruct (Z.eqb_spec (scale d) 0) as [->|]; [|done]. by rewrite Z.pow_0_r, Z.div_1_r.
Qed.

Lemma body_text_facts a s : 0 ≤ a → 0 ≤ s →
  sall numeral_char (body_text a s) = true ∧ strip_sign (body_text a s) = (false, body_text a s) ∧
  is_empty (body_text a s) = false.
Proof.
  intros Ha Hs. pose proof (ten_pos s Hs).
  assert (0 ≤ a / 10 ^ s) by (apply Z.div_pos; lia). pose proof (Z.mod_pos_bound a (10 ^ s)).
  assert (∀ n, 0 ≤ n → is_empty (show_nonneg n) = false) as Hne.
  { intros n Hn. apply is_empty_len.
    pose proof (show_nonneg_len n _ (conj Hn (show_fuel n Hn)) ltac:(lia)). lia. }
  unfold body_text. destruct (s =? 0).
  - pose proof (strip_sign_digits (show_nonneg a) EmptyString (show_nonneg_digits a Ha) (Hne _ Ha)) as Hsg.
    assert (∀ t, t +:+ EmptyString = t) as Happ.
    { intros t. induction t as [|c t IH]; [done|]. change (String c t +:+ EmptyString) with (String c (t +:+ EmptyString)). by rewrite IH. }
    rewrite Happ in Hsg. split; [|split; [done|by apply Hne]].
    apply (sall_impl is_ascii_digit); [apply digit_numeral|by apply show_nonneg_digits].
  - split; [|split].
    + rewrite !sall_app. rewrite (sall_impl _ _ _ digit_numeral (show_nonneg_digits (a / 10 ^ s) ltac:(lia))).
      rewrite (sall_impl _ _ _ digit_numeral (show_padded_digits (a mod 10 ^ s) s ltac:(lia))). done.
    + apply strip_sign_digits; [by apply show_nonneg_digits|by apply Hne].
    + apply is_empty_len. rewrite slen_app. pose proof (slen_nonneg ("." +:+ show_padded (a mod 10 ^ s) s)).
      pose proof (proj1 (is_empty_len _) (Hne (a / 10 ^ s) ltac:(lia))). lia.
Qed.

(** Splitting the body at the point gives the integer digits and exactly [s] fractional digits. *)
Lemma body_text_split a s : 0 ≤ a → 0 ≤ s →
  ∃ i f, (match split_once is_dot (body_text a s) with Some (i, f) => (i, f) | None => (body_text a s, EmptyString) end)
    = (i, f) ∧ is_empty i = false ∧ sall is_ascii_digit i = true ∧ sall is_ascii_digit f = true ∧
    slen f = s ∧ digits_value 0 (i +:+ f) = a.
Proof.
  intros Ha Hs. pose proof (ten_pos s Hs).
  assert (0 ≤ a / 10 ^ s) as Hq by (apply Z.div_pos; lia). pose proof (Z.mod_pos_bound a (10 ^ s) ltac:(lia)).
  assert (∀ n, 0 ≤ n → is_empty (show_nonneg n) = false) as Hne.
  { intros n Hn. apply is_empty_len.
    pose proof (show_nonneg_len n _ (conj Hn (show_fuel n Hn)) ltac:(lia)). lia. }
  unfold body_text. destruct (Z.eqb_spec s 0) as [->|Hs0].
  - rewrite split_once_none by (apply (sall_impl is_ascii_digit); [apply digit_no_dot|by apply show_nonneg_digits]).
    exists (show_nonneg a), EmptyString. split; [done|]. split; [by apply Hne|].
    split; [by apply show_nonneg_digits|]. split; [done|]. split; [done|].
    rewrite digits_value_app. cbn [digits_value]. by apply show_nonneg_value.
  - change (show_nonneg (a / 10 ^ s) +:+ "." +:+ show_padded (a mod 10 ^ s) s)
      with (show_nonneg (a / 10 ^ s) +:+ String "." (show_padded (a mod 10 ^ s) s)).
    rewrite split_once_app by
      (done || (apply (sall_impl is_ascii_digit); [apply digit_no_dot|by apply show_nonneg_digits])).
    eexists _, _. split; [done|]. split; [by apply Hne|]. split; [by apply show_nonneg_digits|].
    split; [apply show_padded_digits; lia|]. 
    assert (slen (show_padded (a mod 10 ^ s) s) = s) as Hl by (apply show_padded_len; lia).
    split; [done|]. rewrite digits_value_app, show_nonneg_value by lia.
    rewrite digits_value_acc, Hl, show_padded_value by lia.
    pose proof (Z.div_mod a (10 ^ s)). lia.
Qed.

(** [trim] and the exponent split leave a printed decimal alone; its sign comes off first. *)
Lemma to_string_prefix d : dec_ok d →
  trim (to_string d) = to_string d ∧ is_empty (to_string d) = false ∧
  split_once is_exp_char (to_string d) = None ∧
  strip_sign (to_string d) = (units d <? 0, body_text (Z.abs (units d)) (scale d)).
Proof.
  intros Hd. rewrite to_string_body by done. destruct Hd as [Hs _].
  destruct (body_text_facts (Z.abs (units d)) (scale d)) as (Hn & Hsg & He); [lia|lia|].
  set (t := (if units d <? 0 then "-" else EmptyString) +:+ body_text (Z.abs (units d)) (scale d)).
  assert (sall numeral_char t = true) as Hnt.
  { unfold t. rewrite sall_app, Hn. by destruct (units d <? 0). }
  split; [|split; [|split]].
  - apply trim_no_space. by apply (sall_impl numeral_char); [apply numeral_no_space|].
  - unfold t. destruct (units d <? 0); [done|]. done.
  - apply split_once_none. by apply (sall_impl numeral_char); [apply numeral_no_exp|].
  - unfold t. destruct (units d <? 0); [done|]. done.
Qed.

Lemma parse_to_string_aux d : dec_ok d → units d ≠ i128_min → parse (to_string d) = Ok d.
Proof.
  intros Hd Hmin. destruct (to_string_prefix d Hd) as (Ht & He & Hx & Hsg).
  unfold parse. rewrite Ht, He, Hx. cbn [result_bind]. rewrite Hsg.
  destruct Hd as [Hs Hu].
  destruct (body_text_split (Z.abs (units d)) (scale d)) as (i & f & -> & Hi & Hid & Hfd & Hl & Hv); [lia|lia|].
  rewrite Hi. cbn [andb]. rewrite Hid, Hfd. cbn [negb orb].
  assert (sall is_ascii_digit (i +:+ f) = true) as Hall by (by rewrite sall_app, Hid, Hfd).
  unfold in_i128, i128_min, i128_max, MAX_SCALE in *.
  rewrite parse_units_value by (try done; unfold i128_max; lia). rewrite Hv. cbn [result_bind].
  assert (wrap_u32 (slen f) - 0 = scale d) as ->.
  { rewrite Hl. unfold wrap_u32. rewrite Z.mod_small; lia. }
  destruct (Z.ltb_spec (scale d) 0); [lia|].
  assert (u32_try_from (scale d) = Some (scale d)) as ->.
  { unfold u32_try_from, u32_max. destruct (Z.leb_spec 0 (scale d)), (Z.leb_spec (scale d) (2 ^ 32 - 1)); (done || lia). }
  cbn [ok_or result_bind]. destruct (Z.ltb_spec 18 (scale d)); [lia|]. f_equal.
  destruct d as [u s]. simpl in *. f_equal.
  destruct (Z.ltb_spec u 0); [|lia].
  rewrite wrap_i128_id; [lia|]. unfold in_i128, i128_min, i128_max. lia.
Qed.

(** Whatever the text, an accepted decimal is well formed. *)
Lemma parse_units_range bad acc s u : in_i128 acc → parse_units bad acc s = Ok u → in_i128 u.
Proof.
  revert acc. induction s as [|c s IH]; intros acc Ha; cbn [parse_units]; [naive_solver|].
  intros H. inv_ok. eapply IH; [|exact H]. by inv_checked.
Qed.

Lemma parse_ok s d : parse s = Ok d → dec_ok d.
Proof.
  intros H. unfold parse in H. inv_ok. 
  destruct x as [m e]. destruct (strip_sign m) as [sg m']. 
  destruct (match split_once is_dot m' with Some (i, f) => (i, f) | None => (m', EmptyString) end) as [i f].
  inv_ok. destruct x0 as [u sc].
  assert (in_i128 x) as Hx by (eapply parse_units_range; [|eassumption]; by apply in_i128b_spec).
  assert (in_i128 u ∧ 0 ≤ sc) as [Hu Hsc].
  { match goal with H : (if _ then _ else _) = Ok (u, sc) |- _ => rename H into Hb end.
    destruct (wrap_u32 (slen f) - e <? 0); inv_ok.
    - inv_checked. simplify_eq. split; [done|lia].
    - simplify_eq. split; [done|].
      match goal with H : u32_try_from _ = Some _ |- _ => apply u32_try_from_some in H as [-> ?] end. lia. }
  assert (in_i128 (if sg then wrap_i128 (- u) else u)) as Hu' by (destruct sg; [apply wrap_i128_range|done]).
  destruct (MAX_SCALE <? sc) eqn:E.
  - destruct (MAX_SCALE <? scale (normalized _)) eqn:E2; [done|]. injection H as <-.
    destruct (normalized_spec (mkDec (if sg then wrap_i128 (- u) else u) sc)) as (? & ? & _); [done|done|].
    split; [simpl in *; lia|done].
  - injection H as <-. split; simpl; [lia|done].
Qed.

(** Printing at a fixed number of digits is exact or an error. *)
Lemma to_fixed_exact d dp t : dec_ok d → 0 ≤ dp ≤ MAX_SCALE → round_fits d dp → to_fixed d dp = Ok t →
  ∃ r, t = to_string r ∧ scale r = dp ∧ atto r = atto d.
Proof.
  intros Hd Hdp Hf H. unfold to_fixed in H. destruct (round_dp_atto d dp Floor Hd Hdp Hf) as (r & Hr & Hok & Hs & _).
  rewrite Hr in H. cbn [result_bind] in H. rewrite dec_eqb_atto in H by done. inv_ok.
  destruct (Z.eqb_spec (atto r) (atto d)); [|done]. by exists r.
Qed.

(** ** Properties *)

(** Comparison is exact: on any two decimals, whatever their scales and magnitudes (the extremes of [i128]
    included), [cmp] orders them as the numbers they stand for, and two decimals are equal exactly when they have the
    same normal form. *)
Theorem dec_order_exact a b : dec_ok a → dec_ok b →
  dec_cmp a b = (atto a ?= atto b) ∧ (dec_eqb a b = true ↔ normalized a = normalized b).
Proof.
  intros Ha Hb. split; [by apply dec_cmp_exact_aux|]. rewrite dec_eqb_atto, Z.eqb_eq by done. split.
  - intros E. apply canonical_unique; try (by apply normalized_ok || by apply normalized_canonical).
    by rewrite !normalized_atto.
  - intros E. by rewrite <-(normalized_atto a), <-(normalized_atto b), E.
Qed.

Lemma dec_order_exact_witness :
  dec_cmp (mkDec i128_min 0) (mkDec 5 18) = (atto (mkDec i128_min 0) ?= atto (mkDec 5 18)) ∧
  (dec_eqb (mkDec i128_min 0) (mkDec 5 18) = true ↔ normalized (mkDec i128_min 0) = normalized (mkDec 5 18)).
Proof. apply dec_order_exact; apply dec_okb_spec; vm_compute; reflexivity. Defined.

(** Rounding to [dp] digits is the reference rounding: when the rescaled number fits (always, when digits are
    dropped), [round_dp] returns the floor, the ceiling or the half-up multiple of [10^-dp] of the exact value, within
    one unit of it on the promised side, and rounding again changes nothing, in any mode. *)
Theorem rounding_exact d dp mode mode' : dec_ok d → 0 ≤ dp ≤ MAX_SCALE → round_fits d dp →
  ∃ r, round_dp d dp mode = Ok r ∧ dec_ok r ∧ scale r = dp ∧ atto r = round_to mode (atto d) (grain dp) ∧
    match mode with
    | Floor => atto r ≤ atto d < atto r + grain dp
    | Ceil => atto r - grain dp < atto d ≤ atto r
    | HalfUp => 2 * atto r - grain dp ≤ 2 * atto d < 2 * atto r + grain dp
    end ∧ round_dp r dp mode' = Ok r.
Proof.
  intros Hd Hdp Hf. destruct (round_dp_atto d dp mode Hd Hdp Hf) as (r & Hr & Hok & Hs & Hv).
  exists r. split; [done|]. split; [done|]. split; [done|]. split; [done|].
  pose proof (round_to_bounds mode (atto d) (grain dp) (grain_pos dp Hdp)) as Hb. rewrite <-Hv in Hb. split; [done|].
  assert (round_fits r dp) as Hfr by (apply round_dp_coarser; [lia|done]).
  destruct (round_dp_atto r dp mode' Hok Hdp Hfr) as (r' & -> & Hok' & Hs' & Hv').
  f_equal. destruct r as [u s], r' as [u' s']. simpl in Hs, Hs'. subst s s'. f_equal.
  rewrite atto_grain, (atto_grain (mkDec u dp)), round_to_exact in Hv' by (by apply grain_pos). simpl in Hv'.
  by apply Z.mul_cancel_r in Hv'; [|pose proof (grain_pos dp Hdp); lia].
Qed.

Lemma rounding_exact_witness :
  ∃ r, round_dp (mkDec (-12345) 3) 2 HalfUp = Ok r ∧ dec_ok r ∧ scale r = 2 ∧
    atto r = round_to HalfUp (atto (mkDec (-12345) 3)) (grain 2) ∧
    2 * atto r - grain 2 ≤ 2 * atto (mkDec (-12345) 3) < 2 * atto r + grain 2 ∧ round_dp r 2 Ceil = Ok r.
Proof.
  apply (rounding_exact (mkDec (-12345) 3) 2 HalfUp Ceil); [apply dec_okb_spec; vm_compute; reflexivity|unfold MAX_SCALE; lia|].
  intros Hle. simpl in Hle. lia.
Defined.

(** Rounding to a step never crosses the step grid the wrong way: towards the floor (the ceiling), the result is
    the one multiple of the step at or below (above) the exact value and less than one step away. *)
Theorem step_rounding d step mode r : dec_ok d → dec_ok step → mode ≠ HalfUp →
  round_to_multiple d step mode = Ok r →
  dec_ok r ∧ 0 < atto step ∧ (atto step | atto r) ∧
  (mode = Floor → atto r ≤ atto d < atto r + atto step) ∧ (mode = Ceil → atto r - atto step < atto d ≤ atto r).
Proof.
  intros Hd Hst Hm H. assert (0 < atto step) as Hpos.
  { apply is_positive_atto; [done|]. unfold round_to_multiple in H. by destruct (is_positive step). }
  destruct (round_to_multiple_atto d step mode r Hd Hst H Hm) as [Hok Hv].
  pose proof (round_to_bounds mode (atto d) (atto step) Hpos) as Hb. rewrite <-Hv in Hb.
  split; [done|]. split; [done|]. split; [|by destruct mode].
  rewrite Hv. destruct mode; [apply Z.divide_factor_r|apply Z.divide_factor_r|done].
Qed.

Lemma step_rounding_witness :
  round_to_multiple (mkDec 100057 3) (mkDec 5 2) Floor = Ok (mkDec 100050 3) ∧
  atto (mkDec 100050 3) ≤ atto (mkDec 100057 3) < atto (mkDec 100050 3) + atto (mkDec 5 2).
Proof.
  split; [vm_compute; reflexivity|].
  apply (step_rounding (mkDec 100057 3) (mkDec 5 2) Floor (mkDec 100050 3)); [| |discriminate| |reflexivity];
    first [apply dec_okb_spec; vm_compute; reflexivity|vm_compute; reflexivity].
Defined.

(** C40. Text is lossless and parsing is safe: printing then parsing gives back the very same decimal, units and scale
    (the one value [i128::MIN], whose magnitude has no [i128], apart), and whatever text is parsed, the decimal is well
    formed. *)
Theorem dec_text_roundtrip d : dec_ok d → units d ≠ i128_min →
  parse (to_string d) = Ok d ∧ ∀ s d', parse s = Ok d' → dec_ok d'.
Proof. intros Hd Hu. split; [by apply parse_to_string_aux|]. intros s d' H. by eapply parse_ok. Qed.

Lemma dec_text_roundtrip_witness :
  to_string (mkDec (-100) 2) = "-1.00" ∧ parse (to_string (mkDec (-100) 2)) = Ok (mkDec (-100) 2).
Proof.
  split; [vm_compute; reflexivity|].
  apply dec_text_roundtrip; [apply dec_okb_spec; vm_compute; reflexivity|vm_compute; discriminate].
Defined.

(** Printing with a fixed number of digits never loses value: it succeeds exactly when the value has at most [dp]
    digits, the text then parses back to the same value at scale [dp], and otherwise it is the too-precise error. *)
Theorem to_fixed_lossless d dp : dec_ok d → 0 ≤ dp ≤ MAX_SCALE → Z.abs (atto d) ≤ i128_max →
  match to_fixed d dp with
  | Ok t => ∃ r, parse t = Ok r ∧ scale r = dp ∧ atto r = atto d
  | Err e => e = DecError.TooPrecise (to_string d) ∧ ¬ (grain dp | atto d)
  end.
Proof.
  intros Hd Hdp Ha. pose proof (round_fits_atto d dp Hd ltac:(lia) Ha) as Hf.
  destruct (round_dp_atto d dp Floor Hd Hdp Hf) as (r & Hr & Hok & Hs & Hv).
  unfold to_fixed. rewrite Hr. cbn [result_bind]. rewrite dec_eqb_atto by done.
  pose proof (grain_pos dp Hdp). destruct (Z.eqb_spec (atto r) (atto d)) as [E|E].
  - exists r. split; [|done]. apply parse_to_string_aux; [done|]. intros Hmin.
    rewrite <-E, atto_grain, Hmin, Hs in Ha. unfold i128_min, i128_max in Ha. nia.
  - split; [done|]. intros [k Hk]. apply E. by rewrite Hv, Hk, round_to_exact.
Qed.

Lemma to_fixed_lossless_witness :
  ∃ r, parse "1.50" = Ok r ∧ scale r = 2 ∧ atto r = atto (mkDec 15 1).
Proof.
  pose proof (to_fixed_lossless (mkDec 15 1) 2) as W.
  replace (to_fixed (mkDec 15 1) 2) with (@Ok DecError.t _ "1.50") in W by (vm_compute; reflexivity).
  apply W; [apply dec_okb_spec; vm_compute; reflexivity|unfold MAX_SCALE; lia|vm_compute; discriminate].
Defined.
