(* ===== verification/DecMath.v ===== *)
(** * DecMath: crates/rebalancer-core/src/dec_math.rs

    Subtraction, negation, division and sums over [Dec], with overflow as an error, and the one conversion of an
    [f64] ratio to a decimal. *)

From Stdlib Require Import ZArith Lia String Ascii.
From Stdlib Require Import Floats.SpecFloat.
From S2P Require Import Prelude Text F64 Decimal.

Local Open Scope Z_scope.

(** [Dec::to_f64]: powers of ten up to [10^18] are exact doubles. *)
Definition to_f64 (d : Dec) : f64 := SFdiv 53 1024 (f64_of_int (units d)) (f64_of_int (10 ^ scale d)).

Module MathError.
Inductive t :=
| Overflow
| BadDivisor
| BadRatio (ratio why : string).

(** The [thiserror] messages. *)
Definition display (e : t) : string :=
  match e with
  | Overflow => "decimal arithmetic overflow"
  | BadDivisor => "division by a non-positive number"
  | BadRatio r why => "ratio " +:+ r +:+ " cannot be converted: " +:+ why
  end.
End MathError.
Abbreviation MathError := MathError.t.

Abbreviation math A := (result MathError A).

(** [x.map_err(|_| MathError::Overflow)] *)
Abbreviation or_overflow m := (map_err (fun _ => MathError.Overflow) m).

Definition neg (a : Dec) : math Dec :=
  let? u := ok_or (checked_i128 (- units a)) MathError.Overflow in
  or_overflow (dec_new u (scale a)).

Definition add (a b : Dec) : math Dec := ok_or (checked_add a b) MathError.Overflow.

Definition sub (a b : Dec) : math Dec := let? nb := neg b in add a nb.

Definition mul (a b : Dec) : math Dec := ok_or (checked_mul a b) MathError.Overflow.

Definition abs (a : Dec) : math Dec := if is_negative a then neg a else Ok a.

Definition sum (items : list Dec) : math Dec := try_fold add ZERO items.

(** [10i128.checked_pow(n)] *)
Definition checked_pow10 (n : Z) : math Z := ok_or (checked_i128 (10 ^ n)) MathError.Overflow.

Definition div_floor (n d : Dec) (dp : Z) : math Dec :=
  if negb (is_positive d) then Err MathError.BadDivisor
  else
    let e := dp + scale d - scale n in
    let? (num, den) :=
      (if 0 <=? e then
         let? x := ok_or (u32_try_from e) MathError.Overflow in
         let? m := checked_pow10 x in
         let? a := ok_or (checked_i128 (units n * m)) MathError.Overflow in
         Ok (a, units d)
       else
         let? x := ok_or (u32_try_from (- e)) MathError.Overflow in
         let? m := checked_pow10 x in
         let? b := ok_or (checked_i128 (units d * m)) MathError.Overflow in
         Ok (units n, b)) in
    or_overflow (dec_new (div_euclid num den) dp).

Inductive RatioRound := Down | Up.

#[export] Instance ratio_round_eq_dec : EqDecision RatioRound.
Proof. solve_decision. Defined.

Definition ratio_to_dec (v : f64) (round : RatioRound) : math Dec :=
  let bad why := MathError.BadRatio (f64_debug v) why in
  if negb (is_finite v) then Err (bad "not finite")
  else if f64_ltb v f64_zero then Err (bad "negative")
  else
    let text := f64_display v in
    let '(int_part, frac_part) :=
      match split_once is_dot text with
      | Some (i, f) => (i, f)
      | None => (text, EmptyString)
      end in
    if slen frac_part <=? 18 then map_err (fun _ => bad "not a decimal") (parse text)
    else
      let kept := stake 18 frac_part in
      let dropped := sdrop 18 frac_part in
      let? base := map_err (fun _ => bad "not a decimal") (parse (int_part +:+ "." +:+ kept)) in
      if bool_decide (round = Up) && negb (sall (fun b => Ascii.eqb b "0") dropped) then
        let? unit := map_err (fun _ => bad "scale") (dec_new 1 18) in
        add base unit
      else Ok base.

(** ** The operations are exact *)

Lemma dec_new_ok u s r : 0 ≤ s → in_i128 u → dec_new u s = Ok r → dec_ok r ∧ r = mkDec u s.
Proof.
  intros Hs Hu H. unfold dec_new in H. inv_ok. apply Z.ltb_ge in Heqb. split; [split; simpl; [lia|done]|done].
Qed.

Lemma neg_atto a r : dec_ok a → neg a = Ok r → dec_ok r ∧ atto r = - atto a ∧ scale r = scale a.
Proof.
  intros [Hs Hu] H. unfold neg in H. inv_ok. inv_checked.
  apply dec_new_ok in H as [? ->]; [|lia|done]. split; [done|]. split; [|done]. rewrite !atto_grain. simpl. lia.
Qed.

Lemma add_atto a b r : dec_ok a → dec_ok b → add a b = Ok r → dec_ok r ∧ atto r = atto a + atto b.
Proof. intros Ha Hb H. unfold add in H. inv_ok. destruct (checked_add_atto a b r Ha Hb H) as (? & ? & _). done. Qed.

Lemma sub_atto a b r : dec_ok a → dec_ok b → sub a b = Ok r → dec_ok r ∧ atto r = atto a - atto b.
Proof.
  intros Ha Hb H. unfold sub in H. inv_ok. destruct (neg_atto b x Hb) as (Hx & He & _); [done|].
  destruct (add_atto a x r Ha Hx H). split; [done|lia].
Qed.

Lemma mul_atto a b r : dec_ok a → dec_ok b → mul a b = Ok r → dec_ok r ∧ atto r = atto a * atto b / ONE.
Proof. intros Ha Hb H. unfold mul in H. inv_ok. by apply checked_mul_atto. Qed.

Lemma abs_atto a r : dec_ok a → abs a = Ok r → dec_ok r ∧ atto r = Z.abs (atto a).
Proof.
  intros Ha H. unfold abs in H. pose proof (is_negative_atto a Ha). destruct (is_negative a) eqn:E.
  - destruct (neg_atto a r Ha H) as (? & ? & _). split; [done|]. assert (atto a < 0) by tauto. lia.
  - injection H as <-. split; [done|]. destruct (Z.lt_ge_cases (atto a) 0); [|lia].
    assert (false = true) by tauto. done.
Qed.

Definition atto_sum (l : list Dec) : Z := foldr (fun d s => atto d + s) 0 l.

Lemma atto_sum_cons d l : atto_sum (d :: l) = atto d + atto_sum l.
Proof. done. Qed.

Lemma try_fold_add_atto l z r : dec_ok z → Forall dec_ok l → try_fold add z l = Ok r →
  dec_ok r ∧ atto r = atto z + atto_sum l.
Proof.
  revert z. induction l as [|x l IH]; intros z Hz Hl H; cbn [try_fold atto_sum foldr] in *.
  - injection H as <-. split; [done|lia].
  - apply bind_ok in H as (y & Hy & H). inversion Hl; subst.
    destruct (add_atto z x y) as [? He]; [done..|]. destruct (IH y) as [? He']; [done..|].
    split; [done|]. rewrite He', He. unfold atto_sum. lia.
Qed.

Lemma sum_atto l r : Forall dec_ok l → sum l = Ok r → dec_ok r ∧ atto r = atto_sum l.
Proof. intros Hl H. destruct (try_fold_add_atto l ZERO r ZERO_ok Hl H). split; [done|]. rewrite atto_zero in *. lia. Qed.

Lemma div_floor_atto n d dp r : dec_ok n → dec_ok d → 0 ≤ dp → div_floor n d dp = Ok r →
  dec_ok r ∧ scale r = dp ∧ 0 < atto d ∧ atto r = (atto n * 10 ^ dp / atto d) * grain dp.
Proof.
  intros Hn Hd Hdp H. pose proof Hn as [Hns Hnu]. pose proof Hd as [Hds Hdu]. unfold div_floor in H.
  destruct (is_positive d) eqn:Ep; [|done]. cbn [negb] in H. apply is_positive_atto in Ep; [|done].
  assert (0 < units d) as Hu by (by destruct (atto_sign d Hd) as (_ & ? & _); tauto).
  apply bind_ok in H as ([num den] & Hnd & H). rewrite map_err_ok in H.
  set (e := dp + scale d - scale n) in *.
  assert (0 < den ∧ in_i128 num ∧ num / den = atto n * 10 ^ dp / atto d) as (Hden & Hnum & Hq).
  { rewrite !atto_grain. pose proof (grain_pos _ Hns). pose proof (grain_pos _ Hds).
    destruct (Z.leb_spec 0 e); inv_ok;
      repeat match goal with H : u32_try_from _ = Some _ |- _ => apply u32_try_from_some in H as [-> ?]
             | H : checked_pow10 _ = Ok _ |- _ => unfold checked_pow10 in H; apply ok_or_ok in H end; inv_checked; simplify_eq.
    - split; [done|]. split; [done|].
      assert (10 ^ e * grain (scale d) = 10 ^ dp * grain (scale n)) as He.
      { unfold grain, MAX_SCALE in *. rewrite <-!ten_split by lia. f_equal. lia. }
      replace (units n * grain (scale n) * 10 ^ dp) with (units n * (10 ^ dp * grain (scale n))) by lia.
      rewrite <-He, Z.mul_assoc, Z.div_mul_cancel_r by lia. done.
    - pose proof (ten_pos (- e) ltac:(lia)). split; [nia|]. split; [done|].
      assert (10 ^ (- e) * (10 ^ dp * grain (scale n)) = grain (scale d)) as He.
      { unfold grain, MAX_SCALE in *. rewrite <-!ten_split by lia. f_equal. lia. }
      rewrite <-He. pose proof (ten_pos dp Hdp).
      replace (units n * grain (scale n) * 10 ^ dp) with (units n * (10 ^ dp * grain (scale n))) by lia.
      replace (units d * (10 ^ (- e) * (10 ^ dp * grain (scale n))))
        with (units d * 10 ^ (- e) * (10 ^ dp * grain (scale n))) by lia.
      rewrite Z.div_mul_cancel_r by nia. done. }
  rewrite div_euclid_pos in H by done. rewrite Hq in H.
  apply dec_new_ok in H as [? ->]; [|done|rewrite <-Hq; by apply in_i128_div; [lia|]].
  split; [done|]. split; [done|]. split; [done|]. rewrite (atto_grain (mkDec _ _)). done.
Qed.

Create HintDb decs.
#[export] Hint Resolve ZERO_ok dec_min_ok : decs.

(** The [atto] facts of every decimal operation in the context, as one tactic: each successful operation on
    well-formed operands is replaced by the well-formedness and the value of its result. *)
Ltac decs_step :=
  match goal with
  | H : add ?a ?b = Ok ?r |- _ =>
      let K := fresh "K" in let V := fresh "V" in
      destruct (add_atto a b r ltac:(eassumption) ltac:(eassumption) H) as [K V]; clear H
  | H : sub ?a ?b = Ok ?r |- _ =>
      let K := fresh "K" in let V := fresh "V" in
      destruct (sub_atto a b r ltac:(eassumption) ltac:(eassumption) H) as [K V]; clear H
  | H : mul ?a ?b = Ok ?r |- _ =>
      let K := fresh "K" in let V := fresh "V" in
      destruct (mul_atto a b r ltac:(eassumption) ltac:(eassumption) H) as [K V]; clear H
  | H : neg ?a = Ok ?r |- _ =>
      let K := fresh "K" in let V := fresh "V" in let S := fresh "S" in
      destruct (neg_atto a r ltac:(eassumption) H) as (K & V & S); clear H
  | H : abs ?a = Ok ?r |- _ =>
      let K := fresh "K" in let V := fresh "V" in
      destruct (abs_atto a r ltac:(eassumption) H) as [K V]; clear H
  end.
Ltac decs := repeat decs_step.

(** ** Properties *)

(** The common scale of a sum, and whether both operands and the result fit there. *)
Definition sum_fits (a b : Dec) : Prop :=
  let s := Z.max (scale a) (scale b) in
  in_i128 (units a * 10 ^ (s - scale a)) ∧ in_i128 (units b * 10 ^ (s - scale b)) ∧
  in_i128 (units a * 10 ^ (s - scale a) + units b * 10 ^ (s - scale b)).

Lemma add_none a b : dec_ok a → dec_ok b → checked_add a b = None ↔ ¬ sum_fits a b.
Proof.
  intros [Ha _] [Hb _]. unfold checked_add, sum_fits. unfold MAX_SCALE in *. rewrite !pow10_val by lia.
  destruct (checked_i128 (units a * _)) as [x|] eqn:Ex; simpl;
    [|apply checked_i128_none in Ex; split; [intros _ (? & _); done|done]].
  apply checked_i128_some in Ex as [-> Ex].
  destruct (checked_i128 (units b * _)) as [y|] eqn:Ey; simpl;
    [|apply checked_i128_none in Ey; split; [intros _ (_ & ? & _); done|done]].
  apply checked_i128_some in Ey as [-> Ey].
  destruct (checked_i128 (_ + _)) as [z|] eqn:Ez; simpl.
  - apply checked_i128_some in Ez as [-> Ez]. split; [done|]. intros []. done.
  - apply checked_i128_none in Ez. split; [intros _ (_ & _ & ?); done|done].
Qed.

(** Addition and multiplication are exact or an overflow error, never a wrong number: a sum is the exact sum, a
    product the exact product rounded down to 18 digits, and the error is returned exactly when an intermediate number
    does not fit an [i128]. *)
Theorem arithmetic_exact a b : dec_ok a → dec_ok b →
  match add a b with
  | Ok r => dec_ok r ∧ atto r = atto a + atto b
  | Err e => e = MathError.Overflow ∧ ¬ sum_fits a b
  end ∧
  match mul a b with
  | Ok r => dec_ok r ∧ atto r = atto a * atto b / ONE
  | Err e => e = MathError.Overflow ∧ ¬ in_i128 (units a * units b)
  end.
Proof.
  intros Ha Hb. split.
  - unfold add. destruct (checked_add a b) as [r|] eqn:E; simpl; [destruct (checked_add_atto a b r Ha Hb E) as (? & ? & _); done|].
    split; [done|]. by apply add_none.
  - unfold mul. destruct (checked_mul a b) as [r|] eqn:E; simpl; [by apply checked_mul_atto|].
    split; [done|]. by apply checked_mul_none.
Qed.

Lemma arithmetic_exact_witness :
  match add (mkDec i128_max 0) (mkDec 1 1) with
  | Ok r => dec_ok r ∧ atto r = atto (mkDec i128_max 0) + atto (mkDec 1 1)
  | Err e => e = MathError.Overflow ∧ ¬ sum_fits (mkDec i128_max 0) (mkDec 1 1)
  end.
Proof. apply (arithmetic_exact (mkDec i128_max 0) (mkDec 1 1)); apply dec_okb_spec; vm_compute; reflexivity. Defined.

(** Division is exact floor division: the quotient is the largest number of [dp] digits whose product with the
    divisor does not exceed the dividend (towards minus infinity for a negative dividend); a divisor that is not
    positive is an error, and so is every number that does not fit, never a wrapped result. *)
Theorem div_floor_exact n d dp : dec_ok n → dec_ok d → 0 ≤ dp →
  match div_floor n d dp with
  | Ok r => dec_ok r ∧ scale r = dp ∧ 0 < atto d ∧ atto r * atto d ≤ atto n * ONE < (atto r + grain dp) * atto d
  | Err MathError.BadDivisor => atto d ≤ 0
  | Err MathError.Overflow => 0 < atto d
  | Err _ => False
  end.
Proof.
  intros Hn Hd Hdp. destruct (div_floor n d dp) as [r|e] eqn:E.
  - destruct (div_floor_atto n d dp r Hn Hd Hdp E) as (Hok & Hs & Hpos & Hv).
    split; [done|]. split; [done|]. split; [done|]. rewrite Hv.
    assert (grain dp * 10 ^ dp = ONE) as HG by (destruct Hok as [Hsc _]; rewrite Hs in Hsc; rewrite Z.mul_comm; symmetry; by apply ONE_grain).
    pose proof (ten_pos dp Hdp). assert (0 < grain dp) by (pose proof ONE_pos; nia). rewrite <-HG.
    pose proof (Z.mul_div_le (atto n * 10 ^ dp) (atto d) Hpos).
    pose proof (Z.mul_succ_div_gt (atto n * 10 ^ dp) (atto d) Hpos).
    set (q := atto n * 10 ^ dp / atto d) in *. split; nia.
  - unfold div_floor in E. pose proof (is_positive_atto d Hd) as Hp. destruct (is_positive d) eqn:Ep; simpl in E.
    + assert (e = MathError.Overflow) as ->; [|tauto].
      revert E. unfold checked_pow10, dec_new. destruct (0 <=? _), (u32_try_from _); simpl; try congruence;
        (destruct (checked_i128 _); simpl; [|congruence]); (destruct (checked_i128 _); simpl; [|congruence]);
        destruct (MAX_SCALE <? dp); simpl; congruence.
    + injection E as <-. apply Z.nlt_ge. intros Hlt%Hp. done.
Qed.

Lemma div_floor_exact_witness :
  div_floor (mkDec (-1) 0) (mkDec 3 0) 2 = Ok (mkDec (-34) 2) ∧
  atto (mkDec (-34) 2) * atto (mkDec 3 0) ≤ atto (mkDec (-1) 0) * ONE.
Proof.
  split; [vm_compute; reflexivity|]. pose proof (div_floor_exact (mkDec (-1) 0) (mkDec 3 0) 2) as W.
  replace (div_floor (mkDec (-1) 0) (mkDec 3 0) 2) with (@Ok MathError.t _ (mkDec (-34) 2)) in W by (vm_compute; reflexivity).
  apply W; [apply dec_okb_spec; vm_compute; reflexivity|apply dec_okb_spec; vm_compute; reflexivity|lia].
Defined.
