(* ===== verification/Mandate.v ===== *)
(** * Mandate: the trading mandate and its validator (crates/mandate-core/src/mandate.rs)

    The record of what an account's agent may do, and [validate], which returns EVERY violation it finds, in a fixed
    order. A [Vec] that helper functions push to is modelled by concatenating what each pushes. *)

From Stdlib Require Import ZArith Lia String Ascii.
From S2P Require Import Prelude Text BTree F64 Externals.

Local Open Scope Z_scope.

Record Violation := { v_field : string; v_message : string }.

Definition violation (field message : string) : Violation := {| v_field := field; v_message := message |}.

(** ** Types *)

Record Money := { amount : string; ccy : string }.

Inductive CapitalSource := Own | ThirdParty | Mixed.

#[export] Instance capital_source_eq_dec : EqDecision CapitalSource.
Proof. solve_decision. Defined.

Section mandate.
Context `{Chrono}.

Record Acknowledgement := { ack_doc : string; ack_doc_version : string; ack_at : DateTime; ack_by : string }.

Record Basis := {
  capital_source : CapitalSource;
  jurisdiction : string;
  acknowledgements : list Acknowledgement;
}.
End mandate.

Record Capital := { allocated : Money; min_cash_reserve : f64 }.

Record Universe := {
  venues : list string;
  asset_classes : list string;
  instrument_allow : list string;
  instrument_deny : list string;
  shorting : bool;
  derivatives : bool;
  leverage_max_gross : f64;
}.

Record Exposure := {
  max_position : f64;
  max_asset_class : BTreeMap string f64;
  max_gross : f64;
  max_net : f64;
  max_order_notional : Money;
  max_orders_per_day : Z;
  max_turnover_per_day : f64;
}.

Inductive LadderAction := Shrink | HaltFlatten.

#[export] Instance ladder_action_eq_dec : EqDecision LadderAction.
Proof. solve_decision. Defined.

Record LadderRung := { rung_at : f64; rung_action : LadderAction; rung_scale : option f64 }.

Inductive ResumePolicy := HumanOnly.

Record Loss := {
  daily_loss_limit : f64;
  drawdown_ladder : list LadderRung;
  resume_after_halt : ResumePolicy;
}.

Inductive AgentAction :=
| PlaceOrders | CancelOrders | ResizeWithinLimits | Rebalance | Halt | Flatten | AddStrategy | RemoveStrategy
| RaiseTargetRisk | ChangeLimits | ResumeAfterHalt | ChangeCredentials | Withdraw.

#[export] Instance agent_action_eq_dec : EqDecision AgentAction.
Proof. solve_decision. Defined.

(** The derived [Debug] of the action. *)
Definition action_debug (a : AgentAction) : string :=
  match a with
  | PlaceOrders => "PlaceOrders" | CancelOrders => "CancelOrders" | ResizeWithinLimits => "ResizeWithinLimits"
  | Rebalance => "Rebalance" | Halt => "Halt" | Flatten => "Flatten" | AddStrategy => "AddStrategy"
  | RemoveStrategy => "RemoveStrategy" | RaiseTargetRisk => "RaiseTargetRisk" | ChangeLimits => "ChangeLimits"
  | ResumeAfterHalt => "ResumeAfterHalt" | ChangeCredentials => "ChangeCredentials" | Withdraw => "Withdraw"
  end.

Inductive AutonomyLevel := L0 | L1 | L2 | L3.

Definition level_rank (l : AutonomyLevel) : Z := match l with L0 => 0 | L1 => 1 | L2 => 2 | L3 => 3 end.
Definition level_debug (l : AutonomyLevel) : string :=
  match l with L0 => "L0" | L1 => "L1" | L2 => "L2" | L3 => "L3" end.

Record Autonomy := {
  level : AutonomyLevel;
  may : list AgentAction;
  needs_confirmation : list AgentAction;
  never : list AgentAction;
}.

Inductive DigestCadence := Daily | Weekly.

Record Reporting := { digest : DigestCadence; alert_channels : list string }.

Record MandateBody `{Chrono} := {
  basis : Basis;
  capital : Capital;
  universe : Universe;
  exposure : Exposure;
  loss : Loss;
  autonomy : Autonomy;
  reporting : Reporting;
}.

Definition REQUIRED_ACK_DOCS : list string := ["own_capital_attestation"; "risk_disclosure"].
Definition REQUIRED_NEVER : list AgentAction := [ChangeLimits; ResumeAfterHalt; ChangeCredentials; Withdraw].
Definition ORDER_ACTIONS : list AgentAction := [PlaceOrders; CancelOrders; ResizeWithinLimits; Rebalance; Flatten].

(** ** Field checks *)

Definition fraction (field : string) (v : f64) : list Violation :=
  if negb (is_finite v) || f64_leb v f64_zero then
    [violation field "must be greater than 0 (a fraction such as 0.10 for 10%)"]
  else if f64_ltb f64_one v then
    [violation field (f64_display v +:+ " is above 1: ratios are fractions, so 10% is written 0.10, not 10")]
  else [].

Definition multiple (field : string) (v : f64) : list Violation * bool :=
  if negb (is_finite v) || f64_leb v f64_zero then ([violation field "must be greater than 0"], false)
  else ([], true).

Definition money `{RustDecimal} (field : string) (m : Money) : list Violation * option Decimal :=
  let ok := (slen (ccy m) =? 3) && sall is_ascii_uppercase (ccy m) in
  let out :=
    if ok then []
    else [violation (field +:+ ".ccy") "must be a 3-letter uppercase currency code such as USD"] in
  match decimal_from_str (trim (amount m)) with
  | Some d =>
      if decimal_gtb d decimal_zero then (out, if ok then Some d else None)
      else (out ++ [violation (field +:+ ".amount") "must be greater than 0"], None)
  | None =>
      (out ++ [violation (field +:+ ".amount")
                 ("must be a decimal number written as a string, e.g. " +:+ dquote +:+ "5000.00" +:+ dquote)], None)
  end.

Definition nonempty_list (field : string) (items : list string) : list Violation :=
  (match items with [] => [violation field "must list at least one entry"] | _ => [] end) ++
  (if existsb (fun s => is_empty (trim s)) items then [violation field "entries must not be blank"] else []).

(** [{overlap:?}] of a list of strings *)
Definition debug_list (l : list string) : string := "[" +:+ join ", " (debug_str <$> l) +:+ "]".

Definition when (b : bool) (v : Violation) : list Violation := if b then [v] else [].

(** [for (i, x) in l.iter().enumerate()], collecting what each turn pushes *)
Fixpoint enumerate_from {A B} (f : Z → A → list B) (i : Z) (l : list A) : list B :=
  match l with
  | [] => []
  | x :: l' => f i x ++ enumerate_from f (i + 1) l'
  end.

(** ** The sections of [validate] *)

Section validate.
Context `{Chrono} `{RustDecimal}.

Definition check_basis (b : Basis) : list Violation :=
  when (negb (bool_decide (capital_source b = Own)))
    (violation "basis.capital_source"
      "only your own capital is supported right now; third-party or pooled money is not available") ++
  (let j := trim (jurisdiction b) in
   when (is_empty j || (16 <? slen j) || negb (sall (fun c => is_ascii_alphanumeric c || Ascii.eqb c "-") j))
     (violation "basis.jurisdiction" "must be a country or country-region code such as US-GA")) ++
  List.concat ((fun doc =>
     when (negb (existsb (fun a => String.eqb (ack_doc a) doc) (acknowledgements b)))
       (violation "basis.acknowledgements" ("missing required acknowledgement: " +:+ doc))) <$> REQUIRED_ACK_DOCS) ++
  enumerate_from (fun i a =>
     when (is_empty (trim (ack_by a)) || is_empty (trim (ack_doc_version a)))
       (violation ("basis.acknowledgements[" +:+ show_int i +:+ "]") "needs a signer and a document version"))
    0 (acknowledgements b).

Definition check_reserve (c : Capital) : list Violation :=
  when (negb (is_finite (min_cash_reserve c)) ||
        negb (f64_leb f64_zero (min_cash_reserve c) && f64_ltb (min_cash_reserve c) f64_one))
    (violation "capital.min_cash_reserve" "must be a fraction from 0 up to (not including) 1, e.g. 0.05 for 5%").

Definition check_universe_lists (u : Universe) : list Violation :=
  nonempty_list "universe.venues" (venues u) ++
  nonempty_list "universe.asset_classes" (asset_classes u) ++
  nonempty_list "universe.instrument_allow" (instrument_allow u) ++
  (let allow := bs_of_list ((fun s => to_uppercase (trim s)) <$> instrument_allow u) in
   let overlap := List.filter (fun s => bs_contains allow (to_uppercase (trim s))) (instrument_deny u) in
   match overlap with
   | [] => []
   | _ => [violation "universe.instrument_deny" ("also listed in instrument_allow: " +:+ debug_list overlap)]
   end).

Definition leverage_ok (u : Universe) : bool :=
  is_finite (leverage_max_gross u) && negb (f64_ltb (leverage_max_gross u) f64_one).

Definition check_exposure (u : Universe) (e : Exposure) : list Violation :=
  let '(v1, gross_ok) := multiple "exposure.max_gross" (max_gross e) in
  let '(v2, net_ok) := multiple "exposure.max_net" (max_net e) in
  let '(v3, pos_ok) := multiple "exposure.max_position" (max_position e) in
  v1 ++ v2 ++ v3 ++
  when (gross_ok && leverage_ok u && f64_ltb (leverage_max_gross u) (max_gross e))
    (violation "exposure.max_gross" "cannot exceed universe.leverage_max_gross") ++
  when (gross_ok && net_ok && f64_ltb (max_gross e) (max_net e))
    (violation "exposure.max_net" "cannot exceed exposure.max_gross") ++
  when (gross_ok && pos_ok && f64_ltb (max_gross e) (max_position e))
    (violation "exposure.max_position"
      (f64_display (max_position e) +:+ " is above the gross limit " +:+ f64_display (max_gross e) +:+
       ": if you meant a percent, use a fraction (0.25 for 25%)")) ++
  List.concat ((fun '(class, cap) =>
     let f := "exposure.max_asset_class." +:+ class in
     let '(vm, cap_ok) := multiple f cap in
     when (negb (existsb (fun c => String.eqb c class) (asset_classes u)))
       (violation f "is not one of universe.asset_classes") ++ vm ++
     when (cap_ok && gross_ok && f64_ltb (max_gross e) cap) (violation f "cannot exceed exposure.max_gross"))
   <$> max_asset_class e).

(** The notional check runs only when both amounts are usable; [money] is called in both cases only if the
    allocation was usable ([if let] evaluates the tuple, so the second [money] always runs). *)
Definition check_notional (alloc : option Decimal) (c : Capital) (e : Exposure) : list Violation :=
  let '(v, notional) := money "exposure.max_order_notional" (max_order_notional e) in
  v ++
  match alloc, notional with
  | Some a, Some n =>
      if negb (String.eqb (ccy (max_order_notional e)) (ccy (allocated c))) then
        [violation "exposure.max_order_notional.ccy" "must match capital.allocated.ccy"]
      else when (decimal_gtb n a) (violation "exposure.max_order_notional" "cannot exceed the allocated capital")
  | _, _ => []
  end.

(** One rung; the state carried along the ladder is [(prev_at, prev_scale)]. *)
Definition check_rung (n : Z) (i : Z) (prev_at prev_scale : f64) (r : LadderRung) : list Violation * f64 :=
  let f := "loss.drawdown_ladder[" +:+ show_int i +:+ "]" in
  let last := i + 1 =? n in
  let v1 := fraction (f +:+ ".at") (rung_at r) in
  let v2 := when (is_finite (rung_at r) && f64_leb (rung_at r) prev_at)
              (violation (f +:+ ".at") "rungs must be in strictly increasing order") in
  let bad_scale := [violation (f +:+ ".scale") "a shrink rung needs a scale strictly between 0 and 1"] in
  let '(v3, prev_scale') :=
    match rung_action r, rung_scale r with
    | Shrink, Some s =>
        if is_finite s && f64_ltb f64_zero s && f64_ltb s f64_one then
          (when (f64_ltb prev_scale s) (violation (f +:+ ".scale") "a later rung cannot scale positions back up"), s)
        else (bad_scale, prev_scale)
    | Shrink, None => (bad_scale, prev_scale)
    | HaltFlatten, Some _ => ([violation (f +:+ ".scale") "a halt_flatten rung takes no scale"], prev_scale)
    | HaltFlatten, None => ([], prev_scale)
    end in
  let v4 := when (last && negb (bool_decide (rung_action r = HaltFlatten)))
              (violation f "the last rung must be halt_flatten") in
  let v5 := when (negb last && bool_decide (rung_action r = HaltFlatten))
              (violation f "halt_flatten must be the last rung; later rungs could never be reached") in
  (v1 ++ v2 ++ v3 ++ v4 ++ v5, prev_scale').

Fixpoint check_rungs (n i : Z) (prev_at prev_scale : f64) (l : list LadderRung) : list Violation :=
  match l with
  | [] => []
  | r :: l' =>
      let '(v, prev_scale') := check_rung n i prev_at prev_scale r in
      v ++ check_rungs n (i + 1) (rung_at r) prev_scale' l'
  end.

Definition check_loss (l : Loss) : list Violation :=
  let ladder := drawdown_ladder l in
  fraction "loss.daily_loss_limit" (daily_loss_limit l) ++
  (match ladder with
   | [] => [violation "loss.drawdown_ladder" "needs at least one rung, ending in halt_flatten"]
   | _ => []
   end) ++
  check_rungs (Z.of_nat (length ladder)) 0 f64_zero f64_one ladder ++
  (match last ladder with
   | Some r =>
       when (is_finite (daily_loss_limit l) && is_finite (rung_at r) && f64_ltb (rung_at r) (daily_loss_limit l))
         (violation "loss.daily_loss_limit" "cannot be larger than the final drawdown rung")
   | None => []
   end).

(** [seen.insert(action, name)] over the three lists: the map is an association list, newest first. *)
Fixpoint seen_lookup (a : AgentAction) (seen : list (AgentAction * string)) : option string :=
  match seen with
  | [] => None
  | (b, n) :: seen' => if decide (a = b) then Some n else seen_lookup a seen'
  end.

Fixpoint check_listed (name : string) (seen : list (AgentAction * string)) (l : list AgentAction)
    : list Violation * list (AgentAction * string) :=
  match l with
  | [] => ([], seen)
  | a :: l' =>
      let v :=
        match seen_lookup a seen with
        | Some prev =>
            [violation ("autonomy." +:+ name)
               (action_debug a +:+ " is already listed under " +:+ prev +:+ "; an action can be in only one list")]
        | None => []
        end in
      let '(vs, seen') := check_listed name ((a, name) :: seen) l' in
      (v ++ vs, seen')
  end.

Definition check_autonomy (a : Autonomy) : list Violation :=
  List.concat ((fun r => when (negb (bool_decide (r ∈ never a)))
     (violation "autonomy.never" ("must always include " +:+ action_debug r))) <$> REQUIRED_NEVER) ++
  (let '(v1, s1) := check_listed "may" [] (may a) in
   let '(v2, s2) := check_listed "needs_confirmation" s1 (needs_confirmation a) in
   let '(v3, _) := check_listed "never" s2 (never a) in
   v1 ++ v2 ++ v3) ++
  (if level_rank (level a) <? level_rank L2 then
     match List.find (fun x => bool_decide (x ∈ ORDER_ACTIONS)) (may a) with
     | Some act =>
         [violation "autonomy.may" (action_debug act +:+ " needs autonomy level L2 or higher; at " +:+
            level_debug (level a) +:+ " the agent may only suggest")]
     | None => []
     end
   else []).

Definition validate (m : MandateBody) : list Violation :=
  let '(v_alloc, alloc) := money "capital.allocated" (allocated (capital m)) in
  check_basis (basis m) ++
  v_alloc ++ check_reserve (capital m) ++
  check_universe_lists (universe m) ++
  when (negb (leverage_ok (universe m)))
    (violation "universe.leverage_max_gross" "must be at least 1 (1 means no leverage)") ++
  check_exposure (universe m) (exposure m) ++
  check_notional alloc (capital m) (exposure m) ++
  when (max_orders_per_day (exposure m) =? 0) (violation "exposure.max_orders_per_day" "must be at least 1") ++
  (multiple "exposure.max_turnover_per_day" (max_turnover_per_day (exposure m))).1 ++
  check_loss (loss m) ++
  check_autonomy (autonomy m) ++
  (match alert_channels (reporting m) with
   | [] => [violation "reporting.alert_channels" "needs at least one channel so a halt reaches a person"]
   | _ => []
   end).
End validate.

(** [canonical_hash]: the digest of the canonical serialization ([serde_json::to_vec], a parameter). *)
Class MandateSerde `{Chrono} := { mandate_to_vec : MandateBody → string }.
Definition canonical_hash `{Chrono, MandateSerde, Sha256} (m : MandateBody) : string := sha256_hex (mandate_to_vec m).
