(* ===== verification/Policy.v ===== *)
(** * Policy: crates/rebalancer-core/src/policy.rs

    A mandate body compiled once into exact decimal limits ([compile]), the instant-dependent standing of the policy
    ([standing]), the capital base every percentage limit is measured against, and the deployment limits that can only
    tighten a policy ([with_deployment]). *)

From Stdlib Require Import ZArith Lia String Ascii.
From S2P Require Import Prelude Text BTree F64 Externals Decimal DecMath Mandate.

Local Open Scope Z_scope.

(** ** Types *)

Module MandateStatus.
Inductive t := Draft | Active | Superseded | Revoked | Expired.

(** The derived [Debug]. *)
Definition debug (s : t) : string :=
  match s with
  | Draft => "Draft" | Active => "Active" | Superseded => "Superseded" | Revoked => "Revoked" | Expired => "Expired"
  end.
End MandateStatus.

#[export] Instance mandate_status_eq_dec : EqDecision MandateStatus.t.
Proof. solve_decision. Defined.

Record MandateEnvelope `{Chrono} := {
  env_version : Z;
  env_status : MandateStatus.t;
  effective_from : DateTime;
  review_by : DateTime;
}.

(** The compiled limits; the fields are those of the mandate, converted, hence the prefix. *)
Record Limits := {
  l_ccy : string;
  l_allocated : Dec;
  l_min_cash_reserve : Dec;
  l_instrument_allow : BTreeSet string;
  l_instrument_deny : BTreeSet string;
  l_venues : BTreeSet string;
  l_asset_classes : BTreeSet string;
  l_shorting : bool;
  l_derivatives : bool;
  l_leverage_max_gross : Dec;
  l_max_position : Dec;
  l_max_asset_class : BTreeMap string Dec;
  l_max_gross : Dec;
  l_max_net : Dec;
  l_max_order_notional : Dec;
  l_max_orders_per_day : Z;
  l_max_turnover_per_day : Dec;
}.

Inductive PolicyBody :=
| Valid (l : Limits)
| Invalid (reasons : list string).

Definition DEFAULT_MAX_PRICE_AGE_SECS : Z := 300.
Definition MAX_FUTURE_SKEW_SECS : Z := 5.

Record Policy `{Chrono} := {
  body_hash : string;
  body : PolicyBody;
  envelope : option MandateEnvelope;
  max_price_age_secs : Z;
}.

Module Standing.
Inductive t :=
| Active
| Expired
| NotActive (why : string)
| Invalid.
End Standing.

#[export] Instance standing_eq_dec : EqDecision Standing.t.
Proof. solve_decision. Defined.

(** ** Compilation *)

Definition money_dec (m : Money) : math Dec :=
  map_err (fun _ => MathError.BadRatio (amount m) "not a decimal amount") (parse (trim (amount m))).

Definition normalise (items : list string) (upper : bool) : BTreeSet string :=
  bs_of_list ((fun s => if upper then to_uppercase (trim s) else to_lowercase (trim s)) <$> items).

Definition convert_class (classes : BTreeMap string Dec) (e : string * f64) : math (BTreeMap string Dec) :=
  let? c := ratio_to_dec e.2 Down in
  Ok (bt_insert (to_lowercase (trim e.1)) c classes).

Definition convert `{Chrono} (b : MandateBody) : math Limits :=
  let u := universe b in
  let e := exposure b in
  let? leverage := ratio_to_dec (leverage_max_gross u) Down in
  let? gross := ratio_to_dec (max_gross e) Down in
  let max_gross := dec_min gross leverage in
  let? classes := try_fold convert_class [] (max_asset_class e) in
  let? alloc := money_dec (allocated (capital b)) in
  let? reserve := ratio_to_dec (min_cash_reserve (capital b)) Up in
  let? position := ratio_to_dec (max_position e) Down in
  let? net := ratio_to_dec (max_net e) Down in
  let? notional := money_dec (max_order_notional e) in
  let? turnover := ratio_to_dec (max_turnover_per_day e) Down in
  Ok {| l_ccy := ccy (allocated (capital b));
        l_allocated := alloc;
        l_min_cash_reserve := reserve;
        l_instrument_allow := normalise (instrument_allow u) true;
        l_instrument_deny := normalise (instrument_deny u) true;
        l_venues := normalise (venues u) false;
        l_asset_classes := normalise (asset_classes u) false;
        l_shorting := shorting u;
        l_derivatives := derivatives u;
        l_leverage_max_gross := leverage;
        l_max_position := position;
        l_max_asset_class := classes;
        l_max_gross := max_gross;
        l_max_net := net;
        l_max_order_notional := notional;
        l_max_orders_per_day := max_orders_per_day e;
        l_max_turnover_per_day := turnover |}.

Section policy.
Context `{Chrono}.

Definition compile `{RustDecimal, !MandateSerde, Sha256} (b : MandateBody) : Policy :=
  {| body_hash := canonical_hash b;
     body :=
       match validate b with
       | [] =>
           match convert b with
           | Ok l => Valid l
           | Err e => Invalid ["could not convert the mandate's numbers: " +:+ MathError.display e]
           end
       | vs => Invalid ((fun v => v_field v +:+ ": " +:+ v_message v) <$> vs)
       end;
     envelope := None;
     max_price_age_secs := DEFAULT_MAX_PRICE_AGE_SECS |}.

Definition with_envelope (p : Policy) (e : MandateEnvelope) : Policy :=
  {| body_hash := body_hash p; body := body p; envelope := Some e; max_price_age_secs := max_price_age_secs p |}.

Definition with_max_price_age_secs (p : Policy) (secs : Z) : Policy :=
  {| body_hash := body_hash p; body := body p; envelope := envelope p; max_price_age_secs := secs |}.

Definition limits (p : Policy) : option Limits :=
  match body p with Valid l => Some l | Invalid _ => None end.

Definition standing (p : Policy) (now : DateTime) : Standing.t :=
  match limits p with
  | None => Standing.Invalid
  | Some _ =>
      match envelope p with
      | None => Standing.NotActive "no mandate envelope (status, effective and review dates) was supplied"
      | Some env =>
          if negb (bool_decide (env_status env = MandateStatus.Active)) then
            Standing.NotActive ("mandate status is " +:+ MandateStatus.debug (env_status env) +:+ ", not Active")
          else if dt_ltb now (effective_from env) then
            Standing.NotActive ("mandate is effective from " +:+ dt_display (effective_from env) +:+ ", not yet")
          else if dt_leb (review_by env) now then Standing.Expired
          else Standing.Active
      end
  end.

Definition capital_base (p : Policy) (equity : Dec) (account_ccy : string) : Dec :=
  match limits p with
  | Some l => if eq_ignore_ascii_case (l_ccy l) (trim account_ccy) then dec_min equity (l_allocated l) else equity
  | None => equity
  end.

Definition reserve_amount (p : Policy) (capital_base : Dec) : math Dec :=
  match limits p with
  | None => Ok capital_base
  | Some l => let? m := mul (l_min_cash_reserve l) capital_base in or_overflow (round_dp m 8 Ceil)
  end.
End policy.

(** ** Deployment limits *)

Record DeploymentLimits := {
  d_capital_allocation : option Dec;
  d_max_position : option Dec;
  d_max_gross : option Dec;
  d_max_net : option Dec;
  d_max_order_notional : option Dec;
  d_max_orders_per_day : option Z;
  d_max_turnover_per_day : option Dec;
  d_min_cash_reserve : option Dec;
  d_max_asset_class : BTreeMap string Dec;
}.

Definition tighten (current : Dec) (cap : option Dec) : Dec :=
  match cap with
  | Some c => if dec_ltb c current then c else current
  | None => current
  end.

Definition tighten_class (m : BTreeMap string Dec) (e : string * Dec) : BTreeMap string Dec :=
  let class := to_lowercase (trim e.1) in
  match bt_get m class with
  | Some cur => bt_insert class (tighten cur (Some e.2)) m
  | None => bt_insert class e.2 m
  end.

Definition deploy_limits (l : Limits) (d : DeploymentLimits) : Limits :=
  {| l_ccy := l_ccy l;
     l_allocated := tighten (l_allocated l) (d_capital_allocation d);
     l_min_cash_reserve :=
       match d_min_cash_reserve d with
       | Some r => if dec_ltb (l_min_cash_reserve l) r then r else l_min_cash_reserve l
       | None => l_min_cash_reserve l
       end;
     l_instrument_allow := l_instrument_allow l;
     l_instrument_deny := l_instrument_deny l;
     l_venues := l_venues l;
     l_asset_classes := l_asset_classes l;
     l_shorting := l_shorting l;
     l_derivatives := l_derivatives l;
     l_leverage_max_gross := l_leverage_max_gross l;
     l_max_position := tighten (l_max_position l) (d_max_position d);
     l_max_asset_class := fold_left tighten_class (d_max_asset_class d) (l_max_asset_class l);
     l_max_gross := tighten (l_max_gross l) (d_max_gross d);
     l_max_net := tighten (l_max_net l) (d_max_net d);
     l_max_order_notional := tighten (l_max_order_notional l) (d_max_order_notional d);
     l_max_orders_per_day :=
       match d_max_orders_per_day d with
       | Some n => Z.min (l_max_orders_per_day l) n
       | None => l_max_orders_per_day l
       end;
     l_max_turnover_per_day := tighten (l_max_turnover_per_day l) (d_max_turnover_per_day d) |}.

Definition with_deployment `{Chrono} (p : Policy) (d : DeploymentLimits) : Policy :=
  match body p with
  | Invalid _ => p
  | Valid l =>
      {| body_hash := body_hash p; body := Valid (deploy_limits l d); envelope := envelope p;
         max_price_age_secs := max_price_age_secs p |}
  end.

(** [d.map_or("-", |v| v.normalized().to_string())], used by every digest *)
Definition show_opt_dec (d : option Dec) : string :=
  match d with Some v => to_string (normalized v) | None => "-" end.

Definition deployment_digest (d : DeploymentLimits) : string :=
  "cap=" +:+ show_opt_dec (d_capital_allocation d) +:+
  "|pos=" +:+ show_opt_dec (d_max_position d) +:+
  "|gross=" +:+ show_opt_dec (d_max_gross d) +:+
  "|net=" +:+ show_opt_dec (d_max_net d) +:+
  "|notional=" +:+ show_opt_dec (d_max_order_notional d) +:+
  "|orders=" +:+ (match d_max_orders_per_day d with Some n => show_int n | None => "-" end) +:+
  "|turnover=" +:+ show_opt_dec (d_max_turnover_per_day d) +:+
  "|reserve=" +:+ show_opt_dec (d_min_cash_reserve d) +:+
  "|classes=" +:+
  join "," ((fun e => to_lowercase e.1 +:+ "=" +:+ to_string (normalized e.2)) <$> d_max_asset_class d).

(** ** Well-formed limits: every decimal of a compiled policy is one the exactness lemmas apply to *)

Definition limit_decs (l : Limits) : list Dec :=
  [l_allocated l; l_min_cash_reserve l; l_leverage_max_gross l; l_max_position l; l_max_gross l; l_max_net l;
   l_max_order_notional l; l_max_turnover_per_day l].

Record limits_ok (l : Limits) : Prop := {
  lo_decs : Forall dec_ok (limit_decs l);
  lo_classes : ∀ c d, bt_get (l_max_asset_class l) c = Some d → dec_ok d;
  lo_sorted : bt_sorted (l_max_asset_class l);
}.

Definition policy_ok `{Chrono} (p : Policy) : Prop := ∀ l, limits p = Some l → limits_ok l.

Lemma ratio_to_dec_ok v r d : ratio_to_dec v r = Ok d → dec_ok d.
Proof.
  unfold ratio_to_dec. intros H.
  destruct (negb (is_finite v)); [done|]. destruct (f64_ltb v f64_zero); [done|].
  destruct (match split_once is_dot _ with Some _ => _ | None => _ end) as [i f].
  destruct (slen f <=? 18); [apply map_err_ok in H; by eapply parse_ok|].
  apply bind_ok in H as (b & Hb & H). apply map_err_ok, parse_ok in Hb.
  destruct (bool_decide (r = Up) && _); [|by simplify_eq].
  apply bind_ok in H as (u & Hu & H). apply map_err_ok in Hu.
  apply dec_new_ok in Hu as [? _]; [|lia|by vm_compute]. by destruct (add_atto b u d).
Qed.

Lemma money_dec_ok m d : money_dec m = Ok d → dec_ok d.
Proof. unfold money_dec. rewrite map_err_ok. apply parse_ok. Qed.

Definition classes_ok (m : BTreeMap string Dec) : Prop :=
  (∀ c d, bt_get m c = Some d → dec_ok d) ∧ bt_sorted m.

Lemma classes_ok_insert m c d : classes_ok m → dec_ok d → classes_ok (bt_insert c d m).
Proof.
  intros [Hm Hs] Hd. split; [|by apply bt_insert_sorted]. intros c' d'. destruct (decide (c' = c)) as [->|].
  - rewrite bt_get_insert_eq. by intros [= <-].
  - rewrite bt_get_insert_ne by done. apply Hm.
Qed.

Lemma convert_classes_ok l m m' : classes_ok m → try_fold convert_class m l = Ok m' → classes_ok m'.
Proof.
  intros Hm H. eapply (try_fold_inv classes_ok convert_class l); [|done|done].
  intros s x s' _ Hs Hc. unfold convert_class in Hc. apply bind_ok in Hc as (d & Hd & [= <-]).
  apply classes_ok_insert; [done|]. by eapply ratio_to_dec_ok.
Qed.

Lemma convert_ok `{Chrono} b l : convert b = Ok l → limits_ok l.
Proof.
  unfold convert. intros Hc.
  repeat match goal with
         | H : result_bind _ _ = Ok _ |- _ => apply bind_ok in H; destruct H as (? & ? & H)
         | H : ratio_to_dec _ _ = Ok _ |- _ => apply ratio_to_dec_ok in H
         | H : money_dec _ = Ok _ |- _ => apply money_dec_ok in H
         | H : try_fold convert_class [] _ = Ok _ |- _ =>
             apply convert_classes_ok in H as [? ?]; [|split; [done|constructor]]
         end.
  injection Hc as <-. split; simpl; [|done..]. unfold limit_decs; simpl.
  rewrite !Forall_cons. split_and!; try done. by apply dec_min_ok.
Qed.

Lemma compile_ok `{Chrono, RustDecimal, !MandateSerde, Sha256} b : policy_ok (compile b).
Proof.
  intros l. unfold limits, compile; simpl. destruct (validate b); [|done].
  destruct (convert b) eqn:E; [intros [= <-]; by eapply convert_ok|done].
Qed.

Lemma limits_ok_field l d : limits_ok l → d ∈ limit_decs l → dec_ok d.
Proof. intros [Hd _ _]. rewrite Forall_forall in Hd. apply Hd. Qed.

(** Well-formedness of one field of well-formed limits. *)
Ltac limit_field :=
  match goal with
  | |- dec_ok (_ ?l) => apply (limits_ok_field l); [assumption|unfold limit_decs; rewrite !elem_of_cons; tauto]
  end.
#[export] Hint Extern 1 (dec_ok (_ ?l)) => limit_field : decs.

Section policy_lemmas.
Context `{Chrono}.

Lemma capital_base_ok p e c : policy_ok p → dec_ok e → dec_ok (capital_base p e c).
Proof.
  intros Hp He. unfold capital_base. destruct (limits p) as [l|] eqn:El; [|done].
  case_match; [|done]. apply dec_min_ok; [done|]. specialize (Hp l El). limit_field.
Qed.

Lemma capital_base_le p e c : policy_ok p → dec_ok e → atto (capital_base p e c) ≤ atto e.
Proof.
  intros Hp He. unfold capital_base. destruct (limits p) as [l|] eqn:El; [|done].
  case_match; [|done]. specialize (Hp l El). rewrite dec_min_atto by (done || limit_field). lia.
Qed.
Lemma reserve_amount_ok p base r : policy_ok p → dec_ok base → reserve_amount p base = Ok r → dec_ok r.
Proof.
  intros Hp Hb Hr. unfold reserve_amount in Hr. destruct (limits p) as [l|] eqn:El; [|by injection Hr as <-].
  specialize (Hp l El). apply bind_ok in Hr as (m & Hm & Hr). apply map_err_ok in Hr.
  destruct (mul_atto (l_min_cash_reserve l) base m) as [Hmok _]; [limit_field|done|done|].
  by eapply round_dp_ok in Hr.
Qed.

(** [or_overflow] only catches the scale error: the rounding itself wraps when the amount, written with 8 decimals,
    does not fit 128 bits. Up to [i128_max] * 10^-18 currency units it is exact. *)
Lemma reserve_amount_atto p l base r : policy_ok p → limits p = Some l → dec_ok base →
  Z.abs (atto (l_min_cash_reserve l) * atto base / ONE) ≤ i128_max →
  reserve_amount p base = Ok r →
  dec_ok r ∧ atto r = round_to Ceil (atto (l_min_cash_reserve l) * atto base / ONE) (grain 8).
Proof.
  intros Hp Hl Hb Hm Hr. unfold reserve_amount in Hr. rewrite Hl in Hr. specialize (Hp l Hl).
  apply bind_ok in Hr as (m & Hmul & Hr). apply map_err_ok in Hr.
  destruct (mul_atto (l_min_cash_reserve l) base m) as [Hmok Hmv]; [limit_field|done|done|].
  rewrite <-Hmv in Hm |- *.
  destruct (round_dp_atto m 8 Ceil Hmok) as (r' & Hr' & ? & ? & ?); [done|by apply round_fits_atto|].
  rewrite Hr' in Hr. by simplify_eq.
Qed.
End policy_lemmas.

(** ** Deployment limits are the pointwise stricter of the two *)


Record deployment_ok (d : DeploymentLimits) : Prop := {
  do_opts : Forall opt_dec_ok [d_capital_allocation d; d_max_position d; d_max_gross d; d_max_net d;
                           d_max_order_notional d; d_max_turnover_per_day d; d_min_cash_reserve d];
  do_classes : ∀ c x, (c, x) ∈ d_max_asset_class d → dec_ok x;
}.

(** A cap that is absent is infinite. *)
Definition cap_min (cap : Z) (o : option Dec) : Z :=
  match o with Some d => Z.min cap (atto d) | None => cap end.

Lemma tighten_atto c o : dec_ok c → opt_dec_ok o → atto (tighten c o) = cap_min (atto c) o.
Proof.
  intros Hc Ho. unfold tighten, cap_min. destruct o as [d|]; [|done].
  rewrite dec_ltb_atto by (done || by apply Ho). destruct (Z.ltb_spec (atto d) (atto c)); lia.
Qed.

Lemma tighten_ok c o : dec_ok c → opt_dec_ok o → dec_ok (tighten c o).
Proof. intros Hc Ho. unfold tighten. destruct o as [d|]; [|done]. case_match; [by apply Ho|done]. Qed.

Lemma tighten_twice c o : dec_ok c → opt_dec_ok o → tighten (tighten c o) o = tighten c o.
Proof.
  intros Hc Ho. unfold tighten. destruct o as [d|]; [|done]. specialize (Ho d eq_refl).
  destruct (dec_ltb d c) eqn:E; [|by rewrite E]. rewrite dec_ltb_atto by done. by rewrite Z.ltb_irrefl.
Qed.

Definition class_name (s : string) : string := to_lowercase (trim s).

Lemma tighten_class_get m e c :
  bt_get (tighten_class m e) c =
  if bool_decide (c = class_name e.1) then
    Some (match bt_get m c with Some cur => tighten cur (Some e.2) | None => e.2 end)
  else bt_get m c.
Proof.
  unfold tighten_class. fold (class_name e.1). case_bool_decide as Hc.
  - subst c. destruct (bt_get m (class_name e.1)); by rewrite bt_get_insert_eq.
  - destruct (bt_get m (class_name e.1)); by rewrite bt_get_insert_ne.
Qed.

Lemma tighten_class_ok m e : classes_ok m → dec_ok e.2 → classes_ok (tighten_class m e).
Proof.
  intros Hm He. unfold tighten_class. destruct (bt_get m _) eqn:E; apply classes_ok_insert; try done.
  apply tighten_ok; [by eapply Hm|]. by intros ? [= <-].
Qed.

Lemma tighten_classes_ok ds m : classes_ok m → Forall (fun e => dec_ok e.2) ds →
  classes_ok (fold_left tighten_class ds m).
Proof.
  intros Hm Hd. revert m Hm. induction Hd as [|e ds He Hd IH]; intros m Hm; [done|]. by apply IH, tighten_class_ok.
Qed.

(** After the loop a class has a cap when either side caps it, and the cap is the least of those given for it. *)
Lemma tighten_classes_get ds m c : classes_ok m → Forall (fun e => dec_ok e.2) ds →
  match bt_get (fold_left tighten_class ds m) c with
  | None => bt_get m c = None ∧ (∀ e, e ∈ ds → class_name e.1 ≠ c)
  | Some x =>
      (bt_get m c = Some x ∨ ∃ e, e ∈ ds ∧ class_name e.1 = c ∧ e.2 = x) ∧
      (∀ y, bt_get m c = Some y → atto x ≤ atto y) ∧
      (∀ e, e ∈ ds → class_name e.1 = c → atto x ≤ atto e.2)
  end.
Proof.
  intros Hm Hd. revert m Hm. induction Hd as [|e ds He Hd IH]; intros m Hm; simpl.
  - destruct (bt_get m c) eqn:E; [|by split; [|set_solver]]. split; [by left|]. split; [|set_solver].
    intros y [= <-]. lia.
  - specialize (IH _ (tighten_class_ok m e Hm He)). rewrite tighten_class_get in IH.
    destruct (bt_get (fold_left tighten_class ds (tighten_class m e)) c) as [x|].
    + destruct IH as (Hin & Hle & Hds). case_bool_decide as Hc.
      * specialize (Hle _ eq_refl). destruct (bt_get m c) as [cur|] eqn:Ecur.
        -- assert (dec_ok cur) by (by eapply Hm). assert (opt_dec_ok (Some e.2)) as Ho by (by intros ? [= <-]).
           rewrite tighten_atto in Hle by done. simpl in Hle. split; [|split].
           ++ destruct Hin as [[= <-]|(e' & ? & ? & ?)]; [|right; exists e'; set_solver].
              unfold tighten. case_match; [right; exists e; set_solver|by left].
           ++ intros y [= <-]. lia.
           ++ intros e' [->|?]%elem_of_cons ?; [lia|by apply Hds].
        -- split; [|split].
           ++ destruct Hin as [[= <-]|(e' & ? & ? & ?)]; [right; exists e|right; exists e']; set_solver.
           ++ done.
           ++ intros e' [->|?]%elem_of_cons ?; [lia|by apply Hds].
      * split; [|split]; [|done|].
        -- destruct Hin as [?|(e' & ? & ? & ?)]; [by left|right; exists e'; set_solver].
        -- intros e' [->|?]%elem_of_cons ?; [done|by apply Hds].
    + destruct IH as [Hg Hds]. case_bool_decide as Hc; [done|]. split; [done|].
      intros e' [->|?]%elem_of_cons; [done|by apply Hds].
Qed.

Lemma deploy_facts l d : limits_ok l → deployment_ok d →
  limits_ok (deploy_limits l d) ∧
  atto (l_min_cash_reserve (deploy_limits l d)) =
    Z.max (atto (l_min_cash_reserve l)) (atto (default (l_min_cash_reserve l) (d_min_cash_reserve d))) ∧
  ∀ c, match bt_get (l_max_asset_class (deploy_limits l d)) c with
       | None => bt_get (l_max_asset_class l) c = None ∧ (∀ e, e ∈ d_max_asset_class d → class_name e.1 ≠ c)
       | Some x =>
           (bt_get (l_max_asset_class l) c = Some x ∨
              ∃ e, e ∈ d_max_asset_class d ∧ class_name e.1 = c ∧ e.2 = x) ∧
           (∀ y, bt_get (l_max_asset_class l) c = Some y → atto x ≤ atto y) ∧
           (∀ e, e ∈ d_max_asset_class d → class_name e.1 = c → atto x ≤ atto e.2)
       end.
Proof.
  intros Hok [Hopts Hcl]. rewrite !Forall_cons in Hopts. destruct Hopts as (? & ? & ? & ? & ? & ? & Hr & _).
  assert (Forall (fun e => dec_ok e.2) (d_max_asset_class d)) as Hds.
  { apply Forall_forall. intros [c x] Hin. by eapply Hcl. }
  assert (classes_ok (l_max_asset_class l)) as Hm by (split; apply Hok).
  assert (dec_ok (l_min_cash_reserve l)) by limit_field.
  assert (dec_ok (l_min_cash_reserve (deploy_limits l d)) ∧ atto (l_min_cash_reserve (deploy_limits l d)) =
    Z.max (atto (l_min_cash_reserve l)) (atto (default (l_min_cash_reserve l) (d_min_cash_reserve d)))) as [Hrok Hrv].
  { simpl. destruct (d_min_cash_reserve d) as [r|]; simpl; [|split; [done|lia]]. specialize (Hr r eq_refl).
    rewrite dec_ltb_atto by done. destruct (Z.ltb_spec (atto (l_min_cash_reserve l)) (atto r)); split; done || lia. }
  split; [|split; [done|]].
  - destruct (tighten_classes_ok _ _ Hm Hds). split; [|done..].
    unfold limit_decs. rewrite !Forall_cons. split_and!; try done; simpl; try (apply tighten_ok; [limit_field|done]).
    limit_field.
  - intros c. by apply tighten_classes_get.
Qed.

Definition deployment_okb (d : DeploymentLimits) : bool :=
  forallb (fun o => match o with Some x => dec_okb x | None => true end)
    [d_capital_allocation d; d_max_position d; d_max_gross d; d_max_net d; d_max_order_notional d;
     d_max_turnover_per_day d; d_min_cash_reserve d] &&
  forallb (fun e => dec_okb e.2) (d_max_asset_class d).

Lemma deployment_okb_spec d : deployment_okb d = true → deployment_ok d.
Proof.
  unfold deployment_okb. rewrite andb_true_iff, !forallb_forall. intros [Ho Hc]. split.
  - apply Forall_forall. intros o Hin%list_elem_of_In x ->. apply dec_okb_spec. by apply (Ho (Some x)).
  - intros c x Hin%list_elem_of_In. apply dec_okb_spec. by apply (Hc (c, x)).
Qed.

Lemma bt_insert_same (m : BTreeMap string Dec) c x : bt_sorted m → bt_get m c = Some x → bt_insert c x m = m.
Proof.
  intros Hs Hg. apply bt_ext; [by apply bt_insert_sorted|done|]. intros k. destruct (decide (k = c)) as [->|].
  - by rewrite bt_get_insert_eq.
  - by rewrite bt_get_insert_ne.
Qed.

(** A map already below every deployment cap is left alone. *)
Lemma tighten_classes_below ds m : classes_ok m → Forall (fun e => dec_ok e.2) ds →
  (∀ e, e ∈ ds → ∃ x, bt_get m (class_name e.1) = Some x ∧ atto x ≤ atto e.2) →
  fold_left tighten_class ds m = m.
Proof.
  intros Hm Hd Hb. induction Hd as [|e ds He Hd IH]; simpl; [done|].
  assert (tighten_class m e = m) as ->; [|apply IH; set_solver].
  destruct (Hb e) as (x & Hx & Hle); [set_solver|]. unfold tighten_class. fold (class_name e.1). rewrite Hx. simpl.
  assert (dec_ok x) by (by eapply Hm). rewrite dec_ltb_atto by done.
  destruct (Z.ltb_spec (atto e.2) (atto x)); [lia|]. apply bt_insert_same; [apply Hm|done].
Qed.

Lemma limits_eta l : l = {|
  l_ccy := l_ccy l; l_allocated := l_allocated l; l_min_cash_reserve := l_min_cash_reserve l; l_instrument_allow := l_instrument_allow l;
  l_instrument_deny := l_instrument_deny l; l_venues := l_venues l; l_asset_classes := l_asset_classes l; l_shorting := l_shorting l;
  l_derivatives := l_derivatives l; l_leverage_max_gross := l_leverage_max_gross l; l_max_position := l_max_position l; l_max_asset_class := l_max_asset_class l;
  l_max_gross := l_max_gross l; l_max_net := l_max_net l; l_max_order_notional := l_max_order_notional l; l_max_orders_per_day := l_max_orders_per_day l;
  l_max_turnover_per_day := l_max_turnover_per_day l;|}.
Proof. by destruct l. Qed.

Lemma deploy_limits_twice l d : limits_ok l → deployment_ok d →
  deploy_limits (deploy_limits l d) d = deploy_limits l d.
Proof.
  intros Hok Hd. destruct (deploy_facts l d Hok Hd) as (Hok' & Hres & Hclasses). destruct Hd as [Hopts Hcl].
  rewrite !Forall_cons in Hopts. destruct Hopts as (? & ? & ? & ? & ? & ? & Hr & _).
  etransitivity; [|symmetry; apply limits_eta]. unfold deploy_limits at 1.
  f_equal; try (simpl; apply tighten_twice; [limit_field|done]).
  - assert (dec_ok (l_min_cash_reserve (deploy_limits l d))) as Hrok by limit_field.
    destruct (d_min_cash_reserve d) as [r|]; [|reflexivity]. specialize (Hr r eq_refl).
    rewrite dec_ltb_atto, Hres by done. simpl default.
    by destruct (Z.ltb_spec (Z.max (atto (l_min_cash_reserve l)) (atto r)) (atto r)); [lia|].
  - apply tighten_classes_below; [split; apply Hok'| |].
    + apply Forall_forall. intros [c x] Hin. by eapply Hcl.
    + intros e He. specialize (Hclasses (class_name e.1)).
      destruct (bt_get (l_max_asset_class (deploy_limits l d)) (class_name e.1)) as [x|].
      * exists x. split; [done|]. by apply Hclasses.
      * destruct Hclasses as [_ Hn]. by destruct (Hn e He).
  - simpl. destruct (d_max_orders_per_day d); [lia|done].
Qed.

(** ** A concrete mandate: crates/mandate-core/tests/fixtures/baseline_mandate.json, with concrete parameters *)

Module Baseline.
#[export] Existing Instance epoch_chrono.
#[export] Existing Instance plain_digest.

(** The only use of [rust_decimal] is the positivity of an amount, which exact decimals decide as well. *)
#[export] Instance exact_decimal : RustDecimal := {|
  Decimal := Dec;
  decimal_from_str s := ok (parse s);
  decimal_zero := ZERO;
  decimal_gtb a b := dec_ltb b a;
|}.

#[export] Instance plain_serde : MandateSerde := {| mandate_to_vec m := amount (allocated (capital m)) |}.

(** Seconds since the epoch. *)
Definition at_secs (s : Z) : @DateTime epoch_chrono := duration_seconds s.

Definition ack (d : string) : Acknowledgement :=
  {| ack_doc := d; ack_doc_version := "2026-10"; ack_at := at_secs 1790000000; ack_by := "user_1" |}.

Definition usd (a : string) : Money := {| amount := a; ccy := "USD" |}.

Definition mandate_with (position : f64) : MandateBody := {|
  basis := {| capital_source := Own; jurisdiction := "US-GA";
              acknowledgements := [ack "own_capital_attestation"; ack "risk_disclosure"] |};
  capital := {| allocated := usd "5000.00"; min_cash_reserve := f64_of_ratio 5 100 |};
  universe := {| venues := ["alpaca"; "kraken"]; asset_classes := ["us_etf"; "crypto_spot"];
                 instrument_allow := ["SPY"; "EFA"; "BTC/USD"; "ETH/USD"]; instrument_deny := [];
                 shorting := false; derivatives := false; leverage_max_gross := f64_one |};
  exposure := {| max_position := position; max_asset_class := [("crypto_spot", f64_of_ratio 6 10)];
                 max_gross := f64_one; max_net := f64_one; max_order_notional := usd "1500.00";
                 max_orders_per_day := 20; max_turnover_per_day := f64_of_ratio 1 2 |};
  loss := {| daily_loss_limit := f64_of_ratio 3 100;
             drawdown_ladder := [{| rung_at := f64_of_ratio 1 10; rung_action := Shrink; rung_scale := Some (f64_of_ratio 1 2) |};
                                 {| rung_at := f64_of_ratio 2 10; rung_action := HaltFlatten; rung_scale := None |}];
             resume_after_halt := HumanOnly |};
  autonomy := {| level := L3;
                 may := [PlaceOrders; CancelOrders; ResizeWithinLimits; Rebalance; Halt; Flatten];
                 needs_confirmation := [AddStrategy; RemoveStrategy; RaiseTargetRisk];
                 never := [ChangeLimits; ResumeAfterHalt; ChangeCredentials; Withdraw] |};
  reporting := {| digest := Daily; alert_channels := ["email"] |};
|}.

Definition mandate : MandateBody := mandate_with (f64_of_ratio 1 4).

Definition lit (s : string) : Dec := match parse s with Ok d => d | Err _ => ZERO end.

Lemma lit_ok s : dec_ok (lit s).
Proof. unfold lit. destruct (parse s) as [d|e] eqn:E; [by eapply parse_ok|done]. Qed.

Definition mandate_limits : Limits := {|
  l_ccy := "USD"; l_allocated := lit "5000.00"; l_min_cash_reserve := lit "0.05";
  l_instrument_allow := bs_of_list ["BTC/USD"; "EFA"; "ETH/USD"; "SPY"]; l_instrument_deny := bs_of_list [];
  l_venues := bs_of_list ["alpaca"; "kraken"]; l_asset_classes := bs_of_list ["crypto_spot"; "us_etf"];
  l_shorting := false; l_derivatives := false; l_leverage_max_gross := lit "1"; l_max_position := lit "0.25";
  l_max_asset_class := [("crypto_spot", lit "0.6")]; l_max_gross := lit "1"; l_max_net := lit "1";
  l_max_order_notional := lit "1500.00"; l_max_orders_per_day := 20; l_max_turnover_per_day := lit "0.5";
|}.

Example baseline_valid : validate mandate = [].
Proof. vm_compute. reflexivity. Qed.

Example baseline_limits : convert mandate = Ok mandate_limits.
Proof. vm_compute. reflexivity. Qed.

(** "25%" typed as 25 *)
Example position_as_percent : v_field <$> validate (mandate_with (f64_of_ratio 25 1)) = ["exposure.max_position"].
Proof. vm_compute. reflexivity. Qed.

Definition body_policy : Policy := compile mandate.

Definition active_envelope : MandateEnvelope :=
  {| env_version := 3; env_status := MandateStatus.Active; effective_from := at_secs 1000; review_by := at_secs 9000 |}.

Definition policy : Policy := with_envelope body_policy active_envelope.

Lemma policy_limits : limits policy = Some mandate_limits.
Proof. vm_compute. reflexivity. Qed.

Lemma mandate_limits_ok : limits_ok mandate_limits.
Proof. exact (convert_ok mandate mandate_limits baseline_limits). Qed.

Lemma policy_wf : policy_ok policy.
Proof. intros l Hl. rewrite policy_limits in Hl. injection Hl as <-. exact mandate_limits_ok. Qed.

Example reserve_up :
  (to_string <$> ok (reserve_amount policy (lit "5000"))) = Some "250.00000000" ∧
  (to_string <$> ok (reserve_amount policy (lit "3333.333333335"))) = Some "166.66666667".
Proof. vm_compute. done. Qed.

Definition tighter : DeploymentLimits := {|
  d_capital_allocation := Some (lit "1000"); d_max_position := Some (lit "0.5"); d_max_gross := None;
  d_max_net := Some (lit "0.3"); d_max_order_notional := None; d_max_orders_per_day := Some 5;
  d_max_turnover_per_day := None; d_min_cash_reserve := Some (lit "0.1");
  d_max_asset_class := [("Crypto_Spot", lit "0.4"); ("us_etf", lit "0.7")];
|}.
End Baseline.

(** ** Properties *)

(** [compile] never fails open: limits exist exactly when the mandate has no violation and every number converts,
    and then they are the conversion, well formed, with the gross cap already lowered to the leverage cap. Without
    limits the policy stands [Invalid] at every instant, and a freshly compiled one (no envelope) is never usable. *)
Theorem compile_fails_closed `{Chrono, RustDecimal, !MandateSerde, Sha256} b :
  (∀ l, limits (compile b) = Some l ↔ validate b = [] ∧ convert b = Ok l) ∧
  (∀ l, limits (compile b) = Some l → limits_ok l ∧ atto (l_max_gross l) ≤ atto (l_leverage_max_gross l)) ∧
  (∀ now, standing (compile b) now ≠ Standing.Active ∧ standing (compile b) now ≠ Standing.Expired ∧
     (limits (compile b) = None → standing (compile b) now = Standing.Invalid)).
Proof.
  split; [|split].
  - intros l. unfold limits, compile; simpl. destruct (validate b), (convert b); naive_solver.
  - intros l Hl. pose proof (compile_ok b l Hl) as Hok. split; [done|].
    unfold limits, compile in Hl. simpl in Hl. destruct (validate b); [|done].
    destruct (convert b) as [l'|] eqn:E; [|done]. injection Hl as ->. unfold convert in E.
    repeat match goal with
           | H : result_bind _ _ = Ok _ |- _ => apply bind_ok in H; destruct H as (? & ? & H)
           | H : ratio_to_dec _ _ = Ok _ |- _ => apply ratio_to_dec_ok in H
           end.
    injection E as <-. simpl. rewrite dec_min_atto by done. lia.
  - intros now. unfold standing. destruct (limits (compile b)); done.
Qed.

(** The standing of a policy with limits and an active envelope is decided by the half-open interval
    [[effective_from, review_by)]: active exactly inside it, expired exactly from [review_by] on (once effective), and
    once expired expired for ever. Any other envelope status, or no envelope, is never usable. *)
Theorem standing_interval `{Chrono, !ChronoLaws} p l env now :
  limits p = Some l → envelope p = Some env →
  (standing p now = Standing.Active ↔
     env_status env = MandateStatus.Active ∧ dt_leb (effective_from env) now ∧ dt_ltb now (review_by env)) ∧
  (standing p now = Standing.Expired ↔
     env_status env = MandateStatus.Active ∧ dt_leb (effective_from env) now ∧ dt_leb (review_by env) now) ∧
  (standing p now = Standing.Expired → ∀ later, dt_leb now later → standing p later = Standing.Expired).
Proof.
  intros Hl He.
  assert (∀ t, dt_ltb t (effective_from env) = negb (dt_leb (effective_from env) t)) as Hn1 by (intros; apply dt_ltb_negb).
  assert (∀ t, dt_ltb t (review_by env) = negb (dt_leb (review_by env) t)) as Hn2 by (intros; apply dt_ltb_negb).
  assert (∀ t, standing p t = Standing.Expired ↔
     env_status env = MandateStatus.Active ∧ dt_leb (effective_from env) t ∧ dt_leb (review_by env) t) as Hexp.
  { intros t. unfold standing. rewrite Hl, He, Hn1. case_bool_decide; simpl; [|naive_solver].
    destruct (dt_leb (effective_from env) t), (dt_leb (review_by env) t); simpl; naive_solver. }
  split; [|split; [apply Hexp|]].
  - unfold standing. rewrite Hl, He, Hn1, Hn2. case_bool_decide; simpl; [|naive_solver].
    destruct (dt_leb (effective_from env) now), (dt_leb (review_by env) now); simpl; naive_solver.
  - rewrite Hexp. intros (? & ? & ?) later Hle. apply Hexp. split_and!; [done|by eapply dt_leb_trans..].
Qed.

Lemma standing_interval_witness :
  standing Baseline.policy (Baseline.at_secs 9000) = Standing.Expired ∧
  standing Baseline.policy (Baseline.at_secs 9001) = Standing.Expired ∧
  standing Baseline.policy (Baseline.at_secs 1000) = Standing.Active.
Proof.
  pose proof epoch_chrono_laws as Hlaws.
  assert (standing Baseline.policy (Baseline.at_secs 9000) = Standing.Expired) as H by (vm_compute; reflexivity).
  split; [exact H|]. split; [|vm_compute; reflexivity].
  pose proof Baseline.policy_limits as Hl.
  refine (proj2 (proj2 (standing_interval Baseline.policy _ _ (Baseline.at_secs 9000) Hl eq_refl)) H _ _).
  vm_compute. exact I.
Defined.

(** A deployment can only tighten a policy: every cap of the result is exactly the smaller of the two (an absent
    deployment cap being infinite), the reserve the larger, the order count the smaller; a class is capped when either
    side caps it, by the least cap given for it; nothing that is not a limit changes. *)
Theorem with_deployment_stricter `{Chrono} p l d :
  limits p = Some l → limits_ok l → deployment_ok d →
  ∃ l', limits (with_deployment p d) = Some l' ∧ limits_ok l' ∧
    atto (l_allocated l') = cap_min (atto (l_allocated l)) (d_capital_allocation d) ∧
    atto (l_max_position l') = cap_min (atto (l_max_position l)) (d_max_position d) ∧
    atto (l_max_gross l') = cap_min (atto (l_max_gross l)) (d_max_gross d) ∧
    atto (l_max_net l') = cap_min (atto (l_max_net l)) (d_max_net d) ∧
    atto (l_max_order_notional l') = cap_min (atto (l_max_order_notional l)) (d_max_order_notional d) ∧
    atto (l_max_turnover_per_day l') = cap_min (atto (l_max_turnover_per_day l)) (d_max_turnover_per_day d) ∧
    l_max_orders_per_day l' = Z.min (l_max_orders_per_day l) (default (l_max_orders_per_day l) (d_max_orders_per_day d)) ∧
    atto (l_min_cash_reserve l') =
      Z.max (atto (l_min_cash_reserve l)) (atto (default (l_min_cash_reserve l) (d_min_cash_reserve d))) ∧
    (∀ c, match bt_get (l_max_asset_class l') c with
          | None => bt_get (l_max_asset_class l) c = None ∧ (∀ e, e ∈ d_max_asset_class d → class_name e.1 ≠ c)
          | Some x =>
              (bt_get (l_max_asset_class l) c = Some x ∨
                 ∃ e, e ∈ d_max_asset_class d ∧ class_name e.1 = c ∧ e.2 = x) ∧
              (∀ y, bt_get (l_max_asset_class l) c = Some y → atto x ≤ atto y) ∧
              (∀ e, e ∈ d_max_asset_class d → class_name e.1 = c → atto x ≤ atto e.2)
          end) ∧
    (l_ccy l', l_instrument_allow l', l_instrument_deny l', l_venues l', l_asset_classes l', l_shorting l',
       l_derivatives l', l_leverage_max_gross l') =
    (l_ccy l, l_instrument_allow l, l_instrument_deny l, l_venues l, l_asset_classes l, l_shorting l,
       l_derivatives l, l_leverage_max_gross l) ∧
    (body_hash (with_deployment p d), envelope (with_deployment p d), max_price_age_secs (with_deployment p d)) =
    (body_hash p, envelope p, max_price_age_secs p).
Proof.
  intros Hl Hok Hd. exists (deploy_limits l d).
  destruct (deploy_facts l d Hok Hd) as (Hok' & Hres & Hclasses). destruct Hd as [Hopts Hcl].
  unfold limits, with_deployment in *. destruct (body p) as [l0|] eqn:Eb; [|done]. injection Hl as ->.
  rewrite !Forall_cons in Hopts. destruct Hopts as (? & ? & ? & ? & ? & ? & ? & _).
  split; [done|]. split; [done|].
  split_and!; try exact Hres; try exact Hclasses; try (apply tighten_atto; [limit_field|done]); try done.
  simpl. destruct (d_max_orders_per_day d); simpl; lia.
Qed.

Lemma with_deployment_stricter_witness :
  ∃ l', limits (with_deployment Baseline.policy Baseline.tighter) = Some l' ∧
    atto (l_max_position l') = 25 * 10 ^ 16 ∧ atto (l_allocated l') = 1000 * 10 ^ 18 ∧
    option_map atto (bt_get (l_max_asset_class l') "us_etf") = Some (7 * 10 ^ 17).
Proof.
  pose proof Baseline.policy_limits as Hl.
  destruct (with_deployment_stricter Baseline.policy Baseline.mandate_limits Baseline.tighter Hl) as (l' & Hl' & _ & Ha & Hp & _).
  - exact Baseline.mandate_limits_ok.
  - apply deployment_okb_spec. vm_compute. reflexivity.
  - exists l'. split; [exact Hl'|]. split; [rewrite Hp; vm_compute; reflexivity|].
    split; [rewrite Ha; vm_compute; reflexivity|]. clear Ha Hp. vm_compute in Hl'. injection Hl' as <-. reflexivity.
Defined.

(** Applying the same deployment limits twice changes nothing more. *)
Theorem with_deployment_idempotent `{Chrono} p d :
  policy_ok p → deployment_ok d → with_deployment (with_deployment p d) d = with_deployment p d.
Proof.
  intros Hp Hd. unfold with_deployment at 1 3. unfold with_deployment. destruct (body p) as [l|] eqn:Eb; simpl;
    [|by rewrite Eb]. do 2 f_equal. apply deploy_limits_twice; [|done]. apply Hp. unfold limits. by rewrite Eb.
Qed.

Lemma with_deployment_idempotent_witness :
  with_deployment (with_deployment Baseline.policy Baseline.tighter) Baseline.tighter =
  with_deployment Baseline.policy Baseline.tighter.
Proof.
  apply with_deployment_idempotent.
  - exact Baseline.policy_wf.
  - apply deployment_okb_spec. vm_compute. reflexivity.
Defined.
