(* ===== verification/AlpacaTime.v ===== *)
(** * AlpacaTime: crates/broker-adapters/src/alpaca/time.rs

    The calendar arithmetic and the RFC 3339 reader of the Alpaca adapter, over the standard library's number
    parsers. The theorem: counting days by the closed formula is counting them one calendar day at a time. *)

From Stdlib Require Import ZArith Lia String Ascii.
From Stdlib Require Import Floats.SpecFloat.
From S2P Require Import Prelude Text F64 Decimal.

Local Open Scope Z_scope.

(** ** The standard library's number parsers *)

(** [str::parse::<i64>] *)
Definition parse_i64 (s : string) : option Z :=
  let '(neg, ds) := strip_sign s in
  if is_empty ds || negb (sall is_ascii_digit ds) then None
  else
    let v := if neg : bool then - digits_value 0 ds else digits_value 0 ds in
    if (i64_min <=? v) && (v <=? i64_max) then Some v else None.

(** [str::parse::<u64>]: an optional [+], no [-] *)
Definition parse_u64 (s : string) : option Z :=
  let ds := match s with String c r => if Ascii.eqb c "+" then r else s | EmptyString => s end in
  if is_empty ds || negb (sall is_ascii_digit ds) then None
  else if digits_value 0 ds <=? u64_max then Some (digits_value 0 ds) else None.

(** [str::parse::<f64>]: an optional sign, then [inf], [infinity], [nan] in any case, or digits with an optional
    fraction and an optional exponent (at least one digit), rounded once to the nearest double. *)
Definition parse_f64 (s : string) : option f64 :=
  let '(neg, body) := strip_sign s in
  let word := to_lowercase body in
  if String.eqb word "inf" || String.eqb word "infinity" then Some (S754_infinity neg)
  else if String.eqb word "nan" then Some S754_nan
  else
    let split := match split_once is_exp_char body with
                 | Some (m, e) =>
                     let '(eneg, eds) := strip_sign e in
                     if is_empty eds || negb (sall is_ascii_digit eds) then None
                     else Some (m, if eneg : bool then - digits_value 0 eds else digits_value 0 eds)
                 | None => Some (body, 0)
                 end in
    let* (mant, exp) := split in
    let '(int_part, frac_part) := match split_once is_dot mant with Some x => x | None => (mant, EmptyString) end in
    if (is_empty int_part && is_empty frac_part) || negb (sall is_ascii_digit int_part) || negb (sall is_ascii_digit frac_part)
    then None
    else Some (f64_of_decimal neg (digits_value 0 (int_part +:+ frac_part)) (exp - slen frac_part)).

(** ** The calendar *)

(** Divisions are Rust's: toward zero. *)
Definition days_from_civil (y m d : Z) : Z :=
  let y := if m <=? 2 then y - 1 else y in
  let era := Z.quot (if 0 <=? y then y else y - 399) 400 in
  let yoe := y - era * 400 in
  let mp := Z.rem (m + 9) 12 in
  let doy := Z.quot (153 * mp + 2) 5 + d - 1 in
  let doe := yoe * 365 + Z.quot yoe 4 - Z.quot yoe 100 + doy in
  era * 146097 + doe - 719468.

Definition is_leap (y : Z) : bool :=
  ((Z.rem y 4 =? 0) && negb (Z.rem y 100 =? 0)) || (Z.rem y 400 =? 0).

Definition days_in_month (y m : Z) : Z :=
  if existsb (Z.eqb m) [1; 3; 5; 7; 8; 10; 12] then 31
  else if existsb (Z.eqb m) [4; 6; 9; 11] then 30
  else if m =? 2 then (if is_leap y then 29 else 28)
  else 0.

(** [s.get(from..from + len)], all of it digits, as a number: at most four digits, so the value fits. *)
Definition digits_at (from len : nat) (s : string) : option Z :=
  let t := stake len (sdrop from s) in
  if sall is_ascii_digit t then parse_i64 t else None.

Definition char_at (n : nat) (s : string) (c : ascii) : bool := String.eqb (stake 1 (sdrop n s)) (String c EmptyString).

(** [is_valid_ymd] with the date it reads: [YYYY-MM-DD], a real calendar date. *)
Definition read_ymd (s : string) : option (Z * Z * Z) :=
  if negb (slen s =? 10) || negb (char_at 4 s "-") || negb (char_at 7 s "-") then None
  else
    let* y := digits_at 0 4 s in
    let* m := digits_at 5 2 s in
    let* d := digits_at 8 2 s in
    if (1 <=? m) && (m <=? 12) && (1 <=? d) && (d <=? days_in_month y m) then Some (y, m, d) else None.

Definition is_valid_ymd (s : string) : bool := match read_ymd s with Some _ => true | None => false end.

(** ** RFC 3339 *)

(** [s.split_at(s.find(p)?)]: the first character that satisfies [p] starts the second part. *)
Fixpoint split_before (p : ascii → bool) (s : string) : option (string * string) :=
  match s with
  | EmptyString => None
  | String c s' =>
      if p c then Some (EmptyString, s)
      else let* (a, b) := split_before p s' in Some (String c a, b)
  end.

(** [s.split(p)] *)
Fixpoint split_all (p : ascii → bool) (s : string) : list string :=
  match s with
  | EmptyString => [EmptyString]
  | String c s' =>
      match split_all p s' with
      | part :: parts => if p c then EmptyString :: part :: parts else String c part :: parts
      | [] => []
      end
  end.

Definition one_of (l : list ascii) (c : ascii) : bool := existsb (Ascii.eqb c) l.
Definition is_colon (c : ascii) : bool := Ascii.eqb c ":".
Definition within (lo hi v : Z) : bool := (lo <=? v) && (v <? hi).

(** The [hh:mm:ss] of a timestamp, in seconds. *)
Definition read_hms (hms : string) : option Z :=
  match split_all is_colon hms with
  | [h; mi; se] =>
      let* h := parse_i64 h in
      let* mi := parse_i64 mi in
      let* se := parse_i64 se in
      if within 0 24 h && within 0 60 mi && within 0 61 se then Some (h * 3600 + mi * 60 + se) else None
  | _ => None
  end.

Definition read_fraction (frac : option string) : option f64 :=
  match frac with
  | None => Some f64_zero
  | Some f => if negb (is_empty f) && sall is_ascii_digit f then parse_f64 ("0." +:+ f) else None
  end.

(** [Z], [z] or [+-hh:mm], in seconds. *)
Definition read_zone (zone : string) : option Z :=
  if String.eqb zone "Z" || String.eqb zone "z" then Some 0
  else
    let sign := if starts_with zone "-" then -1 else 1 in
    let* (oh, om) := split_once is_colon (sdrop 1 zone) in
    let* oh := parse_i64 oh in
    let* om := parse_i64 om in
    if within 0 24 oh && within 0 60 om then Some (sign * (oh * 3600 + om * 60)) else None.

Definition parse_rfc3339 (s : string) : option f64 :=
  let* (date, rest) := split_once (one_of ["T"; "t"; " "]%char) (trim s) in
  let* (y, mo, d) := read_ymd date in
  let* (time, zone) := split_before (one_of ["Z"; "z"; "+"; "-"]%char) rest in
  let '(hms, frac) := match split_once is_dot time with Some (h, f) => (h, Some f) | None => (time, None) end in
  let* secs := read_hms hms in
  let* frac_secs := read_fraction frac in
  let* offset_secs := read_zone zone in
  Some (SFadd 53 1024 (f64_of_int (days_from_civil y mo d * 86400 + secs - offset_secs)) frac_secs).

(** ** The days of the calendar, one at a time *)

Definition valid_date (y m d : Z) : Prop := 0 ≤ y ∧ 1 ≤ m ≤ 12 ∧ 1 ≤ d ≤ days_in_month y m.

Definition next_day (date : Z * Z * Z) : Z * Z * Z :=
  let '(y, m, d) := date in
  if d <? days_in_month y m then (y, m, d + 1)
  else if m <? 12 then (y, m + 1, 1)
  else (y + 1, 1, 1).

Definition days_of (date : Z * Z * Z) : Z := let '(y, m, d) := date in days_from_civil y m d.

(** The day numbers of the months, evaluated. *)
Ltac month_days := repeat match goal with
  | |- context [(153 * ?a + 2) / 5] =>
      let v := eval vm_compute in ((153 * a + 2) / 5) in change ((153 * a + 2) / 5) with v
  | |- context [?a <=? 2] => let v := eval vm_compute in (a <=? 2) in change (a <=? 2) with v
  | |- context [existsb ?f ?l] => let v := eval vm_compute in (existsb f l) in change (existsb f l) with v
  end; cbn iota.

(** The formula without its eras: a year that starts in March has [365] days and its leap days before it. *)
Lemma days_closed y m d (Y := if m <=? 2 then y - 1 else y) : 0 ≤ y → 1 ≤ m →
  days_from_civil y m d =
  365 * Y + Y / 4 - Y / 100 + Y / 400 + (153 * ((m + 9) mod 12) + 2) / 5 + d - 719469.
Proof.
  intros Hy Hm. unfold days_from_civil. fold Y.
  rewrite Z.rem_mod_nonneg by lia. assert (0 ≤ (m + 9) mod 12) by (apply Z.mod_pos_bound; lia).
  rewrite (Z.quot_div_nonneg (153 * _ + 2)) by lia.
  assert (-1 ≤ Y) as HY by (subst Y; destruct (m <=? 2); lia). clearbody Y.
  assert (Z.quot (if 0 <=? Y then Y else Y - 399) 400 = Y / 400) as ->.
  { destruct (Z.leb_spec 0 Y); Z.to_euclidean_division_equations; lia. }
  rewrite !Z.quot_div_nonneg by (Z.to_euclidean_division_equations; lia).
  generalize (153 * ((m + 9) mod 12) + 2). intros t.
  assert ((Y - Y / 400 * 400) / 4 = Y / 4 - 100 * (Y / 400)) as -> by (Z.to_euclidean_division_equations; lia).
  assert ((Y - Y / 400 * 400) / 100 = Y / 100 - 4 * (Y / 400)) as -> by (Z.to_euclidean_division_equations; lia).
  lia.
Qed.

Lemma next_day_valid y m d : valid_date y m d → let '(y', m', d') := next_day (y, m, d) in valid_date y' m' d'.
Proof.
  intros (Hy & Hm & Hd). unfold next_day, valid_date.
  destruct (Z.ltb_spec d (days_in_month y m)); [lia|]. destruct (Z.ltb_spec m 12).
  - assert (1 ≤ days_in_month y (m + 1)); [|lia].
    assert (m + 1 ∈ [2; 3; 4; 5; 6; 7; 8; 9; 10; 11; 12]) as Hin.
    { assert (m = 1 ∨ m = 2 ∨ m = 3 ∨ m = 4 ∨ m = 5 ∨ m = 6 ∨ m = 7 ∨ m = 8 ∨ m = 9 ∨ m = 10 ∨ m = 11) by lia. set_solver. }
    revert Hin. generalize (m + 1). intros k Hk. unfold days_in_month.
    repeat (apply elem_of_cons in Hk as [->|Hk]; [simpl; try case_match; lia|]). by apply not_elem_of_nil in Hk.
  - split; [lia|]. split; [lia|]. vm_compute. split; discriminate.
Qed.

Lemma is_leap_spec y : 0 ≤ y → is_leap y = (y mod 4 =? 0) && negb (y mod 100 =? 0) || (y mod 400 =? 0).
Proof. intros Hy. unfold is_leap. by rewrite !Z.rem_mod_nonneg by lia. Qed.

Lemma next_day_counts y m d : valid_date y m d → days_of (next_day (y, m, d)) = days_from_civil y m d + 1.
Proof.
  intros (Hy & Hm & Hd). unfold next_day, days_of.
  destruct (Z.ltb_spec d (days_in_month y m)) as [Hlt|Hge].
  { rewrite !days_closed by lia. lia. }
  assert (d = days_in_month y m) as -> by lia. clear Hd Hge.
  destruct (Z.ltb_spec m 12) as [Hlt|Hge]; rewrite !days_closed by lia.
  - assert (m = 2 ∨ m = 1 ∨ m = 3 ∨ m = 4 ∨ m = 5 ∨ m = 6 ∨ m = 7 ∨ m = 8 ∨ m = 9 ∨ m = 10 ∨ m = 11) as [->|Hc] by lia.
    + change (days_in_month y 2) with (if is_leap y then 29 else 28). rewrite is_leap_spec by lia.
      month_days.
      destruct (Z.eqb_spec (y mod 4) 0), (Z.eqb_spec (y mod 100) 0), (Z.eqb_spec (y mod 400) 0); simpl;
        Z.to_euclidean_division_equations; lia.
    + unfold days_in_month.
      repeat destruct Hc as [->|Hc]; [..|subst m]; month_days; lia.
  - assert (m = 12) as -> by lia. change (days_in_month y 12) with 31. month_days.
    replace (y + 1 - 1) with y by lia. lia.
Qed.

(** The calendar formula of the timestamp reader counts days: walking the calendar one day at a time from
    1970-01-01 (months of their own lengths, February by the leap-year rule), the [n]-th date reached is a real date
    and [days_from_civil] maps it to [n]. *)
Theorem calendar_counts_days n (date := Nat.iter n next_day (1970, 1, 1)) :
  (let '(y, m, d) := date in valid_date y m d) ∧ days_of date = Z.of_nat n.
Proof.
  subst date. induction n as [|n [IHv IHd]].
  - split; [unfold valid_date; vm_compute; repeat split; discriminate|reflexivity].
  - change (Nat.iter (S n) next_day (1970, 1, 1)) with (next_day (Nat.iter n next_day (1970, 1, 1))).
    destruct (Nat.iter n next_day (1970, 1, 1)) as [[y m] d]. cbn in IHv, IHd. split.
    + by apply next_day_valid.
    + rewrite next_day_counts by done. lia.
Qed.

Example reads_utc : parse_rfc3339 "2026-09-21T13:30:00Z" = Some (f64_of_int 1789997400).
Proof. vm_compute. reflexivity. Qed.
Example reads_offset : parse_rfc3339 "2026-09-21T09:30:00-04:00" = Some (f64_of_int 1789997400).
Proof. vm_compute. reflexivity. Qed.
Example reads_garbage :
  parse_rfc3339 <$> ["";"2026-09-21"; "2026-13-01T00:00:00Z"; "2026-02-30T00:00:00Z"; "2026-09-21T25:00:00Z"; "2026-09-21T10:00:00"; "x"]%string
  = [None; None; None; None; None; None; None].
Proof. vm_compute. reflexivity. Qed.
