(* ===== verification/Broker.v ===== *)
(** * Broker: crates/broker-adapters/src/types.rs and error.rs

    The broker-neutral requests and reports, the adapters' error type with its printed form, and the printed forms
    ([Debug]) the venue fingerprints are made of. *)

From Stdlib Require Import ZArith Lia String Ascii.
From S2P Require Import Prelude Text F64 Decimal DecMath.

Local Open Scope Z_scope.

Inductive Side := Buy | Sell.

#[export] Instance side_eq_dec : EqDecision Side.
Proof. solve_decision. Defined.

Definition side_str (s : Side) : string := match s with Buy => "buy" | Sell => "sell" end.

Inductive OrderKind := Market | Limit (price : Dec).

Inductive TimeInForce := Gtc | Ioc.

#[export] Instance tif_eq_dec : EqDecision TimeInForce.
Proof. solve_decision. Defined.

Record OrderRequest := {
  req_tag : string;
  req_symbol : string;
  req_side : Side;
  req_kind : OrderKind;
  req_quantity : Dec;
  req_time_in_force : option TimeInForce;
  req_post_only : bool;
  req_reduce_only : bool;
  req_validate_only : bool;
  req_reference_price : option Dec;
}.

Definition req_base (tag symbol : string) (side : Side) (kind : OrderKind) (quantity : Dec) : OrderRequest :=
  {| req_tag := tag; req_symbol := symbol; req_side := side; req_kind := kind; req_quantity := quantity;
     req_time_in_force := None; req_post_only := false; req_reduce_only := false; req_validate_only := false;
     req_reference_price := None |}.
Definition req_market (tag symbol : string) (side : Side) (quantity : Dec) : OrderRequest :=
  req_base tag symbol side Market quantity.
Definition req_limit (tag symbol : string) (side : Side) (quantity price : Dec) : OrderRequest :=
  req_base tag symbol side (Limit price) quantity.
(** [req.reference_price = Some(price)] *)
Definition req_with_reference (r : OrderRequest) (price : Dec) : OrderRequest :=
  {| req_tag := req_tag r; req_symbol := req_symbol r; req_side := req_side r; req_kind := req_kind r;
     req_quantity := req_quantity r; req_time_in_force := req_time_in_force r; req_post_only := req_post_only r;
     req_reduce_only := req_reduce_only r; req_validate_only := req_validate_only r;
     req_reference_price := Some price |}.

Record SentOrder := {
  sent_broker_pair : string;
  sent_side : Side;
  sent_quantity : Dec;
  sent_price : option Dec;
  sent_userref : Z;
  sent_validate_only : bool;
}.

Module OrderStatus.
Inductive t :=
| Pending | Open | PartiallyFilled | Filled | PartiallyFilledThenCanceled | PartiallyFilledThenExpired
| Canceled | Expired | Rejected.
End OrderStatus.

#[export] Instance order_status_eq_dec : EqDecision OrderStatus.t.
Proof. solve_decision. Defined.

Definition is_terminal (s : OrderStatus.t) : bool :=
  match s with OrderStatus.Pending | OrderStatus.Open | OrderStatus.PartiallyFilled => false | _ => true end.

Definition has_fills (s : OrderStatus.t) : bool :=
  match s with
  | OrderStatus.PartiallyFilled | OrderStatus.Filled | OrderStatus.PartiallyFilledThenCanceled
  | OrderStatus.PartiallyFilledThenExpired => true
  | _ => false
  end.

(** The derived [Debug] of a status is its constructor. *)
Definition status_debug (s : OrderStatus.t) : string :=
  match s with
  | OrderStatus.Pending => "Pending"
  | OrderStatus.Open => "Open"
  | OrderStatus.PartiallyFilled => "PartiallyFilled"
  | OrderStatus.Filled => "Filled"
  | OrderStatus.PartiallyFilledThenCanceled => "PartiallyFilledThenCanceled"
  | OrderStatus.PartiallyFilledThenExpired => "PartiallyFilledThenExpired"
  | OrderStatus.Canceled => "Canceled"
  | OrderStatus.Expired => "Expired"
  | OrderStatus.Rejected => "Rejected"
  end.

(** What a broker says about one order. *)
Record OrderReport := {
  rep_id : string;
  rep_userref : option Z;
  rep_tag : option string;
  rep_symbol : string;
  rep_side : option Side;
  rep_kind : option OrderKind;
  rep_status : OrderStatus.t;
  rep_raw_status : string;
  rep_reason : option string;
  rep_quantity : Dec;
  rep_executed : Dec;
  rep_avg_price : option Dec;
  rep_cost : option Dec;
  rep_fee : option Dec;
  rep_financing : f64;
  rep_open_time : option f64;
  rep_close_time : option f64;
}.

Inductive BalanceKind := Spot | Earn.

#[export] Instance balance_kind_eq_dec : EqDecision BalanceKind.
Proof. solve_decision. Defined.

Record BalanceEntry := { raw_asset : string; asset : string; bal_amount : Dec; bal_kind : BalanceKind }.

(** [Balances::spot]: an addition that overflows is skipped. *)
Definition spot (entries : list BalanceEntry) (a : string) : Dec :=
  fold_left (fun acc e => default acc (checked_add acc (bal_amount e)))
    (List.filter (fun e => bool_decide (bal_kind e = Spot) && eq_ignore_ascii_case (asset e) a) entries) ZERO.

Record Quote := { q_symbol : string; q_bid : Dec; q_ask : Dec; q_last : Dec }.

Record CancelOutcome := { canceled_count : Z; cancel_pending : bool }.

(** ** Errors *)

Module ErrorClass.
Inductive t :=
| InvalidNonce | Auth | RateLimited | ServiceUnavailable | InsufficientFunds | InvalidArguments | OrderRejected
| UnknownOrder | Other.
End ErrorClass.

#[export] Instance error_class_eq_dec : EqDecision ErrorClass.t.
Proof. solve_decision. Defined.

Record ExchangeError := { err_code : string; err_class : ErrorClass.t }.

Definition outcome_unknown (e : ExchangeError) : bool := bool_decide (err_class e = ErrorClass.ServiceUnavailable).

(** The result of a placement: [UnknownOutcome] means the order may exist. *)
Module PlaceOutcome.
Inductive t :=
| Accepted (broker_order_id : string) (description : option string) (sent : SentOrder) (warnings : list string)
| ValidatedOnly (description : option string) (sent : SentOrder) (warnings : list string)
| Rejected (errors : list ExchangeError) (sent : SentOrder)
| UnknownOutcome (reason : string) (sent : SentOrder).
End PlaceOutcome.

Module NonceError.
Inductive t := Io (why : string) | Corrupt (why : string) | Exhausted.
Definition display (e : t) : string :=
  match e with
  | Io w => "nonce store i/o error: " +:+ w
  | Corrupt w => "nonce store is corrupt: " +:+ w
  | Exhausted => "nonce space exhausted"
  end.
End NonceError.

Module TransportError.
Inductive t := ConnectFailed (why : string) | Timeout | Io (why : string).
Definition display (e : t) : string :=
  match e with
  | ConnectFailed w => "connect failed: " +:+ w
  | Timeout => "request timed out"
  | Io w => "i/o error: " +:+ w
  end.
Definition request_definitely_not_sent (e : t) : bool := match e with ConnectFailed _ => true | _ => false end.
End TransportError.

Definition fmt_retry_after (secs : option Z) : string :=
  match secs with Some s => " (retry after " +:+ show_int s +:+ "s)" | None => EmptyString end.

Module BrokerError.
Inductive t :=
| UnknownSymbol (s : string)
| InvalidRequest (s : string)
| Unsupported (s : string)
| QuantityRoundsToZero (symbol : string) (requested rounded : Dec)
| BelowMinQuantity (symbol : string) (min rounded : Dec)
| BelowMinCost (symbol : string) (min cost : Dec)
| InvalidPrice (s : string)
| PairNotTradable (symbol status : string)
| Credentials (s : string)
| Nonce (e : NonceError.t)
| Transport (e : TransportError.t)
| Http (status : Z)
| Malformed (s : string)
| Exchange (errors : list ExchangeError)
| NotFound (s : string)
| UnknownTag (s : string)
| Userref (s : string)
| Config (s : string)
| RateLimited (retry_after_secs : option Z) (message : string)
| MarketClosed (next_open next_close : string)
| AccountBlocked (s : string)
| Preflight (s : string)
| CancelTargetNotFound (s : string)
| LookupInconclusive (s : string).

Definition display (e : t) : string :=
  match e with
  | UnknownSymbol s => "unknown symbol: " +:+ s
  | InvalidRequest s => "invalid order request: " +:+ s
  | Unsupported s => "unsupported: " +:+ s
  | QuantityRoundsToZero sym q r =>
      sym +:+ ": quantity " +:+ to_string q +:+ " rounds down to " +:+ to_string r +:+
      " at the pair's lot precision, which is zero"
  | BelowMinQuantity sym m r =>
      sym +:+ ": quantity " +:+ to_string r +:+ " is below the pair minimum order size " +:+ to_string m
  | BelowMinCost sym m c =>
      sym +:+ ": order cost " +:+ to_string c +:+ " is below the pair minimum cost " +:+ to_string m
  | InvalidPrice s => "invalid price: " +:+ s
  | PairNotTradable sym st => sym +:+ ": pair is not tradable (status " +:+ st +:+ ")"
  | Credentials s => "credentials: " +:+ s
  | Nonce e => "nonce: " +:+ NonceError.display e
  | Transport e => "transport: " +:+ TransportError.display e
  | Http n => "unexpected HTTP status " +:+ show_int n
  | Malformed s => "malformed response: " +:+ s
  | Exchange es => "exchange error: " +:+ join ", " (err_code <$> es)
  | NotFound s => "not found: " +:+ s
  | UnknownTag s => "order tag " +:+ debug_str s +:+ " was never assigned a userref"
  | Userref s => "userref: " +:+ s
  | Config s => "configuration: " +:+ s
  | RateLimited r m => "rate limited" +:+ fmt_retry_after r +:+ ": " +:+ m
  | MarketClosed o c =>
      "market is closed (next open " +:+ o +:+ ", next close " +:+ c +:+ "): market order refused"
  | AccountBlocked s => "account cannot trade: " +:+ s
  | Preflight s => "pre-order check failed, nothing was sent: " +:+ s
  | CancelTargetNotFound s =>
      "cancel target " +:+ s +:+ " was refused as unknown and the follow-up query found no such order"
  | LookupInconclusive s => "lookup by tag is inconclusive: " +:+ s
  end.
End BrokerError.
Abbreviation BrokerError := BrokerError.t.

Abbreviation broker A := (result BrokerError A).

(** The adapters' [map_dec]. *)
Definition map_dec {A} (m : result DecError A) : broker A :=
  map_err (fun e => BrokerError.InvalidRequest (DecError.display e)) m.

(** ** JSON values

    [serde_json::Value] as the adapters read and build it: an object is the list of its fields, a number the text it
    prints as. Parsing and printing JSON is serde's. *)

Inductive Json :=
| JNull
| JBool (b : bool)
| JNum (text : string)
| JStr (s : string)
| JArr (items : list Json)
| JObj (fields : list (string * Json)).

Fixpoint field_get (fields : list (string * Json)) (k : string) : option Json :=
  match fields with
  | [] => None
  | (k', v) :: fields' => if String.eqb k k' then Some v else field_get fields' k
  end.

(** [v.get(field)]: only objects have fields. *)
Definition json_get (v : Json) (k : string) : option Json :=
  match v with JObj fields => field_get fields k | _ => None end.

Definition as_str (v : Json) : option string := match v with JStr s => Some s | _ => None end.
Definition as_bool (v : Json) : option bool := match v with JBool b => Some b | _ => None end.
(** [Value::as_u64]: a number written as a plain non-negative integer that fits. *)
Definition as_u64 (v : Json) : option Z :=
  match v with
  | JNum t =>
      if sall is_ascii_digit t && negb (is_empty t) && (digits_value 0 t <=? u64_max) then Some (digits_value 0 t)
      else None
  | _ => None
  end.

Definition as_array (v : Json) : option (list Json) := match v with JArr l => Some l | _ => None end.
Definition as_object (v : Json) : option (list (string * Json)) := match v with JObj l => Some l | _ => None end.
Definition is_object (v : Json) : bool := match v with JObj _ => true | _ => false end.
(** [v.get(field).and_then(Value::as_array).and_then(|a| a.first())] *)
Definition first_item (v : Json) (field : string) : option Json :=
  let* a := json_get v field in
  let* l := as_array a in
  head l.

(** serde_json's number as a double (the digits are the text the number prints as). *)
Class JsonFloat := { json_as_f64 : string → option f64 }.

(** ** Derived [Debug] *)

Definition debug_struct (name : string) (fields : list (string * string)) : string :=
  name +:+ " { " +:+ join ", " ((fun f => f.1 +:+ ": " +:+ f.2) <$> fields) +:+ " }".

Definition debug_option {A} (f : A → string) (o : option A) : string :=
  match o with Some a => "Some(" +:+ f a +:+ ")" | None => "None" end.

(** [impl Debug for Dec] *)
Definition debug_dec (d : Dec) : string := "Dec(" +:+ to_string d +:+ ")".

(** ** Rounding a quantity down is never an increase *)

Definition sign_mode (s : Side) : Rounding := match s with Buy => Floor | Sell => Ceil end.

(** What rounding a price for [side] gives: the next multiple of the grid that is never worse than the wish. *)
Lemma round_price_side s p dp r : dec_ok p → 0 ≤ dp → round_fits p dp → round_dp p dp (sign_mode s) = Ok r →
  dec_ok r ∧ match s with Buy => atto r ≤ atto p | Sell => atto p ≤ atto r end.
Proof.
  intros Hp Hdp Hf H. assert (dp ≤ MAX_SCALE).
  { unfold round_dp in H. destruct (Z.ltb_spec MAX_SCALE dp); [done|lia]. }
  destruct (round_dp_atto p dp (sign_mode s) Hp ltac:(lia) Hf) as (r' & Hr' & Hok & _ & Ha).
  rewrite Hr' in H. simplify_eq. split; [done|]. rewrite Ha.
  pose proof (round_to_bounds (sign_mode s) (atto p) (grain dp) (grain_pos dp ltac:(lia))). destruct s; simpl in *; lia.
Qed.

Lemma round_step_side s p step r : dec_ok p → dec_ok step → round_to_multiple p step (sign_mode s) = Ok r →
  dec_ok r ∧ match s with Buy => atto r ≤ atto p | Sell => atto p ≤ atto r end.
Proof.
  intros Hp Hs H. assert (0 < atto step).
  { unfold round_to_multiple in H. destruct (is_positive step) eqn:E; [|done]. by apply is_positive_atto. }
  destruct (round_to_multiple_atto p step (sign_mode s) r Hp Hs H) as [Hok ->]; [by destruct s|]. split; [done|].
  pose proof (round_to_bounds (sign_mode s) (atto p) (atto step)). destruct s; simpl in *; lia.
Qed.
