(* ===== verification/Kraken.v ===== *)
(** * Kraken: crates/broker-adapters/src/kraken/{pairs,order}.rs

    The pair table with its aliases and overrides, asset names, and the preparation of an order: refusals, rounding
    and the [AddOrder] parameters. The JSON layer (serde) is outside: rows and overrides are taken already parsed. *)

From Stdlib Require Import ZArith Lia String Ascii.
From S2P Require Import Prelude Text BTree Decimal DecMath Broker.

Local Open Scope Z_scope.

Module Kraken.

(** ** The pair table *)

Inductive PairSource := Builtin | AssetPairs | Override.

Definition source_debug (s : PairSource) : string :=
  match s with Builtin => "Builtin" | AssetPairs => "AssetPairs" | Override => "Override" end.

Record PairInfo := {
  canonical : string;
  altname : string;
  rest_name : string;
  ws_name : string;
  base_asset : string;
  quote_asset : string;
  pair_decimals : Z;
  lot_decimals : Z;
  order_min : Dec;
  cost_min : option Dec;
  tick_size : option Dec;
  status : option string;
  source : PairSource;
}.

Definition pair_debug (p : PairInfo) : string :=
  debug_struct "PairInfo" [
    ("canonical", debug_str (canonical p)); ("altname", debug_str (altname p));
    ("rest_name", debug_str (rest_name p)); ("ws_name", debug_str (ws_name p));
    ("base_asset", debug_str (base_asset p)); ("quote_asset", debug_str (quote_asset p));
    ("pair_decimals", show_int (pair_decimals p)); ("lot_decimals", show_int (lot_decimals p));
    ("order_min", debug_dec (order_min p)); ("cost_min", debug_option debug_dec (cost_min p));
    ("tick_size", debug_option debug_dec (tick_size p)); ("status", debug_option debug_str (status p));
    ("source", source_debug (source p))].

Definition matches (p : PairInfo) (name : string) : bool :=
  let n := trim name in
  eq_ignore_ascii_case (canonical p) n || eq_ignore_ascii_case (altname p) n ||
  eq_ignore_ascii_case (rest_name p) n || eq_ignore_ascii_case (ws_name p) n.

Definition LEGACY_PREFIXED : list string :=
  ["XXBT"; "XETH"; "XETC"; "XLTC"; "XMLN"; "XREP"; "XXDG"; "XXLM"; "XXMR"; "XXRP"; "XZEC"; "ZUSD"; "ZEUR"; "ZGBP";
   "ZCAD"; "ZJPY"; "ZAUD"].

Definition normalize_asset (raw : string) : string * BalanceKind :=
  let upper := to_uppercase (trim raw) in
  let '(base, kind) :=
    match split_once is_dot upper with
    | Some (b, _) => (b, Earn)
    | None => (upper, Spot)
    end in
  let stripped := if existsb (String.eqb base) LEGACY_PREFIXED then sdrop 1 base else base in
  let canonical :=
    if String.eqb stripped "XBT" then "BTC"
    else if String.eqb stripped "XDG" then "DOGE"
    else stripped in
  (canonical, kind).

Definition PairTable : Type := list PairInfo.

(** [Dec::parse(s).expect(..)] of a literal *)
Definition lit (s : string) : Dec := match parse s with Ok d => d | Err _ => ZERO end.

Definition builtin_row (canonical altname rest ws base : string) (pd : Z) (min tick : string) : PairInfo :=
  {| canonical := canonical; altname := altname; rest_name := rest; ws_name := ws; base_asset := base;
     quote_asset := "ZUSD"; pair_decimals := pd; lot_decimals := 8; order_min := lit min;
     cost_min := Some (lit "0.5"); tick_size := Some (lit tick); status := None; source := Builtin |}.

Definition builtin : PairTable :=
  [builtin_row "BTC/USD" "XBTUSD" "XXBTZUSD" "XBT/USD" "XXBT" 1 "0.0001" "0.1";
   builtin_row "ETH/USD" "ETHUSD" "XETHZUSD" "ETH/USD" "XETH" 2 "0.002" "0.01"].

Record RawAssetPair := {
  raw_altname : string;
  raw_wsname : option string;
  raw_base : string;
  raw_quote : string;
  raw_pair_decimals : Z;
  raw_lot_decimals : Z;
  raw_ordermin : Dec;
  raw_costmin : option Dec;
  raw_tick_size : option Dec;
  raw_status : option string;
}.

Definition ends_with (s suffix : string) : bool :=
  String.eqb (sdrop (String.length s - String.length suffix) s) suffix && (slen suffix <=? slen s).

Definition pair_of_raw (key : string) (raw : RawAssetPair) : PairInfo :=
  {| canonical := (normalize_asset (raw_base raw)).1 +:+ "/" +:+ (normalize_asset (raw_quote raw)).1;
     altname := raw_altname raw; rest_name := key; ws_name := default (raw_altname raw) (raw_wsname raw);
     base_asset := raw_base raw; quote_asset := raw_quote raw; pair_decimals := raw_pair_decimals raw;
     lot_decimals := raw_lot_decimals raw; order_min := raw_ordermin raw; cost_min := raw_costmin raw;
     tick_size := raw_tick_size raw; status := raw_status raw; source := AssetPairs |}.

(** [from_asset_pairs_json] after parsing: the entries in the object's order, dark-pool keys skipped. *)
Definition from_asset_pairs (entries : list (string * RawAssetPair)) : PairTable :=
  (fun e => pair_of_raw e.1 e.2) <$> List.filter (fun e => negb (ends_with e.1 ".d")) entries.

Record PairOverride := {
  ov_pair_decimals : option Z;
  ov_lot_decimals : option Z;
  ov_ordermin : option Dec;
  ov_costmin : option Dec;
  ov_tick_size : option Dec;
  ov_status : option string;
}.

Definition or_some {A} (new old : option A) : option A := match new with Some v => Some v | None => old end.

Definition override_pair (ov : PairOverride) (p : PairInfo) : PairInfo :=
  {| canonical := canonical p; altname := altname p; rest_name := rest_name p; ws_name := ws_name p;
     base_asset := base_asset p; quote_asset := quote_asset p;
     pair_decimals := default (pair_decimals p) (ov_pair_decimals ov);
     lot_decimals := default (lot_decimals p) (ov_lot_decimals ov);
     order_min := default (order_min p) (ov_ordermin ov);
     cost_min := or_some (ov_costmin ov) (cost_min p);
     tick_size := or_some (ov_tick_size ov) (tick_size p);
     status := or_some (ov_status ov) (status p);
     source := Override |}.

(** Updates the first row that satisfies [f]; [None] when there is none. *)
Fixpoint update_first (f : PairInfo → bool) (g : PairInfo → PairInfo) (t : PairTable) : option PairTable :=
  match t with
  | [] => None
  | p :: t' => if f p then Some (g p :: t') else (fun t' => p :: t') <$> update_first f g t'
  end.

(** [apply_overrides_json] after parsing. The table is edited in place: the rows overridden before an unknown name
    stay overridden. *)
Fixpoint apply_overrides (t : PairTable) (ovs : list (string * PairOverride)) : PairTable * broker unit :=
  match ovs with
  | [] => (t, Ok tt)
  | (name, ov) :: ovs' =>
      match update_first (fun p => matches p name) (override_pair ov) t with
      | Some t' => apply_overrides t' ovs'
      | None => (t, Err (BrokerError.Config ("override for unknown pair " +:+ name)))
      end
  end.

Definition upsert (t : PairTable) (info : PairInfo) : PairTable :=
  match update_first (fun p => eq_ignore_ascii_case (altname p) (altname info)) (fun _ => info) t with
  | Some t' => t'
  | None => t ++ [info]
  end.

Definition merge (t other : PairTable) : PairTable := fold_left upsert other t.

Definition lookup (t : PairTable) (name : string) : option PairInfo := List.find (fun p => matches p name) t.

(** ** Order preparation *)

Record PrepareOptions := { allow_reduce_only : bool; force_validate : bool }.

Definition default_options : PrepareOptions := {| allow_reduce_only := false; force_validate := false |}.

Record PreparedOrder := {
  p_symbol : string;
  p_broker_pair : string;
  p_side : Side;
  p_requested_quantity : Dec;
  p_volume : Dec;
  p_volume_dp : Z;
  p_price : option Dec;
  p_price_dp : Z;
  p_userref : Z;
  p_time_in_force : option TimeInForce;
  p_post_only : bool;
  p_reduce_only : bool;
  p_validate : bool;
  p_cost_check_skipped : bool;
}.

Definition is_limit (k : OrderKind) : bool := match k with Limit _ => true | Market => false end.

(** The guards before any arithmetic. *)
Definition check_request (req : OrderRequest) (pair : PairInfo) (opts : PrepareOptions) : broker unit :=
  let tradable := match status pair with Some s => String.eqb s "online" | None => true end in
  if negb tradable then Err (BrokerError.PairNotTradable (canonical pair) (default EmptyString (status pair)))
  else if negb (is_positive (req_quantity req)) then Err (BrokerError.InvalidRequest "quantity must be positive")
  else if req_post_only req && negb (is_limit (req_kind req)) then
    Err (BrokerError.InvalidRequest "post_only requires a limit order")
  else if bool_decide (is_Some (req_time_in_force req)) && negb (is_limit (req_kind req)) then
    Err (BrokerError.InvalidRequest "time_in_force is only supported on limit orders")
  else if req_reduce_only req && negb (allow_reduce_only opts) then
    Err (BrokerError.Unsupported
      "reduce_only is not supported for spot orders; enable margin params explicitly or size the order to the held balance")
  else Ok tt.

Definition prepare_volume (req : OrderRequest) (pair : PairInfo) : broker Dec :=
  let? volume := map_dec (round_dp (req_quantity req) (lot_decimals pair) Floor) in
  if is_zero volume then Err (BrokerError.QuantityRoundsToZero (canonical pair) (req_quantity req) volume)
  else if dec_ltb volume (order_min pair) then Err (BrokerError.BelowMinQuantity (canonical pair) (order_min pair) volume)
  else Ok volume.

Definition invalid_price {A} (m : result DecError A) : broker A :=
  map_err (fun e => BrokerError.InvalidPrice (DecError.display e)) m.

Definition prepare_price (req : OrderRequest) (pair : PairInfo) : broker (option Dec) :=
  match req_kind req with
  | Market => Ok None
  | Limit price =>
      if negb (is_positive price) then Err (BrokerError.InvalidPrice "limit price must be positive")
      else
        let mode := match req_side req with Buy => Floor | Sell => Ceil end in
        let? p := invalid_price (round_dp price (pair_decimals pair) mode) in
        let? p :=
          match tick_size pair with
          | Some tick => invalid_price (round_to_multiple p tick mode)
          | None => Ok p
          end in
        if pair_decimals pair <? decimals p then
          Err (BrokerError.Config (canonical pair +:+ ": tick size " +:+ debug_option debug_dec (tick_size pair) +:+
                 " is finer than pair_decimals " +:+ show_int (pair_decimals pair)))
        else if negb (is_positive p) then
          Err (BrokerError.InvalidPrice ("limit price " +:+ to_string price +:+ " rounds to zero"))
        else Ok (Some p)
  end.

(** The minimum cost; the result is [cost_check_skipped]. *)
Definition check_cost (req : OrderRequest) (pair : PairInfo) (volume : Dec) (price : option Dec) : broker bool :=
  match cost_min pair with
  | None => Ok false
  | Some min_cost =>
      match or_some price (req_reference_price req) with
      | None => Ok true
      | Some px =>
          let? cost := ok_or (checked_mul volume px) (BrokerError.InvalidRequest "cost overflow") in
          if dec_ltb cost min_cost then Err (BrokerError.BelowMinCost (canonical pair) min_cost cost) else Ok false
      end
  end.

Definition prepare_order (req : OrderRequest) (pair : PairInfo) (userref : Z) (opts : PrepareOptions)
    : broker PreparedOrder :=
  let? _ := check_request req pair opts in
  let? volume := prepare_volume req pair in
  let? price := prepare_price req pair in
  let? skipped := check_cost req pair volume price in
  Ok {| p_symbol := canonical pair; p_broker_pair := altname pair; p_side := req_side req;
        p_requested_quantity := req_quantity req; p_volume := volume; p_volume_dp := lot_decimals pair;
        p_price := price; p_price_dp := pair_decimals pair; p_userref := userref;
        p_time_in_force := req_time_in_force req; p_post_only := req_post_only req;
        p_reduce_only := req_reduce_only req; p_validate := req_validate_only req || force_validate opts;
        p_cost_check_skipped := skipped |}.

Definition to_params (p : PreparedOrder) : broker (list (string * string)) :=
  let? volume := map_dec (to_fixed (p_volume p) (p_volume_dp p)) in
  let? price :=
    match p_price p with
    | Some px => let? t := map_dec (to_fixed px (p_price_dp p)) in Ok [("price", t)]
    | None => Ok []
    end in
  Ok ([("pair", p_broker_pair p); ("type", side_str (p_side p));
       ("ordertype", match p_price p with Some _ => "limit" | None => "market" end); ("volume", volume)] ++
      price ++
      (match p_time_in_force p with
       | Some Gtc => [("timeinforce", "GTC")]
       | Some Ioc => [("timeinforce", "IOC")]
       | None => []
       end) ++
      (if p_post_only p then [("oflags", "post")] else []) ++
      [("userref", show_int (p_userref p))] ++
      (if p_reduce_only p then [("reduce_only", "true")] else []) ++
      (if p_validate p then [("validate", "true")] else [])).

Definition sent (p : PreparedOrder) : SentOrder :=
  {| sent_broker_pair := p_broker_pair p; sent_side := p_side p; sent_quantity := p_volume p; sent_price := p_price p;
     sent_userref := p_userref p; sent_validate_only := p_validate p |}.

(** ** Well-formed rows *)

Record pair_ok (p : PairInfo) : Prop := {
  po_lot : 0 ≤ lot_decimals p;
  po_pair : 0 ≤ pair_decimals p;
  po_min : dec_ok (order_min p);
  po_min_nonneg : 0 ≤ atto (order_min p);
  po_cost : opt_dec_ok (cost_min p);
  po_tick : opt_dec_ok (tick_size p);
}.

(** Rounding lands on the grid, less than one step away. *)
Lemma round_dp_near d dp mode r : dec_ok d → 0 ≤ dp → round_fits d dp → mode ≠ HalfUp → round_dp d dp mode = Ok r →
  Z.abs (atto d - atto r) < grain dp.
Proof.
  intros Hd Hdp Hf Hm H. assert (dp ≤ MAX_SCALE).
  { unfold round_dp in H. destruct (Z.ltb_spec MAX_SCALE dp); [done|lia]. }
  destruct (round_dp_atto d dp mode Hd ltac:(lia) Hf) as (r' & Hr' & _ & _ & Ha). rewrite Hr' in H. simplify_eq.
  pose proof (round_to_bounds mode (atto d) (grain dp) (grain_pos dp ltac:(lia))). rewrite Ha. destruct mode; simpl in *; [lia..|done].
Qed.

Lemma round_step_near d step mode r : dec_ok d → dec_ok step → mode ≠ HalfUp → round_to_multiple d step mode = Ok r →
  (atto step | atto r) ∧ Z.abs (atto d - atto r) < atto step.
Proof.
  intros Hd Hs Hm H. assert (0 < atto step) as Hpos.
  { unfold round_to_multiple in H. destruct (is_positive step) eqn:E; [|done]. by apply is_positive_atto. }
  destruct (round_to_multiple_atto d step mode r Hd Hs H Hm) as [_ ->].
  pose proof (round_to_bounds mode (atto d) (atto step) Hpos).
  destruct mode; simpl in *; [..|done]; (split; [eexists; reflexivity|lia]).
Qed.

(** A price on the grid of the pair, at most a step of each grid from what was wanted. *)
Definition on_price_grid (pair : PairInfo) (w px : Dec) : Prop :=
  (∀ tick, tick_size pair = Some tick → (atto tick | atto px)) ∧
  Z.abs (atto w - atto px) < grain (pair_decimals pair) + match tick_size pair with Some tick => atto tick | None => 0 end.

Lemma prepare_volume_ok req pair v : pair_ok pair → dec_ok (req_quantity req) → 0 < units (req_quantity req) →
  prepare_volume req pair = Ok v →
  dec_ok v ∧ scale v = lot_decimals pair ∧ atto v ≠ 0 ∧ atto (order_min pair) ≤ atto v ≤ atto (req_quantity req) ∧
  (round_fits (req_quantity req) (lot_decimals pair) → atto (req_quantity req) - atto v < grain (lot_decimals pair)).
Proof.
  intros Hp Hq Hpos H. unfold prepare_volume, map_dec in H. inv_ok.
  assert (round_fits (req_quantity req) (lot_decimals pair) → atto (req_quantity req) - atto v < grain (lot_decimals pair)).
  { intros Hf. match goal with Hr : round_dp _ _ _ = Ok v |- _ => pose proof (round_dp_near _ _ Floor _ Hq (po_lot pair Hp) Hf ltac:(done) Hr) end. lia. }
  destruct (round_floor_le (req_quantity req) (lot_decimals pair) v) as (Hv & Hs & Hle); [done|lia|apply Hp|done|].
  split; [done|]. split; [done|]. rewrite dec_ltb_atto in * by (done || apply (po_min pair Hp)). split; [|split; [lia|done]].
  rewrite <-is_zero_atto by done. by rewrite Heqb.
Qed.

Lemma prepare_price_ok req pair o : pair_ok pair → prepare_price req pair = Ok o →
  match req_kind req with
  | Market => o = None
  | Limit w =>
      ∃ px, o = Some px ∧ 0 < units w ∧ 0 < units px ∧ decimals px ≤ pair_decimals pair ∧
        (dec_ok w → round_fits w (pair_decimals pair) →
         dec_ok px ∧ on_price_grid pair w px ∧ match req_side req with Buy => atto px ≤ atto w | Sell => atto w ≤ atto px end)
  end.
Proof.
  intros Hp H. unfold prepare_price, invalid_price in H. destruct (req_kind req) as [|w]; [by inv_ok|].
  destruct (is_positive w) eqn:Ew; [|done]. cbn [negb] in H.
  apply bind_ok in H as (p1 & H1 & H). apply bind_ok in H as (p2 & H2 & H). rewrite map_err_ok in H1.
  destruct (Z.ltb_spec (pair_decimals pair) (decimals p2)); [done|].
  destruct (is_positive p2) eqn:Ep2; [|done]. injection H as <-.
  exists p2. split; [done|]. unfold is_positive in *. split; [lia|]. split; [lia|]. split; [lia|].
  intros Hw Hf.
  destruct (round_price_side (req_side req) w (pair_decimals pair) p1 Hw (po_pair pair Hp) Hf) as [Hp1 Hle]; [by destruct (req_side req)|].
  assert (match req_side req with Buy => Floor | Sell => Ceil end ≠ HalfUp) as Hm by (by destruct (req_side req)).
  pose proof (round_dp_near _ _ _ _ Hw (po_pair pair Hp) Hf Hm H1) as Hn1. unfold on_price_grid.
  destruct (tick_size pair) as [tick|] eqn:Et; [|simplify_eq; split; [done|]; split; [split; [done|lia]|done]].
  rewrite map_err_ok in H2.
  destruct (round_step_side (req_side req) p1 tick p2) as [Hp2 Hle2]; [done|by apply (po_tick pair Hp)|by destruct (req_side req)|].
  destruct (round_step_near p1 tick _ p2 Hp1 (po_tick pair Hp tick Et) Hm H2) as [Hd Hn2].
  split; [done|]. split; [split; [by intros ? [= <-]|lia]|]. destruct (req_side req); lia.
Qed.

Lemma elem_of_if {A} (b : bool) (x y : A) : x ∈ (if b then [y] else []) ↔ b = true ∧ x = y.
Proof. destruct b; [rewrite list_elem_of_singleton; tauto|]. split; [by intros ?%not_elem_of_nil|by intros []]. Qed.

(** What the parameters sent say of the side and the flags. *)
Lemma to_params_flags p ps : to_params p = Ok ps →
  (("type", side_str (p_side p)) : string * string) ∈ ps ∧
  ((("oflags", "post") : string * string) ∈ ps ↔ p_post_only p = true) ∧
  ((("reduce_only", "true") : string * string) ∈ ps ↔ p_reduce_only p = true) ∧
  ((("validate", "true") : string * string) ∈ ps ↔ p_validate p = true).
Proof.
  unfold to_params. intros (v & _ & (pr & Hpr & [= <-])%bind_ok)%bind_ok.
  assert (∀ k x : string, k ≠ "price" → (k, x) ∉ pr) as Hno.
  { intros k x Hk. destruct (p_price p); [|injection Hpr as <-; by intros ?%not_elem_of_nil].
    apply bind_ok in Hpr as (t & _ & [= <-]). rewrite list_elem_of_singleton. congruence. }
  assert (∀ k x : string, k ≠ "timeinforce" → (k, x) ∉
    match p_time_in_force p with Some Gtc => [("timeinforce", "GTC")] | Some Ioc => [("timeinforce", "IOC")] | None => [] end) as Hnt.
  { intros k x Hk. destruct (p_time_in_force p) as [[]|]; [rewrite list_elem_of_singleton; congruence..|by intros ?%not_elem_of_nil]. }
  split; [by right; left|]. rewrite !elem_of_cons, !elem_of_app, !elem_of_cons, !elem_of_app, !elem_of_if.
  split_and!; (split; [|tauto]).
  all: intros [Hin|[Hin|[Hin|[Hin|[Hin|[Hin|[[Hb Hin]|[Hin|[[Hb Hin]|[Hb Hin]]]]]]]]]].
  all: first [exact Hb | discriminate Hin | by apply Hno in Hin | by apply Hnt in Hin].
Qed.

Lemma check_cost_ok req pair v o sk : pair_ok pair → dec_ok v → opt_dec_ok (or_some o (req_reference_price req)) →
  check_cost req pair v o = Ok sk →
  ∀ m px, cost_min pair = Some m → or_some o (req_reference_price req) = Some px →
    sk = false ∧ atto m ≤ atto v * atto px / ONE.
Proof.
  intros Hp Hv Ho H m px Hm Hpx. unfold check_cost in H. rewrite Hm, Hpx in H. inv_ok.
  destruct (checked_mul_atto v px x) as [Hx Ha]; [done|by apply Ho|done|].
  rewrite dec_ltb_atto in * by (done || by apply (po_cost pair Hp)). split; [done|lia].
Qed.

Definition pair_okb (p : PairInfo) : bool :=
  (0 <=? lot_decimals p) && (0 <=? pair_decimals p) && dec_okb (order_min p) && (0 <=? atto (order_min p)) &&
  match cost_min p with Some d => dec_okb d | None => true end &&
  match tick_size p with Some d => dec_okb d | None => true end.

Lemma pair_okb_spec p : pair_okb p = true → pair_ok p.
Proof.
  unfold pair_okb. rewrite !andb_true_iff, !Z.leb_le. intros (((((? & ?) & ?) & ?) & Hc) & Ht).
  split; try done; try (by apply dec_okb_spec).
  - intros d Hd. rewrite Hd in Hc. by apply dec_okb_spec.
  - intros d Hd. rewrite Hd in Ht. by apply dec_okb_spec.
Qed.
End Kraken.

(** ** Properties *)


