(* ===== verification/Alpaca.v ===== *)
(** * Alpaca: crates/broker-adapters/src/alpaca/{assets,order}.rs

    The asset table (tradable, fractionable, minimum size) and the preparation of an equity or crypto order. *)

From Stdlib Require Import ZArith Lia String Ascii.
From S2P Require Import Prelude Text BTree Decimal DecMath Broker Kraken.

Local Open Scope Z_scope.

Module Alpaca.

(** ** The asset table *)

Definition FRACTIONAL_DP : Z := 9.

Inductive AssetSource := Builtin | Api.

#[export] Instance asset_source_eq_dec : EqDecision AssetSource.
Proof. solve_decision. Defined.

Record AssetInfo := {
  symbol : string;
  tradable : bool;
  fractionable : bool;
  min_order_size : Dec;
  min_trade_increment : option Dec;
  price_increment : option Dec;
  status : option string;
  source : AssetSource;
}.

Definition asset_debug (a : AssetInfo) : string :=
  debug_struct "AssetInfo" [
    ("symbol", debug_str (symbol a)); ("tradable", show_bool (tradable a)); ("fractionable", show_bool (fractionable a));
    ("min_order_size", debug_dec (min_order_size a));
    ("min_trade_increment", debug_option debug_dec (min_trade_increment a));
    ("price_increment", debug_option debug_dec (price_increment a)); ("status", debug_option debug_str (status a));
    ("source", match source a with Builtin => "Builtin" | Api => "Api" end)].

Definition malformed {A} (s : string) : broker A := Err (BrokerError.Malformed s).

Definition opt_dec (v : Json) (field : string) : broker (option Dec) :=
  let not_decimal := "asset field `" +:+ field +:+ "` is not a decimal" in
  let of_text t := map_err (fun _ => BrokerError.Malformed not_decimal) (let? d := parse t in Ok (Some d)) in
  match json_get v field with
  | None | Some JNull => Ok None
  | Some (JStr s) => if is_empty (trim s) then Ok None else of_text s
  | Some (JNum t) => of_text t
  | Some _ => malformed ("asset field `" +:+ field +:+ "` is not a number")
  end.

Definition filter_positive (o : option Dec) : option Dec :=
  match o with Some d => if is_positive d then Some d else None | None => None end.

Definition asset_from_json (v : Json) : broker AssetInfo :=
  let? symbol :=
    match json_get v "symbol" with
    | Some (JStr s) => if is_empty s then malformed "asset has no `symbol`" else Ok (to_uppercase s)
    | _ => malformed "asset has no `symbol`"
    end in
  let? tradable :=
    match json_get v "tradable" with
    | Some (JBool b) => Ok b
    | _ => malformed ("asset " +:+ symbol +:+ ": missing boolean `tradable`")
    end in
  let fractionable := match json_get v "fractionable" with Some (JBool b) => b | _ => false end in
  let? min_order := opt_dec v "min_order_size" in
  let min_order_size := default ZERO min_order in
  if is_negative min_order_size then malformed ("asset " +:+ symbol +:+ ": negative min_order_size")
  else
    let? step := opt_dec v "min_trade_increment" in
    let? tick := opt_dec v "price_increment" in
    Ok {| symbol := symbol; tradable := tradable; fractionable := fractionable; min_order_size := min_order_size;
          min_trade_increment := filter_positive step; price_increment := filter_positive tick;
          status := match json_get v "status" with Some (JStr s) => Some s | _ => None end;
          source := Api |}.

Definition not_tradable_reason (a : AssetInfo) : option string :=
  if negb (tradable a) then Some "tradable=false"
  else match status a with
       | Some s => if negb (eq_ignore_ascii_case s "active") then Some ("status " +:+ s) else None
       | None => None
       end.

Definition round_quantity (a : AssetInfo) (qty : Dec) : broker Dec :=
  let? rounded :=
    (if fractionable a then
       let? q := map_dec (round_dp qty FRACTIONAL_DP Floor) in
       match min_trade_increment a with
       | Some step => map_dec (round_to_multiple q step Floor)
       | None => Ok q
       end
     else map_dec (round_dp qty 0 Floor)) in
  let rounded := normalized rounded in
  if is_zero rounded then Err (BrokerError.QuantityRoundsToZero (symbol a) qty rounded)
  else if dec_ltb rounded (min_order_size a) then
    Err (BrokerError.BelowMinQuantity (symbol a) (min_order_size a) rounded)
  else Ok rounded.

Definition AssetTable : Type := BTreeMap string AssetInfo.

Definition upsert (t : AssetTable) (info : AssetInfo) : AssetTable := bt_insert (to_uppercase (symbol info)) info t.
Definition lookup (t : AssetTable) (symbol : string) : option AssetInfo := bt_get t (to_uppercase (trim symbol)).

Definition builtin_row (sym : string) : AssetInfo :=
  {| symbol := sym; tradable := true; fractionable := true; min_order_size := ZERO; min_trade_increment := None;
     price_increment := None; status := None; source := Builtin |}.
Definition builtin : AssetTable := fold_left upsert (builtin_row <$> ["SPY"; "EFA"; "IEF"; "DBC"; "VNQ"]) [].

Definition from_assets_json (v : Json) : broker AssetTable :=
  match v with
  | JArr items => try_fold (fun t it => let? a := asset_from_json it in Ok (upsert t a)) [] items
  | JObj _ => let? a := asset_from_json v in Ok (upsert [] a)
  | _ => malformed "assets body is neither an object nor an array"
  end.

(** ** Order preparation *)

Definition MAX_CLIENT_ORDER_ID_LEN : Z := 128.

Record PrepareOptions := {
  allow_extended_hours : bool;
  min_notional : Dec;
  own_tag_prefix : option string;
  refuse_builtin_assets : bool;
  allow_crypto : bool;
}.

Record PreparedOrder := {
  p_symbol : string;
  p_side : Side;
  p_requested_quantity : Dec;
  p_quantity : Dec;
  p_fractional : bool;
  p_limit_price : option Dec;
  p_time_in_force : string;
  p_extended_hours : bool;
  p_client_order_id : string;
  p_asset_source : AssetSource;
  p_cost_check_skipped : bool;
}.

Definition is_slash (c : ascii) : bool := Ascii.eqb c "/".
Definition alnum (t : string) : bool := negb (is_empty t) && sall is_ascii_alphanumeric t.
Definition first_char (p : ascii → bool) (s : string) : bool :=
  match s with String c _ => p c | EmptyString => false end.

Definition normalize_symbol (symbol : string) : broker string :=
  let s := trim symbol in
  let invalid := Err (BrokerError.InvalidRequest ("invalid equity symbol " +:+ debug_str symbol)) in
  match split_once is_slash s with
  | Some (base, quote) =>
      if alnum base && alnum quote then
        Err (BrokerError.Unsupported (s +:+ ": crypto pairs are not supported by the Alpaca equities adapter"))
      else invalid
  | None =>
      let up := to_uppercase s in
      if negb (is_empty up) && (slen up <=? 15) && first_char is_ascii_alphanumeric up &&
         sall (fun b => is_ascii_alphanumeric b || Ascii.eqb b "." || Ascii.eqb b "-") up
      then Ok up else invalid
  end.

Definition is_crypto_pair (symbol : string) : bool := contains_char is_slash (trim symbol).

Definition normalize_crypto_pair (symbol : string) : broker string :=
  let up := to_uppercase (trim symbol) in
  match split_once is_slash up with
  | Some (base, quote) =>
      if alnum base && alnum quote && negb (contains_char is_slash quote) then Ok (base +:+ "/" +:+ quote)
      else Err (BrokerError.InvalidRequest ("invalid crypto pair " +:+ debug_str symbol))
  | None => Err (BrokerError.InvalidRequest ("invalid crypto pair " +:+ debug_str symbol))
  end.

Definition validate_tag (tag : string) (opts : PrepareOptions) : broker unit :=
  if is_empty tag then Err (BrokerError.InvalidRequest "order tag (client_order_id) must not be empty")
  else if MAX_CLIENT_ORDER_ID_LEN <? slen tag then
    Err (BrokerError.InvalidRequest ("order tag is " +:+ show_int (slen tag) +:+
      " characters; Alpaca's client_order_id limit is " +:+ show_int MAX_CLIENT_ORDER_ID_LEN))
  else if negb (sall is_ascii_graphic_or_space tag) then
    Err (BrokerError.InvalidRequest "order tag must be printable ASCII")
  else match own_tag_prefix opts with
       | Some prefix =>
           if negb (starts_with tag prefix) then
             Err (BrokerError.InvalidRequest ("order tag " +:+ debug_str tag +:+
               " does not start with the configured own_tag_prefix " +:+ debug_str prefix))
           else Ok tt
       | None => Ok tt
       end.

(** The symbol and the guards before any arithmetic. *)
Definition check_request (req : OrderRequest) (asset : AssetInfo) (opts : PrepareOptions) : broker string :=
  let? sym :=
    (if is_crypto_pair (req_symbol req) then
       if negb (allow_crypto opts) then
         Err (BrokerError.Unsupported (trim (req_symbol req) +:+
           ": crypto pairs are not enabled on this Alpaca connection (paper only)"))
       else normalize_crypto_pair (req_symbol req)
     else normalize_symbol (req_symbol req)) in
  if negb (String.eqb sym (symbol asset)) then
    Err (BrokerError.InvalidRequest ("asset row " +:+ symbol asset +:+ " does not match order symbol " +:+ sym))
  else match not_tradable_reason asset with
  | Some why => Err (BrokerError.PairNotTradable sym why)
  | None =>
      if refuse_builtin_assets opts && bool_decide (source asset = Builtin) then
        Err (BrokerError.Config (sym +:+
          ": only a built-in (unverified) asset row exists and refuse_builtin_assets is set; call refresh_asset first"))
      else if req_validate_only req then
        Err (BrokerError.Unsupported
          "Alpaca has no validate-only order endpoint; use the paper environment, or `prepare` for a local dry run")
      else if req_reduce_only req then
        Err (BrokerError.Unsupported
          "reduce_only is not available for Alpaca equities; size the order to the held position")
      else if req_post_only req then Err (BrokerError.Unsupported "post_only is not available for Alpaca equities")
      else if negb (is_positive (req_quantity req)) then
        Err (BrokerError.InvalidRequest "quantity must be positive")
      else
        let? _ := validate_tag (req_tag req) opts in
        Ok sym
  end.

Definition choose_tif (req : OrderRequest) (crypto : bool) : broker string :=
  match req_kind req, req_time_in_force req with
  | Market, Some _ =>
      Err (BrokerError.InvalidRequest
        "time_in_force is only configurable on limit orders; market orders are sent as `day`")
  | _, None => Ok (if crypto then "gtc" else "day")
  | Limit _, Some Gtc => Ok "gtc"
  | Limit _, Some Ioc => Ok "ioc"
  end.

Definition invalid_price {A} (m : result DecError A) : broker A :=
  map_err (fun e => BrokerError.InvalidPrice (DecError.display e)) m.

Definition prepare_price (req : OrderRequest) (asset : AssetInfo) : broker (option Dec) :=
  match req_kind req with
  | Market => Ok None
  | Limit price =>
      if negb (is_positive price) then Err (BrokerError.InvalidPrice "limit price must be positive")
      else
        let? increment :=
          match price_increment asset with
          | Some i => Ok i
          | None => if dec_leb (from_i64 1) price then map_dec (dec_new 1 2) else map_dec (dec_new 1 4)
          end in
        let mode := match req_side req with Buy => Floor | Sell => Ceil end in
        let? rounded := invalid_price (round_to_multiple price increment mode) in
        let p := normalized rounded in
        if negb (is_positive p) then
          Err (BrokerError.InvalidPrice ("limit price " +:+ to_string price +:+ " rounds to zero"))
        else Ok (Some p)
  end.

Definition check_cost (req : OrderRequest) (opts : PrepareOptions) (sym : string) (quantity : Dec) (price : option Dec)
    : broker bool :=
  if is_positive (min_notional opts) then
    match (match price with Some p => Some p | None => req_reference_price req end) with
    | Some px =>
        let? cost := ok_or (checked_mul quantity px) (BrokerError.InvalidRequest "cost overflow") in
        if dec_ltb cost (min_notional opts) then Err (BrokerError.BelowMinCost sym (min_notional opts) cost)
        else Ok false
    | None => Ok true
    end
  else Ok false.

Definition prepare_order (req : OrderRequest) (asset : AssetInfo) (opts : PrepareOptions) : broker PreparedOrder :=
  let crypto := is_crypto_pair (req_symbol req) in
  let? sym := check_request req asset opts in
  let? quantity := round_quantity asset (req_quantity req) in
  let? whole := map_dec (round_dp quantity 0 Floor) in
  let fractional := negb (dec_eqb quantity whole) in
  let? tif := choose_tif req crypto in
  if fractional && negb crypto && negb (String.eqb tif "day") then
    Err (BrokerError.InvalidRequest (sym +:+ ": a fractional quantity (" +:+ to_string quantity +:+
      ") requires time_in_force `day`, not `" +:+ tif +:+ "`"))
  else
    let? limit_price := prepare_price req asset in
    let? skipped := check_cost req opts sym quantity limit_price in
    Ok {| p_symbol := sym; p_side := req_side req; p_requested_quantity := req_quantity req; p_quantity := quantity;
          p_fractional := fractional; p_limit_price := limit_price; p_time_in_force := tif;
          p_extended_hours :=
            allow_extended_hours opts && (match req_kind req with Limit _ => true | Market => false end) &&
            String.eqb tif "day";
          p_client_order_id := req_tag req; p_asset_source := source asset; p_cost_check_skipped := skipped |}.

Definition is_market (p : PreparedOrder) : bool := match p_limit_price p with None => true | Some _ => false end.

Definition to_json (p : PreparedOrder) : Json :=
  JObj ([("symbol", JStr (p_symbol p)); ("qty", JStr (to_string (normalized (p_quantity p))));
         ("side", JStr (side_str (p_side p))); ("type", JStr (if is_market p then "market" else "limit"));
         ("time_in_force", JStr (p_time_in_force p)); ("client_order_id", JStr (p_client_order_id p))] ++
        (match p_limit_price p with Some px => [("limit_price", JStr (to_string (normalized px)))] | None => [] end) ++
        (if p_extended_hours p then [("extended_hours", JBool true)] else [])).

Definition sent (p : PreparedOrder) : SentOrder :=
  {| sent_broker_pair := p_symbol p; sent_side := p_side p; sent_quantity := p_quantity p;
     sent_price := p_limit_price p; sent_userref := 0; sent_validate_only := false |}.

(** ** Well-formed rows *)

Record asset_ok (a : AssetInfo) : Prop := {
  ao_min : dec_ok (min_order_size a);
  ao_min_nonneg : 0 ≤ atto (min_order_size a);
  ao_step : ∀ d, min_trade_increment a = Some d → dec_ok d;
  ao_tick : ∀ d, price_increment a = Some d → dec_ok d;
}.

Lemma asset_dec_ok v f o d : opt_dec v f = Ok o → o = Some d → dec_ok d.
Proof.
  unfold opt_dec. intros H ->. assert (∀ t (e : DecError → BrokerError), map_err e (let? d := parse t in Ok (Some d)) = Ok (Some d) → dec_ok d) as Ht.
  { intros t e. rewrite map_err_ok, bind_ok. intros (x & Hx & [= ->]). by eapply parse_ok. }
  destruct (json_get v f) as [[]|]; try done; [by eapply Ht|]. destruct (is_empty (trim s)); [done|by eapply Ht].
Qed.

(** A row parsed from the broker is well formed. *)
Lemma asset_from_json_ok v a : asset_from_json v = Ok a → asset_ok a.
Proof.
  unfold asset_from_json. intros H.
  apply bind_ok in H as (sym & _ & H). apply bind_ok in H as (tr & _ & H). apply bind_ok in H as (mo & Hmo & H).
  destruct (is_negative (default ZERO mo)) eqn:En; [done|].
  apply bind_ok in H as (st & Hst & H). apply bind_ok in H as (ti & Hti & H). injection H as <-.
  assert (dec_ok (default ZERO mo)) as Hm.
  { destruct mo; simpl; [by apply (asset_dec_ok _ _ _ _ Hmo)|apply ZERO_ok]. }
  split; simpl; [done| | |].
  - pose proof (is_negative_atto _ Hm) as Hn. rewrite En in Hn. destruct (Z.lt_ge_cases (atto (default ZERO mo)) 0); [|done].
    naive_solver.
  - intros d Hd. unfold filter_positive in Hd. destruct st; [|done]. destruct (is_positive d0); [|done].
    simplify_eq. by apply (asset_dec_ok _ _ _ _ Hst).
  - intros d Hd. unfold filter_positive in Hd. destruct ti; [|done]. destruct (is_positive d0); [|done].
    simplify_eq. by apply (asset_dec_ok _ _ _ _ Hti).
Qed.

Lemma round_to_multiple_floor q step r : dec_ok q → dec_ok step → round_to_multiple q step Floor = Ok r →
  dec_ok r ∧ atto r ≤ atto q ∧ (∃ k, atto r = k * atto step).
Proof.
  intros Hq Hs H. assert (0 < atto step).
  { unfold round_to_multiple in H. destruct (is_positive step) eqn:E; [|done]. by apply is_positive_atto. }
  destruct (round_to_multiple_atto q step Floor r Hq Hs H) as [Hok Hr]; [done|]. split; [done|].
  pose proof (round_to_bounds Floor (atto q) (atto step)). simpl in *. split; [lia|]. by exists (atto q / atto step).
Qed.

Lemma round_quantity_ok a q r : asset_ok a → dec_ok q → 0 < units q → round_quantity a q = Ok r →
  dec_ok r ∧ 0 < atto r ≤ atto q ∧ atto (min_order_size a) ≤ atto r ∧
  (fractionable a = false → ∃ k, atto r = k * ONE) ∧
  (∀ step, fractionable a = true → min_trade_increment a = Some step → ∃ k, atto r = k * atto step).
Proof.
  intros Ha Hq Hpos H. unfold round_quantity, map_dec in H. apply bind_ok in H as (x & Hx & H).
  destruct (is_zero (normalized x)) eqn:Ez; [done|]. destruct (dec_ltb _ _) eqn:El; [done|]. injection H as <-.
  assert (dec_ok x ∧ atto x ≤ atto q ∧ (fractionable a = false → ∃ k, atto x = k * ONE) ∧
    (∀ step, fractionable a = true → min_trade_increment a = Some step → ∃ k, atto x = k * atto step)) as (Hxok & Hle & Hw & Hst).
  { destruct (fractionable a).
    - apply bind_ok in Hx as (y & Hy & Hx). rewrite map_err_ok in Hy.
      destruct (round_floor_le q FRACTIONAL_DP y) as (Hyok & _ & Hyle); [done|lia|done|done|].
      destruct (min_trade_increment a) as [step|] eqn:Es; [|injection Hx as <-; done].
      rewrite map_err_ok in Hx. destruct (round_to_multiple_floor y step x) as (? & ? & ?); [done|by apply (ao_step a Ha)|done|].
      split; [done|]. split; [lia|]. split; [done|]. by intros ? _ [= <-].
    - rewrite map_err_ok in Hx. destruct (round_floor_le q 0 x) as (? & Hs & ?); [done|lia|done|done|].
      split; [done|]. split; [done|]. split; [|done]. intros _. exists (units x). rewrite atto_grain, Hs. done. }
  pose proof (ao_min_nonneg a Ha). rewrite dec_ltb_atto in El by (apply ao_min || apply normalized_ok; done).
  pose proof (is_zero_atto (normalized x) (normalized_ok x Hxok)) as Hz. rewrite Ez in Hz.
  rewrite normalized_atto in * by done. split; [by apply normalized_ok|]. split_and!; try done; lia.
Qed.

Lemma check_request_ok req asset opts sym : check_request req asset opts = Ok sym →
  sym = symbol asset ∧ tradable asset = true ∧ 0 < units (req_quantity req) ∧
  (req_validate_only req = false ∧ req_reduce_only req = false ∧ req_post_only req = false) ∧
  (0 < slen (req_tag req) ≤ 128 ∧
   ∀ pre, own_tag_prefix opts = Some pre → starts_with (req_tag req) pre = true).
Proof.
  unfold check_request. intros H. apply bind_ok in H as (s & _ & H).
  destruct (String.eqb_spec s (symbol asset)) as [Es|]; [subst s|done]. simpl in H.
  unfold not_tradable_reason in H. destruct (tradable asset); [|done]. simpl in H.
  destruct (match status asset with Some _ => _ | None => None end); [done|].
  destruct (refuse_builtin_assets opts && _); [done|].
  destruct (req_validate_only req), (req_reduce_only req), (req_post_only req); try done.
  destruct (is_positive (req_quantity req)) eqn:Eq; [|done]. simpl in H.
  apply bind_ok in H as ([] & Htag & [= <-]). unfold validate_tag in Htag.
  destruct (is_empty (req_tag req)) eqn:Ee; [done|]. apply is_empty_len in Ee.
  destruct (Z.ltb_spec MAX_CLIENT_ORDER_ID_LEN (slen (req_tag req))); [done|].
  destruct (negb (sall _ _)); [done|].
  split_and!; try done; [by apply Z.ltb_lt in Eq|]. intros pre Hpre. rewrite Hpre in Htag.
  by destruct (starts_with (req_tag req) pre).
Qed.

Lemma limit_price_ok req a o : asset_ok a → (∀ w, req_kind req = Limit w → dec_ok w) → prepare_price req a = Ok o →
  match req_kind req with
  | Market => o = None
  | Limit w =>
      ∃ px, o = Some px ∧ dec_ok px ∧ canonical px ∧ 0 < atto px ∧
        match req_side req with Buy => atto px ≤ atto w | Sell => atto w ≤ atto px end
  end.
Proof.
  intros Ha Hk H. unfold prepare_price, invalid_price, map_dec in H. destruct (req_kind req) as [|w]; [by inv_ok|].
  specialize (Hk w eq_refl). destruct (is_positive w) eqn:Ew; [|done]. cbn [negb] in H.
  apply bind_ok in H as (inc & Hinc & H). apply bind_ok in H as (p1 & H1 & H). rewrite map_err_ok in H1.
  destruct (is_positive (normalized p1)) eqn:Ep; [|done]. injection H as <-.
  assert (in_i128 1) by (unfold in_i128, i128_min, i128_max; lia).
  assert (dec_ok inc) as Hi.
  { destruct (price_increment a) as [i|] eqn:Ei; [injection Hinc as <-; by apply (ao_tick a Ha)|].
    destruct (dec_leb (from_i64 1) w); rewrite map_err_ok in Hinc; by eapply dec_new_ok in Hinc as [? _]. }
  destruct (round_step_side (req_side req) w inc p1 Hk Hi) as [Hp1 Hle]; [by destruct (req_side req)|].
  exists (normalized p1). split; [done|]. split; [by apply normalized_ok|]. split; [by apply normalized_canonical|].
  apply is_positive_atto in Ep; [|by apply normalized_ok]. by rewrite normalized_atto in * by done.
Qed.
End Alpaca.

(** ** Properties *)

(** An Alpaca order that is prepared is the caller's, never larger and never worse priced: the quantity is positive,
    at most the one requested, at least the asset's minimum, whole when the asset is not fractionable and on its step
    otherwise; a limit price is positive, canonical and never worse for its side; the minimum notional holds whenever a
    price is known; the asset is tradable; a fractional equity order is a [day] order; and the client order id is the
    caller's tag, unchanged, 1 to 128 printable characters long and carrying the configured prefix. *)
Theorem alpaca_prepare_sound req asset opts p :
  Alpaca.asset_ok asset → dec_ok (req_quantity req) → dec_ok (Alpaca.min_notional opts) →
  (∀ px, req_reference_price req = Some px → dec_ok px) → (∀ w, req_kind req = Limit w → dec_ok w) →
  Alpaca.prepare_order req asset opts = Ok p →
  (0 < atto (Alpaca.p_quantity p) ≤ atto (req_quantity req) ∧
   atto (Alpaca.min_order_size asset) ≤ atto (Alpaca.p_quantity p) ∧
   (Alpaca.fractionable asset = false → ∃ k, atto (Alpaca.p_quantity p) = k * ONE) ∧
   (∀ step, Alpaca.fractionable asset = true → Alpaca.min_trade_increment asset = Some step →
      ∃ k, atto (Alpaca.p_quantity p) = k * atto step)) ∧
  match req_kind req with
  | Market => Alpaca.p_limit_price p = None
  | Limit w =>
      ∃ px, Alpaca.p_limit_price p = Some px ∧ canonical px ∧ 0 < atto px ∧
        match req_side req with Buy => atto px ≤ atto w | Sell => atto w ≤ atto px end
  end ∧
  (∀ px, 0 < atto (Alpaca.min_notional opts) →
     (match Alpaca.p_limit_price p with Some l => Some l | None => req_reference_price req end) = Some px →
     atto (Alpaca.min_notional opts) ≤ atto (Alpaca.p_quantity p) * atto px / ONE) ∧
  (Alpaca.tradable asset = true ∧ Alpaca.p_symbol p = Alpaca.symbol asset) ∧
  (Alpaca.p_fractional p = true → Alpaca.is_crypto_pair (req_symbol req) = false → Alpaca.p_time_in_force p = "day") ∧
  (Alpaca.p_client_order_id p = req_tag req ∧ 0 < slen (req_tag req) ≤ 128 ∧
   ∀ pre, Alpaca.own_tag_prefix opts = Some pre → starts_with (req_tag req) pre = true) ∧
  (req_validate_only req = false ∧ req_reduce_only req = false ∧ req_post_only req = false).
Proof.
  intros Ha Hq Hm Href Hk H. unfold Alpaca.prepare_order in H.
  apply bind_ok in H as (sym & Hreq & H). apply bind_ok in H as (q & Hqty & H). apply bind_ok in H as (wh & _ & H).
  apply bind_ok in H as (tif & _ & H).
  destruct (negb (dec_eqb q wh) && negb (Alpaca.is_crypto_pair (req_symbol req)) && _) eqn:Efr; [done|].
  apply bind_ok in H as (o & Hprice & H). apply bind_ok in H as (sk & Hcost & H). injection H as <-. simpl.
  destruct (Alpaca.check_request_ok req asset opts sym Hreq) as (Hsym & Htr & Hpos & Hflags & Htag).
  destruct (Alpaca.round_quantity_ok asset (req_quantity req) q Ha Hq Hpos Hqty) as (Hqok & Hle & Hmin & Hw & Hst).
  pose proof (Alpaca.limit_price_ok req asset o Ha Hk Hprice) as Ho.
  split; [done|]. split; [destruct (req_kind req) as [|w]; [done|]; destruct Ho as (px & ? & ? & ?); by exists px|].
  destruct Hle as [Hlo Hhi], Htag as [[Hl1 Hl2] Hpre], Hflags as (? & ? & ?).
  split_and!; try done.
  - intros px Hmn Hpx. apply is_positive_atto in Hmn; [|done].
    assert (dec_ok px) as Hpxok.
    { destruct o as [l|]; [|by apply Href]. injection Hpx as <-. destruct (req_kind req); [done|].
      by destruct Ho as (? & [= <-] & ? & _). }
    unfold Alpaca.check_cost in Hcost. rewrite Hmn, Hpx in Hcost. inv_ok.
    destruct (checked_mul_atto q px x) as [Hx Hxa]; [done..|]. rewrite dec_ltb_atto in * by done. lia.
  - intros Hfr Hcr. rewrite Hfr, Hcr in Efr. simpl in Efr. by apply negb_false_iff, String.eqb_eq in Efr.
Qed.

Lemma alpaca_prepare_sound_witness :
  ∃ p, Alpaca.prepare_order
         (req_with_reference (req_market "rb1:x" "SPY" Buy (Kraken.lit "1.23456789012")) (Kraken.lit "500"))
         (Alpaca.builtin_row "SPY")
         {| Alpaca.allow_extended_hours := false; Alpaca.min_notional := Kraken.lit "1";
            Alpaca.own_tag_prefix := Some "rb1:"; Alpaca.refuse_builtin_assets := false;
            Alpaca.allow_crypto := false |} = Ok p ∧
    atto (Alpaca.p_quantity p) ≤ atto (Kraken.lit "1.23456789012") ∧ Alpaca.p_time_in_force p = "day".
Proof.
  eexists. split; [vm_compute; reflexivity|].
  edestruct (alpaca_prepare_sound
         (req_with_reference (req_market "rb1:x" "SPY" Buy (Kraken.lit "1.23456789012")) (Kraken.lit "500"))
         (Alpaca.builtin_row "SPY")
         {| Alpaca.allow_extended_hours := false; Alpaca.min_notional := Kraken.lit "1";
            Alpaca.own_tag_prefix := Some "rb1:"; Alpaca.refuse_builtin_assets := false;
            Alpaca.allow_crypto := false |}) as ((Hle & _) & _ & _ & _ & Hday & _).
  - split; [apply dec_okb_spec; vm_compute; reflexivity|vm_compute; discriminate|discriminate|discriminate].
  - apply dec_okb_spec. vm_compute. reflexivity.
  - apply dec_okb_spec. vm_compute. reflexivity.
  - intros px [= <-]. apply dec_okb_spec. vm_compute. reflexivity.
  - discriminate.
  - vm_compute. reflexivity.
  - split; [apply Hle|apply Hday; vm_compute; reflexivity].
Defined.
