(* ===== verification/Oanda.v ===== *)
(** * Oanda: crates/broker-adapters/src/oanda/{instrument,order}.rs

    Instrument names, the instrument table read from the broker, the preparation of an order with signed units, and
    the cap on the net position. *)

From Stdlib Require Import ZArith Lia String Ascii.
From S2P Require Import Prelude Text BTree Decimal DecMath Broker Kraken.

Local Open Scope Z_scope.

Module Oanda.

(** ** Names *)

Definition is_sep (c : ascii) : bool := Ascii.eqb c "_" || Ascii.eqb c "/" || Ascii.eqb c "-".

(** The text before and after the only separator, or the two halves of a bare six-letter name. *)
Definition split_name (s : string) : option (string * string) :=
  match split_once is_sep s with
  | None => if (slen s =? 6) && sall is_ascii_uppercase s then Some (stake 3 s, sdrop 3 s) else None
  | Some (base, quote) => if contains_char is_sep quote then None else Some (base, quote)
  end.

Definition base_ok (base : string) : bool :=
  (2 <=? slen base) && (slen base <=? 8) &&
  (match base with String c _ => is_ascii_uppercase c | EmptyString => false end) &&
  sall (fun b => is_ascii_uppercase b || is_ascii_digit b) base.

Definition quote_ok (quote : string) : bool := (slen quote =? 3) && sall is_ascii_uppercase quote.

Definition normalize_instrument (input : string) : broker string :=
  let bad := Err (BrokerError.UnknownSymbol (debug_str input +:+ " is not a recognised OANDA instrument name")) in
  let s := to_uppercase (trim input) in
  if is_empty s then bad
  else match split_name s with
       | Some (base, quote) => if base_ok base && quote_ok quote then Ok (base +:+ "_" +:+ quote) else bad
       | None => bad
       end.

(** [replacen('_', "/", 1)] *)
Definition replace_first_underscore (s : string) : string :=
  match split_once (fun c => Ascii.eqb c "_") s with
  | Some (a, b) => a +:+ "/" +:+ b
  | None => s
  end.

Definition canonical_symbol (input : string) : broker string :=
  let? n := normalize_instrument input in Ok (replace_first_underscore n).

Definition quote_currency (instrument : string) : option string :=
  snd <$> split_once (fun c => Ascii.eqb c "_") instrument.

(** ** The instrument table *)

Record InstrumentInfo := {
  name : string;
  kind : string;
  display_precision : Z;
  trade_units_precision : Z;
  minimum_trade_size : Dec;
  maximum_order_units : Dec;
  margin_rate : Dec;
  maximum_position_size : option Dec;
}.

Definition instrument_debug (i : InstrumentInfo) : string :=
  debug_struct "InstrumentInfo" [
    ("name", debug_str (name i)); ("kind", debug_str (kind i)); ("display_precision", show_int (display_precision i));
    ("trade_units_precision", show_int (trade_units_precision i));
    ("minimum_trade_size", debug_dec (minimum_trade_size i));
    ("maximum_order_units", debug_dec (maximum_order_units i)); ("margin_rate", debug_dec (margin_rate i));
    ("maximum_position_size", debug_option debug_dec (maximum_position_size i))].

Definition malformed {A} (s : string) : broker A := Err (BrokerError.Malformed s).

(** oanda/parse.rs: the scalar helpers *)
Definition dec_from_value (field : string) (v : Json) : broker Dec :=
  let of_text t := map_err (fun _ => BrokerError.Malformed ("field `" +:+ field +:+ "` is not a decimal")) (parse t) in
  match v with
  | JStr s => of_text s
  | JNum n => of_text n
  | _ => malformed ("field `" +:+ field +:+ "` is not a number")
  end.

Definition opt_dec (v : Json) (field : string) : broker (option Dec) :=
  match json_get v field with
  | None | Some JNull => Ok None
  | Some x => let? d := dec_from_value field x in Ok (Some d)
  end.

Definition req_dec (v : Json) (field : string) : broker Dec :=
  let? o := opt_dec v field in ok_or o (BrokerError.Malformed ("missing field `" +:+ field +:+ "`")).

Definition opt_str (v : Json) (field : string) : option string :=
  let* x := json_get v field in
  let* s := as_str x in
  if is_empty s then None else Some s.

Definition req_str (v : Json) (field : string) : broker string :=
  ok_or (opt_str v field) (BrokerError.Malformed ("missing or empty field `" +:+ field +:+ "`")).

Definition parse_position_cap (v : Json) (name : string) : broker (option Dec) :=
  let? o := opt_dec v "maximumPositionSize" in
  match o with
  | None => Ok None
  | Some d =>
      if is_zero d then Ok None
      else if is_positive d then Ok (Some d)
      else malformed ("instrument " +:+ name +:+ ": maximumPositionSize is negative")
  end.

Definition parse_precision (v : Json) (name field : string) : broker Z :=
  let? n := ok_or (let* x := json_get v field in as_u64 x)
      (BrokerError.Malformed ("instrument " +:+ name +:+ ": missing or non-integer `" +:+ field +:+ "`")) in
  if n <=? 12 then Ok n
  else malformed ("instrument " +:+ name +:+ ": `" +:+ field +:+ "` " +:+ show_int n +:+ " is out of range").

Definition parse_value (v : Json) : broker InstrumentInfo :=
  let? raw := req_str v "name" in
  let? name := normalize_instrument raw in
  let? dp := parse_precision v name "displayPrecision" in
  let? tp := parse_precision v name "tradeUnitsPrecision" in
  let? min := req_dec v "minimumTradeSize" in
  let? max := req_dec v "maximumOrderUnits" in
  let? rate := req_dec v "marginRate" in
  let? cap := parse_position_cap v name in
  if negb (is_positive min) then malformed ("instrument " +:+ name +:+ ": minimumTradeSize is not positive")
  else if negb (is_positive max) then malformed ("instrument " +:+ name +:+ ": maximumOrderUnits is not positive")
  else Ok {| name := name; kind := default EmptyString (opt_str v "type"); display_precision := dp;
             trade_units_precision := tp; minimum_trade_size := min; maximum_order_units := max; margin_rate := rate;
             maximum_position_size := cap |}.

Definition InstrumentTable : Type := BTreeMap string InstrumentInfo.

Definition upsert (t : InstrumentTable) (i : InstrumentInfo) : InstrumentTable := bt_insert (name i) i t.
Definition from_rows (rows : list InstrumentInfo) : InstrumentTable := fold_left upsert rows [].

(** One malformed row fails the whole table. *)
Definition from_instruments_json (v : Json) : broker InstrumentTable :=
  match json_get v "instruments" with
  | Some (JArr rows) => try_fold (fun t row => let? i := parse_value row in Ok (upsert t i)) [] rows
  | _ => malformed "instruments response has no `instruments` array"
  end.

Definition lookup (t : InstrumentTable) (name : string) : option InstrumentInfo :=
  match normalize_instrument name with Ok n => bt_get t n | Err _ => None end.

(** ** Order preparation *)

Definition MAX_CLIENT_ID_LEN : Z := 128.
Definition DEFAULT_CLIENT_TAG : string := "mendl-rb".

Record PrepareOptions := { own_tag_prefix : option string; client_tag : string }.
Definition default_options : PrepareOptions := {| own_tag_prefix := None; client_tag := DEFAULT_CLIENT_TAG |}.

Record PreparedOrder := {
  p_instrument : string;
  p_side : Side;
  p_requested_quantity : Dec;
  p_quantity : Dec;
  p_units : Dec;
  p_limit_price : option Dec;
  p_time_in_force : string;
  p_position_fill : string;
  p_client_id : string;
  p_client_tag : string;
}.

Definition validate_client_id (tag : string) (prefix : option string) : broker unit :=
  if is_empty tag then Err (BrokerError.InvalidRequest "order tag (clientExtensions.id) must not be empty")
  else if MAX_CLIENT_ID_LEN <? slen tag then
    Err (BrokerError.InvalidRequest ("order tag is " +:+ show_int (slen tag) +:+
      " characters; the client id limit is " +:+ show_int MAX_CLIENT_ID_LEN))
  else if negb (sall is_ascii_graphic_or_space tag) then
    Err (BrokerError.InvalidRequest "order tag must be printable ASCII")
  else match prefix with
       | Some p =>
           if negb (starts_with tag p) then
             Err (BrokerError.InvalidRequest ("order tag " +:+ debug_str tag +:+
               " does not start with the configured own_tag_prefix " +:+ debug_str p))
           else Ok tt
       | None => Ok tt
       end.

Definition check_request (req : OrderRequest) (info : InstrumentInfo) (opts : PrepareOptions)
    : broker (string * string) :=
  let? instrument := normalize_instrument (req_symbol req) in
  if negb (String.eqb instrument (name info)) then
    Err (BrokerError.InvalidRequest ("instrument row " +:+ name info +:+ " does not match order symbol " +:+ instrument))
  else if req_validate_only req then
    Err (BrokerError.Unsupported
      "OANDA has no validate-only order endpoint; use the practice environment, or `prepare` for a local dry run")
  else if req_post_only req then Err (BrokerError.Unsupported "post_only is not available for OANDA orders")
  else if negb (is_positive (req_quantity req)) then
    Err (BrokerError.InvalidRequest "quantity must be positive (the side gives the sign)")
  else
    let? _ := validate_client_id (req_tag req) (own_tag_prefix opts) in
    let? symbol := canonical_symbol instrument in
    Ok (instrument, symbol).

Definition prepare_quantity (req : OrderRequest) (info : InstrumentInfo) (symbol : string) : broker Dec :=
  let? quantity := map_dec (round_dp (req_quantity req) (trade_units_precision info) Floor) in
  if is_zero quantity then Err (BrokerError.QuantityRoundsToZero symbol (req_quantity req) quantity)
  else if dec_ltb quantity (minimum_trade_size info) then
    Err (BrokerError.BelowMinQuantity symbol (minimum_trade_size info) quantity)
  else if dec_ltb (maximum_order_units info) quantity then
    Err (BrokerError.InvalidRequest (symbol +:+ ": " +:+ to_string quantity +:+
      " units exceeds the instrument's maximumOrderUnits " +:+ to_string (maximum_order_units info) +:+
      "; refusing to truncate"))
  else Ok quantity.

(** The negation of [units()] is unchecked. *)
Definition negate (d : Dec) : result DecError Dec := dec_new (wrap_i128 (- units d)) (scale d).

Definition choose_tif (req : OrderRequest) : broker string :=
  match req_kind req, req_time_in_force req with
  | Market, None => Ok "FOK"
  | Market, Some Ioc => Ok "IOC"
  | Market, Some Gtc =>
      Err (BrokerError.InvalidRequest "a market order cannot be GTC; use FOK (default) or IOC")
  | Limit _, None | Limit _, Some Gtc => Ok "GTC"
  | Limit _, Some Ioc => Ok "IOC"
  end.

Definition prepare_price (req : OrderRequest) (info : InstrumentInfo) : broker (option Dec) :=
  match req_kind req with
  | Market => Ok None
  | Limit price =>
      if negb (is_positive price) then Err (BrokerError.InvalidPrice "limit price must be positive")
      else
        let mode := match req_side req with Buy => Floor | Sell => Ceil end in
        let? p := map_err (fun e => BrokerError.InvalidPrice (DecError.display e))
                    (round_dp price (display_precision info) mode) in
        if negb (is_positive p) then
          Err (BrokerError.InvalidPrice ("limit price " +:+ to_string price +:+ " rounds to zero"))
        else Ok (Some p)
  end.

Definition prepare_order (req : OrderRequest) (info : InstrumentInfo) (opts : PrepareOptions) : broker PreparedOrder :=
  let? (instrument, symbol) := check_request req info opts in
  let? quantity := prepare_quantity req info symbol in
  let? units := match req_side req with Buy => Ok quantity | Sell => map_dec (negate quantity) end in
  let? tif := choose_tif req in
  let? limit_price := prepare_price req info in
  Ok {| p_instrument := instrument; p_side := req_side req; p_requested_quantity := req_quantity req;
        p_quantity := quantity; p_units := units; p_limit_price := limit_price; p_time_in_force := tif;
        p_position_fill := if req_reduce_only req then "REDUCE_ONLY" else "DEFAULT";
        p_client_id := req_tag req; p_client_tag := client_tag opts |}.

(** The file's own [abs]: falls back to the value itself. *)
Definition abs (d : Dec) : Dec :=
  if is_negative d then match negate d with Ok r => r | Err _ => d end else d.

Definition check_position_cap (info : InstrumentInfo) (net_units order_units : Dec) : broker unit :=
  match maximum_position_size info with
  | None => Ok tt
  | Some cap =>
      let? after := ok_or (checked_add net_units order_units)
          (BrokerError.InvalidRequest (name info +:+ ": position arithmetic overflowed")) in
      let abs_after := abs after in
      let abs_now := abs net_units in
      let shrinks_same_side :=
        dec_leb abs_after abs_now &&
        (is_zero after || is_zero net_units || Bool.eqb (is_negative after) (is_negative net_units)) in
      if dec_ltb cap abs_after && negb shrinks_same_side then
        Err (BrokerError.InvalidRequest (name info +:+ ": the order would take the net position from " +:+
          to_string net_units +:+ " to " +:+ to_string after +:+
          " units, beyond the instrument's maximumPositionSize " +:+ to_string cap +:+ "; refusing to truncate"))
      else Ok tt
  end.

Definition is_market (p : PreparedOrder) : bool := match p_limit_price p with None => true | Some _ => false end.

Definition to_json (p : PreparedOrder) : Json :=
  JObj [("order", JObj (
    [("type", JStr (if is_market p then "MARKET" else "LIMIT")); ("instrument", JStr (p_instrument p));
     ("units", JStr (to_string (normalized (p_units p)))); ("timeInForce", JStr (p_time_in_force p));
     ("positionFill", JStr (p_position_fill p));
     ("clientExtensions", JObj [("id", JStr (p_client_id p)); ("tag", JStr (p_client_tag p))])] ++
    match p_limit_price p with Some px => [("price", JStr (to_string px))] | None => [] end))].

Definition sent (p : PreparedOrder) : SentOrder :=
  {| sent_broker_pair := p_instrument p; sent_side := p_side p; sent_quantity := p_quantity p;
     sent_price := p_limit_price p; sent_userref := 0; sent_validate_only := false |}.

Example names : (normalize_instrument <$> [" eur/usd"; "EURUSD"; "SPX500-USD"; "EUR_US"; "EUR_USD_X"; "EURUSDX"]) =
  [Ok "EUR_USD"; Ok "EUR_USD"; Ok "SPX500_USD"] ++
  ((fun s => Err (BrokerError.UnknownSymbol (debug_str s +:+ " is not a recognised OANDA instrument name")))
     <$> ["EUR_US"; "EUR_USD_X"; "EURUSDX"]).
Proof. reflexivity. Qed.

(** ** Names are canonical *)

Definition name_char (c : ascii) : bool := is_ascii_uppercase c || is_ascii_digit c.

Lemma name_char_facts c : name_char c = true →
  upper_char c = c ∧ is_whitespace c = false ∧ is_sep c = false.
Proof.
  unfold name_char, upper_char, is_ascii_lowercase, is_ascii_uppercase, is_ascii_digit, is_whitespace, is_sep.
  rewrite orb_true_iff, !andb_true_iff, !Z.leb_le. intros H.
  assert (48 ≤ code c ≤ 57 ∨ 65 ≤ code c ≤ 90) as Hc by tauto. clear H.
  split; [destruct (Z.leb_spec 97 (code c)); [exfalso; lia|done]|].
  split; [rewrite orb_false_iff, andb_false_iff, !Z.leb_gt, Z.eqb_neq; lia|].
  assert (code "_" = 95 ∧ code "/" = 47 ∧ code "-" = 45) by done.
  destruct (Ascii.eqb_spec c "_"); [subst; lia|]. destruct (Ascii.eqb_spec c "/"); [subst; lia|].
  destruct (Ascii.eqb_spec c "-"); [subst; lia|]. done.
Qed.

Lemma names_upper s : sall name_char s = true → to_uppercase s = s ∧ no_space s = true ∧ sall (fun c => negb (is_sep c)) s = true.
Proof.
  unfold to_uppercase, no_space. induction s as [|c s IH]; simpl; [done|]. intros [Hc Hs]%andb_true_iff.
  destruct (name_char_facts c Hc) as (-> & -> & ->), (IH Hs) as (-> & -> & ->). done.
Qed.

Lemma smap_app f a b : smap f (a +:+ b) = smap f a +:+ smap f b.
Proof. induction a as [|c a IH]; simpl; [done|]. by rewrite IH. Qed.

Lemma base_quote_chars base quote : base_ok base = true → quote_ok quote = true →
  sall name_char base = true ∧ sall name_char quote = true.
Proof.
  unfold base_ok, quote_ok. rewrite !andb_true_iff. intros [_ Hb] [_ Hq]. split; [done|].
  eapply sall_impl; [|exact Hq]. intros c Hc. unfold name_char. by rewrite Hc.
Qed.

(** Whatever single separator joins them, a good base and a good quote normalise to [BASE_QUOTE]. *)
Lemma normalize_joined base quote c : base_ok base = true → quote_ok quote = true → is_sep c = true →
  normalize_instrument (base +:+ String c quote) = Ok (base +:+ "_" +:+ quote).
Proof.
  intros Hb Hq Hc. destruct (base_quote_chars base quote Hb Hq) as [Hbc Hqc].
  destruct (names_upper base Hbc) as (Hbu & Hbs & Hbn), (names_upper quote Hqc) as (Hqu & Hqs & Hqn).
  assert (upper_char c = c ∧ is_whitespace c = false) as [Hcu Hcs].
  { unfold is_sep in Hc. destruct (Ascii.eqb_spec c "_") as [->|]; [done|]. destruct (Ascii.eqb_spec c "/") as [->|]; [done|].
    destruct (Ascii.eqb_spec c "-") as [->|]; [done|]. done. }
  unfold normalize_instrument. rewrite trim_no_space.
  2: { unfold no_space in *. rewrite sall_app. simpl. by rewrite Hbs, Hqs, Hcs. }
  unfold to_uppercase in *. rewrite smap_app. simpl. rewrite Hbu, Hqu, Hcu.
  assert (is_empty (base +:+ String c quote) = false) as ->.
  { apply is_empty_len. rewrite slen_app, slen_cons. pose proof (slen_nonneg base). pose proof (slen_nonneg quote). lia. }
  unfold split_name. rewrite split_once_app by done. unfold contains_char. rewrite split_once_none by done.
  by rewrite Hb, Hq.
Qed.

Lemma normalize_shape s n : normalize_instrument s = Ok n →
  ∃ base quote, n = base +:+ "_" +:+ quote ∧ base_ok base = true ∧ quote_ok quote = true.
Proof.
  unfold normalize_instrument. destruct (is_empty _); [done|]. destruct (split_name _) as [[base quote]|]; [|done].
  destruct (base_ok base) eqn:Hb, (quote_ok quote) eqn:Hq; simpl; try done. intros [= <-]. by exists base, quote.
Qed.

(** ** Well-formed rows *)

Record instrument_ok (i : InstrumentInfo) : Prop := {
  io_units : 0 ≤ trade_units_precision i;
  io_price : 0 ≤ display_precision i;
  io_min : dec_ok (minimum_trade_size i);
  io_min_pos : 0 < atto (minimum_trade_size i);
  io_max : dec_ok (maximum_order_units i);
  io_cap : ∀ d, maximum_position_size i = Some d → dec_ok d ∧ 0 < atto d;
}.

Lemma opt_dec_field_ok v f o d : opt_dec v f = Ok o → o = Some d → dec_ok d.
Proof.
  unfold opt_dec, dec_from_value. intros H ->.
  destruct (json_get v f) as [[]|]; try done; apply bind_ok in H as (x & Hx & [= ->]); apply map_err_ok in Hx; by eapply parse_ok.
Qed.

Lemma req_dec_ok v f d : req_dec v f = Ok d → dec_ok d.
Proof.
  unfold req_dec. intros H. apply bind_ok in H as (o & Ho & H). apply ok_or_ok in H. by eapply opt_dec_field_ok.
Qed.

Lemma digits_nonneg v n f z : parse_precision v n f = Ok z → 0 ≤ z.
Proof.
  unfold parse_precision. intros H. apply bind_ok in H as (x & Hx & H). apply ok_or_ok in Hx.
  destruct (json_get v f) as [[]|]; simpl in Hx; try done.
  destruct (sall is_ascii_digit text) eqn:Ed; simpl in Hx; [|done].
  destruct (negb (is_empty text) && _); [|done]. injection Hx as <-. destruct (_ <=? 12); [|done]. injection H as <-.
  by apply digits_value_nonneg.
Qed.

(** A row the broker's list parses to is well formed: positive sizes, and a cap, when there is one, that is positive. *)
Lemma parse_value_ok v i : parse_value v = Ok i → instrument_ok i.
Proof.
  unfold parse_value. intros H.
  apply bind_ok in H as (raw & _ & H). apply bind_ok in H as (nm & _ & H). apply bind_ok in H as (dp & Hdp & H).
  apply bind_ok in H as (tp & Htp & H). apply bind_ok in H as (mn & Hmn & H). apply bind_ok in H as (mx & Hmx & H).
  apply bind_ok in H as (rt & _ & H). apply bind_ok in H as (cap & Hcap & H).
  destruct (is_positive mn) eqn:Emn; [|done]. destruct (is_positive mx) eqn:Emx; [|done]. injection H as <-.
  apply req_dec_ok in Hmn, Hmx. split; simpl; try done.
  - by eapply digits_nonneg.
  - by eapply digits_nonneg.
  - by apply is_positive_atto.
  - intros d ->. unfold parse_position_cap in Hcap. apply bind_ok in Hcap as (o & Ho & Hcap).
    destruct o as [x|]; [|done]. destruct (is_zero x); [done|]. destruct (is_positive x) eqn:Ex; [|done]. simplify_eq.
    assert (dec_ok d) by (by eapply opt_dec_field_ok). split; [done|]. by apply is_positive_atto.
Qed.

Lemma prepare_quantity_ok req i sym q : instrument_ok i → dec_ok (req_quantity req) → 0 < units (req_quantity req) →
  prepare_quantity req i sym = Ok q →
  dec_ok q ∧ scale q = trade_units_precision i ∧ 0 < atto q ≤ atto (req_quantity req) ∧
  atto (minimum_trade_size i) ≤ atto q ≤ atto (maximum_order_units i).
Proof.
  intros Hi Hq Hpos H. unfold prepare_quantity, map_dec in H. inv_ok.
  destruct (round_floor_le (req_quantity req) (trade_units_precision i) q) as (Hok & Hs & Hle); [done|lia|apply io_units, Hi|done|].
  pose proof (io_min i Hi). pose proof (io_max i Hi). pose proof (io_min_pos i Hi).
  rewrite dec_ltb_atto in * by done. split_and!; try done; lia.
Qed.

Lemma negate_ok q r : dec_ok q → units q ≠ i128_min → negate q = Ok r → dec_ok r ∧ atto r = - atto q.
Proof.
  intros [Hs Hu] Hn H. unfold negate in H. rewrite wrap_i128_id in H by (unfold in_i128, i128_min, i128_max in *; lia).
  apply dec_new_ok in H as [Hok ->]; [|lia|unfold in_i128, i128_min, i128_max in *; lia]. split; [done|].
  rewrite !atto_grain. simpl. lia.
Qed.

Lemma abs_value q : dec_ok q → units q ≠ i128_min → dec_ok (abs q) ∧ atto (abs q) = Z.abs (atto q).
Proof.
  intros Hq Hn. unfold abs. pose proof (is_negative_atto q Hq) as Hneg. destruct (is_negative q).
  - destruct (negate q) as [r|e] eqn:E.
    + destruct (negate_ok q r Hq Hn E). split; [done|]. assert (atto q < 0) by tauto. lia.
    + exfalso. unfold negate, dec_new in E. destruct Hq as [Hs _]. destruct (Z.ltb_spec MAX_SCALE (scale q)); [lia|done].
  - split; [done|]. destruct (Z.lt_ge_cases (atto q) 0); [|lia]. naive_solver.
Qed.
End Oanda.

(** ** Properties *)

(** Instrument names have one normal form: normalising is idempotent, every accepted spelling has the platform's
    canonical [BASE/QUOTE] spelling, and that spelling normalises back to the same name. *)
Theorem oanda_names_canonical s n : Oanda.normalize_instrument s = Ok n →
  Oanda.normalize_instrument n = Ok n ∧
  ∃ c, Oanda.canonical_symbol s = Ok c ∧ Oanda.normalize_instrument c = Ok n ∧ Oanda.canonical_symbol c = Ok c.
Proof.
  intros H. destruct (Oanda.normalize_shape s n H) as (base & quote & -> & Hb & Hq).
  assert (∀ t, Oanda.normalize_instrument t = Ok (base +:+ "_" +:+ quote) →
    Oanda.canonical_symbol t = Ok (base +:+ String "/" quote)) as Hcan.
  { intros t Ht. unfold Oanda.canonical_symbol. rewrite Ht. simpl. unfold Oanda.replace_first_underscore.
    destruct (Oanda.base_quote_chars base quote Hb Hq) as [Hbc _].
    destruct (Oanda.names_upper base Hbc) as (_ & _ & Hbn). change ("_" +:+ quote) with (String "_" quote).
    rewrite split_once_app; [done| |done].
    eapply sall_impl; [|exact Hbn]. intros c. unfold Oanda.is_sep. by destruct (Ascii.eqb c "_"). }
  assert (Oanda.normalize_instrument (base +:+ String "/" quote) = Ok (base +:+ "_" +:+ quote)) as Hslash by
    (by apply Oanda.normalize_joined).
  split; [by apply Oanda.normalize_joined|]. exists (base +:+ String "/" quote).
  split; [by apply Hcan|]. split; [done|by apply Hcan].
Qed.

Lemma oanda_names_canonical_witness :
  Oanda.normalize_instrument " eurusd " = Ok "EUR_USD" ∧ Oanda.normalize_instrument "EUR_USD" = Ok "EUR_USD".
Proof. split; [reflexivity|]. apply (oanda_names_canonical " eurusd "). reflexivity. Defined.

(** An OANDA order that is prepared sends a magnitude that is positive, at most the one requested, on the unit
    grid and within the instrument's minimum and maximum; the signed units are that magnitude with the side's sign; a
    limit price is positive and never worse than requested; the instrument is the one named; and reduce-only is passed
    on, never dropped. *)
Theorem oanda_prepare_sound req info opts p :
  Oanda.instrument_ok info → dec_ok (req_quantity req) →
  (∀ w, req_kind req = Limit w → dec_ok w ∧ round_fits w (Oanda.display_precision info)) →
  Oanda.prepare_order req info opts = Ok p →
  (0 < atto (Oanda.p_quantity p) ≤ atto (req_quantity req) ∧
   scale (Oanda.p_quantity p) = Oanda.trade_units_precision info ∧
   atto (Oanda.minimum_trade_size info) ≤ atto (Oanda.p_quantity p) ≤ atto (Oanda.maximum_order_units info)) ∧
  atto (Oanda.p_units p) =
    (match req_side req with Buy => atto (Oanda.p_quantity p) | Sell => - atto (Oanda.p_quantity p) end) ∧
  match req_kind req with
  | Market => Oanda.p_limit_price p = None ∧ Oanda.p_time_in_force p ≠ "GTC"
  | Limit w =>
      ∃ px, Oanda.p_limit_price p = Some px ∧ 0 < atto px ∧
        match req_side req with Buy => atto px ≤ atto w | Sell => atto w ≤ atto px end
  end ∧
  (Oanda.p_instrument p = Oanda.name info ∧ Oanda.normalize_instrument (req_symbol req) = Ok (Oanda.name info)) ∧
  (req_reduce_only req = true → Oanda.p_position_fill p = "REDUCE_ONLY") ∧
  req_validate_only req = false ∧ req_post_only req = false.
Proof.
  intros Hi Hq Hk H. unfold Oanda.prepare_order in H.
  apply bind_ok in H as ([inst sym] & Hreq & H). apply bind_ok in H as (q & Hqty & H).
  apply bind_ok in H as (u & Hu & H). apply bind_ok in H as (tif & Htif & H). apply bind_ok in H as (o & Ho & H).
  injection H as <-. simpl.
  unfold Oanda.check_request in Hreq. apply bind_ok in Hreq as (n & Hn & Hreq).
  destruct (String.eqb_spec n (Oanda.name info)) as [En|]; [|done]. simpl in Hreq.
  destruct (req_validate_only req), (req_post_only req); try done.
  destruct (is_positive (req_quantity req)) eqn:Eq; [|done]. simpl in Hreq.
  apply bind_ok in Hreq as ([] & _ & Hreq). apply bind_ok in Hreq as (cs & _ & [= <- <-]).
  destruct (Oanda.prepare_quantity_ok req info cs q Hi Hq) as (Hqok & Hs & Hle & Hmin); [by apply Z.ltb_lt in Eq|done|].
  split_and!; try done; try lia.
  - destruct (req_side req); [by injection Hu as <-|]. unfold map_dec in Hu. rewrite map_err_ok in Hu.
    destruct (Oanda.negate_ok q u) as [_ ?]; [done| |done|done].
    destruct (atto_sign q Hqok) as (_ & Hp & _). assert (0 < units q) by (apply Hp; lia). unfold i128_min. lia.
  - unfold Oanda.prepare_price in Ho. unfold Oanda.choose_tif in Htif. destruct (req_kind req) as [|w].
    + injection Ho as <-. split; [done|]. destruct (req_time_in_force req) as [[]|]; simplify_eq; done.
    + destruct (Hk w eq_refl) as [Hw Hfit]. destruct (is_positive w) eqn:Ew; [|done]. simpl in Ho.
      apply bind_ok in Ho as (px & Hpx & Ho). rewrite map_err_ok in Hpx.
      destruct (is_positive px) eqn:Ep; [|done]. injection Ho as <-.
      destruct (round_price_side (req_side req) w (Oanda.display_precision info) px Hw (Oanda.io_price info Hi) Hfit)
        as [Hpok Hside]; [by destruct (req_side req)|].
      exists px. split; [done|]. split; [by apply is_positive_atto|done].
  - by rewrite <-En.
  - by intros ->.
Qed.

Definition eur_usd : Oanda.InstrumentInfo :=
  {| Oanda.name := "EUR_USD"; Oanda.kind := "CURRENCY"; Oanda.display_precision := 5; Oanda.trade_units_precision := 0;
     Oanda.minimum_trade_size := Kraken.lit "1"; Oanda.maximum_order_units := Kraken.lit "100000000";
     Oanda.margin_rate := Kraken.lit "0.02"; Oanda.maximum_position_size := Some (Kraken.lit "500") |}.

Lemma eur_usd_ok : Oanda.instrument_ok eur_usd.
Proof.
  split; [discriminate|discriminate|apply dec_okb_spec; vm_compute; reflexivity|vm_compute; reflexivity
         |apply dec_okb_spec; vm_compute; reflexivity|].
  intros d [= <-]. split; [apply dec_okb_spec; vm_compute; reflexivity|vm_compute; reflexivity].
Qed.

Lemma oanda_prepare_sound_witness :
  ∃ p, Oanda.prepare_order (req_limit "t" "eur/usd" Sell (Kraken.lit "100.9") (Kraken.lit "1.0812345")) eur_usd
         Oanda.default_options = Ok p ∧
    atto (Oanda.p_quantity p) ≤ atto (Kraken.lit "100.9") ∧ atto (Oanda.p_units p) = - atto (Oanda.p_quantity p).
Proof.
  eexists. split; [vm_compute; reflexivity|].
  edestruct (oanda_prepare_sound (req_limit "t" "eur/usd" Sell (Kraken.lit "100.9") (Kraken.lit "1.0812345")) eur_usd
         Oanda.default_options) as (((_ & Hle) & _) & Hu & _).
  - exact eur_usd_ok.
  - apply dec_okb_spec. vm_compute. reflexivity.
  - intros w [= <-]. split; [apply dec_okb_spec; vm_compute; reflexivity|].
    intros _. apply in_i128b_spec. vm_compute. reflexivity.
  - vm_compute. reflexivity.
  - split; [exact Hle|exact Hu].
Defined.

(** The cap on the net position refuses exactly the orders that would leave a position above the cap without
    shrinking it on its own side: an order is let through when the sum does not overflow and the position after it is
    within the cap, or is no larger than the current one and not on the other side of zero. *)
Theorem oanda_position_cap info cap net ord after :
  Oanda.instrument_ok info → Oanda.maximum_position_size info = Some cap →
  dec_ok net → dec_ok ord → units net ≠ i128_min →
  checked_add net ord = Some after → units after ≠ i128_min →
  atto after = atto net + atto ord ∧
  (Oanda.check_position_cap info net ord = Ok tt ↔
     Z.abs (atto after) ≤ atto cap ∨
     (Z.abs (atto after) ≤ Z.abs (atto net) ∧ 0 ≤ atto after * atto net)).
Proof.
  intros Hi Hcap Hn Ho Hnm Hadd Ham. destruct (checked_add_atto net ord after Hn Ho Hadd) as (Ha & Hav & _).
  split; [done|]. destruct (Oanda.io_cap info Hi cap Hcap) as [Hc _].
  unfold Oanda.check_position_cap. rewrite Hcap, Hadd. simpl.
  destruct (Oanda.abs_value after Ha Ham) as [Haa Haav], (Oanda.abs_value net Hn Hnm) as [Hna Hnav].
  rewrite dec_leb_atto, dec_ltb_atto, Haav, Hnav by done.
  pose proof (is_zero_atto after Ha). pose proof (is_zero_atto net Hn).
  pose proof (is_negative_atto after Ha). pose proof (is_negative_atto net Hn).
  assert ((is_zero after || is_zero net || Bool.eqb (is_negative after) (is_negative net)) = (0 <=? atto after * atto net)) as ->.
  { apply Bool.eq_iff_eq_true. rewrite !orb_true_iff, Bool.eqb_true_iff, Z.leb_le.
    destruct (is_zero after), (is_zero net), (is_negative after), (is_negative net); nia. }
  destruct (Z.ltb_spec (atto cap) (Z.abs (atto after))), (Z.leb_spec (Z.abs (atto after)) (Z.abs (atto net))),
    (Z.leb_spec 0 (atto after * atto net)); simpl; split; (done || lia || intros; exfalso; lia || idtac).
Qed.

Lemma oanda_position_cap_witness :
  Oanda.check_position_cap eur_usd (Kraken.lit "600") (Kraken.lit "-50") = Ok tt ∧
  Oanda.check_position_cap eur_usd (Kraken.lit "600") (Kraken.lit "-1101") ≠ Ok tt.
Proof.
  assert (dec_ok (Kraken.lit "600")) as H1 by (apply dec_okb_spec; vm_compute; reflexivity).
  assert (dec_ok (Kraken.lit "-50")) as H2 by (apply dec_okb_spec; vm_compute; reflexivity).
  assert (units (Kraken.lit "600") ≠ i128_min) as H3 by (vm_compute; discriminate).
  assert (units (Kraken.lit "550") ≠ i128_min) as H4 by (vm_compute; discriminate).
  assert (checked_add (Kraken.lit "600") (Kraken.lit "-50") = Some (Kraken.lit "550")) as H5 by (vm_compute; reflexivity).
  split; [|vm_compute; discriminate].
  apply (oanda_position_cap eur_usd (Kraken.lit "500") _ _ _ eur_usd_ok eq_refl H1 H2 H3 H5 H4).
  right. split; vm_compute; discriminate.
Defined.
