(* ===== verification/AlpacaParse.v ===== *)
(** * AlpacaParse: crates/broker-adapters/src/alpaca/parse.rs

    Reading Alpaca's JSON: the account, the positions, the clock, the orders, the multi-status flatten and the
    classification of HTTP failures. A parser takes the parsed body (turning text into JSON is serde's). The scalar
    helpers of this file and of kraken/parse.rs are word for word those of oanda/parse.rs, so [Oanda]'s are used. *)

From Stdlib Require Import ZArith Lia String Ascii.
From S2P Require Import Prelude Text BTree F64 Decimal AlpacaTime Broker Oanda.

Local Open Scope Z_scope.

(** A [match] on string literals. *)
Definition str_in (s : string) (l : list string) : bool := existsb (String.eqb s) l.

Definition or_else {A} (a b : option A) : option A := match a with Some _ => a | None => b end.

Module AlpacaParse.
Abbreviation malformed := Oanda.malformed.
Abbreviation opt_dec := Oanda.opt_dec.
Abbreviation req_dec := Oanda.req_dec.
Abbreviation opt_str := Oanda.opt_str.
Abbreviation req_str := Oanda.req_str.

Definition req_bool (v : Json) (field : string) : broker bool :=
  ok_or (let* x := json_get v field in as_bool x)
    (BrokerError.Malformed ("missing or non-boolean field `" +:+ field +:+ "`")).

Definition opt_bool_or (v : Json) (field : string) (dflt : bool) : broker bool :=
  match json_get v field with
  | None | Some JNull => Ok dflt
  | Some x => ok_or (as_bool x) (BrokerError.Malformed ("field `" +:+ field +:+ "` is not a boolean"))
  end.

(** ** The account *)

Record AccountInfo := {
  account_number : option string;
  acct_status : string;
  currency : option string;
  acct_cash : Dec;
  acct_equity : Dec;
  buying_power : Dec;
  portfolio_value : option Dec;
  acct_last_equity : option Dec;
  trading_blocked : bool;
  account_blocked : bool;
  pattern_day_trader : bool;
  transfers_blocked : option bool;
  shorting_enabled : option bool;
}.

Definition blocked_reason (a : AccountInfo) : option string :=
  let why :=
    (if account_blocked a then ["account_blocked=true"%string] else []) ++
    (if trading_blocked a then ["trading_blocked=true"%string] else []) ++
    (if eq_ignore_ascii_case (acct_status a) "ACTIVE" then [] else [("status=" +:+ acct_status a)%string]) in
  match why with [] => None | _ => Some (join ", " why) end.

Definition parse_account (v : Json) : broker AccountInfo :=
  if negb (is_object v) then malformed "account is not an object"
  else
    let? status := req_str v "status" in
    let? cash := req_dec v "cash" in
    let? equity := req_dec v "equity" in
    let? bp := req_dec v "buying_power" in
    let? pv := opt_dec v "portfolio_value" in
    let? le := opt_dec v "last_equity" in
    let? tb := req_bool v "trading_blocked" in
    let? ab := req_bool v "account_blocked" in
    let? pdt := opt_bool_or v "pattern_day_trader" false in
    Ok {| account_number := opt_str v "account_number"; acct_status := status; currency := opt_str v "currency";
          acct_cash := cash; acct_equity := equity; buying_power := bp; portfolio_value := pv; acct_last_equity := le;
          trading_blocked := tb; account_blocked := ab; pattern_day_trader := pdt;
          transfers_blocked := (let* x := json_get v "transfers_blocked" in as_bool x);
          shorting_enabled := (let* x := json_get v "shorting_enabled" in as_bool x) |}.

(** ** Positions *)

Inductive PositionSide := Long | Short.

Record PositionInfo := {
  p_symbol : string;
  p_asset_class : option string;
  p_qty : Dec;
  p_side : PositionSide;
  avg_entry_price : Dec;
  p_market_value : Dec;
  qty_available : option Dec;
  current_price : option Dec;
  p_unrealized_pl : option Dec;
}.

(** [-units] wraps as in a release build. *)
Definition signed_qty (p : PositionInfo) : Dec :=
  match p_side p with
  | Long => p_qty p
  | Short => default (p_qty p) (ok (dec_new (wrap_i128 (- units (p_qty p))) (scale (p_qty p))))
  end.

(** [sym.strip_suffix("USD")] *)
Definition strip_usd (sym : string) : option string :=
  let n := (String.length sym - 3)%nat in
  if (3 <=? slen sym) && String.eqb (sdrop n sym) "USD" then Some (stake n sym) else None.

Definition canonical_crypto_position_symbol (sym : string) : broker string :=
  if contains_char (fun c => Ascii.eqb c "/") sym then Ok sym
  else
    let bad := malformed ("crypto position " +:+ debug_str sym +:+ " has no recognised USD quote") in
    match strip_usd sym with
    | Some base =>
        if negb (is_empty base) && sall is_ascii_alphanumeric base then Ok (base +:+ "/USD") else bad
    | None => bad
    end.

Definition parse_position_value (v : Json) : broker PositionInfo :=
  let? s := req_str v "side" in
  let? side :=
    if String.eqb s "long" then Ok Long
    else if String.eqb s "short" then Ok Short
    else malformed ("unknown position side " +:+ debug_str s) in
  let? qty := req_dec v "qty" in
  if is_negative qty then malformed "position qty is negative (direction belongs in `side`)"
  else
    let asset_class := to_lowercase <$> opt_str v "asset_class" in
    let? raw := req_str v "symbol" in
    let raw_symbol := to_uppercase raw in
    let? symbol :=
      if bool_decide (asset_class = Some "crypto"%string) then canonical_crypto_position_symbol raw_symbol
      else Ok raw_symbol in
    let? entry := req_dec v "avg_entry_price" in
    let? mv := req_dec v "market_value" in
    let? avail := opt_dec v "qty_available" in
    let? cp := opt_dec v "current_price" in
    let? upl := opt_dec v "unrealized_pl" in
    Ok {| p_symbol := symbol; p_asset_class := asset_class; p_qty := qty; p_side := side; avg_entry_price := entry;
          p_market_value := mv; qty_available := avail; current_price := cp; p_unrealized_pl := upl |}.

Definition parse_positions (v : Json) : broker (list PositionInfo) :=
  let? arr := ok_or (as_array v) (BrokerError.Malformed "positions is not an array") in
  try_map parse_position_value arr.

(** ** The clock and the calendar *)

Record ClockInfo := {
  is_open : bool;
  timestamp : string;
  next_open : string;
  next_close : string;
  timestamp_epoch : f64;
  next_open_epoch : f64;
  next_close_epoch : f64;
}.

Definition read_ts (v : Json) (field : string) : broker (string * f64) :=
  let? s := req_str v field in
  let? e := ok_or (parse_rfc3339 s) (BrokerError.Malformed ("clock `" +:+ field +:+ "` is not an RFC 3339 timestamp")) in
  Ok (s, e).

Definition parse_clock (v : Json) : broker ClockInfo :=
  let? (t, te) := read_ts v "timestamp" in
  let? (o, oe) := read_ts v "next_open" in
  let? (c, ce) := read_ts v "next_close" in
  let? op := req_bool v "is_open" in
  Ok {| is_open := op; timestamp := t; next_open := o; next_close := c; timestamp_epoch := te; next_open_epoch := oe;
        next_close_epoch := ce |}.

Record CalendarDay := {
  cal_date : string;
  cal_open : string;
  cal_close : string;
  session_open : option string;
  session_close : option string;
  settlement_date : option string;
}.

Definition parse_calendar_day (d : Json) : broker CalendarDay :=
  let? date := req_str d "date" in
  let? op := req_str d "open" in
  let? cl := req_str d "close" in
  Ok {| cal_date := date; cal_open := op; cal_close := cl; session_open := opt_str d "session_open";
        session_close := opt_str d "session_close"; settlement_date := opt_str d "settlement_date" |}.

Definition parse_calendar (v : Json) : broker (list CalendarDay) :=
  let? arr := ok_or (as_array v) (BrokerError.Malformed "calendar is not an array") in
  try_map parse_calendar_day arr.

(** ** Orders *)

Definition derive_status (raw : string) (qty : option Dec) (executed : Dec) : broker OrderStatus.t :=
  if is_negative executed then malformed "negative filled_qty"
  else if match qty with Some q => dec_ltb q executed | None => false end then
    malformed ("overfill anomaly: filled_qty " +:+ to_string executed +:+ " exceeds qty " +:+
      match qty with Some q => to_string q | None => EmptyString end +:+ " (status " +:+ debug_str raw +:+
      "); refusing to report an inflated fill")
  else
    let has_exec := is_positive executed in
    if str_in raw ["pending_new"; "accepted"; "accepted_for_bidding"]%string then
      Ok (if has_exec then OrderStatus.PartiallyFilled else OrderStatus.Pending)
    else if str_in raw ["new"; "pending_cancel"; "pending_replace"]%string then
      Ok (if has_exec then OrderStatus.PartiallyFilled else OrderStatus.Open)
    else if String.eqb raw "partially_filled" then
      (if has_exec then Ok OrderStatus.PartiallyFilled else malformed "status partially_filled with filled_qty 0")
    else if String.eqb raw "filled" then
      if negb has_exec then malformed "status filled with filled_qty 0"
      else if match qty with Some q => dec_ltb executed q | None => false end then
        malformed "status filled but filled_qty < qty"
      else Ok OrderStatus.Filled
    else if str_in raw ["canceled"; "expired"; "done_for_day"]%string then
      let expiry := negb (String.eqb raw "canceled") in
      if match qty with Some q => dec_leb q executed | None => false end then Ok OrderStatus.Filled
      else if has_exec then
        Ok (if expiry then OrderStatus.PartiallyFilledThenExpired else OrderStatus.PartiallyFilledThenCanceled)
      else Ok (if expiry then OrderStatus.Expired else OrderStatus.Canceled)
    else if String.eqb raw "rejected" then
      (if has_exec then malformed "status rejected with filled_qty > 0" else Ok OrderStatus.Rejected)
    else malformed ("unsupported order status " +:+ debug_str raw).

Definition client_order_id_of (v : Json) : option string := opt_str v "client_order_id".

(** The error of [derive_status], with the order's id in front. *)
Definition name_order (id : string) (e : BrokerError) : BrokerError :=
  match e with BrokerError.Malformed m => BrokerError.Malformed ("order " +:+ id +:+ ": " +:+ m) | e => e end.

Definition positive_price (o : option Dec) : option Dec :=
  let* p := o in if is_positive p then Some p else None.

Definition parse_kind (v : Json) : broker (option OrderKind) :=
  match (let* t := or_else (json_get v "type") (json_get v "order_type") in as_str t) with
  | Some t =>
      if String.eqb t "market" then Ok (Some Market)
      else if String.eqb t "limit" then
        let? p := opt_dec v "limit_price" in Ok (Limit <$> positive_price p)
      else Ok None
  | None => Ok None
  end.

Definition parse_side (v : option string) : option Side :=
  match v with
  | Some s => if String.eqb s "buy" then Some Buy else if String.eqb s "sell" then Some Sell else None
  | None => None
  end.

Definition own_tag (cid prefix : option string) : option string :=
  match cid, prefix with
  | Some c, Some p => if starts_with c p then Some c else None
  | Some c, None => Some c
  | None, _ => None
  end.

(** The timestamp that matches how the order ended first, then any of the four. *)
Definition close_at (v : Json) (status : OrderStatus.t) : option f64 :=
  let preferred :=
    match status with
    | OrderStatus.Filled => "filled_at"
    | OrderStatus.Canceled | OrderStatus.PartiallyFilledThenCanceled => "canceled_at"
    | OrderStatus.Expired | OrderStatus.PartiallyFilledThenExpired => "expired_at"
    | OrderStatus.Rejected => "failed_at"
    | _ => EmptyString
    end%string in
  let fields := List.filter (fun f => negb (is_empty f)) [preferred; "filled_at"; "canceled_at"; "expired_at"; "failed_at"]%string in
  head (omap parse_rfc3339 (omap (opt_str v) fields)).

Definition parse_order_value (v : Json) (own_tag_prefix : option string) : broker OrderReport :=
  if negb (is_object v) then malformed "order is not an object"
  else
    let? id := req_str v "id" in
    let? raw_status := map_err (fun _ => BrokerError.Malformed ("order " +:+ id +:+ ": missing status")) (req_str v "status") in
    let? qty := opt_dec v "qty" in
    let? executed :=
      map_err (fun _ => BrokerError.Malformed ("order " +:+ id +:+ ": missing filled_qty")) (req_dec v "filled_qty") in
    let? status := map_err (name_order id) (derive_status raw_status qty executed) in
    let side := parse_side (let* s := json_get v "side" in as_str s) in
    let? kind := parse_kind v in
    let? avg_price :=
      if is_positive executed then let? p := opt_dec v "filled_avg_price" in Ok (positive_price p) else Ok None in
    let cost := let* p := avg_price in checked_mul executed p in
    let reason := or_else (opt_str v "reject_reason") (or_else (opt_str v "reason")
      (if bool_decide (status = OrderStatus.Rejected)
       then Some "rejected by Alpaca (the order object carries no reject reason)"%string else None)) in
    Ok {| rep_id := id; rep_userref := None; rep_tag := own_tag (client_order_id_of v) own_tag_prefix;
          rep_symbol := to_uppercase (default EmptyString (opt_str v "symbol")); rep_side := side; rep_kind := kind;
          rep_status := status; rep_raw_status := raw_status; rep_reason := reason;
          rep_quantity := default executed qty; rep_executed := executed; rep_avg_price := avg_price; rep_cost := cost;
          rep_fee := None; rep_financing := f64_zero;
          rep_open_time := (let* s := or_else (opt_str v "submitted_at") (opt_str v "created_at") in parse_rfc3339 s);
          rep_close_time := if is_terminal status then close_at v status else None |}.

Definition parse_orders (v : Json) (own_tag_prefix : option string) : broker (list OrderReport) :=
  let? arr := ok_or (as_array v) (BrokerError.Malformed "orders is not an array") in
  try_map (fun o => parse_order_value o own_tag_prefix) arr.

(** ** Close-all (multi-status) *)

Record FlattenEntry := {
  fe_symbol : string;
  fe_http_status : Z;
  fe_order : option OrderReport;
  fe_error : option string;
}.

Definition success_status (s : Z) : bool := (200 <=? s) && (s <? 300).
Definition entry_ok (e : FlattenEntry) : bool := success_status (fe_http_status e) && match fe_order e with Some _ => true | None => false end.
Definition all_ok (l : list FlattenEntry) : bool := forallb entry_ok l.
Definition failed (l : list FlattenEntry) : list FlattenEntry := List.filter (fun e => negb (entry_ok e)) l.

Definition u16_max : Z := 65535.

Definition parse_flatten_item (own_tag_prefix : option string) (item : Json) : broker FlattenEntry :=
  let? s := req_str item "symbol" in
  let symbol := to_uppercase s in
  let? status := ok_or (let* x := json_get item "status" in let* n := as_u64 x in if n <=? u16_max then Some n else None)
      (BrokerError.Malformed ("close result for " +:+ symbol +:+ ": missing numeric status")) in
  let body := default JNull (json_get item "body") in
  if success_status status then
    let? order := parse_order_value body own_tag_prefix in
    Ok {| fe_symbol := symbol; fe_http_status := status; fe_order := Some order; fe_error := None |}
  else
    let msg := default "no message"%string (let* m := json_get body "message" in as_str m) in
    Ok {| fe_symbol := symbol; fe_http_status := status; fe_order := None; fe_error := Some msg |}.

Definition parse_flatten (v : Json) (own_tag_prefix : option string) : broker (list FlattenEntry) :=
  let? arr := ok_or (as_array v) (BrokerError.Malformed "close-all-positions body is not an array") in
  try_map (parse_flatten_item own_tag_prefix) arr.

(** ** HTTP failures *)

Record ApiError := { api_code : option string; api_message : string }.

Definition trunc (s : string) : string := stake 300 (trim s).

(** [parsed]: the body as JSON, when it is JSON. *)
Definition parse_error_body (body : string) (parsed : option Json) : ApiError :=
  match parsed with
  | Some v =>
      if is_object v then
        {| api_code := match json_get v "code" with
                       | Some (JNum n) => Some n
                       | Some (JStr s) => if is_empty s then None else Some s
                       | _ => None
                       end;
           api_message := match (let* m := json_get v "message" in as_str m) with Some m => trunc m | None => trunc body end |}
      else {| api_code := None; api_message := trunc body |}
  | None => {| api_code := None; api_message := trunc body |}
  end.

Inductive HttpFailure :=
| Auth (status : Z) (api : ApiError)
| RateLimited (retry_after_secs : option Z) (api : ApiError)
| NotFound (api : ApiError)
| Rejected (status : Z) (class : ErrorClass.t) (api : ApiError)
| DuplicateClientOrderId (api : ApiError)
| Server (status : Z) (api : ApiError)
| Other (status : Z) (api : ApiError).

Definition has_any (msg : string) (needles : list string) : bool :=
  let m := to_lowercase msg in existsb (contains_str m) needles.

Definition FUNDS_PATTERNS : list string :=
  ["insufficient buying power"; "insufficient qty"; "insufficient day trading buying power"; "insufficient balance"].
Definition DENIAL_PATTERNS : list string :=
  ["pattern day trad"; "trade denied"; "cannot be sold short"; "not shortable"].
Definition ARGUMENT_PATTERNS : list string :=
  ["fractional"; "fractionable"; "must be"; "invalid"; "required"; "not recognized"; "unprocessable"].

Definition classify_rejection (message : string) : ErrorClass.t :=
  if has_any message FUNDS_PATTERNS then ErrorClass.InsufficientFunds
  else if has_any message ARGUMENT_PATTERNS then ErrorClass.InvalidArguments
  else ErrorClass.OrderRejected.

Definition classify_http_failure (status : Z) (body : string) (parsed : option Json) (retry_after : option string)
    : HttpFailure :=
  let api := parse_error_body body parsed in
  if status =? 401 then Auth status api
  else if status =? 403 then
    if has_any (api_message api) FUNDS_PATTERNS then Rejected status ErrorClass.InsufficientFunds api
    else if has_any (api_message api) DENIAL_PATTERNS then Rejected status ErrorClass.OrderRejected api
    else Auth status api
  else if status =? 404 then NotFound api
  else if status =? 422 then
    if has_any (api_message api) ["client_order_id must be unique"; "client_order_id already exists"]%string
    then DuplicateClientOrderId api
    else Rejected status (classify_rejection (api_message api)) api
  else if status =? 429 then RateLimited (let* v := retry_after in parse_u64 (trim v)) api
  else if (500 <=? status) && (status <=? 599) then Server status api
  else Other status api.

Definition code_string (api : ApiError) (status : Z) : string :=
  match api_code api with
  | Some c => "alpaca:" +:+ show_int status +:+ " " +:+ c +:+ ": " +:+ api_message api
  | None => "alpaca:" +:+ show_int status +:+ ": " +:+ api_message api
  end.

Definition failure_status (f : HttpFailure) : Z :=
  match f with
  | Auth s _ | Rejected s _ _ | Server s _ | Other s _ => s
  | RateLimited _ _ => 429
  | NotFound _ => 404
  | DuplicateClientOrderId _ => 422
  end.

Definition exchange_error (f : HttpFailure) : option ExchangeError :=
  match f with
  | Auth s api => Some {| err_code := code_string api s; err_class := ErrorClass.Auth |}
  | Rejected s c api => Some {| err_code := code_string api s; err_class := c |}
  | DuplicateClientOrderId api => Some {| err_code := code_string api 422; err_class := ErrorClass.OrderRejected |}
  | _ => None
  end.

Definition into_broker_error (f : HttpFailure) : BrokerError :=
  match f with
  | RateLimited r api => BrokerError.RateLimited r (api_message api)
  | NotFound api => BrokerError.NotFound (api_message api)
  | Server s _ | Other s _ => BrokerError.Http s
  | _ => match exchange_error f with
         | Some e => BrokerError.Exchange [e]
         | None => BrokerError.Http (failure_status f)
         end
  end.
End AlpacaParse.
