(* ===== verification/OandaParse.v ===== *)
(** * OandaParse: crates/broker-adapters/src/oanda/parse.rs

    Reading OANDA's v20 JSON: the account summary, positions, pricing, the transactions of an order, the transaction
    stream with its completeness test, order resources and their reports, and the classification of failures. *)

From Stdlib Require Import ZArith Lia String Ascii.
From S2P Require Import Prelude Text BTree F64 Decimal DecMath AlpacaTime Broker Oanda AlpacaParse.

Local Open Scope Z_scope.

Module OandaParse.
Abbreviation malformed := Oanda.malformed.
Abbreviation opt_dec := Oanda.opt_dec.
Abbreviation req_dec := Oanda.req_dec.
Abbreviation opt_str := Oanda.opt_str.
Abbreviation req_str := Oanda.req_str.

Definition req_bool (v : Json) (field : string) : broker bool :=
  ok_or (let* x := json_get v field in as_bool x)
    (BrokerError.Malformed ("missing or non-boolean field `" +:+ field +:+ "`")).

Definition opt_u32 (v : Json) (field : string) : option Z :=
  let* x := json_get v field in let* n := as_u64 x in u32_try_from n.

(** ** The account summary *)

Record AccountSummary := {
  as_id : string;
  as_currency : string;
  as_balance : Dec;
  nav : Dec;
  as_unrealized_pl : Dec;
  as_margin_used : Dec;
  margin_available : Dec;
  as_position_value : option Dec;
  margin_closeout_percent : option Dec;
  as_margin_rate : option Dec;
  as_pl : option Dec;
  open_trade_count : option Z;
  open_position_count : option Z;
  pending_order_count : option Z;
  hedging_enabled : bool;
  last_transaction_id : option string;
}.

(** A member that is an object. *)
Definition get_object (v : Json) (field : string) : option Json :=
  let* x := json_get v field in if is_object x then Some x else None.

Definition parse_account_summary (root : Json) : broker AccountSummary :=
  let? a := ok_or (get_object root "account") (BrokerError.Malformed "account summary has no `account` object") in
  let? id := req_str a "id" in
  let? currency := req_str a "currency" in
  let? balance := req_dec a "balance" in
  let? nav := req_dec a "NAV" in
  let? upl := req_dec a "unrealizedPL" in
  let? used := req_dec a "marginUsed" in
  let? avail := req_dec a "marginAvailable" in
  let? pv := opt_dec a "positionValue" in
  let? mcp := opt_dec a "marginCloseoutPercent" in
  let? mr := opt_dec a "marginRate" in
  let? pl := opt_dec a "pl" in
  let? hedging := req_bool a "hedgingEnabled" in
  Ok {| as_id := id; as_currency := to_uppercase currency; as_balance := balance; nav := nav; as_unrealized_pl := upl;
        as_margin_used := used; margin_available := avail; as_position_value := pv; margin_closeout_percent := mcp;
        as_margin_rate := mr; as_pl := pl; open_trade_count := opt_u32 a "openTradeCount";
        open_position_count := opt_u32 a "openPositionCount"; pending_order_count := opt_u32 a "pendingOrderCount";
        hedging_enabled := hedging;
        last_transaction_id := or_else (opt_str root "lastTransactionID") (opt_str a "lastTransactionID") |}.

(** ** Positions *)

Record OandaPosition := {
  op_instrument : string;
  long_units : Dec;
  short_units : Dec;
  long_average_price : option Dec;
  short_average_price : option Dec;
  op_unrealized_pl : Dec;
  op_margin_used : option Dec;
}.

Definition net_units (p : OandaPosition) : Dec := default (long_units p) (checked_add (long_units p) (short_units p)).
Definition is_flat (p : OandaPosition) : bool := is_zero (long_units p) && is_zero (short_units p).
Definition is_hedged (p : OandaPosition) : bool := is_positive (long_units p) && is_negative (short_units p).

Definition position_side (v : Json) (instrument name : string) : broker Json :=
  ok_or (get_object v name)
    (BrokerError.Malformed ("position " +:+ instrument +:+ ": missing `" +:+ name +:+ "` object")).

Definition parse_position_value (v : Json) : broker OandaPosition :=
  let? raw := req_str v "instrument" in
  let? instrument := Oanda.normalize_instrument raw in
  let? long := position_side v instrument "long" in
  let? short := position_side v instrument "short" in
  let? lu := req_dec long "units" in
  let? su := req_dec short "units" in
  if is_negative lu then malformed ("position " +:+ instrument +:+ ": long units are negative")
  else if is_positive su then
    malformed ("position " +:+ instrument +:+ ": short units are positive (they are reported negative)")
  else
    let? lp := opt_dec long "averagePrice" in
    let? sp := opt_dec short "averagePrice" in
    let? upl := req_dec v "unrealizedPL" in
    let? mu := opt_dec v "marginUsed" in
    Ok {| op_instrument := instrument; long_units := lu; short_units := su; long_average_price := lp;
          short_average_price := sp; op_unrealized_pl := upl; op_margin_used := mu |}.

Definition parse_open_positions (v : Json) : broker (list OandaPosition) :=
  let? arr := ok_or (let* x := json_get v "positions" in as_array x)
      (BrokerError.Malformed "open positions has no `positions` array") in
  let? rows := try_map parse_position_value arr in
  Ok (sort_by (fun a b => key_gt (op_instrument a) (op_instrument b)) (List.filter (fun p => negb (is_flat p)) rows)).

Definition parse_single_position (v : Json) : broker OandaPosition :=
  let? p := ok_or (json_get v "position") (BrokerError.Malformed "position response has no `position`") in
  parse_position_value p.

(** ** Pricing *)

Record PriceQuote := {
  pq_instrument : string;
  tradeable : bool;
  pq_status : option string;
  bid : option Dec;
  ask : option Dec;
  closeout_bid : option Dec;
  closeout_ask : option Dec;
  pq_time : option f64;
}.

(** [(b + a) / 2] of an uncrossed pair. *)
Definition mid_of (b a : Dec) : option Dec :=
  if dec_ltb a b then None
  else
    let* s := checked_add b a in
    let* half := ok (dec_new 5 1) in
    checked_mul s half.

Definition mid (q : PriceQuote) : option Dec := let* b := bid q in let* a := ask q in mid_of b a.

Definition valuation_mid (q : PriceQuote) : option Dec :=
  match bid q, ask q with
  | Some _, Some _ => mid q
  | _, _ => let* b := closeout_bid q in let* a := closeout_ask q in mid_of b a
  end.

Record HomeConversion := {
  hc_currency : string;
  account_gain : option Dec;
  account_loss : option Dec;
  hc_position_value : Dec;
}.

Record Pricing := { prices : list PriceQuote; home_conversions : list HomeConversion }.

Definition price (p : Pricing) (instrument : string) : option PriceQuote :=
  List.find (fun q => String.eqb (pq_instrument q) instrument) (prices p).
Definition conversion (p : Pricing) (currency : string) : option HomeConversion :=
  List.find (fun c => eq_ignore_ascii_case (hc_currency c) currency) (home_conversions p).

Definition first_price (v : Json) (side : string) : broker (option Dec) :=
  match first_item v side with
  | None => Ok None
  | Some bucket => let? d := req_dec bucket "price" in Ok (Some d)
  end.

Section reading.
Context `{JsonFloat}.

Definition finite (o : option f64) : option f64 := let* v := o in if is_finite v then Some v else None.

Definition opt_time (v : Json) (field : string) : option f64 :=
  let* x := json_get v field in
  match x with
  | JStr s => finite (parse_f64 (trim s))
  | JNum n => finite (json_as_f64 n)
  | _ => None
  end.

Definition parse_quote (p : Json) : broker PriceQuote :=
  let? raw := req_str p "instrument" in
  let? instrument := Oanda.normalize_instrument raw in
  let status := opt_str p "status" in
  let tradeable := match (let* t := json_get p "tradeable" in as_bool t) with
                   | Some t => t
                   | None => bool_decide (status = Some "tradeable"%string)
                   end in
  let? b := first_price p "bids" in
  let? a := first_price p "asks" in
  let? cb := opt_dec p "closeoutBid" in
  let? ca := opt_dec p "closeoutAsk" in
  Ok {| pq_instrument := instrument; tradeable := tradeable; pq_status := status; bid := b; ask := a;
        closeout_bid := cb; closeout_ask := ca; pq_time := opt_time p "time" |}.

Definition parse_conversion (c : Json) : broker HomeConversion :=
  let? currency := req_str c "currency" in
  let? gain := opt_dec c "accountGain" in
  let? loss := opt_dec c "accountLoss" in
  let? pv := req_dec c "positionValue" in
  Ok {| hc_currency := to_uppercase currency; account_gain := gain; account_loss := loss; hc_position_value := pv |}.

Definition parse_pricing (v : Json) : broker Pricing :=
  let? arr := ok_or (let* x := json_get v "prices" in as_array x)
      (BrokerError.Malformed "pricing response has no `prices` array") in
  let? prices := try_map parse_quote arr in
  let? conversions := match (let* x := json_get v "homeConversions" in as_array x) with
                      | Some rows => try_map parse_conversion rows
                      | None => Ok []
                      end in
  Ok {| prices := prices; home_conversions := conversions |}.

(** ** The transactions of one order *)

Record FillInfo := {
  fill_id : string;
  fill_order_id : string;
  fill_client_order_id : option string;
  fill_instrument : string;
  fill_units : Dec;
  fill_price : Dec;
  fill_pl : option Dec;
  commission : option Dec;
  financing : option Dec;
  fill_reason : option string;
  fill_time : option f64;
}.

Record CancelInfo := {
  can_id : string;
  can_order_id : string;
  can_client_order_id : option string;
  can_reason : string;
  can_time : option f64;
}.

Record RejectInfo := { rej_id : option string; reject_reason : string; rej_client_order_id : option string }.

Record CreateInfo := {
  cre_id : string;
  cre_kind : string;
  cre_instrument : option string;
  cre_units : option Dec;
  cre_price : option Dec;
  cre_time_in_force : option string;
  cre_client_id : option string;
}.

Definition client_id_of (v : Json) : option string :=
  let* c := json_get v "clientExtensions" in opt_str c "id".

Definition parse_fill (v : Json) : broker FillInfo :=
  let? id := req_str v "id" in
  let? order := req_str v "orderID" in
  let? raw := req_str v "instrument" in
  let? instrument := Oanda.normalize_instrument raw in
  let? u := req_dec v "units" in
  let? p := req_dec v "price" in
  let? pl := opt_dec v "pl" in
  let? com := opt_dec v "commission" in
  let? fin := opt_dec v "financing" in
  Ok {| fill_id := id; fill_order_id := order; fill_client_order_id := opt_str v "clientOrderID";
        fill_instrument := instrument; fill_units := u; fill_price := p; fill_pl := pl; commission := com;
        financing := fin; fill_reason := opt_str v "reason"; fill_time := opt_time v "time" |}.

Definition parse_cancel (v : Json) : broker CancelInfo :=
  let? id := req_str v "id" in
  let? order := req_str v "orderID" in
  let? reason := req_str v "reason" in
  Ok {| can_id := id; can_order_id := order; can_client_order_id := opt_str v "clientOrderID"; can_reason := reason;
        can_time := opt_time v "time" |}.

Definition parse_reject (v : Json) : RejectInfo :=
  {| rej_id := opt_str v "id"; reject_reason := default "UNSPECIFIED"%string (opt_str v "rejectReason");
     rej_client_order_id := or_else (opt_str v "clientOrderID") (client_id_of v) |}.

(** [opt_str(v, "instrument").map(normalize).transpose()] *)
Definition opt_instrument (v : Json) : broker (option string) :=
  match opt_str v "instrument" with
  | Some i => let? n := Oanda.normalize_instrument i in Ok (Some n)
  | None => Ok None
  end.

Definition parse_create (v : Json) : broker CreateInfo :=
  let? id := req_str v "id" in
  let? instrument := opt_instrument v in
  let? u := opt_dec v "units" in
  let? p := opt_dec v "price" in
  Ok {| cre_id := id; cre_kind := default EmptyString (opt_str v "type"); cre_instrument := instrument; cre_units := u;
        cre_price := p; cre_time_in_force := opt_str v "timeInForce"; cre_client_id := client_id_of v |}.

Record OrderTransactions := {
  tx_create : option CreateInfo;
  tx_fill : option FillInfo;
  tx_cancel : option CancelInfo;
  tx_reject : option RejectInfo;
}.

Definition no_transactions (t : OrderTransactions) : bool :=
  match tx_create t, tx_fill t, tx_cancel t, tx_reject t with None, None, None, None => true | _, _, _, _ => false end.

(** [o.map(f).transpose()] *)
Definition transpose {A} (f : Json → broker A) (o : option Json) : broker (option A) :=
  match o with Some v => let? x := f v in Ok (Some x) | None => Ok None end.

Definition group (root : Json) (prefix : string) : broker OrderTransactions :=
  let get suffix := get_object root (prefix +:+ suffix +:+ "Transaction") in
  let? create := transpose parse_create (get "Create"%string) in
  let? fill := transpose parse_fill (get "Fill"%string) in
  let? cancel := transpose parse_cancel (get "Cancel"%string) in
  Ok {| tx_create := create; tx_fill := fill; tx_cancel := cancel; tx_reject := parse_reject <$> get "Reject"%string |}.

Definition parse_order_transactions (root : Json) (prefix : string) : broker OrderTransactions :=
  if is_object root then group root prefix else malformed "order response is not an object".

Definition option_debug_str (o : option string) : string := debug_option debug_str o.

(** [GET /transactions/{id}] as the transaction type it must have. *)
Definition parse_transaction_as {A} (type : string) (f : Json → broker A) (root : Json) : broker A :=
  let? t := ok_or (json_get root "transaction") (BrokerError.Malformed "transaction response has no `transaction`") in
  let ty := let* x := json_get t "type" in as_str x in
  if bool_decide (ty = Some type) then f t
  else malformed ("expected an " +:+ type +:+ " transaction, got " +:+ option_debug_str ty).

Definition parse_fill_transaction : Json → broker FillInfo := parse_transaction_as "ORDER_FILL" parse_fill.
Definition parse_cancel_transaction : Json → broker CancelInfo := parse_transaction_as "ORDER_CANCEL" parse_cancel.

Definition parse_cancel_response (root : Json) : broker CancelInfo :=
  let? t := ok_or (json_get root "orderCancelTransaction")
      (BrokerError.Malformed "cancel response has no `orderCancelTransaction`") in
  parse_cancel t.

(** ** The transaction stream *)

Record TxnRecord := {
  txn_id : Z;
  id_text : string;
  txn_kind : string;
  txn_order_id : option string;
  txn_client_id : option string;
  txn_raw : Json;
}.

Record TxnPage := { after_id : Z; records : list TxnRecord; page_last_transaction_id : Z }.

(** The first neighbours whose ids are not consecutive ([+ 1] wraps in [u64]). *)
Fixpoint first_gap (l : list TxnRecord) : option (TxnRecord * TxnRecord) :=
  match l with
  | a :: (b :: _) as l' => if txn_id b =? wrap_u64 (txn_id a + 1) then first_gap l' else Some (a, b)
  | _ => None
  end.

Definition completeness (p : TxnPage) : result string unit :=
  match head (records p), last (records p) with
  | Some f, Some l =>
      if negb (txn_id f =? wrap_u64 (after_id p + 1)) then
        Err ("page starts at id " +:+ show_int (txn_id f) +:+ ", not " +:+ show_int (wrap_u64 (after_id p + 1)))
      else if negb (txn_id l =? page_last_transaction_id p) then
        Err ("page ends at id " +:+ show_int (txn_id l) +:+ " but the account's last transaction id is " +:+
          show_int (page_last_transaction_id p))
      else match first_gap (records p) with
           | Some (a, b) =>
               Err ("gap between transaction " +:+ show_int (txn_id a) +:+ " and " +:+ show_int (txn_id b))
           | None => Ok tt
           end
  | _, _ =>
      if page_last_transaction_id p =? after_id p then Ok tt
      else Err ("empty page after id " +:+ show_int (after_id p) +:+ " but the account's last transaction id is " +:+
        show_int (page_last_transaction_id p))
  end.

Definition parse_txn (after : Z) (t : Json) : broker TxnRecord :=
  let? text := req_str t "id" in
  let? id := ok_or (parse_u64 text) (BrokerError.Malformed ("transaction id " +:+ debug_str text +:+ " is not numeric")) in
  if id <=? after then
    malformed ("transaction " +:+ show_int id +:+ " is not after the requested id " +:+ show_int after)
  else
    let? kind := req_str t "type" in
    Ok {| txn_id := id; id_text := text; txn_kind := kind; txn_order_id := opt_str t "orderID";
          txn_client_id := or_else (opt_str t "clientOrderID") (client_id_of t); txn_raw := t |}.

Definition parse_transactions_page (root : Json) (after : Z) : broker TxnPage :=
  let? arr := ok_or (let* x := json_get root "transactions" in as_array x)
      (BrokerError.Malformed "transactions response has no `transactions` array") in
  let? last_text := req_str root "lastTransactionID" in
  let? last := ok_or (parse_u64 last_text)
      (BrokerError.Malformed ("lastTransactionID " +:+ debug_str last_text +:+ " is not numeric")) in
  let? records := try_map (parse_txn after) arr in
  Ok {| after_id := after; records := records; page_last_transaction_id := last |}.

(** ** Order resources *)

Record OrderResource := {
  or_id : string;
  or_state : string;
  or_kind : string;
  or_instrument : option string;
  or_units : option Dec;
  or_price : option Dec;
  or_client_id : option string;
  or_time_in_force : option string;
  filling_transaction_id : option string;
  cancelling_transaction_id : option string;
  create_time : option f64;
  filled_time : option f64;
  cancelled_time : option f64;
}.

Definition parse_order_resource_value (v : Json) : broker OrderResource :=
  if negb (is_object v) then malformed "order is not an object"
  else
    let? id := req_str v "id" in
    let? state := req_str v "state" in
    let? kind := req_str v "type" in
    let? instrument := opt_instrument v in
    let? u := opt_dec v "units" in
    let? p := opt_dec v "price" in
    Ok {| or_id := id; or_state := state; or_kind := kind; or_instrument := instrument; or_units := u; or_price := p;
          or_client_id := client_id_of v; or_time_in_force := opt_str v "timeInForce";
          filling_transaction_id := opt_str v "fillingTransactionID";
          cancelling_transaction_id := opt_str v "cancellingTransactionID"; create_time := opt_time v "createTime";
          filled_time := opt_time v "filledTime"; cancelled_time := opt_time v "cancelledTime" |}.

Definition parse_order_resource (root : Json) : broker OrderResource :=
  let? o := ok_or (json_get root "order") (BrokerError.Malformed "order response has no `order`") in
  parse_order_resource_value o.

Definition parse_order_resources (root : Json) : broker (list OrderResource) :=
  let? arr := ok_or (let* x := json_get root "orders" in as_array x)
      (BrokerError.Malformed "orders response has no `orders` array") in
  try_map parse_order_resource_value arr.
End reading.

(** [-units] wraps as in a release build. *)
Definition abs_dec (d : Dec) : Dec :=
  if is_negative d then default d (ok (dec_new (wrap_i128 (- units d)) (scale d))) else d.

Definition derive_order_status (state : string) (ordered : option Dec) (executed : Dec) (cancel_reason : option string)
    : broker OrderStatus.t :=
  if is_negative executed then malformed "negative executed quantity"
  else if match ordered with Some q => dec_ltb q executed | None => false end then
    malformed ("overfill anomaly: executed units " +:+ to_string executed +:+ " exceed ordered units " +:+
      match ordered with Some q => to_string q | None => EmptyString end +:+ " (state " +:+ debug_str state +:+
      "); refusing to report an inflated fill")
  else
    let has_exec := is_positive executed in
    let expiry := bool_decide (cancel_reason = Some "TIME_IN_FORCE_EXPIRED"%string) in
    if str_in state ["PENDING"; "TRIGGERED"]%string then
      (if has_exec then malformed ("state " +:+ state +:+ " but an executed quantity was reported")
       else Ok OrderStatus.Open)
    else if String.eqb state "FILLED" then
      if negb has_exec then malformed "state FILLED but no executed quantity (missing or empty fill transaction)"
      else match ordered with
           | Some q => Ok (if dec_ltb executed q then OrderStatus.PartiallyFilledThenCanceled else OrderStatus.Filled)
           | None => Ok OrderStatus.Filled
           end
    else if String.eqb state "CANCELLED" then
      Ok (match has_exec, expiry with
          | true, true => OrderStatus.PartiallyFilledThenExpired
          | true, false => OrderStatus.PartiallyFilledThenCanceled
          | false, true => OrderStatus.Expired
          | false, false => OrderStatus.Canceled
          end)
    else malformed ("unsupported order state " +:+ debug_str state).

Definition resource_kind (o : OrderResource) : option OrderKind :=
  if String.eqb (or_kind o) "MARKET" then Some Market
  else if String.eqb (or_kind o) "LIMIT" then Limit <$> or_price o
  else None.

Definition into_report (o : OrderResource) (fill : option FillInfo) (cancel_reason own_prefix : option string)
    : broker OrderReport :=
  let? _ :=
    match fill with
    | Some f =>
        if String.eqb (fill_order_id f) (or_id o) then Ok tt
        else malformed ("fill transaction " +:+ fill_id f +:+ " belongs to order " +:+ fill_order_id f +:+ ", not " +:+ or_id o)
    | None => Ok tt
    end in
  let ordered := abs_dec <$> or_units o in
  let executed := match fill with Some f => abs_dec (fill_units f) | None => ZERO end in
  let? status := derive_order_status (or_state o) ordered executed cancel_reason in
  let side := let* u := or_units o in if is_positive u then Some Buy else if is_negative u then Some Sell else None in
  let? _ :=
    match fill, or_units o with
    | Some f, Some u =>
        if Bool.eqb (is_negative (fill_units f)) (is_negative u) then Ok tt
        else malformed ("fill " +:+ fill_id f +:+ " has the opposite sign to order " +:+ or_id o)
    | _, _ => Ok tt
    end in
  let has_fills := is_positive executed in
  Ok {| rep_id := or_id o; rep_userref := None; rep_tag := AlpacaParse.own_tag (or_client_id o) own_prefix;
        rep_symbol := match or_instrument o with Some i => Oanda.replace_first_underscore i | None => EmptyString end;
        rep_side := side; rep_kind := resource_kind o; rep_status := status;
        rep_raw_status := if str_in (or_kind o) ["MARKET"; "LIMIT"]%string then or_state o
                          else (or_state o +:+ "/" +:+ or_kind o)%string;
        rep_reason := cancel_reason; rep_quantity := default ZERO ordered; rep_executed := executed;
        rep_avg_price := (let* f := fill in if has_fills then Some (fill_price f) else None);
        rep_cost := None; rep_fee := (let* f := fill in commission f);
        rep_financing := match (let* f := fill in financing f) with Some d => to_f64 d | None => f64_zero end;
        rep_open_time := create_time o; rep_close_time := or_else (filled_time o) (cancelled_time o) |}.

(** ** HTTP failures *)

Record ApiError := { api_code : option string; api_message : string; api_reject_reason : option string }.

Definition REJECT_KEYS : list string :=
  ["orderRejectTransaction"; "orderCancelRejectTransaction"; "longOrderRejectTransaction"; "shortOrderRejectTransaction"].

(** [parsed]: the body as JSON, when it is JSON. *)
Definition parse_error_body (body : string) (parsed : option Json) : ApiError :=
  let gateway := {| api_code := None; api_message := "non-JSON error body (" +:+ show_int (slen body) +:+ " bytes)";
                    api_reject_reason := None |} in
  match parsed with
  | Some v =>
      if is_object v then
        {| api_code := opt_str v "errorCode";
           api_message := default "no error message"%string (or_else (opt_str v "errorMessage") (opt_str v "message"));
           api_reject_reason := head (omap (fun k => let* t := json_get v k in opt_str t "rejectReason") REJECT_KEYS) |}
      else gateway
  | None => gateway
  end.

(** [text.replace(s, "<redacted>")] for a non-empty [s]: the occurrences from left to right, none overlapping. *)
Fixpoint redact_from (fuel : nat) (s text : string) : string :=
  match fuel with
  | O => text
  | S n =>
      match text with
      | EmptyString => EmptyString
      | String c rest =>
          if starts_with text s then "<redacted>" +:+ redact_from n s (sdrop (String.length s) text)
          else String c (redact_from n s rest)
      end
  end.

(** One step consumes at least one character. *)
Definition redact (s text : string) : string := redact_from (S (String.length text)) s text.

Definition scrub_one (e : ApiError) (s : string) : ApiError :=
  if is_empty s then e
  else {| api_code := redact s <$> api_code e; api_message := redact s (api_message e);
          api_reject_reason := redact s <$> api_reject_reason e |}.
Definition scrubbed (e : ApiError) (secrets : list string) : ApiError := fold_left scrub_one secrets e.

Definition code_string (api : ApiError) (status : Z) : string :=
  match or_else (api_reject_reason api) (api_code api) with
  | Some c => "oanda:" +:+ show_int status +:+ " " +:+ c +:+ ": " +:+ api_message api
  | None => "oanda:" +:+ show_int status +:+ ": " +:+ api_message api
  end.

Inductive HttpFailure :=
| Auth (status : Z) (api : ApiError)
| RateLimited (retry_after_secs : option Z) (api : ApiError)
| NotFound (api : ApiError)
| Rejected (status : Z) (class : ErrorClass.t) (api : ApiError)
| Server (status : Z) (api : ApiError)
| Other (status : Z) (api : ApiError).

Definition contains_any (text : string) (needles : list string) : bool :=
  let t := to_uppercase text in existsb (contains_str t) needles.

Definition INVALID_PARAMETER_EXCEPTION : string := "oanda::rest::core::InvalidParameterException".

Definition classify_reject_reason (reason : string) : option ErrorClass.t :=
  if str_in reason ["UNITS_LIMIT_EXCEEDED"; "UNITS_INVALID"; "UNITS_PRECISION_EXCEEDED"; "UNITS_MINIMUM_NOT_MET";
                    "TIME_IN_FORCE_INVALID"; "CLIENT_ORDER_ID_INVALID"; "PRICE_PRECISION_EXCEEDED"; "INSTRUMENT_INVALID";
                    INVALID_PARAMETER_EXCEPTION]%string then Some ErrorClass.InvalidArguments
  else if str_in reason ["ORDER_DOESNT_EXIST"; "NO_SUCH_ORDER"; "NO_SUCH_POSITION"; "CLOSEOUT_POSITION_DOESNT_EXIST"]%string
  then Some ErrorClass.UnknownOrder
  else None.

Definition classify_rejection (api : ApiError) : ErrorClass.t :=
  match or_else (let* r := api_reject_reason api in classify_reject_reason r)
                (let* c := api_code api in classify_reject_reason c) with
  | Some class => class
  | None =>
      let hay := default EmptyString (api_reject_reason api) +:+ " " +:+ default EmptyString (api_code api) +:+ " " +:+
        api_message api in
      if contains_any hay ["INSUFFICIENT_MARGIN"; "INSUFFICIENT_FUNDS"; "INSUFFICIENT MARGIN";
                           "INSUFFICIENT_LIQUIDITY_FOR_MARGIN"]%string then ErrorClass.InsufficientFunds
      else if contains_any hay ["INVALID"; "PRECISION_EXCEEDED"; "_MISSING"; "MINIMUM"; "MAXIMUM"; "_NOT_SPECIFIED"]%string
      then ErrorClass.InvalidArguments
      else ErrorClass.OrderRejected
  end.

Definition classify_cancel_reason (reason : string) : ErrorClass.t :=
  if contains_str reason "INSUFFICIENT_MARGIN" then ErrorClass.InsufficientFunds else ErrorClass.OrderRejected.

Definition classify_http_failure (status : Z) (body : string) (parsed : option Json) (retry_after : option string)
    (secrets : list string) : HttpFailure :=
  let api := scrubbed (parse_error_body body parsed) secrets in
  if (status =? 401) || (status =? 403) then Auth status api
  else if status =? 404 then NotFound api
  else if status =? 400 then Rejected status (classify_rejection api) api
  else if status =? 429 then RateLimited (let* v := retry_after in parse_u64 (trim v)) api
  else if (500 <=? status) && (status <=? 599) then Server status api
  else Other status api.

Definition failure_status (f : HttpFailure) : Z :=
  match f with
  | Auth s _ | Rejected s _ _ | Server s _ | Other s _ => s
  | RateLimited _ _ => 429
  | NotFound _ => 404
  end.

Definition api (f : HttpFailure) : ApiError :=
  match f with Auth _ a | RateLimited _ a | NotFound a | Rejected _ _ a | Server _ a | Other _ a => a end.

Definition exchange_error (f : HttpFailure) : option ExchangeError :=
  match f with
  | Auth s api => Some {| err_code := code_string api s; err_class := ErrorClass.Auth |}
  | Rejected s c api => Some {| err_code := code_string api s; err_class := c |}
  | _ => None
  end.

Definition into_broker_error (f : HttpFailure) : BrokerError :=
  match f with
  | RateLimited r api => BrokerError.RateLimited r (api_message api)
  | NotFound api => BrokerError.NotFound (api_message api)
  | Server s _ | Other s _ => BrokerError.Http s
  | _ => match exchange_error f with
         | Some e => BrokerError.Exchange [e]
         | None => BrokerError.Http (failure_status f)
         end
  end.
End OandaParse.
