(* ===== verification/Nonce.v ===== *)
(** * Nonce: crates/broker-adapters/src/nonce.rs

    The rule [max(candidate, last + 1)], the in-memory and the file-backed store (a file holding one number, replaced
    by an atomic rename), and the generator that hands nonces out. A store is the state its [advance] threads; the
    clock is a sequence of readings that may go backwards. *)

From Stdlib Require Import ZArith Lia String Ascii Sorting.Sorted.
From S2P Require Import Prelude Text Broker.

Local Open Scope Z_scope.

Abbreviation nonce A := (result NonceError.t A).

Definition u64_checked_succ (l : Z) : option Z := if l <? u64_max then Some (l + 1) else None.

Definition next_after (candidate : Z) (last : option Z) : nonce Z :=
  let? floor :=
    match last with
    | Some l => ok_or (u64_checked_succ l) NonceError.Exhausted
    | None => Ok 1
    end in
  Ok (Z.max candidate floor).

(** A store: [advance] computes, persists and returns; [last] reads the highest nonce handed out. The second component
    of [advance]'s argument says whether the persistence step succeeds this time. *)
Class NonceStore (T : Type) := {
  advance : T → Z → bool → T * nonce Z;
  last : T → nonce (option Z);
}.

(** [InMemoryNonceStore]: the persistence step cannot fail. *)
#[export] Instance memory_store : NonceStore (option Z) := {|
  advance g candidate _ :=
    match next_after candidate g with
    | Ok n => (Some n, Ok n)
    | Err e => (g, Err e)
    end;
  last g := Ok g;
|}.

(** [str::parse::<u64>] *)
Definition parse_u64 (s : string) : option Z :=
  let ds := match s with String c r => if Ascii.eqb c "+" then r else s | EmptyString => s end in
  if is_empty ds || negb (sall is_ascii_digit ds) then None
  else if digits_value 0 ds <=? u64_max then Some (digits_value 0 ds) else None.


(** The file behind [FileNonceStore]: its path and its content, [None] when there is no file. *)
Record NonceFile := { path : string; content : option string }.

Definition file_read (f : NonceFile) : nonce (option Z) :=
  match content f with
  | None => Ok None
  | Some s => ok_or (Some <$> parse_u64 (trim s)) (NonceError.Corrupt (path f +:+ " does not contain a u64"))
  end.

(** [write]: the temporary file is renamed over the target, so a failure leaves the old content. *)
Definition file_write (f : NonceFile) (value : Z) (disk_ok : bool) : NonceFile * nonce unit :=
  if disk_ok then ({| path := path f; content := Some (show_int value +:+ newline) |}, Ok tt)
  else (f, Err (NonceError.Io "write failed")).

#[export] Instance file_store : NonceStore NonceFile := {|
  advance f candidate disk_ok :=
    match (let? l := file_read f in next_after candidate l) with
    | Ok n =>
        let '(f', r) := file_write f n disk_ok in
        (f', let? _ := r in Ok n)
    | Err e => (f, Err e)
    end;
  last := file_read;
|}.

(** [NonceGenerator::next] called once per reading: [(clock reading, whether the disk works)]. A failed call hands
    nothing out. *)
Fixpoint generate {T} `{NonceStore T} (s : T) (readings : list (Z * bool)) : T * list Z :=
  match readings with
  | [] => (s, [])
  | (now, disk_ok) :: rest =>
      let '(s', r) := advance s now disk_ok in
      let '(s'', out) := generate s' rest in
      (s'', match r with Ok n => n :: out | Err _ => out end)
  end.

Example clock_goes_back : generate (None : option Z) [(100, true); (40, true); (40, true); (200, true)] =
  (Some 200, [100; 101; 102; 200]).
Proof. reflexivity. Qed.

Example corrupt_file : (generate {| path := "k"; content := Some "x" |} [(5, true)]).2 = [].
Proof. reflexivity. Qed.

(** ** What a store promises, and that both keep it *)

(** A store whose readable value is the last nonce it returned, whatever fails. *)
Class NonceStoreLaws (T : Type) `{NonceStore T} := {
  store_ok : T → Prop;
  store_last : T → option Z;
  store_last_nonneg s x : store_ok s → store_last s = Some x → 0 ≤ x;
  advance_ok s c b : store_ok s → 0 ≤ c ≤ u64_max → store_ok (advance s c b).1;
  (** a nonce is [next_after] the last one, and is the last one from then on *)
  advance_fresh s c b n : store_ok s → 0 ≤ c ≤ u64_max → (advance s c b).2 = Ok n →
    next_after c (store_last s) = Ok n ∧ store_last (advance s c b).1 = Some n;
  (** a failed call changes nothing that is readable *)
  advance_failed s c b e : store_ok s → (advance s c b).2 = Err e → store_last (advance s c b).1 = store_last s;
}.

Lemma next_after_bounds c l n : 0 ≤ c ≤ u64_max → next_after c l = Ok n →
  1 ≤ n ∨ (∃ x, l = Some x ∧ x < 0).
Proof.
  intros Hc H. unfold next_after, u64_checked_succ in H. destruct l as [x|]; inv_ok; [|left; lia].
  destruct (x <? u64_max); [|done]. simplify_eq. destruct (Z.lt_ge_cases x 0); [right; by exists x|left; lia].
Qed.

Lemma next_after_gt c l n : next_after c l = Ok n → ∀ x, l = Some x → x < n.
Proof.
  intros H x ->. unfold next_after, u64_checked_succ in H. inv_ok. destruct (x <? u64_max); [|done]. simplify_eq. lia.
Qed.

Lemma next_after_range c l n : 0 ≤ c ≤ u64_max → (∀ x, l = Some x → 0 ≤ x) → next_after c l = Ok n →
  0 ≤ n ≤ u64_max.
Proof.
  intros Hc Hl H. unfold next_after, u64_checked_succ in H. destruct l as [x|]; inv_ok; [|unfold u64_max in *; lia].
  specialize (Hl x eq_refl). destruct (Z.ltb_spec x u64_max); [|done]. simplify_eq. lia.
Qed.

#[export] Program Instance memory_laws : NonceStoreLaws (option Z) := {|
  store_ok g := ∀ x, g = Some x → 0 ≤ x ≤ u64_max;
  store_last g := g;
|}.
Next Obligation. simpl. intros g x Hg Hx. by apply Hg in Hx as [? _]. Qed.
Next Obligation.
  simpl. intros g c _ Hg Hc x. destruct (next_after c g) eqn:E; simpl; [|apply Hg]. intros [= <-].
  eapply next_after_range; [done| |done]. intros y Hy. by apply Hg in Hy as [? ?].
Qed.
Next Obligation. simpl. intros g c _ n _ _. destruct (next_after c g); simpl; naive_solver. Qed.
Next Obligation. simpl. intros g c _ e _. by destruct (next_after c g). Qed.

Lemma trim_end_app_space s c : no_space s = true → is_whitespace c = true → trim_end (s +:+ String c EmptyString) = s.
Proof.
  intros Hs Hc. induction s as [|d s IH]; [simpl; by rewrite Hc|]. unfold no_space in *. simpl in Hs.
  apply andb_true_iff in Hs as [Hd Hs]. change (String d s +:+ String c "") with (String d (s +:+ String c "")). simpl.
  rewrite IH by done. destruct s; [|done]. apply negb_true_iff in Hd. by rewrite Hd.
Qed.

Lemma digits_no_space s : sall is_ascii_digit s = true → no_space s = true.
Proof.
  apply sall_impl. intros c. rewrite is_ascii_digit_code. unfold is_whitespace.
  intros Hc. rewrite negb_true_iff, orb_false_iff, andb_false_iff, !Z.leb_gt, Z.eqb_neq. lia.
Qed.

(** What [write] stores, [read] reads back. *)
Lemma file_round_trip n : 0 ≤ n ≤ u64_max → parse_u64 (trim (show_int n +:+ newline)) = Some n.
Proof.
  intros Hn. unfold show_int. destruct (Z.ltb_spec n 0); [lia|].
  pose proof (show_nonneg_digits n ltac:(lia)) as Hd. pose proof (digits_no_space _ Hd) as Hs.
  pose proof (show_nonneg_value n ltac:(lia)) as Hv.
  destruct (show_nonneg_len n 20) as [Hlen _]; [unfold u64_max in Hn; simpl; lia|lia|].
  destruct (show_nonneg n) as [|c s] eqn:E; [unfold slen in Hlen; simpl in Hlen; lia|].
  unfold trim. assert (trim_start (String c s +:+ newline) = String c s +:+ newline) as ->.
  { unfold no_space in Hs. simpl in Hs |- *. apply andb_true_iff in Hs as [Hc _]. apply negb_true_iff in Hc. by rewrite Hc. }
  unfold newline. rewrite trim_end_app_space by done. unfold parse_u64.
  assert (Ascii.eqb c "+" = false) as ->.
  { apply Ascii.eqb_neq. intros ->. by simpl in Hd. }
  rewrite Hd, Hv. simpl. destruct (Z.leb_spec n u64_max); [done|lia].
Qed.

Lemma parse_u64_range s n : parse_u64 s = Some n → 0 ≤ n ≤ u64_max.
Proof.
  unfold parse_u64. set (ds := match s with String _ _ => _ | EmptyString => _ end).
  destruct (is_empty ds), (sall is_ascii_digit ds) eqn:Ed; simpl; try done.
  destruct (Z.leb_spec (digits_value 0 ds) u64_max); [|done]. intros [= <-]. pose proof (digits_value_nonneg ds 0 Ed). lia.
Qed.

Lemma file_read_range f x : file_read f = Ok (Some x) → 0 ≤ x ≤ u64_max.
Proof.
  unfold file_read. destruct (content f) as [t|]; [|done]. rewrite ok_or_ok.
  destruct (parse_u64 (trim t)) eqn:Ep; simpl; [|done]. intros [= <-]. by eapply parse_u64_range.
Qed.

#[export] Program Instance file_laws : NonceStoreLaws NonceFile := {|
  store_ok f := True;
  store_last f := match file_read f with Ok l => l | Err _ => None end;
|}.
Next Obligation.
  simpl. intros f x _. destruct (file_read f) as [l|] eqn:El; [|done]. intros ->. by apply file_read_range in El as [? _].
Qed.
Next Obligation. done. Qed.
Next Obligation.
  simpl. intros f c b n _ Hc H. destruct (file_read f) as [l|e] eqn:El; [|done]. simpl in *.
  destruct (next_after c l) as [m|e] eqn:En; [|done]. destruct b; simpl in *; [|done]. injection H as ->.
  split; [done|]. unfold file_read. simpl. rewrite file_round_trip; [done|].
  eapply next_after_range; [done| |done]. intros x ->. by apply file_read_range in El as [? _].
Qed.
Next Obligation.
  simpl. intros f c b e _ H. destruct (file_read f) as [l|e'] eqn:El; simpl in *; [|by rewrite El].
  destruct (next_after c l); simpl in *; [|by rewrite El]. destruct b; simpl in *; [done|by rewrite El].
Qed.

Section runs.
Context {T : Type} `{NonceStoreLaws T}.

Definition readings_ok (rs : list (Z * bool)) : Prop := Forall (λ r, 0 ≤ r.1 ≤ u64_max) rs.

Lemma generate_above rs : readings_ok rs → ∀ s : T, store_ok s →
  store_ok (generate s rs).1 ∧ (∀ x, store_last s = Some x → Forall (λ n, x < n) (generate s rs).2) ∧
  Forall (λ n, 1 ≤ n) (generate s rs).2 ∧ StronglySorted Z.lt (generate s rs).2.
Proof.
  induction 1 as [|[c b] rs Hc Hrs IH]; intros s Hs; simpl; [split_and!; try constructor; done|].
  pose proof (advance_ok s c b Hs Hc) as Hok. pose proof (advance_fresh s c b) as Hfresh.
  pose proof (advance_failed s c b) as Hfail. destruct (advance s c b) as [s' r] eqn:Ea. simpl in *.
  destruct (IH s' Hok) as (Hok' & Habove & Hone & Hsort). destruct (generate s' rs) as [s'' out]. simpl in *.
  destruct r as [n|e].
  - destruct (Hfresh n Hs Hc eq_refl) as [Hn Hl]. specialize (Habove n Hl).
    split_and!; [done| | |by constructor].
    + intros x Hx. assert (x < n) by (by eapply next_after_gt). constructor; [done|].
      eapply Forall_impl; [exact Habove|]. simpl. lia.
    + constructor; [|done]. destruct (next_after_bounds c _ n Hc Hn) as [|(x & Hx & ?)]; [done|].
      pose proof (store_last_nonneg s x Hs Hx). lia.
  - split_and!; try done. intros x Hx. apply Habove. by rewrite (Hfail e Hs eq_refl).
Qed.

Lemma generate_app rs1 rs2 : ∀ s : T,
  generate s (rs1 ++ rs2) =
  ((generate (generate s rs1).1 rs2).1, (generate s rs1).2 ++ (generate (generate s rs1).1 rs2).2).
Proof.
  induction rs1 as [|[c b] rs1 IH]; intros s; simpl; [by destruct (generate s rs2)|].
  destruct (advance s c b) as [s' r]. rewrite IH. destruct (generate s' rs1) as [s1 o1]. simpl. by destruct r.
Qed.
End runs.

(** ** Properties *)

(** C36. Nonces are strictly increasing for the life of a key: whatever the clock reads (even backwards), however often
    persisting fails, and across restarts (the later run starts from the store the earlier one left), every nonce a
    store hands out is at least 1 and greater than every nonce handed out before it, including the last one already in
    the store. It holds of any store that keeps the store laws, which the in-memory and the file-backed store do. *)
Theorem nonces_strictly_increase {T} `{NonceStoreLaws T} (s : T) before after :
  store_ok s → readings_ok before → readings_ok after →
  let run1 := generate s before in
  let run2 := generate run1.1 after in
  StronglySorted Z.lt (run1.2 ++ run2.2) ∧ Forall (λ n, 1 ≤ n) (run1.2 ++ run2.2) ∧
  (∀ x, store_last s = Some x → Forall (λ n, x < n) (run1.2 ++ run2.2)).
Proof.
  intros Hs Hb Ha run1 run2. destruct (generate_above (before ++ after)) with (s := s) as (_ & Habove & Hone & Hsort).
  - by apply Forall_app.
  - done.
  - rewrite generate_app in *. done.
Qed.

Lemma nonces_strictly_increase_witness :
  let run1 := generate {| path := "k"; content := Some ("41" +:+ newline) |} [(7, true); (5, false); (100, true)] in
  let run2 := generate run1.1 [(3, true)] in
  run1.2 ++ run2.2 = [42; 100; 101] ∧ StronglySorted Z.lt (run1.2 ++ run2.2).
Proof.
  split; [vm_compute; reflexivity|].
  apply (nonces_strictly_increase (T := NonceFile) {| path := "k"; content := Some ("41" +:+ newline) |}
    [(7, true); (5, false); (100, true)] [(3, true)]).
  - exact I.
  - repeat constructor; discriminate.
  - repeat constructor; discriminate.
Defined.
