(* ===== verification/Userref.v ===== *)
(** * Userref: crates/broker-adapters/src/kraken/userref.rs

    The two-way table between order tags and Kraken's 31-bit client references: the hash-derived first choice, linear
    probing on a collision, and the persisted entries. *)

From Stdlib Require Import ZArith Lia String Ascii Sorting.Sorted.
From S2P Require Import Prelude Text BTree Externals.

Local Open Scope Z_scope.

Module Userref.

#[export] Program Instance z_key : KeyOrd Z := {| kcmp := Z.compare |}.
Next Obligation. intros a b. apply Z.compare_eq_iff. Qed.
Next Obligation. intros a b. apply Z.compare_antisym. Qed.
Next Obligation. intros a b c. rewrite !Z.compare_lt_iff. lia. Qed.

Inductive UserrefError :=
| EmptyTag
| Exhausted
| OutOfRange (r : Z)
| Conflict (s : string).

Record UserrefEntry := { tag : string; userref : Z }.

Record UserrefMap := { by_tag : BTreeMap string Z; by_ref : BTreeMap Z string }.

Definition empty : UserrefMap := {| by_tag := []; by_ref := [] |}.

Section userref.
Context `{Sha256}.

Definition hex_digit_value (c : ascii) : Z := if is_ascii_digit c then code c - 48 else code c - 87.
Fixpoint hex_value (acc : Z) (s : string) : Z :=
  match s with
  | EmptyString => acc
  | String c s' => hex_value (acc * 16 + hex_digit_value c) s'
  end.

(** The first four bytes of the digest, big endian, are the first eight hexadecimal digits of its text. *)
Definition candidate (tag : string) : Z :=
  let d := sha256_hex ("mendl-userref-v1" +:+ String (chr 0) tag) in
  let v := Z.land (hex_value 0 (stake 8 d)) (2 ^ 31 - 1) in
  if v =? 0 then 1 else v.

Definition next_probe (r : Z) : Z := if r =? i32_max then 1 else r + 1.

Definition insert_both (m : UserrefMap) (t : string) (r : Z) : UserrefMap :=
  {| by_tag := bt_insert t r (by_tag m); by_ref := bt_insert r t (by_ref m) |}.

(** The loop of [assign]. [None] is running out of fuel, which [assign]'s fuel rules out. *)
Fixpoint probe (fuel : nat) (m : UserrefMap) (start r : Z) : option (result UserrefError Z) :=
  match fuel with
  | O => None
  | S fuel =>
      if negb (bt_contains (by_ref m) r) then Some (Ok r)
      else
        let r := next_probe r in
        if r =? start then Some (Err Exhausted) else probe fuel m start r
  end.

(** One step more than there are taken references. *)
Definition assign (m : UserrefMap) (t : string) : UserrefMap * option (result UserrefError Z) :=
  if is_empty t then (m, Some (Err EmptyTag))
  else match bt_get (by_tag m) t with
       | Some r => (m, Some (Ok r))
       | None =>
           match probe (S (length (by_ref m))) m (candidate t) (candidate t) with
           | Some (Ok r) => (insert_both m t r, Some (Ok r))
           | x => (m, x)
           end
       end.

Definition get_userref (m : UserrefMap) (t : string) : option Z := bt_get (by_tag m) t.
Definition tag_for (m : UserrefMap) (r : Z) : option string := bt_get (by_ref m) r.

Definition entries (m : UserrefMap) : list UserrefEntry :=
  (fun e => {| tag := e.1; userref := e.2 |}) <$> by_tag m.

Definition add_entry (m : UserrefMap) (e : UserrefEntry) : result UserrefError UserrefMap :=
  if is_empty (tag e) then Err EmptyTag
  else if userref e <? 1 then Err (OutOfRange (userref e))
  else
    let conflict := Err (Conflict (tag e +:+ " <-> " +:+ show_int (userref e))) in
    match bt_get (by_tag m) (tag e), bt_get (by_ref m) (userref e) with
    | None, None => Ok (insert_both m (tag e) (userref e))
    | Some r, Some t => if (r =? userref e) && String.eqb t (tag e) then Ok m else conflict
    | _, _ => conflict
    end.

Definition from_entries (es : list UserrefEntry) : result UserrefError UserrefMap := try_fold add_entry empty es.

(** ** The invariant: the two maps are inverse, tags are not empty and references are in [1..=i32::MAX] *)

Record userref_ok (m : UserrefMap) : Prop := {
  uo_tags : bt_sorted (by_tag m);
  uo_refs : bt_sorted (by_ref m);
  uo_inverse t r : bt_get (by_tag m) t = Some r ↔ bt_get (by_ref m) r = Some t;
  uo_range t r : bt_get (by_tag m) t = Some r → is_empty t = false ∧ 1 ≤ r ≤ i32_max;
}.

Lemma empty_ok : userref_ok empty.
Proof. split; simpl; try constructor; done. Qed.

Lemma candidate_range t : 1 ≤ candidate t ≤ i32_max.
Proof.
  unfold candidate. set (x := hex_value 0 _). change (2 ^ 31 - 1) with (Z.ones 31). rewrite Z.land_ones by lia.
  pose proof (Z.mod_pos_bound x (2 ^ 31) ltac:(lia)). unfold i32_max. destruct (Z.eqb_spec (x mod 2 ^ 31) 0); lia.
Qed.

Lemma next_probe_range r : 1 ≤ r ≤ i32_max → 1 ≤ next_probe r ≤ i32_max.
Proof. unfold next_probe. destruct (Z.eqb_spec r i32_max); unfold i32_max in *; lia. Qed.

Lemma insert_both_ok m t r : userref_ok m → is_empty t = false → 1 ≤ r ≤ i32_max →
  bt_get (by_tag m) t = None → bt_get (by_ref m) r = None → userref_ok (insert_both m t r).
Proof.
  intros Hm Ht Hr Hnt Hnr. split; simpl; [apply bt_insert_sorted, Hm|apply bt_insert_sorted, Hm| |].
  - intros t' r'. destruct (decide (t' = t)) as [->|Hne]; [rewrite bt_get_insert_eq|rewrite bt_get_insert_ne by done];
      (destruct (decide (r' = r)) as [->|Hner]; [rewrite bt_get_insert_eq|rewrite bt_get_insert_ne by done]).
    + naive_solver.
    + rewrite <-(uo_inverse m Hm), Hnt. naive_solver.
    + rewrite (uo_inverse m Hm), Hnr. naive_solver.
    + apply (uo_inverse m Hm).
  - intros t' r'. destruct (decide (t' = t)) as [->|Hne]; [rewrite bt_get_insert_eq|rewrite bt_get_insert_ne by done].
    + by intros [= <-].
    + apply (uo_range m Hm).
Qed.

Lemma add_entry_ok m e m' : userref_ok m → userref e ≤ i32_max → add_entry m e = Ok m' → userref_ok m'.
Proof.
  intros Hm Hmax H0. unfold add_entry in H0. destruct (is_empty (tag e)) eqn:Et; [done|].
  destruct (Z.ltb_spec (userref e) 1); [done|].
  destruct (bt_get (by_tag m) (tag e)) eqn:E1, (bt_get (by_ref m) (userref e)) eqn:E2; try done.
  - destruct (_ && _); by simplify_eq.
  - injection H0 as <-. by apply insert_both_ok.
Qed.

(** ** The probe sequence *)

Definition nth_probe (start i : Z) : Z := (start - 1 + i) mod i32_max + 1.

Lemma nth_probe_0 start : 1 ≤ start ≤ i32_max → nth_probe start 0 = start.
Proof. intros Hs. unfold nth_probe. rewrite Z.mod_small by lia. lia. Qed.

Lemma next_nth_probe start i : next_probe (nth_probe start i) = nth_probe start (i + 1).
Proof.
  unfold next_probe, nth_probe. replace (start - 1 + (i + 1)) with (start - 1 + i + 1) by lia.
  set (x := start - 1 + i). pose proof (Z.mod_pos_bound x i32_max ltac:(unfold i32_max; lia)).
  pose proof (Z.div_mod x i32_max ltac:(unfold i32_max; lia)).
  destruct (Z.eqb_spec (x mod i32_max + 1) i32_max).
  - rewrite <-(Zmod_unique (x + 1) i32_max (x / i32_max + 1) 0); lia.
  - rewrite <-(Zmod_unique (x + 1) i32_max (x / i32_max) (x mod i32_max + 1)); lia.
Qed.

Lemma nth_probe_inj start i j : 0 ≤ i < i32_max → 0 ≤ j < i32_max → nth_probe start i = nth_probe start j → i = j.
Proof.
  unfold nth_probe. intros Hi Hj He. assert ((start - 1 + i) mod i32_max = (start - 1 + j) mod i32_max) as Hm by lia.
  pose proof (Z.div_mod (start - 1 + i) i32_max ltac:(unfold i32_max; lia)).
  pose proof (Z.div_mod (start - 1 + j) i32_max ltac:(unfold i32_max; lia)). rewrite Hm in *.
  unfold i32_max in *. lia.
Qed.

Lemma nth_probe_range start i : 1 ≤ nth_probe start i ≤ i32_max.
Proof. unfold nth_probe. pose proof (Z.mod_pos_bound (start - 1 + i) i32_max ltac:(unfold i32_max; lia)). lia. Qed.

(** Every reference is reached within [i32::MAX] probes. *)
Lemma nth_probe_surj start r : 1 ≤ r ≤ i32_max → ∃ i, 0 ≤ i < i32_max ∧ nth_probe start i = r.
Proof.
  intros Hr. exists ((r - start) mod i32_max). split; [apply Z.mod_pos_bound; unfold i32_max; lia|].
  unfold nth_probe. rewrite Zplus_mod_idemp_r. replace (start - 1 + (r - start)) with (r - 1) by lia.
  rewrite Z.mod_small; lia.
Qed.

Lemma probe_spec f m start i : 1 ≤ start ≤ i32_max → 0 ≤ i < i32_max →
  (∀ j, 0 ≤ j < i → bt_contains (by_ref m) (nth_probe start j) = true) →
  match probe f m start (nth_probe start i) with
  | None => i + Z.of_nat f < i32_max ∧ ∀ j, 0 ≤ j < i + Z.of_nat f → bt_contains (by_ref m) (nth_probe start j) = true
  | Some (Ok r) => 1 ≤ r ≤ i32_max ∧ bt_contains (by_ref m) r = false
  | Some (Err e) => e = Exhausted ∧ ∀ r, 1 ≤ r ≤ i32_max → bt_contains (by_ref m) r = true
  end.
Proof.
  intros Hs. revert i. induction f as [|f IH]; intros i Hi Htaken; cbn [probe].
  - replace (i + Z.of_nat 0) with i by lia. split; [lia|done].
  - destruct (bt_contains (by_ref m) (nth_probe start i)) eqn:Ei; simpl; [|split; [apply nth_probe_range|done]].
    assert (∀ j, 0 ≤ j < i + 1 → bt_contains (by_ref m) (nth_probe start j) = true) as Htaken'.
    { intros j Hj. destruct (decide (j = i)) as [->|]; [done|]. apply Htaken. lia. }
    rewrite next_nth_probe. destruct (Z.eqb_spec (nth_probe start (i + 1)) start) as [He|He].
    + split; [done|]. intros r Hr. destruct (nth_probe_surj start r Hr) as (k & Hk & <-). apply Htaken'.
      destruct (decide (i + 1 = i32_max)) as [|Hne]; [lia|]. exfalso.
      rewrite <-(nth_probe_0 start Hs) in He at 2. apply nth_probe_inj in He; lia.
    + assert (i + 1 ≠ i32_max) as Hne.
      { intros Hm. apply He. unfold nth_probe. rewrite Hm. replace (start - 1 + i32_max) with (start - 1 + 1 * i32_max) by lia.
        rewrite Z.mod_add by (unfold i32_max; lia). rewrite Z.mod_small by lia. lia. }
      specialize (IH (i + 1) ltac:(lia) Htaken'). destruct (probe f m start (nth_probe start (i + 1))) as [[]|]; try done.
      replace (i + Z.of_nat (S f)) with (i + 1 + Z.of_nat f) by lia. done.
Qed.

(** There are more probes than taken references, so the loop ends. *)
Lemma probe_fuel m start : 1 ≤ start ≤ i32_max → probe (S (length (by_ref m))) m start start ≠ None.
Proof.
  intros Hs Hnone. pose proof (probe_spec (S (length (by_ref m))) m start 0 Hs ltac:(unfold i32_max; lia)) as Hp.
  rewrite nth_probe_0, Hnone in Hp by done. destruct Hp as [Hlt Htaken]; [lia|].
  set (probes := (fun j : nat => nth_probe start (Z.of_nat j)) <$> seq 0 (S (length (by_ref m)))).
  assert (NoDup probes) as Hnd.
  { apply NoDup_fmap_2_strong; [|apply NoDup_seq]. intros x y Hx%elem_of_seq Hy%elem_of_seq He.
    apply nth_probe_inj in He; lia. }
  assert (probes ⊆ bt_keys (by_ref m)) as Hsub.
  { intros r Hr. apply list_elem_of_fmap in Hr as (j & -> & Hj%elem_of_seq).
    specialize (Htaken (Z.of_nat j) ltac:(lia)). unfold bt_contains in Htaken.
    destruct (bt_get (by_ref m) (nth_probe start (Z.of_nat j))) as [t|] eqn:Eg; [|done].
    apply bt_get_elem in Eg. unfold bt_keys. apply list_elem_of_fmap. by eexists (_, t). }
  pose proof (NoDup_submseteq _ _ Hnd Hsub) as Hle%submseteq_length. revert Hle.
  unfold probes, bt_keys. rewrite !length_fmap, length_seq. lia.
Qed.

Lemma contains_none {K V} `{KeyOrd K} (m : BTreeMap K V) k : bt_contains m k = false → bt_get m k = None.
Proof. unfold bt_contains. by destruct (bt_get m k). Qed.

Lemma assign_cases m t : userref_ok m →
  match assign m t with
  | (m', Some (Ok r)) =>
      is_empty t = false ∧ userref_ok m' ∧ 1 ≤ r ≤ i32_max ∧
      (m' = m ∧ bt_get (by_tag m) t = Some r ∨
       m' = insert_both m t r ∧ bt_get (by_tag m) t = None ∧ bt_get (by_ref m) r = None)
  | (m', Some (Err EmptyTag)) => m' = m ∧ is_empty t = true
  | (m', Some (Err Exhausted)) => m' = m ∧ ∀ r, 1 ≤ r ≤ i32_max → bt_contains (by_ref m) r = true
  | _ => False
  end.
Proof.
  intros Hm. unfold assign. destruct (is_empty t) eqn:Et; [done|].
  destruct (bt_get (by_tag m) t) as [r|] eqn:Eg.
  { split_and!; try done; [by apply (uo_range m Hm) in Eg as [_ []]..|]. by left. }
  pose proof (candidate_range t) as Hc. pose proof (probe_fuel m (candidate t) Hc) as Hf.
  pose proof (probe_spec (S (length (by_ref m))) m (candidate t) 0 Hc ltac:(unfold i32_max; lia)) as Hp.
  rewrite nth_probe_0 in Hp by done. specialize (Hp ltac:(lia)).
  destruct (probe _ m (candidate t) (candidate t)) as [[r|e]|]; [| |done].
  - destruct Hp as [Hr Hfree%contains_none]. split_and!; try done; try lia; [by apply insert_both_ok|by right].
  - destruct Hp as [-> Hall]. done.
Qed.

(** ** Rebuilding *)

Definition sub_map (m1 m2 : UserrefMap) : Prop := ∀ t r, bt_get (by_tag m1) t = Some r → bt_get (by_tag m2) t = Some r.

Lemma add_entry_sub m m0 e : userref_ok m → userref_ok m0 → sub_map m0 m → bt_get (by_tag m) (tag e) = Some (userref e) →
  ∃ m1, add_entry m0 e = Ok m1 ∧ userref_ok m1 ∧ sub_map m1 m ∧ sub_map m0 m1 ∧
    bt_get (by_tag m1) (tag e) = Some (userref e).
Proof.
  intros Hm H0 Hsub He. destruct (uo_range m Hm _ _ He) as [Hne Hr]. unfold add_entry.
  rewrite Hne. destruct (Z.ltb_spec (userref e) 1); [lia|].
  destruct (bt_get (by_tag m0) (tag e)) as [r|] eqn:E1.
  - pose proof (Hsub _ _ E1) as E1'. rewrite He in E1'. injection E1' as <-.
    pose proof E1 as E1i. apply (uo_inverse m0 H0) in E1i. rewrite E1i, Z.eqb_refl, String.eqb_refl. simpl.
    exists m0. split_and!; try done; by intros ??.
  - destruct (bt_get (by_ref m0) (userref e)) as [t|] eqn:E2.
    { apply (uo_inverse m0 H0) in E2. pose proof (Hsub _ _ E2) as E2'. apply (uo_inverse m Hm) in E2'.
      apply (uo_inverse m Hm) in He. congruence. }
    exists (insert_both m0 (tag e) (userref e)). split; [done|]. split; [by apply insert_both_ok|].
    split_and!; [| |simpl; by rewrite bt_get_insert_eq]; intros t r; simpl;
      (destruct (decide (t = tag e)) as [->|]; [rewrite bt_get_insert_eq|rewrite bt_get_insert_ne by done]).
    + by intros [= <-].
    + apply Hsub.
    + by rewrite E1.
    + done.
Qed.

Lemma rebuild_sub m es m0 : userref_ok m → userref_ok m0 → sub_map m0 m →
  Forall (fun e => bt_get (by_tag m) (tag e) = Some (userref e)) es →
  ∃ m1, try_fold add_entry m0 es = Ok m1 ∧ userref_ok m1 ∧ sub_map m1 m ∧ sub_map m0 m1 ∧
    Forall (fun e => bt_get (by_tag m1) (tag e) = Some (userref e)) es.
Proof.
  intros Hm H0 Hsub Hes. revert m0 H0 Hsub. induction Hes as [|e es He Hes IH]; intros m0 H0 Hsub; simpl.
  - exists m0. split_and!; try done; by intros ??.
  - destruct (add_entry_sub m m0 e Hm H0 Hsub He) as (m1 & -> & H1 & Hs1 & Hs01 & Hin). simpl.
    destruct (IH m1 H1 Hs1) as (m2 & -> & H2 & Hs2 & Hs12 & Hall). exists m2. split_and!; try done.
    + intros t r Ht. by apply Hs12, Hs01.
    + constructor; [by apply Hs12|done].
Qed.

Lemma userref_ext m1 m2 : userref_ok m1 → userref_ok m2 → sub_map m1 m2 → sub_map m2 m1 → m1 = m2.
Proof.
  intros H1 H2 Hs12 Hs21. assert (∀ t, bt_get (by_tag m1) t = bt_get (by_tag m2) t) as Ht.
  { intros t. destruct (bt_get (by_tag m1) t) eqn:E1; [by symmetry; apply Hs12|].
    destruct (bt_get (by_tag m2) t) eqn:E2; [|done]. apply Hs21 in E2. congruence. }
  assert (by_tag m1 = by_tag m2) as Etag by (apply bt_ext; [apply H1|apply H2|done]).
  assert (by_ref m1 = by_ref m2) as Eref.
  { apply bt_ext; [apply H1|apply H2|]. intros r. apply option_eq. intros t.
    by rewrite <-(uo_inverse m1 H1), <-(uo_inverse m2 H2), Ht. }
  destruct m1, m2. simpl in *. by subst.
Qed.

Lemma entries_rebuild m : userref_ok m → from_entries (entries m) = Ok m.
Proof.
  intros Hm. assert (Forall (fun e => bt_get (by_tag m) (tag e) = Some (userref e)) (entries m)) as Hall.
  { apply Forall_forall. intros e He. apply list_elem_of_fmap in He as ([t r] & -> & Hin). simpl.
    apply bt_sorted_get; [apply Hm|done]. }
  destruct (rebuild_sub m (entries m) empty Hm empty_ok) as (m1 & Hf & H1 & Hs1 & _ & Hin); [done|done|].
  unfold from_entries. rewrite Hf. f_equal. apply userref_ext; try done. intros t r Ht%bt_get_elem.
  rewrite Forall_forall in Hin. apply (Hin {| tag := t; userref := r |}). apply list_elem_of_fmap. by exists (t, r).
Qed.
End userref.
End Userref.

(** ** Properties *)

(** C37. The reference table stays a bijection: assigning never loses or changes a reference already given, always
    returns (the probing terminates), gives a reference in [1..=i32::MAX] that no other tag owns, gives the same tag
    the same reference ever after, and fails only for an empty tag or when every reference is taken. *)
Theorem assign_keeps_bijection `{Sha256} m t : Userref.userref_ok m →
  match Userref.assign m t with
  | (m', Some (Ok r)) =>
      Userref.userref_ok m' ∧ 1 ≤ r ≤ i32_max ∧ Userref.get_userref m' t = Some r ∧ Userref.tag_for m' r = Some t ∧
      (∀ t' r', Userref.get_userref m t' = Some r' → Userref.get_userref m' t' = Some r') ∧
      (∀ t', t' ≠ t → Userref.get_userref m' t' = Userref.get_userref m t') ∧
      Userref.assign m' t = (m', Some (Ok r))
  | (m', Some (Err e)) =>
      m' = m ∧ (e = Userref.EmptyTag ∧ is_empty t = true ∨
                e = Userref.Exhausted ∧ ∀ r, 1 ≤ r ≤ i32_max → Userref.tag_for m r ≠ None)
  | (_, None) => False
  end.
Proof.
  intros Hm. pose proof (Userref.assign_cases m t Hm) as Hc. destruct (Userref.assign m t) as [m' [[r|e]|]]; [| |done].
  - destruct Hc as (Hne & Hm' & Hr & Hc). unfold Userref.get_userref, Userref.tag_for.
    assert (bt_get (Userref.by_tag m') t = Some r) as Hget.
    { destruct Hc as [[-> ?]|[-> _]]; [done|]. simpl. by rewrite bt_get_insert_eq. }
    split_and!; try done; try lia.
    + by apply (Userref.uo_inverse m' Hm').
    + intros t' r' Ht. destruct Hc as [[-> ?]|(-> & Hn & _)]; [done|]. simpl.
      rewrite bt_get_insert_ne; [done|]. intros ->. congruence.
    + intros t' Hne'. destruct Hc as [[-> ?]|(-> & _)]; [done|]. simpl. by rewrite bt_get_insert_ne.
    + unfold Userref.assign. by rewrite Hne, Hget.
  - destruct e; try done; destruct Hc as [-> Hc]; split; try done; [by left|right; split; [done|]].
    intros r Hr Hnone. specialize (Hc r Hr). unfold bt_contains in Hc. unfold Userref.tag_for in Hnone. by rewrite Hnone in Hc.
Qed.

(** Rebuilding from the persisted entries gives back the very table: the entries of a well-formed table are
    accepted, in their order, and the result is equal to it. *)
Theorem userref_entries_roundtrip m : Userref.userref_ok m → Userref.from_entries (Userref.entries m) = Ok m.
Proof. apply Userref.entries_rebuild. Qed.

Definition userref_sample : Userref.UserrefMap :=
  (@Userref.assign plain_digest (@Userref.assign plain_digest Userref.empty "a").1 "b").1.

Lemma assign_keeps_bijection_witness :
  Userref.userref_ok userref_sample ∧
  Userref.get_userref userref_sample "a" ≠ Userref.get_userref userref_sample "b".
Proof.
  pose proof (@assign_keeps_bijection plain_digest Userref.empty "a" Userref.empty_ok) as H1.
  destruct (@Userref.assign plain_digest Userref.empty "a") as [m1 r1] eqn:E1.
  assert (r1 = Some (Ok 1870538748)) as -> by (vm_compute in E1; congruence).
  destruct H1 as [Hm1 _]. pose proof (@assign_keeps_bijection plain_digest m1 "b" Hm1) as H2.
  split; [|vm_compute; discriminate].
  unfold userref_sample. rewrite E1. simpl fst.
  destruct (@Userref.assign plain_digest m1 "b") as [m2 r2] eqn:E2.
  assert (r2 = Some (Ok 1870538749)) as -> by (vm_compute in E1; injection E1 as <-; vm_compute in E2; congruence).
  exact (proj1 H2).
Defined.

Lemma userref_entries_roundtrip_witness :
  Userref.from_entries (Userref.entries Userref.empty) = Ok Userref.empty ∧ length (Userref.entries userref_sample) = 2%nat.
Proof. split; [exact (userref_entries_roundtrip _ Userref.empty_ok)|vm_compute; reflexivity]. Defined.
