(* ===== verification/KrakenParse.v ===== *)
(** * KrakenParse: crates/broker-adapters/src/kraken/parse.rs

    Reading Kraken's JSON: the envelope and its error codes, balances, ticker, placement and cancel results, orders.
    The scalar helpers are those of [Oanda] (the same text in both files). *)

From Stdlib Require Import ZArith Lia String Ascii.
From S2P Require Import Prelude Text BTree F64 Decimal Broker Kraken Oanda AlpacaParse Userref.

Local Open Scope Z_scope.

Module KrakenParse.
Abbreviation malformed := Oanda.malformed.
Abbreviation opt_dec := Oanda.opt_dec.
Abbreviation req_dec := Oanda.req_dec.
Abbreviation dec_from_value := Oanda.dec_from_value.

Record Envelope := { env_result : option Json; env_warnings : list string }.

Definition starts_any (s : string) (l : list string) : bool := existsb (starts_with s) l.

Definition classify (c : string) : ErrorClass.t :=
  if starts_with c "EAPI:Invalid nonce" then ErrorClass.InvalidNonce
  else if starts_any c ["EAPI:Invalid key"; "EAPI:Invalid signature"; "EAPI:Invalid session"; "EGeneral:Permission denied"]%string
  then ErrorClass.Auth
  else if contains_str c "Rate limit exceeded" || starts_with c "EGeneral:Temporary lockout" then ErrorClass.RateLimited
  else if starts_any c ["EOrder:Insufficient funds"; "EOrder:Insufficient margin"]%string then ErrorClass.InsufficientFunds
  else if starts_any c ["EOrder:Unknown order"; "EOrder:Invalid order"]%string then ErrorClass.UnknownOrder
  else if starts_any c ["EGeneral:Invalid arguments"; "EQuery:Unknown asset pair"; "EQuery:Invalid asset pair"]%string
  then ErrorClass.InvalidArguments
  else if starts_with c "EService:Market in " then ErrorClass.OrderRejected
  else if starts_any c ["EService:"; "EGeneral:Internal error"]%string then ErrorClass.ServiceUnavailable
  else if starts_any c ["EOrder:"; "ETrade:"]%string then ErrorClass.OrderRejected
  else ErrorClass.Other.

(** One entry of the [error] array: a warning or an error. *)
Definition read_error (acc : list ExchangeError * list string) (e : Json) : broker (list ExchangeError * list string) :=
  let '(errors, warnings) := acc in
  let? s := ok_or (as_str e) (BrokerError.Malformed "non-string entry in `error`") in
  Ok (if starts_with s "W" then (errors, warnings ++ [s])
      else (errors ++ [{| err_code := s; err_class := classify s |}], warnings)).

Definition parse_envelope (v : Json) : broker Envelope :=
  let? errs := ok_or (let* x := json_get v "error" in as_array x) (BrokerError.Malformed "missing `error` array") in
  let? (errors, warnings) := try_fold read_error ([], []) errs in
  match errors with
  | [] => Ok {| env_result := json_get v "result"; env_warnings := warnings |}
  | _ => Err (BrokerError.Exchange errors)
  end.

Definition result_of (env : Envelope) : broker Json := ok_or (env_result env) (BrokerError.Malformed "missing `result`").

(** ** Balances and the ticker *)

Definition parse_balance (f : string * Json) : broker BalanceEntry :=
  let '(raw, v) := f in
  let? amount := dec_from_value raw v in
  let '(a, k) := Kraken.normalize_asset raw in
  Ok {| raw_asset := raw; asset := a; bal_amount := amount; bal_kind := k |}.


Definition parse_balances (env : Envelope) : broker (list BalanceEntry) :=
  let? r := result_of env in
  let? obj := ok_or (as_object r) (BrokerError.Malformed "Balance result is not an object") in
  let? entries := try_map parse_balance obj in
  Ok (sort_by (fun a b => key_gt (raw_asset a) (raw_asset b)) entries).

Record TradeBalance := {
  equivalent_balance : option Dec;
  tb_trade_balance : option Dec;
  tb_margin : option Dec;
  unrealized_pnl : option Dec;
  cost_basis : option Dec;
  valuation : option Dec;
  tb_equity : option Dec;
  free_margin : option Dec;
  margin_level : option Dec;
}.

Definition parse_trade_balance (env : Envelope) : broker TradeBalance :=
  let? r := result_of env in
  if negb (is_object r) then malformed "TradeBalance result is not an object"
  else
    let? eb := opt_dec r "eb" in
    let? tb := opt_dec r "tb" in
    let? m := opt_dec r "m" in
    let? n := opt_dec r "n" in
    let? c := opt_dec r "c" in
    let? v := opt_dec r "v" in
    let? e := opt_dec r "e" in
    let? mf := opt_dec r "mf" in
    let? ml := opt_dec r "ml" in
    Ok {| equivalent_balance := eb; tb_trade_balance := tb; tb_margin := m; unrealized_pnl := n; cost_basis := c;
          valuation := v; tb_equity := e; free_margin := mf; margin_level := ml |}.

Definition first_of (entry : Json) (key : string) : broker Dec :=
  let? first := ok_or (first_item entry key) (BrokerError.Malformed ("Ticker field `" +:+ key +:+ "` missing")) in
  dec_from_value key first.

(** The row of the pair: by its REST name, by its altname, or the only row there is. *)
Definition ticker_entry (obj : list (string * Json)) (pair : Kraken.PairInfo) : option Json :=
  or_else (field_get obj (Kraken.rest_name pair))
    (or_else (field_get obj (Kraken.altname pair)) (match obj with [(_, v)] => Some v | _ => None end)).

Definition parse_ticker (env : Envelope) (pair : Kraken.PairInfo) : broker Quote :=
  let? r := result_of env in
  let? obj := ok_or (as_object r) (BrokerError.Malformed "Ticker result is not an object") in
  let? entry := ok_or (ticker_entry obj pair)
      (BrokerError.Malformed ("Ticker has no entry for " +:+ Kraken.altname pair)) in
  let? ask := first_of entry "a" in
  let? bid := first_of entry "b" in
  let? last := first_of entry "c" in
  if negb (is_positive ask) || negb (is_positive bid) || negb (is_positive last) then
    malformed "Ticker prices must be positive"
  else if dec_ltb ask bid then malformed "Ticker is crossed (ask < bid)"
  else Ok {| q_symbol := Kraken.canonical pair; q_bid := bid; q_ask := ask; q_last := last |}.

(** ** Placement and cancel *)

Record AddOrderResult := { add_txid : option string; add_description : option string }.

Definition parse_add_order (env : Envelope) : broker AddOrderResult :=
  let? r := result_of env in
  let description := let* d := json_get r "descr" in let* o := json_get d "order" in as_str o in
  let? txid :=
    match json_get r "txid" with
    | None | Some JNull => Ok None
    | Some (JArr a) =>
        match a with
        | [] => Ok None
        | JStr s :: _ => if is_empty s then malformed "`txid` entry is not a string" else Ok (Some s)
        | _ => malformed "`txid` entry is not a string"
        end
    | Some _ => malformed "`txid` is not an array"
    end in
  Ok {| add_txid := txid; add_description := description |}.

Definition parse_cancel (env : Envelope) : broker CancelOutcome :=
  let? r := result_of env in
  let? count := ok_or (let* c := json_get r "count" in as_u64 c)
      (BrokerError.Malformed "CancelOrder result has no numeric `count`") in
  let pending := match json_get r "pending" with None | Some JNull => false | Some _ => true end in
  Ok {| canceled_count := default u32_max (u32_try_from count); cancel_pending := pending |}.

(** ** Orders *)

Definition derive_status (raw : string) (volume executed : Dec) : broker OrderStatus.t :=
  if is_negative executed then malformed "negative vol_exec"
  else if dec_ltb volume executed then
    malformed ("overfill anomaly: vol_exec " +:+ to_string executed +:+ " exceeds vol " +:+ to_string volume +:+
      " (status " +:+ debug_str raw +:+ "); refusing to report an inflated fill")
  else if String.eqb raw "pending" then Ok OrderStatus.Pending
  else if String.eqb raw "open" then
    Ok (if is_positive executed then OrderStatus.PartiallyFilled else OrderStatus.Open)
  else if str_in raw ["closed"; "canceled"; "expired"]%string then
    if dec_leb volume executed then Ok OrderStatus.Filled
    else if is_positive executed then
      Ok (if String.eqb raw "expired" then OrderStatus.PartiallyFilledThenExpired
          else OrderStatus.PartiallyFilledThenCanceled)
    else Ok (if String.eqb raw "expired" then OrderStatus.Expired else OrderStatus.Canceled)
  else malformed ("unknown order status " +:+ debug_str raw).

(** [Value::as_i64] of a number that prints as [t]. *)
Definition as_i64 (t : string) : option Z :=
  let '(neg, ds) := match t with String c r => if Ascii.eqb c "-" then (true, r) else (false, t) | EmptyString => (false, t) end in
  if is_empty ds || negb (sall is_ascii_digit ds) then None
  else
    let v := if neg : bool then - digits_value 0 ds else digits_value 0 ds in
    if (i64_min <=? v) && (v <=? i64_max) then Some v else None.

Definition i32_try_from (v : Z) : option Z := if (i32_min <=? v) && (v <=? i32_max) then Some v else None.

Definition userref_of (info : Json) : broker (option Z) :=
  match json_get info "userref" with
  | None | Some JNull => Ok None
  | Some (JNum n) =>
      let? u := ok_or (let* v := as_i64 n in i32_try_from v) (BrokerError.Malformed "userref out of int32 range") in
      Ok (Some u)
  | Some (JStr s) => let? u := ok_or (parse_i32 s) (BrokerError.Malformed "userref is not an int32") in Ok (Some u)
  | Some _ => malformed "userref has an unexpected type"
  end.

Section orders.
Context `{JsonFloat}.

Definition as_f64 (v : Json) : option f64 := match v with JNum t => json_as_f64 t | _ => None end.

Definition parse_kind (descr : option Json) : broker (option OrderKind) :=
  match (let* d := descr in let* t := json_get d "ordertype" in as_str t) with
  | Some t =>
      if String.eqb t "market" then Ok (Some Market)
      else if String.eqb t "limit" then
        let? p := match descr with Some d => opt_dec d "price" | None => Ok None end in
        Ok (Limit <$> AlpacaParse.positive_price p)
      else Ok None
  | None => Ok None
  end.

Definition parse_order_info (txid : string) (info : Json) (pairs : Kraken.PairTable) (userrefs : Userref.UserrefMap)
    : broker OrderReport :=
  if negb (is_object info) then malformed ("order " +:+ txid +:+ " is not an object")
  else
    let? raw_status := ok_or (let* s := json_get info "status" in as_str s)
        (BrokerError.Malformed ("order " +:+ txid +:+ ": missing status")) in
    let? quantity := req_dec info "vol" in
    let? executed := req_dec info "vol_exec" in
    let? status := map_err (AlpacaParse.name_order txid) (derive_status raw_status quantity executed) in
    let descr := json_get info "descr" in
    let raw_pair := default EmptyString (let* d := descr in let* p := json_get d "pair" in as_str p) in
    let symbol := match Kraken.lookup pairs raw_pair with Some p => Kraken.canonical p | None => raw_pair end in
    let side := AlpacaParse.parse_side (let* d := descr in let* t := json_get d "type" in as_str t) in
    let? kind := parse_kind descr in
    let? avg_price :=
      if is_positive executed then let? p := opt_dec info "price" in Ok (AlpacaParse.positive_price p) else Ok None in
    let? userref := userref_of info in
    let? cost := opt_dec info "cost" in
    let? fee := opt_dec info "fee" in
    Ok {| rep_id := txid; rep_userref := userref; rep_tag := (let* u := userref in Userref.tag_for userrefs u);
          rep_symbol := symbol; rep_side := side; rep_kind := kind; rep_status := status; rep_raw_status := raw_status;
          rep_reason := Oanda.opt_str info "reason"; rep_quantity := quantity; rep_executed := executed;
          rep_avg_price := avg_price; rep_cost := cost; rep_fee := fee; rep_financing := f64_zero;
          rep_open_time := (let* t := json_get info "opentm" in as_f64 t);
          rep_close_time := (let* t := json_get info "closetm" in as_f64 t) |}.

Definition parse_order_map (map : Json) (what : string) (pairs : Kraken.PairTable) (userrefs : Userref.UserrefMap)
    : broker (list OrderReport) :=
  let? obj := ok_or (as_object map) (BrokerError.Malformed (what +:+ " is not an object")) in
  let? out := try_map (fun e => parse_order_info e.1 e.2 pairs userrefs) obj in
  Ok (sort_by (fun a b => key_gt (rep_id a) (rep_id b)) out).

Definition parse_query_orders (env : Envelope) (pairs : Kraken.PairTable) (userrefs : Userref.UserrefMap)
    : broker (list OrderReport) :=
  let? r := result_of env in parse_order_map r "QueryOrders result" pairs userrefs.

Definition parse_open_orders (env : Envelope) (pairs : Kraken.PairTable) (userrefs : Userref.UserrefMap)
    : broker (list OrderReport) :=
  let? r := result_of env in
  let? open := ok_or (json_get r "open") (BrokerError.Malformed "OpenOrders result has no `open`") in
  parse_order_map open "OpenOrders `open`" pairs userrefs.

(** A page that holds fewer orders than the count it states is refused. *)
Definition parse_closed_orders (env : Envelope) (pairs : Kraken.PairTable) (userrefs : Userref.UserrefMap)
    : broker (list OrderReport) :=
  let? r := result_of env in
  let? closed := ok_or (json_get r "closed") (BrokerError.Malformed "ClosedOrders result has no `closed`") in
  let? orders := parse_order_map closed "ClosedOrders `closed`" pairs userrefs in
  let n := Z.of_nat (length orders) in
  match (let* c := json_get r "count" in as_u64 c) with
  | Some count =>
      if n <? count then
        malformed ("ClosedOrders is paginated (" +:+ show_int count +:+ " total, " +:+ show_int n +:+
          " returned); refusing to under-report")
      else Ok orders
  | None => Ok orders
  end.
End orders.
End KrakenParse.
