(* ===== verification/ReportFacts.v ===== *)
(** * ReportFacts: what order reports and transaction pages say

    A report the Alpaca, Kraken or OANDA parser builds never claims more than was ordered, and its status tells how
    much executed; a page of OANDA's transaction stream that passes the completeness test misses nothing. *)

From Stdlib Require Import ZArith Lia String Ascii.
From S2P Require Import Prelude Text BTree F64 Decimal AlpacaTime Broker Kraken Oanda AlpacaParse OandaParse Userref KrakenParse.

Local Open Scope Z_scope.

(** The decimals of a report that accounting uses are well formed. *)
Record report_decs_ok (r : OrderReport) : Prop := {
  rd_executed : dec_ok (rep_executed r);
  rd_cost : opt_dec_ok (rep_cost r);
  rd_price : opt_dec_ok (rep_avg_price r);
  rd_fee : opt_dec_ok (rep_fee r);
}.

(** What a status says of the executed [e] of [q]. [pending_tells]: a pending order has executed nothing. *)
Definition status_sound (pending_tells : bool) (s : OrderStatus.t) (q e : Z) : Prop :=
  0 ≤ e ≤ q ∧
  match s with
  | OrderStatus.Filled => e = q
  | OrderStatus.PartiallyFilled | OrderStatus.PartiallyFilledThenCanceled | OrderStatus.PartiallyFilledThenExpired => 0 < e
  | OrderStatus.Open | OrderStatus.Canceled | OrderStatus.Expired | OrderStatus.Rejected => e = 0
  | OrderStatus.Pending => if pending_tells then e = 0 else True
  end.

Record report_sound (pending_tells : bool) (r : OrderReport) : Prop := {
  rs_decs : report_decs_ok r;
  rs_quantity : dec_ok (rep_quantity r);
  rs_status : status_sound pending_tells (rep_status r) (atto (rep_quantity r)) (atto (rep_executed r));
}.

(** The report of an order that states no quantity: the quantity is zero, the status still tells what executed. *)
Record unstated_sound (r : OrderReport) : Prop := {
  us_decs : report_decs_ok r;
  us_quantity : rep_quantity r = ZERO;
  us_status : 0 ≤ atto (rep_executed r) ∧
    if has_fills (rep_status r) then 0 < atto (rep_executed r) else atto (rep_executed r) = 0;
}.

(** The comparisons of the parsers, on the exact values. *)
Lemma not_negative d : dec_ok d → is_negative d = false → 0 ≤ atto d.
Proof.
  intros Hd Hn. destruct (Z.lt_ge_cases (atto d) 0) as [Hlt|]; [|done]. apply is_negative_atto in Hlt; [congruence|done].
Qed.

Lemma positive_or_zero d : dec_ok d → 0 ≤ atto d → if is_positive d then 0 < atto d else atto d = 0.
Proof.
  intros Hd Hn. pose proof (is_positive_atto d Hd) as Hp. destruct (is_positive d); [by apply Hp|].
  destruct (Z.lt_ge_cases 0 (atto d)) as [Hlt|]; [|lia]. by apply Hp in Hlt.
Qed.

Lemma not_over q e : dec_ok q → dec_ok e → dec_ltb q e = false → atto e ≤ atto q.
Proof. intros Hq He. rewrite dec_ltb_atto by done. apply Z.ltb_ge. Qed.

Ltac status_cases :=
  repeat (case_match; simplify_eq/=; try done); repeat match goal with
    H : dec_ltb _ _ = _ |- _ => rewrite dec_ltb_atto in H by done; first [apply Z.ltb_ge in H | apply Z.ltb_lt in H]
  | H : dec_leb _ _ = _ |- _ => rewrite dec_leb_atto in H by done; first [apply Z.leb_gt in H | apply Z.leb_le in H]
  end; unfold status_sound; simpl; lia.

Lemma alpaca_status_sound raw qty e s : opt_dec_ok qty → dec_ok e → AlpacaParse.derive_status raw qty e = Ok s →
  status_sound true s (atto (default e qty)) (atto e).
Proof.
  intros Hq He. unfold AlpacaParse.derive_status. destruct (is_negative e) eqn:En; [done|]. pose proof (not_negative e He En) as Hpos.
  pose proof (positive_or_zero e He Hpos) as Hz.
  destruct qty as [q|]; simpl; [pose proof (Hq q eq_refl) as Hqo; destruct (dec_ltb q e) eqn:Eo; [done|]; pose proof (not_over q e Hqo He Eo)|].
  - intros Hs. destruct (is_positive e); status_cases.
  - intros Hs. destruct (is_positive e); status_cases.
Qed.

Lemma kraken_status_sound raw q e s : dec_ok q → dec_ok e → KrakenParse.derive_status raw q e = Ok s →
  status_sound false s (atto q) (atto e).
Proof.
  intros Hq He. unfold KrakenParse.derive_status. destruct (is_negative e) eqn:En; [done|]. pose proof (not_negative e He En) as Hpos.
  pose proof (positive_or_zero e He Hpos) as Hz. destruct (dec_ltb q e) eqn:Eo; [done|]. pose proof (not_over q e Hq He Eo).
  intros Hs. destruct (is_positive e); status_cases.
Qed.

Lemma oanda_status_sound state q e reason s : dec_ok q → dec_ok e → OandaParse.derive_order_status state (Some q) e reason = Ok s →
  status_sound true s (atto q) (atto e).
Proof.
  intros Hq He. unfold OandaParse.derive_order_status. destruct (is_negative e) eqn:En; [done|]. pose proof (not_negative e He En) as Hpos.
  pose proof (positive_or_zero e He Hpos) as Hz. destruct (dec_ltb q e) eqn:Eo; [done|]. pose proof (not_over q e Hq He Eo).
  intros Hs. destruct (is_positive e); status_cases.
Qed.

Lemma oanda_unstated_sound state e reason s : dec_ok e → OandaParse.derive_order_status state None e reason = Ok s →
  0 ≤ atto e ∧ if has_fills s then 0 < atto e else atto e = 0.
Proof.
  intros He. unfold OandaParse.derive_order_status. destruct (is_negative e) eqn:En; [done|]. pose proof (not_negative e He En) as Hpos.
  pose proof (positive_or_zero e He Hpos) as Hz. intros Hs. split; [done|].
  destruct (is_positive e); repeat (case_match; simplify_eq/=; try done).
Qed.

(** ** The parsers *)

Lemma opt_field_ok v f o : Oanda.opt_dec v f = Ok o → opt_dec_ok o.
Proof. intros H d ->. by eapply Oanda.opt_dec_field_ok. Qed.

Lemma positive_price_ok o : opt_dec_ok o → opt_dec_ok (AlpacaParse.positive_price o).
Proof.
  intros Ho d. unfold AlpacaParse.positive_price. destruct o as [p|]; simpl; [|done]. destruct (is_positive p); [|done].
  intros [= <-]. by apply Ho.
Qed.

(** The average price, read only when something executed. *)
Lemma avg_price_ok (b : bool) v f o :
  (if b then let? p := Oanda.opt_dec v f in Ok (AlpacaParse.positive_price p) else Ok None) = Ok o → opt_dec_ok o.
Proof.
  destruct b; [|by intros [= <-]]. rewrite bind_ok. intros (p & Hp & [= <-]). apply positive_price_ok. by eapply opt_field_ok.
Qed.

Lemma alpaca_report_sound v prefix r : AlpacaParse.parse_order_value v prefix = Ok r → report_sound true r.
Proof.
  unfold AlpacaParse.parse_order_value. destruct (negb (is_object v)); [done|]. intros Hr. inv_ok.
  repeat match goal with
  | H : AlpacaParse.opt_dec _ "qty" = Ok _ |- _ => apply opt_field_ok in H
  | H : AlpacaParse.req_dec _ _ = Ok _ |- _ => apply Oanda.req_dec_ok in H
  | H : (if _ then _ else Ok None) = Ok _ |- _ => apply avg_price_ok in H
  | H : AlpacaParse.derive_status _ _ _ = Ok _ |- _ => apply alpaca_status_sound in H; [|done|done]
  end.
  split; [split|..]; simpl; try done.
  - intros c. destruct x5 as [p|]; [|done]. simpl. intros Hc. apply checked_mul_atto in Hc; [naive_solver|done|naive_solver].
  - destruct x1 as [q|]; simpl; [naive_solver|done].
Qed.

Lemma kraken_report_sound `{JsonFloat} txid info pairs refs r : KrakenParse.parse_order_info txid info pairs refs = Ok r → report_sound false r.
Proof.
  unfold KrakenParse.parse_order_info. destruct (negb (is_object info)); [done|]. intros Hr. inv_ok.
  repeat match goal with
  | H : KrakenParse.opt_dec _ _ = Ok _ |- _ => apply opt_field_ok in H
  | H : KrakenParse.req_dec _ _ = Ok _ |- _ => apply Oanda.req_dec_ok in H
  | H : (if _ then _ else Ok None) = Ok _ |- _ => apply avg_price_ok in H
  | H : KrakenParse.derive_status _ _ _ = Ok _ |- _ => apply kraken_status_sound in H; [|done|done]
  end.
  split; [split|..]; simpl; done.
Qed.

Lemma abs_dec_ok d : dec_ok d → dec_ok (OandaParse.abs_dec d).
Proof.
  intros Hd. unfold OandaParse.abs_dec. destruct (is_negative d); [|done]. destruct (ok (dec_new _ _)) as [x|] eqn:E; [|done].
  apply ok_some in E. unfold dec_new in E. destruct Hd as [Hs Hu]. destruct (_ <? _) eqn:El in E; [done|]. injection E as <-.
  split; simpl; [lia|apply wrap_i128_range].
Qed.

(** The order and its fill come from the parsers; an order without units has no quantity to compare with. *)
Definition fill_parsed `{JsonFloat} (fill : option OandaParse.FillInfo) : Prop :=
  ∀ f, fill = Some f → ∃ t, OandaParse.parse_fill t = Ok f.

Lemma oanda_report_sound `{JsonFloat} v o fill reason prefix r :
  OandaParse.parse_order_resource_value v = Ok o → fill_parsed fill → OandaParse.into_report o fill reason prefix = Ok r →
  match OandaParse.or_units o with
  | Some u => report_sound true r ∧ rep_quantity r = OandaParse.abs_dec u
  | None => unstated_sound r
  end.
Proof.
  intros Ho Hf Hr.
  assert (opt_dec_ok (OandaParse.or_units o)) as Huo.
  { unfold OandaParse.parse_order_resource_value in Ho. destruct (negb (is_object v)); [done|]. inv_ok. simpl.
    by eapply (opt_field_ok _ "units"). }
  assert (∀ f, fill = Some f → dec_ok (OandaParse.fill_units f) ∧ dec_ok (OandaParse.fill_price f) ∧ opt_dec_ok (OandaParse.commission f)) as Hfo.
  { intros f Hff. destruct (Hf f Hff) as [t Ht]. unfold OandaParse.parse_fill in Ht. inv_ok. simpl.
    split_and!; [by eapply Oanda.req_dec_ok|by eapply Oanda.req_dec_ok|by eapply opt_field_ok]. }
  unfold OandaParse.into_report in Hr.
  assert (dec_ok (match fill with Some f => OandaParse.abs_dec (OandaParse.fill_units f) | None => ZERO end)) as He.
  { destruct fill as [f|]; [|apply ZERO_ok]. apply abs_dec_ok. by apply Hfo. }
  assert (report_decs_ok r) as Hdecs.
  { inv_ok. split; simpl; try done.
    - intros p. destruct fill as [f|]; [|done]. simpl. destruct (is_positive _); [|done]. intros [= <-]. by apply Hfo.
    - intros p. destruct fill as [f|]; [|done]. simpl. by apply Hfo. }
  destruct (OandaParse.or_units o) as [u|] eqn:Eu; inv_ok; simpl in *;
    match goal with H : OandaParse.derive_order_status _ _ _ _ = Ok _ |- _ =>
      first [apply oanda_status_sound in H; [|apply abs_dec_ok; by apply Huo|done] | apply oanda_unstated_sound in H; [|done]] end.
  - split; [|done]. split; simpl; [done| |done]. apply abs_dec_ok. by apply Huo.
  - by split.
Qed.

(** C21. Every order report an adapter builds is sound. Of an order whose quantity the broker states (an Alpaca order,
    whose report mirrors what executed when it states none, a Kraken order, an OANDA order with units),
    0 <= executed <= quantity; [Filled] means all of it, the partial statuses mean some of it, and [Open], [Canceled],
    [Expired] and [Rejected] mean none of it, as does [Pending] except of a Kraken order, where it says nothing. The one
    order that states no quantity is an OANDA order without units: its report has quantity zero, and its status says
    exactly whether anything executed. All decimals that accounting uses are well formed. This holds of every JSON value,
    and for OANDA with any fill transaction. *)
Theorem reports_sound `{JsonFloat} :
  (∀ v prefix r, AlpacaParse.parse_order_value v prefix = Ok r → report_sound true r) ∧
  (∀ txid info pairs refs r, KrakenParse.parse_order_info txid info pairs refs = Ok r → report_sound false r) ∧
  (∀ v o fill reason prefix r, OandaParse.parse_order_resource_value v = Ok o → fill_parsed fill →
     OandaParse.into_report o fill reason prefix = Ok r →
     match OandaParse.or_units o with
     | Some u => report_sound true r ∧ rep_quantity r = OandaParse.abs_dec u
     | None => unstated_sound r
     end).
Proof. split_and!; [apply alpaca_report_sound|apply kraken_report_sound|apply oanda_report_sound]. Qed.

Module ReportSample.
#[global] Instance floats : JsonFloat := {| json_as_f64 := parse_f64 |}.

Definition alpaca : Json :=
  JObj [("filled_qty", JStr "4"); ("id", JStr "o1"); ("qty", JStr "10"); ("status", JStr "canceled")]%string.
Definition kraken : Json := JObj [("status", JStr "closed"); ("vol", JStr "1.5"); ("vol_exec", JStr "1.50")]%string.
Definition oanda : Json :=
  JObj [("id", JStr "7"); ("instrument", JStr "EUR_USD"); ("state", JStr "FILLED"); ("type", JStr "MARKET"); ("units", JStr "-100")]%string.
Definition oanda_fill : Json :=
  JObj [("id", JStr "8"); ("instrument", JStr "EUR_USD"); ("orderID", JStr "7"); ("price", JStr "1.1"); ("units", JStr "-100")]%string.

Definition status_of {E} (r : result E OrderReport) : option OrderStatus.t := rep_status <$> ok r.
Definition read_oanda : broker OrderReport :=
  let? o := OandaParse.parse_order_resource_value oanda in
  let? f := OandaParse.parse_fill oanda_fill in
  OandaParse.into_report o (Some f) None None.
End ReportSample.

Example sample_statuses :
  ReportSample.status_of (AlpacaParse.parse_order_value ReportSample.alpaca None) = Some OrderStatus.PartiallyFilledThenCanceled ∧
  ReportSample.status_of (KrakenParse.parse_order_info "T" ReportSample.kraken [] Userref.empty) = Some OrderStatus.Filled ∧
  ReportSample.status_of ReportSample.read_oanda = Some OrderStatus.Filled.
Proof. vm_compute. done. Qed.

Lemma status_of_ok {E} (m : result E OrderReport) s : ReportSample.status_of m = Some s → ∃ r, m = Ok r.
Proof. destruct m as [r|]; [by exists r|done]. Qed.

Lemma reports_sound_witness :
  (∃ r, AlpacaParse.parse_order_value ReportSample.alpaca None = Ok r ∧ report_sound true r) ∧
  (∃ r, KrakenParse.parse_order_info "T" ReportSample.kraken [] Userref.empty = Ok r ∧ report_sound false r) ∧
  (∃ r, ReportSample.read_oanda = Ok r ∧ report_sound true r).
Proof.
  destruct sample_statuses as (Ha & Hk & Ho). apply status_of_ok in Ha as [ra Ea], Hk as [rk Ek], Ho as [ro Eo].
  destruct reports_sound as (Sa & Sk & So). split_and!.
  - exists ra. split; [exact Ea|exact (Sa _ _ _ Ea)].
  - exists rk. split; [exact Ek|exact (Sk _ _ _ _ _ Ek)].
  - exists ro. split; [exact Eo|]. unfold ReportSample.read_oanda in Eo.
    apply bind_ok in Eo as (o & Eor & Eo). apply bind_ok in Eo as (f & Ef & Eo).
    assert (OandaParse.or_units <$> ok (OandaParse.parse_order_resource_value ReportSample.oanda) = Some (Some (mkDec (-100) 0))) as Hu
      by (vm_compute; reflexivity).
    rewrite Eor in Hu. injection Hu as Hu. assert (fill_parsed (Some f)) as Hf by (intros f' [= <-]; exists ReportSample.oanda_fill; exact Ef).
    pose proof (So _ _ _ _ _ _ Eor Hf Eo) as Hs. rewrite Hu in Hs. exact (proj1 Hs).
Defined.

(** A filled OANDA order that states no units is reported with quantity zero, less than what it executed. *)
Example oanda_unitless_fill :
  let order := {| OandaParse.or_id := "7"; OandaParse.or_state := "FILLED"; OandaParse.or_kind := "TAKE_PROFIT";
    OandaParse.or_instrument := None; OandaParse.or_units := None; OandaParse.or_price := None; OandaParse.or_client_id := None;
    OandaParse.or_time_in_force := None; OandaParse.filling_transaction_id := None; OandaParse.cancelling_transaction_id := None;
    OandaParse.create_time := None; OandaParse.filled_time := None; OandaParse.cancelled_time := None |} in
  (λ r, (atto (rep_quantity r), atto (rep_executed r))) <$>
    ok (let? f := OandaParse.parse_fill ReportSample.oanda_fill in OandaParse.into_report order (Some f) None None)
  = Some (0, 100 * ONE).
Proof. vm_compute. reflexivity. Qed.

(** A Kraken order that is still pending keeps that status whatever it has executed. *)
Example kraken_pending_fill :
  KrakenParse.derive_status "pending" (from_i64 10) (from_i64 4) = Ok OrderStatus.Pending ∧ has_fills OrderStatus.Pending = false.
Proof. vm_compute. done. Qed.

(** ** The transaction stream *)

Import OandaParse.

Definition ids (l : list TxnRecord) : list Z := txn_id <$> l.

Lemma interval_cons m n : 0 < n → seqZ m n = m :: seqZ (m + 1) (n - 1).
Proof. intros Hn. rewrite seqZ_cons by lia. f_equal; f_equal; lia. Qed.

Lemma succ_wrap a b : 0 ≤ a ≤ u64_max → 0 < b ≤ u64_max → b = wrap_u64 (a + 1) ↔ b = a + 1.
Proof.
  unfold wrap_u64. assert (u64_max = 18446744073709551615) as -> by reflexivity. intros Ha Hb.
  destruct (Z.eq_dec a 18446744073709551615) as [->|Hne]; [|by rewrite Z.mod_small by lia].
  replace ((18446744073709551615 + 1) mod 2 ^ 64) with 0 by reflexivity. lia.
Qed.

(** Ids without a gap are the interval from the first on. *)
Lemma no_gap_seq r l : Forall (λ i, 0 < i ≤ u64_max) (ids (r :: l)) →
  first_gap (r :: l) = None ↔ ids (r :: l) = seqZ (txn_id r) (Z.of_nat (length (r :: l))).
Proof.
  revert r. induction l as [|s l IH]; intros r Hf.
  { split; [|done]. intros _. unfold ids. simpl. rewrite interval_cons by lia. done. }
  unfold ids in *. rewrite !fmap_cons in *. inversion Hf as [|? ? Hr Hf']; subst. inversion Hf' as [|? ? Hs _]; subst.
  rewrite interval_cons by (simpl; lia). cbn [first_gap].
  replace (Z.of_nat (length (r :: s :: l)) - 1) with (Z.of_nat (length (s :: l))) by (simpl; lia).
  destruct (Z.eqb_spec (txn_id s) (wrap_u64 (txn_id r + 1))) as [He|Hne].
  - apply succ_wrap in He; [|lia|done]. rewrite <-He. rewrite (IH s Hf'). rewrite fmap_cons. split; [by intros ->|by intros [= Hx]; rewrite Hx].
  - split; [done|]. intros [= He]. exfalso. apply Hne, succ_wrap; [lia|done|].
    rewrite interval_cons in He by (simpl; lia). congruence.
Qed.

Lemma last_seq r l a n : ids (r :: l) = seqZ a n → txn_id <$> last (r :: l) = Some (a + n - 1).
Proof.
  intros He. rewrite <-(fmap_last txn_id). fold (ids (r :: l)). rewrite He. assert (0 < n) as Hn.
  { destruct (Z.lt_ge_cases 0 n); [done|]. by rewrite seqZ_nil in He by lia. }
  replace n with ((n - 1) + 1) at 1 by lia. rewrite seqZ_app by lia. rewrite last_app. rewrite interval_cons, seqZ_nil by lia.
  simpl. f_equal. lia.
Qed.

Lemma page_ids `{JsonFloat} root after p : 0 ≤ after → parse_transactions_page root after = Ok p →
  after_id p = after ∧ Forall (λ i, 0 < i ≤ u64_max) (ids (records p)).
Proof.
  intros Ha Hp. unfold parse_transactions_page in Hp. inv_ok. split; [done|]. simpl.
  match goal with H : try_map _ _ = Ok ?l |- _ => rename H into Hm end. rewrite try_map_ok in Hm.
  unfold ids. apply Forall_fmap. eapply Forall2_Forall_r; [exact Hm|]. apply Forall_forall. intros t _ r Hr.
  unfold parse_txn in Hr. inv_ok. destruct (_ <=? after) eqn:El; [done|]. inv_ok. simpl. apply Z.leb_gt in El.
  match goal with H : parse_u64 _ = Some _ |- _ => unfold parse_u64 in H end.
  repeat case_match; simplify_eq; lia.
Qed.

Lemma complete_spec p : 0 ≤ after_id p ≤ u64_max → Forall (λ i, 0 < i ≤ u64_max) (ids (records p)) →
  completeness p = Ok tt ↔
    after_id p ≤ page_last_transaction_id p ∧ ids (records p) = seqZ (after_id p + 1) (page_last_transaction_id p - after_id p).
Proof.
  destruct p as [after l last_id]. simpl. intros Ha Hf. unfold completeness. simpl. destruct l as [|r l].
  { cbn. destruct (Z.eqb_spec last_id after) as [->|Hne].
    - split; [|done]. intros _. split; [lia|]. by rewrite seqZ_nil by lia.
    - split; [done|]. intros [Hle He]. rewrite interval_cons in He by lia. done. }
  change (head (r :: l)) with (Some r). destruct (last (r :: l)) as [x|] eqn:El; [|by apply last_None in El]. cbv iota.
  assert (0 < txn_id r ≤ u64_max) as Hr by by inversion Hf.
  split.
  - destruct (Z.eqb_spec (txn_id r) (wrap_u64 (after + 1))) as [Hfirst|]; cbn [negb]; [|done]. apply succ_wrap in Hfirst; [|done|done].
    destruct (Z.eqb_spec (txn_id x) last_id) as [Hlast|]; cbn [negb]; [|done].
    destruct (first_gap (r :: l)) as [[a b]|] eqn:Eg; [done|]. intros _. apply no_gap_seq in Eg; [|done].
    pose proof (last_seq _ _ _ _ Eg) as Hx. rewrite El in Hx. cbn in Hx. injection Hx as Hx. rewrite Hfirst in Eg, Hx.
    split; [lia|]. rewrite Eg. f_equal. simpl length. lia.
  - intros [Hle He]. pose proof (last_seq _ _ _ _ He) as Hx. rewrite El in Hx. simpl in Hx. injection Hx as Hx.
    assert (0 < last_id - after) as Hpos.
    { destruct (Z.lt_ge_cases 0 (last_id - after)); [done|]. by rewrite seqZ_nil in He by lia. }
    pose proof He as He'. rewrite interval_cons in He' by lia. injection He' as Hfirst _.
    assert (first_gap (r :: l) = None) as Eg.
    { apply no_gap_seq; [done|]. pose proof (f_equal length He) as Hlen. unfold ids in Hlen.
      rewrite length_fmap, length_seqZ in Hlen. rewrite He, Hfirst, Hlen. f_equal. lia. }
    rewrite Eg. destruct (Z.eqb_spec (txn_id r) (wrap_u64 (after + 1))) as [|Hne].
    + simpl. replace (txn_id x =? last_id) with true; [done|]. symmetry. apply Z.eqb_eq. lia.
    + exfalso. apply Hne, succ_wrap; [done|done|lia].
Qed.

(** C26. A complete page is the whole story: of a page read from the broker's answer, [completeness] says [Ok] if and
    only if its transactions are exactly those numbered [after + 1 .. lastTransactionID], in order, none missing and
    none twice; so a tag that no record of a complete page carries belongs to no transaction since [after]. *)
Theorem complete_page_covers `{JsonFloat} root after p :
  0 ≤ after ≤ u64_max → parse_transactions_page root after = Ok p →
  completeness p = Ok tt ↔
    after ≤ page_last_transaction_id p ∧ ids (records p) = seqZ (after + 1) (page_last_transaction_id p - after).
Proof.
  intros Ha Hp. apply page_ids in Hp as [<- Hf]; [|lia]. by apply complete_spec.
Qed.

Definition sample_page : Json :=
  let txn id := JObj [("clientOrderID", JStr "rb1:x"); ("id", JStr id); ("type", JStr "ORDER_FILL")] in
  JObj [("lastTransactionID", JStr "12"); ("transactions", JArr [txn "11"; txn "12"])]%string.

Lemma complete_page_covers_witness :
  ∃ p, parse_transactions_page sample_page 10 = Ok p ∧ completeness p = Ok tt ∧ ids (records p) = [11; 12].
Proof.
  assert ((λ p, (completeness p, ids (records p))) <$> ok (parse_transactions_page sample_page 10) = Some (Ok tt, [11; 12])) as Hc
    by (vm_compute; reflexivity).
  destruct (ok (parse_transactions_page sample_page 10)) as [p|] eqn:E; [|done]. apply ok_some in E. exists p.
  injection Hc as Hc _. split; [done|]. split; [done|].
  destruct (complete_page_covers sample_page 10 p) as [Hok _]; [by vm_compute|done|]. destruct (Hok Hc) as [_ ->].
  assert (page_last_transaction_id <$> ok (parse_transactions_page sample_page 10) = Some 12) as Hl by (vm_compute; reflexivity).
  rewrite E in Hl. injection Hl as ->. reflexivity.
Defined.
