(* ===== verification/Venue.v ===== *)
(** * Venue: crates/rebalancer-core/src/venue.rs

    What a venue promises the planner ([VenueRules], with its law), the three implementations on the adapters' own
    [prepare_order], the per-instrument facts of a signed plan and the rule book. *)

From Stdlib Require Import ZArith Lia String Ascii.
From S2P Require Import Prelude Text BTree Decimal DecMath Policy Broker Kraken Alpaca Oanda.

Local Open Scope Z_scope.

(** ** The trait *)

Module SizeRefusal.
Inductive t :=
| UnknownInstrument (s : string)
| NotTradable (s : string)
| RoundsToZero
| BelowMinQuantity (min : Dec)
| BelowMinCost (min : Dec)
| Other (s : string).

Definition display (r : t) : string :=
  match r with
  | UnknownInstrument s => "venue has no rules for " +:+ s
  | NotTradable s => "not tradable: " +:+ s
  | RoundsToZero => "quantity rounds down to zero at the venue's precision"
  | BelowMinQuantity m => "below the venue minimum quantity " +:+ to_string m
  | BelowMinCost m => "below the venue minimum order value " +:+ to_string m
  | Other s => s
  end.
End SizeRefusal.
Abbreviation SizeRefusal := SizeRefusal.t.

(** [&dyn VenueRules]: the operations of one venue. *)
Record VenueRules := {
  round_quantity : string → Side → Dec → Dec → result SizeRefusal Dec;
  fingerprint : string → string;
}.

(** The trait's contract: a size for a positive wish is positive and never larger than it. The planner does not rely
    on it: it re-checks every size it is given. *)
Class VenueLaw (v : VenueRules) : Prop :=
  never_larger sym side q price r : dec_ok q → dec_ok price →
    round_quantity v sym side q price = Ok r → dec_ok r ∧ 0 < atto r ≤ atto q.

Definition map_error (symbol : string) (e : BrokerError) : SizeRefusal :=
  match e with
  | BrokerError.QuantityRoundsToZero _ _ _ => SizeRefusal.RoundsToZero
  | BrokerError.BelowMinQuantity _ min _ => SizeRefusal.BelowMinQuantity min
  | BrokerError.BelowMinCost _ min _ => SizeRefusal.BelowMinCost min
  | BrokerError.PairNotTradable _ status => SizeRefusal.NotTradable status
  | BrokerError.UnknownSymbol _ => SizeRefusal.UnknownInstrument symbol
  | other => SizeRefusal.Other (BrokerError.display other)
  end.

(** ** The implementations *)

Definition kraken_round (pairs : Kraken.PairTable) (symbol : string) (side : Side) (quantity price : Dec)
    : result SizeRefusal Dec :=
  match Kraken.lookup pairs symbol with
  | None => Err (SizeRefusal.UnknownInstrument symbol)
  | Some info =>
      let req := req_with_reference (req_market "rb1:size-probe" symbol side quantity) price in
      map_err (map_error symbol)
        (let? p := Kraken.prepare_order req info 1 Kraken.default_options in Ok (Kraken.p_volume p))
  end.

Definition KrakenRules (pairs : Kraken.PairTable) : VenueRules := {|
  round_quantity := kraken_round pairs;
  fingerprint symbol :=
    "kraken:" +:+ symbol +:+ ":" +:+ debug_option Kraken.pair_debug (Kraken.lookup pairs symbol);
|}.

Definition alpaca_round (assets : Alpaca.AssetTable) (opts : Alpaca.PrepareOptions) (symbol : string) (side : Side)
    (quantity price : Dec) : result SizeRefusal Dec :=
  match Alpaca.lookup assets symbol with
  | None => Err (SizeRefusal.UnknownInstrument symbol)
  | Some asset =>
      let prefix := default EmptyString (Alpaca.own_tag_prefix opts) in
      let req := req_with_reference (req_market (prefix +:+ "size-probe") symbol side quantity) price in
      map_err (map_error symbol)
        (let? p := Alpaca.prepare_order req asset opts in Ok (Alpaca.p_quantity p))
  end.

Definition AlpacaRules (assets : Alpaca.AssetTable) (opts : Alpaca.PrepareOptions) : VenueRules := {|
  round_quantity := alpaca_round assets opts;
  fingerprint symbol :=
    "alpaca:" +:+ symbol +:+ ":" +:+ debug_option Alpaca.asset_debug (Alpaca.lookup assets symbol) +:+
    ":min_notional=" +:+ to_string (Alpaca.min_notional opts);
|}.

Definition oanda_round (instruments : Oanda.InstrumentTable) (opts : Oanda.PrepareOptions) (symbol : string)
    (side : Side) (quantity _price : Dec) : result SizeRefusal Dec :=
  match Oanda.lookup instruments symbol with
  | None => Err (SizeRefusal.UnknownInstrument symbol)
  | Some info =>
      let prefix := default EmptyString (Oanda.own_tag_prefix opts) in
      let req := req_market (prefix +:+ "size-probe") symbol side quantity in
      map_err (map_error symbol)
        (let? p := Oanda.prepare_order req info opts in Ok (Oanda.p_quantity p))
  end.

Definition OandaRules (instruments : Oanda.InstrumentTable) (opts : Oanda.PrepareOptions) : VenueRules := {|
  round_quantity := oanda_round instruments opts;
  fingerprint symbol :=
    let canonical := match Oanda.canonical_symbol symbol with Ok c => c | Err _ => symbol end in
    "oanda:" +:+ canonical +:+ ":" +:+ debug_option Oanda.instrument_debug (Oanda.lookup instruments symbol);
|}.

(** ** Facts of a signed plan *)

Inductive ShortPolicy :=
| Forbidden (reason : string)
| Allowed
| NeedsLocate.

Record InstrumentVenueRule := {
  short : ShortPolicy;
  max_leverage : option Dec;
  max_position_units : option Dec;
}.

Definition with_short (s : ShortPolicy) : InstrumentVenueRule :=
  {| short := s; max_leverage := None; max_position_units := None |}.
Definition shortable : InstrumentVenueRule := with_short Allowed.
Definition never_shortable (reason : string) : InstrumentVenueRule := with_short (Forbidden reason).
Definition short_needs_locate : InstrumentVenueRule := with_short NeedsLocate.
Definition with_max_leverage (r : InstrumentVenueRule) (max : Dec) : InstrumentVenueRule :=
  {| short := short r; max_leverage := Some max; max_position_units := max_position_units r |}.
Definition with_max_position_units (r : InstrumentVenueRule) (max : Dec) : InstrumentVenueRule :=
  {| short := short r; max_leverage := max_leverage r; max_position_units := Some max |}.

Definition rule_fingerprint (r : InstrumentVenueRule) : string :=
  let short :=
    match short r with
    | Forbidden reason => "forbidden(" +:+ reason +:+ ")"
    | Allowed => "allowed"
    | NeedsLocate => "needs_locate"
    end in
  "short=" +:+ short +:+ "|max_leverage=" +:+ show_opt_dec (max_leverage r) +:+
  "|max_position_units=" +:+ show_opt_dec (max_position_units r).

Record InstrumentRules := {
  rules : BTreeMap (string * string) InstrumentVenueRule;
  locates : BTreeSet (string * string);
}.

Definition no_instrument_rules : InstrumentRules := {| rules := []; locates := [] |}.

Definition rule_key (venue symbol : string) : string * string := (to_lowercase (trim venue), to_uppercase (trim symbol)).

Definition with_rule (i : InstrumentRules) (venue symbol : string) (r : InstrumentVenueRule) : InstrumentRules :=
  {| rules := bt_insert (rule_key venue symbol) r (rules i); locates := locates i |}.
Definition with_locate (i : InstrumentRules) (venue symbol : string) : InstrumentRules :=
  {| rules := rules i; locates := bs_insert (rule_key venue symbol) (locates i) |}.
Definition rule (i : InstrumentRules) (venue symbol : string) : option InstrumentVenueRule :=
  bt_get (rules i) (rule_key venue symbol).
Definition has_locate (i : InstrumentRules) (venue symbol : string) : bool :=
  bs_contains (locates i) (rule_key venue symbol).
Definition instrument_fingerprint (i : InstrumentRules) (venue symbol : string) : string :=
  (match rule i venue symbol with Some r => rule_fingerprint r | None => "absent" end) +:+
  "|locate=" +:+ show_bool (has_locate i venue symbol).

(** ** The rule book *)

Record VenueRuleBook := {
  by_venue : BTreeMap string VenueRules;
  instrument_rules : InstrumentRules;
}.

Definition empty_book : VenueRuleBook := {| by_venue := []; instrument_rules := no_instrument_rules |}.
Definition book_with (b : VenueRuleBook) (venue : string) (v : VenueRules) : VenueRuleBook :=
  {| by_venue := bt_insert (to_lowercase (trim venue)) v (by_venue b); instrument_rules := instrument_rules b |}.
Definition book_get (b : VenueRuleBook) (venue : string) : option VenueRules :=
  bt_get (by_venue b) (to_lowercase (trim venue)).
Definition with_instrument_rules (b : VenueRuleBook) (i : InstrumentRules) : VenueRuleBook :=
  {| by_venue := by_venue b; instrument_rules := i |}.

(** Every venue of the book keeps the law. *)
Definition book_ok (book : VenueRuleBook) : Prop := ∀ v r, book_get book v = Some r → VenueLaw r.

(** ** The adapters keep the venue law *)

Definition pairs_ok (t : Kraken.PairTable) : Prop := Forall Kraken.pair_ok t.
Definition assets_ok (t : Alpaca.AssetTable) : Prop := ∀ s a, bt_get t s = Some a → Alpaca.asset_ok a.
Definition instruments_ok (t : Oanda.InstrumentTable) : Prop := ∀ s i, bt_get t s = Some i → Oanda.instrument_ok i.

Lemma kraken_law pairs : pairs_ok pairs → VenueLaw (KrakenRules pairs).
Proof.
  intros Hp sym side q price r Hq Hpr H. simpl in H. unfold kraken_round in H.
  destruct (Kraken.lookup pairs sym) as [info|] eqn:El; [|done]. apply map_err_ok, bind_ok in H as (p & H & [= <-]).
  assert (Kraken.pair_ok info) as Hpair.
  { apply List.find_some in El as [Hin _]. apply list_elem_of_In in Hin.
    unfold pairs_ok in Hp. rewrite Forall_forall in Hp. by apply Hp. }
  unfold Kraken.prepare_order in H. apply bind_ok in H as ([] & Hreq & H). apply bind_ok in H as (v & Hvol & H).
  apply bind_ok in H as (o & _ & H). apply bind_ok in H as (sk & _ & [= <-]). simpl.
  unfold Kraken.check_request in Hreq.
  destruct (negb (match Kraken.status info with Some s => _ | None => true end)); [done|]. simpl in Hreq.
  destruct (is_positive q) eqn:Eq; [|done]. apply Z.ltb_lt in Eq.
  apply Kraken.prepare_volume_ok in Hvol as (Hv & _ & Hnz & Hmin & Hle); [|done|exact Hq|exact Eq].
  pose proof (Kraken.po_min_nonneg info Hpair). simpl in *. split; [done|lia].
Qed.

Lemma alpaca_law assets opts : assets_ok assets → VenueLaw (AlpacaRules assets opts).
Proof.
  intros Ha sym side q price r Hq Hpr H. simpl in H. unfold alpaca_round in H.
  destruct (Alpaca.lookup assets sym) as [asset|] eqn:El; [|done]. apply map_err_ok, bind_ok in H as (p & H & [= <-]).
  unfold Alpaca.prepare_order in H. apply bind_ok in H as (s & Hreq & H). apply bind_ok in H as (v & Hvol & H).
  apply bind_ok in H as (wh & _ & H). apply bind_ok in H as (tif & _ & H).
  destruct (negb (dec_eqb v wh) && _ && _); [done|]. apply bind_ok in H as (o & _ & H).
  apply bind_ok in H as (sk & _ & [= <-]). simpl.
  apply Alpaca.check_request_ok in Hreq as (_ & _ & Hpos & _).
  destruct (Alpaca.round_quantity_ok asset q v (Ha _ _ El) Hq Hpos Hvol) as (Hv & Hle & _). done.
Qed.

Lemma oanda_law instruments opts : instruments_ok instruments → VenueLaw (OandaRules instruments opts).
Proof.
  intros Hi sym side q price r Hq Hpr H. simpl in H. unfold oanda_round in H.
  destruct (Oanda.lookup instruments sym) as [info|] eqn:El; [|done]. apply map_err_ok, bind_ok in H as (p & H & [= <-]).
  assert (Oanda.instrument_ok info) as Hinfo.
  { unfold Oanda.lookup in El. destruct (Oanda.normalize_instrument sym); [|done]. by eapply Hi. }
  unfold Oanda.prepare_order in H. apply bind_ok in H as ([inst s] & Hreq & H). apply bind_ok in H as (v & Hvol & H).
  apply bind_ok in H as (u & _ & H). apply bind_ok in H as (tif & _ & H). apply bind_ok in H as (o & _ & [= <-]). simpl.
  unfold Oanda.check_request in Hreq. apply bind_ok in Hreq as (n & _ & Hreq).
  destruct (negb (String.eqb n (Oanda.name info))); [done|]. simpl in Hreq.
  destruct (is_positive q) eqn:Eq; [|done]. apply Z.ltb_lt in Eq.
  apply Oanda.prepare_quantity_ok in Hvol as (Hv & _ & Hle & _); [|done|exact Hq|exact Eq]. done.
Qed.

(** ** Properties *)

(** Sizes are always rounded down or refused: with well-formed tables, every quantity any of the three venues
    returns for a wish is positive and never larger than the wish, whatever the symbol, side and price. *)
Theorem venue_never_rounds_up pairs assets aopts instruments oopts sym side q price r :
  pairs_ok pairs → assets_ok assets → instruments_ok instruments → dec_ok q → dec_ok price →
  round_quantity (KrakenRules pairs) sym side q price = Ok r ∨
  round_quantity (AlpacaRules assets aopts) sym side q price = Ok r ∨
  round_quantity (OandaRules instruments oopts) sym side q price = Ok r →
  0 < atto r ≤ atto q.
Proof.
  intros Hp Ha Hi Hq Hpr [H|[H|H]].
  - by apply (kraken_law pairs Hp sym side q price r Hq Hpr).
  - by apply (alpaca_law assets aopts Ha sym side q price r Hq Hpr).
  - by apply (oanda_law instruments oopts Hi sym side q price r Hq Hpr).
Qed.

Lemma builtin_pairs_ok : pairs_ok Kraken.builtin.
Proof.
  unfold pairs_ok, Kraken.builtin. rewrite !Forall_cons.
  split; [|split; [|constructor]]; apply Kraken.pair_okb_spec; vm_compute; reflexivity.
Qed.

Lemma venue_never_rounds_up_witness :
  ∃ r, round_quantity (KrakenRules Kraken.builtin) "xbt/usd" Buy (Kraken.lit "0.0123456789") (Kraken.lit "60000") = Ok r ∧
    0 < atto r ≤ atto (Kraken.lit "0.0123456789").
Proof.
  eexists. split; [vm_compute; reflexivity|].
  apply (venue_never_rounds_up Kraken.builtin [] {| Alpaca.allow_extended_hours := false; Alpaca.min_notional := ZERO;
    Alpaca.own_tag_prefix := None; Alpaca.refuse_builtin_assets := false; Alpaca.allow_crypto := false |}
    [] Oanda.default_options "xbt/usd" Buy (Kraken.lit "0.0123456789") (Kraken.lit "60000")).
  - exact builtin_pairs_ok.
  - intros ? ? [=].
  - intros ? ? [=].
  - apply dec_okb_spec. vm_compute. reflexivity.
  - apply dec_okb_spec. vm_compute. reflexivity.
  - left. vm_compute. reflexivity.
Defined.
