(* ===== verification/Guard.v ===== *)
(** * Guard: crates/rebalancer-core/src/guard.rs

    The pre-trade guard: a pure function from (policy, account, order, day counters) to the list of every denial that
    applies. [check_inner] pushes denials on a vector, returns early and propagates arithmetic errors with [?]; the
    model is a writer of denials with those two ways of stopping ([guard], [let!]). *)

From Stdlib Require Import ZArith Lia String Ascii.
From S2P Require Import Prelude Text BTree Externals Decimal DecMath Policy Broker Venue.

Local Open Scope Z_scope.

(** ** Denials *)

Inductive DenialCode :=
| MandateInvalid | MandateNotActive | MandateExpired | AccountHalted | OrderInvalid | EquityInvalid | CurrencyMismatch
| PriceMissing | PriceStale | InstrumentDenied | InstrumentNotAllowed | VenueNotAllowed | AssetClassNotAllowed
| ShortingForbidden | DerivativesForbidden | LeverageForbidden | MaxOrderNotional | MaxPosition | MaxAssetClass
| MaxGross | MaxNet | MaxOrdersPerDay | MaxTurnoverPerDay | CashReserve | ArithmeticOverflow.

#[export] Instance denial_code_eq_dec : EqDecision DenialCode.
Proof. solve_decision. Defined.

Definition DenialCode_ALL : list DenialCode :=
  [MandateInvalid; MandateNotActive; MandateExpired; AccountHalted; OrderInvalid; EquityInvalid; CurrencyMismatch;
   PriceMissing; PriceStale; InstrumentDenied; InstrumentNotAllowed; VenueNotAllowed; AssetClassNotAllowed;
   ShortingForbidden; DerivativesForbidden; LeverageForbidden; MaxOrderNotional; MaxPosition; MaxAssetClass;
   MaxGross; MaxNet; MaxOrdersPerDay; MaxTurnoverPerDay; CashReserve; ArithmeticOverflow].

Definition code_str (c : DenialCode) : string :=
  match c with
  | MandateInvalid => "MANDATE_INVALID"
  | MandateNotActive => "MANDATE_NOT_ACTIVE"
  | MandateExpired => "MANDATE_EXPIRED"
  | AccountHalted => "ACCOUNT_HALTED"
  | OrderInvalid => "ORDER_INVALID"
  | EquityInvalid => "EQUITY_INVALID"
  | CurrencyMismatch => "CURRENCY_MISMATCH"
  | PriceMissing => "PRICE_MISSING"
  | PriceStale => "PRICE_STALE"
  | InstrumentDenied => "INSTRUMENT_DENIED"
  | InstrumentNotAllowed => "INSTRUMENT_NOT_ALLOWED"
  | VenueNotAllowed => "VENUE_NOT_ALLOWED"
  | AssetClassNotAllowed => "ASSET_CLASS_NOT_ALLOWED"
  | ShortingForbidden => "SHORTING_FORBIDDEN"
  | DerivativesForbidden => "DERIVATIVES_FORBIDDEN"
  | LeverageForbidden => "LEVERAGE_FORBIDDEN"
  | MaxOrderNotional => "MAX_ORDER_NOTIONAL"
  | MaxPosition => "MAX_POSITION"
  | MaxAssetClass => "MAX_ASSET_CLASS"
  | MaxGross => "MAX_GROSS"
  | MaxNet => "MAX_NET"
  | MaxOrdersPerDay => "MAX_ORDERS_PER_DAY"
  | MaxTurnoverPerDay => "MAX_TURNOVER_PER_DAY"
  | CashReserve => "CASH_RESERVE"
  | ArithmeticOverflow => "ARITHMETIC_OVERFLOW"
  end.

Record Denial := { d_code : DenialCode; d_message : string }.

Record Verdict := { allow : bool; reasons : list Denial }.

Definition codes (v : Verdict) : list DenialCode := d_code <$> reasons v.
Definition has (v : Verdict) (c : DenialCode) : bool := existsb (fun r => bool_decide (d_code r = c)) (reasons v).

(** ** The control flow of [check_inner] *)

Inductive ctl (A : Type) :=
| Next (a : A)
| Return
| Fail (e : MathError).
Arguments Next {A} a.
Arguments Return {A}.
Arguments Fail {A} e.

Definition guard (A : Type) : Type := list Denial * ctl A.

Definition gret {A} (a : A) : guard A := ([], Next a).
Definition gbind {A B} (m : guard A) (k : A → guard B) : guard B :=
  match m with
  | (l, Next a) => let '(l', c) := k a in (l ++ l', c)
  | (l, Return) => (l, Return)
  | (l, Fail e) => (l, Fail e)
  end.
Notation "'let!' x := m 'in' k" := (gbind m (fun x => k)) (at level 10, x pattern, k at level 200) : rust_scope.
Definition lift {A} (m : math A) : guard A :=
  match m with Ok a => ([], Next a) | Err e => ([], Fail e) end.
Definition deny (c : DenialCode) (msg : string) : guard unit := ([{| d_code := c; d_message := msg |}], Next tt).
Definition deny_return {A} (c : DenialCode) (msg : string) : guard A :=
  ([{| d_code := c; d_message := msg |}], Return).
Definition gwhen (b : bool) (m : guard unit) : guard unit := if b then m else gret tt.

(** ** The account and the order *)

Record Position := {
  pos_symbol : string;
  pos_venue : string;
  pos_asset_class : string;
  pos_quantity : Dec;
  market_value : Dec;
}.

Section types.
Context `{Chrono}.

Record AccountView := {
  account_id : string;
  acc_ccy : string;
  equity : Dec;
  cash : Dec;
  positions : list Position;
  halted : bool;
  now : DateTime;
}.

Record PricePoint := { price : Dec; as_of : DateTime }.

Record ProposedOrder := {
  o_venue : string;
  o_asset_class : string;
  o_symbol : string;
  o_side : Side;
  o_quantity : Dec;
  o_price : option PricePoint;
  o_est_fee : Dec;
  o_uses_margin : bool;
  o_is_derivative : bool;
  o_loss_rung_cover : bool;
}.
End types.

Record DayCounters := { orders_today : Z; turnover_today : Dec }.
Definition no_orders_today : DayCounters := {| orders_today := 0; turnover_today := ZERO |}.

Record MarginContext := { buying_power_left : option Dec }.

Record After := {
  position_value : Dec;
  gross : Dec;
  net : Dec;
  class_gross : Dec;
  after_cash : Dec;
}.

Definition one : Dec := from_i64 1.

Section check.
Context `{Chrono}.

Definition position (a : AccountView) (symbol : string) : option Position :=
  List.find (fun p => eq_ignore_ascii_case (pos_symbol p) symbol) (positions a).

Definition held (a : AccountView) (symbol : string) : Dec :=
  match position a symbol with Some p => pos_quantity p | None => ZERO end.

(** One turn of the loop over the positions: (position value, gross, net and class gross of the others). *)
Definition after_step (order : ProposedOrder) (class : string) (acc : Dec * Dec * Dec * Dec) (p : Position)
    : math (Dec * Dec * Dec * Dec) :=
  let '(pv, og, onet, ocg) := acc in
  if eq_ignore_ascii_case (pos_symbol p) (trim (o_symbol order)) then
    let? pv := add pv (market_value p) in Ok (pv, og, onet, ocg)
  else
    let? a := abs (market_value p) in
    let? og := add og a in
    let? onet := add onet (market_value p) in
    let? ocg := if eq_ignore_ascii_case (trim (pos_asset_class p)) class then add ocg a else Ok ocg in
    Ok (pv, og, onet, ocg).

Definition after_state (account : AccountView) (order : ProposedOrder) (notional : Dec) (class : string) : math After :=
  let? signed := match o_side order with Buy => Ok notional | Sell => neg notional end in
  let? (pv, og, onet, ocg) := try_fold (after_step order class) (signed, ZERO, ZERO, ZERO) (positions account) in
  let? pv_abs := abs pv in
  let? gross := add og pv_abs in
  let? net := add onet pv in
  let? class_gross := add ocg pv_abs in
  let? c := sub (cash account) signed in
  let? c := sub c (o_est_fee order) in
  Ok {| position_value := pv_abs; gross := gross; net := net; class_gross := class_gross; after_cash := c |}.

Definition order_class (order : ProposedOrder) : string := to_lowercase (trim (o_asset_class order)).

(** A sell up to the long held, or a buy up to the short held. *)
Definition is_reducing (account : AccountView) (order : ProposedOrder) : math bool :=
  let pos_qty := held account (o_symbol order) in
  match o_side order with
  | Sell => Ok (is_positive pos_qty && dec_leb (o_quantity order) pos_qty)
  | Buy => if is_negative pos_qty then let? n := neg pos_qty in Ok (dec_leb (o_quantity order) n) else Ok false
  end.

Definition margin_use (account : AccountView) (order : ProposedOrder) (price : Dec) : math bool :=
  let pos_qty := held account (o_symbol order) in
  let? signed_qty := match o_side order with Sell => neg (o_quantity order) | Buy => Ok (o_quantity order) end in
  let? reducing := is_reducing account order in
  if reducing : bool then Ok false
  else
    let? notional := mul (o_quantity order) price in
    let? after := after_state account order notional (order_class order) in
    let? q := add pos_qty signed_qty in
    Ok (is_negative q || dec_ltb (equity account) (gross after) || is_negative (after_cash after)).

Definition venue_short_block (instruments : InstrumentRules) (r : option InstrumentVenueRule) (order : ProposedOrder)
    : option string :=
  let sym := to_uppercase (trim (o_symbol order)) in
  match r with
  | None =>
      Some ("no venue rule is known for " +:+ to_lowercase (trim (o_venue order)) +:+ "/" +:+ sym +:+
            ", so whether it can be shorted is unknown and the short is refused")
  | Some r =>
      match short r with
      | Allowed => None
      | Forbidden reason => Some ("the venue does not allow shorting " +:+ sym +:+ ": " +:+ reason)
      | NeedsLocate =>
          if has_locate instruments (o_venue order) (o_symbol order) then None
          else Some ("shorting " +:+ sym +:+ " needs a borrow locate and none was supplied")
      end
  end.

Definition rule_leverage (r : option InstrumentVenueRule) : option Dec := let* r := r in max_leverage r.

Definition effective_gross_cap (l : Limits) (r : option InstrumentVenueRule) : Dec :=
  let cap := dec_min (l_leverage_max_gross l) (l_max_gross l) in
  match rule_leverage r with Some v => dec_min cap v | None => cap end.

Definition increasing_notional (account : AccountView) (order : ProposedOrder) (price : Dec) : math Dec :=
  let pos_qty := held account (o_symbol order) in
  let? closing :=
    match o_side order with
    | Sell => Ok (if is_positive pos_qty then dec_min (o_quantity order) pos_qty else ZERO)
    | Buy => if is_negative pos_qty then let? n := neg pos_qty in Ok (dec_min (o_quantity order) n) else Ok ZERO
    end in
  let? q := sub (o_quantity order) closing in
  mul q price.

(** ** The stages of [check_inner] *)

(** 1. Is there a usable mandate at all? *)
Definition usable_limits (policy : Policy) (st : Standing.t) : guard Limits :=
  match st with
  | Standing.Invalid =>
      let why := match body policy with Invalid r => join "; " r | Valid _ => EmptyString end in
      deny_return MandateInvalid ("the mandate could not be compiled: " +:+ why)
  | Standing.NotActive why => deny_return MandateNotActive why
  | Standing.Active | Standing.Expired =>
      match limits policy with
      | Some l => gret l
      | None => deny_return MandateInvalid "no compiled limits"
      end
  end.

(** 2. Is the order itself well formed, and is the account readable? *)
Definition readable (l : Limits) (account : AccountView) (order : ProposedOrder) : guard unit :=
  if negb (is_positive (o_quantity order)) || is_negative (o_est_fee order) || is_empty (trim (o_symbol order)) then
    deny_return OrderInvalid "quantity must be positive, fee non-negative and symbol non-empty"
  else if negb (is_positive (equity account)) then
    deny_return EquityInvalid ("account equity " +:+ to_string (equity account) +:+ " is not positive")
  else if negb (eq_ignore_ascii_case (trim (acc_ccy account)) (l_ccy l)) then
    deny_return CurrencyMismatch
      ("account currency " +:+ acc_ccy account +:+ " differs from the mandate currency " +:+ l_ccy l)
  else gret tt.

(** 4. Account / mandate state. *)
Definition check_state (account : AccountView) (expired reducing : bool) : guard unit :=
  let! _ := gwhen (halted account && negb reducing)
    (deny AccountHalted "the account is halted: only reducing orders are allowed") in
  gwhen (expired && negb reducing)
    (deny MandateExpired "the mandate is past its review date: only reducing orders are allowed").

(** 5. The usable price, or why there is none. *)
Definition check_price (policy : Policy) (account : AccountView) (order : ProposedOrder) : guard (option Dec) :=
  let none c msg := let! _ := deny c msg in gret None in
  match o_price order with
  | None => none PriceMissing ("no price for " +:+ o_symbol order)
  | Some p =>
      if negb (is_positive (price p)) then
        none PriceMissing ("price " +:+ to_string (price p) +:+ " for " +:+ o_symbol order +:+ " is not positive")
      else
        let age_ms := num_milliseconds (signed_duration_since (now account) (as_of p)) in
        if age_ms <? - i64_saturating_mul MAX_FUTURE_SKEW_SECS 1000 then
          none PriceStale ("price for " +:+ o_symbol order +:+ " is stamped in the future (" +:+ dt_display (as_of p) +:+ ")")
        else if i64_saturating_mul (max_price_age_secs policy) 1000 <? age_ms then
          none PriceStale ("price for " +:+ o_symbol order +:+ " is " +:+ show_int (Z.quot age_ms 1000) +:+
            " s old; the limit is " +:+ show_int (max_price_age_secs policy) +:+ " s")
        else gret (Some (price p))
  end.

(** 6. Universe. *)
Definition check_universe (l : Limits) (order : ProposedOrder) : guard unit :=
  let sym := to_uppercase (trim (o_symbol order)) in
  let! _ :=
    if bs_contains (l_instrument_deny l) sym then deny InstrumentDenied (sym +:+ " is on the deny list")
    else gwhen (negb (bs_contains (l_instrument_allow l) sym))
           (deny InstrumentNotAllowed (sym +:+ " is not on the allow list")) in
  let venue := to_lowercase (trim (o_venue order)) in
  let! _ := gwhen (negb (bs_contains (l_venues l) venue))
    (deny VenueNotAllowed ("venue " +:+ venue +:+ " is not allowed")) in
  let class := order_class order in
  gwhen (negb (bs_contains (l_asset_classes l) class))
    (deny AssetClassNotAllowed ("asset class " +:+ class +:+ " is not allowed")).

(** 7a. Shorting. *)
Definition check_shorting (l : Limits) (account : AccountView) (order : ProposedOrder)
    (instruments : option InstrumentRules) (r : option InstrumentVenueRule) : guard unit :=
  let pos_qty := held account (o_symbol order) in
  let held_long := if is_positive pos_qty then pos_qty else ZERO in
  let opens_short := bool_decide (o_side order = Sell) && dec_ltb held_long (o_quantity order) in
  let mandate_blocks := opens_short && negb (l_shorting l) in
  let venue_blocks :=
    match instruments with
    | Some i => if opens_short then venue_short_block i r order else None
    | None => None
    end in
  gwhen (mandate_blocks || bool_decide (is_Some venue_blocks))
    (deny ShortingForbidden (join "; "
       ((if mandate_blocks then
           ["selling " +:+ to_string (o_quantity order) +:+ " " +:+ o_symbol order +:+ " would exceed the " +:+
            to_string held_long +:+ " held and shorting is off"]
         else []) ++
        (match venue_blocks with Some v => [v] | None => [] end)))).

(** 7b. Leverage: a gross test on the signed path, the caller's flag on the long-only path. *)
Definition check_leverage (l : Limits) (account : AccountView) (order : ProposedOrder) (base : Dec) (reducing : bool)
    (signed : bool) (r : option InstrumentVenueRule) (price : option Dec) : guard unit :=
  match signed, price with
  | true, Some p =>
      if reducing then gret tt
      else
        let! notional := lift (mul (o_quantity order) p) in
        let! after := lift (after_state account order notional (order_class order)) in
        let mult := effective_gross_cap l r in
        let! cap := lift (mul mult base) in
        gwhen (dec_ltb cap (gross after))
          (deny LeverageForbidden ("gross exposure would be " +:+ to_string (gross after) +:+
            " after the order; the effective gross cap is " +:+ to_string cap +:+ " (" +:+ to_string mult +:+
            "x the capital base: the lowest of mandate leverage " +:+ to_string (l_leverage_max_gross l) +:+
            ", mandate/deployment max gross " +:+ to_string (l_max_gross l) +:+ ", venue max leverage " +:+
            (match rule_leverage r with Some v => to_string v | None => "none given" end) +:+ ")"))
  | false, _ =>
      gwhen (o_uses_margin order && dec_leb (l_leverage_max_gross l) one)
        (deny LeverageForbidden "the order uses margin and the mandate allows no leverage")
  | true, None => gret tt
  end.

(** 8a. The caps of a non-reducing order. *)
Definition check_units (account : AccountView) (order : ProposedOrder) (r : option InstrumentVenueRule) : guard unit :=
  match (let* r := r in max_position_units r) with
  | None => gret tt
  | Some max_units =>
      let! signed_qty := lift (match o_side order with Buy => Ok (o_quantity order) | Sell => neg (o_quantity order) end) in
      let! q := lift (add (held account (o_symbol order)) signed_qty) in
      let! units_after := lift (abs q) in
      gwhen (dec_ltb max_units units_after)
        (deny MaxPosition (o_symbol order +:+ " would be " +:+ to_string units_after +:+
          " units after the order; the venue's maximum position size is " +:+ to_string max_units))
  end.

Definition check_class (l : Limits) (base : Dec) (class : string) (after : After) : guard unit :=
  match bt_get (l_max_asset_class l) class with
  | None => gret tt
  | Some class_cap =>
      let! cap := lift (mul class_cap base) in
      gwhen (dec_ltb cap (class_gross after))
        (deny MaxAssetClass ("asset class " +:+ class +:+ " would be " +:+ to_string (class_gross after) +:+
          " after the order; the cap is " +:+ to_string cap))
  end.

Definition check_caps (l : Limits) (account : AccountView) (order : ProposedOrder) (base : Dec)
    (r : option InstrumentVenueRule) (notional : Dec) (after : After) : guard unit :=
  let! _ := gwhen (dec_ltb (l_max_order_notional l) notional)
    (deny MaxOrderNotional ("order notional " +:+ to_string notional +:+ " is above the limit " +:+
       to_string (l_max_order_notional l))) in
  let! cap := lift (mul (l_max_position l) base) in
  let! _ := gwhen (dec_ltb cap (position_value after))
    (deny MaxPosition (o_symbol order +:+ " would be " +:+ to_string (position_value after) +:+
       " after the order; the cap is " +:+ to_string cap)) in
  let! _ := check_units account order r in
  let! _ := check_class l base (order_class order) after in
  let! cap := lift (mul (l_max_gross l) base) in
  let! _ := gwhen (dec_ltb cap (gross after))
    (deny MaxGross ("gross exposure would be " +:+ to_string (gross after) +:+ "; the cap is " +:+ to_string cap)) in
  let! cap := lift (mul (l_max_net l) base) in
  let! n := lift (abs (net after)) in
  gwhen (dec_ltb cap n)
    (deny MaxNet ("net exposure would be " +:+ to_string (net after) +:+ "; the cap is " +:+ to_string cap)).

(** 8b. Churn limits. *)
Definition check_churn (l : Limits) (day : DayCounters) (base notional : Dec) : guard unit :=
  let! _ := gwhen (l_max_orders_per_day l <? orders_today day + 1)
    (deny MaxOrdersPerDay (show_int (orders_today day) +:+ " orders already placed today; the limit is " +:+
       show_int (l_max_orders_per_day l))) in
  let! turnover_after := lift (add (turnover_today day) notional) in
  let! cap := lift (mul (l_max_turnover_per_day l) base) in
  gwhen (dec_ltb cap turnover_after)
    (deny MaxTurnoverPerDay ("today's turnover would be " +:+ to_string turnover_after +:+ "; the limit is " +:+
       to_string cap)).

(** 8c. Funding of a non-reducing order. *)
Definition check_funding (policy : Policy) (account : AccountView) (order : ProposedOrder) (base price : Dec)
    (margin : option MarginContext) (derived_margin : bool) (after : After) : guard unit :=
  let! reserve := lift (reserve_amount policy base) in
  let cash_test :=
    gwhen (dec_ltb (after_cash after) reserve)
      (deny CashReserve ("cash would be " +:+ to_string (after_cash after) +:+
         " after the order; the required reserve is " +:+ to_string reserve)) in
  match margin with
  | Some {| buying_power_left := Some bp |} =>
      let! increase := lift (increasing_notional account order price) in
      let! rest := lift (let? x := sub bp increase in sub x (o_est_fee order)) in
      gwhen (dec_ltb rest reserve)
        (deny CashReserve ("buying power would be " +:+ to_string rest +:+ " after the order (increasing " +:+
           to_string increase +:+ ", fee " +:+ to_string (o_est_fee order) +:+ "); the required reserve is " +:+
           to_string reserve))
  | Some {| buying_power_left := None |} =>
      if o_uses_margin order || derived_margin then
        deny CashReserve "the order needs margin and no buying power figure was supplied to check it against"
      else cash_test
  | None => cash_test
  end.

(** ** The whole check *)

Definition check_inner (policy : Policy) (account : AccountView) (order : ProposedOrder) (day : DayCounters)
    (signed : option (MarginContext * InstrumentRules)) : guard unit :=
  let margin := fst <$> signed in
  let instruments := snd <$> signed in
  let st := standing policy (now account) in
  let! l := usable_limits policy st in
  let! _ := readable l account order in
  let! reducing := lift (is_reducing account order) in
  let expired := bool_decide (st = Standing.Expired) in
  let! _ := check_state account expired reducing in
  let! price := check_price policy account order in
  let! _ := check_universe l order in
  let base := capital_base policy (equity account) (acc_ccy account) in
  let venue_rule := let* i := instruments in rule i (o_venue order) (o_symbol order) in
  let! _ := check_shorting l account order instruments venue_rule in
  let! _ := gwhen (o_is_derivative order && negb (l_derivatives l))
    (deny DerivativesForbidden "derivatives are not allowed by the mandate") in
  let! derived_margin :=
    match margin, price with
    | Some _, Some p => lift (margin_use account order p)
    | _, _ => gret false
    end in
  let! _ := check_leverage l account order base reducing (bool_decide (is_Some signed)) venue_rule price in
  match price with
  | None => ([], Return)
  | Some p =>
      let! notional := lift (mul (o_quantity order) p) in
      let! after := lift (after_state account order notional (order_class order)) in
      let! _ := if reducing then gret tt else check_caps l account order base venue_rule notional after in
      let required_cover := o_loss_rung_cover order && bool_decide (o_side order = Buy) && reducing in
      let! _ := gwhen (negb ((halted account || expired) && reducing) && negb required_cover)
        (check_churn l day base notional) in
      if reducing then gret tt else check_funding policy account order base p margin derived_margin after
  end.

Definition run (policy : Policy) (account : AccountView) (order : ProposedOrder) (day : DayCounters)
    (margin : option (MarginContext * InstrumentRules)) : Verdict :=
  let '(l, c) := check_inner policy account order day margin in
  let reasons :=
    match c with
    | Fail e => l ++ [{| d_code := ArithmeticOverflow; d_message := MathError.display e |}]
    | _ => l
    end in
  {| allow := match reasons with [] => true | _ => false end; reasons := reasons |}.

Definition check (policy : Policy) (account : AccountView) (order : ProposedOrder) (day : DayCounters) : Verdict :=
  run policy account order day None.

Definition check_signed (policy : Policy) (account : AccountView) (order : ProposedOrder) (day : DayCounters)
    (margin : MarginContext) (instruments : InstrumentRules) : Verdict :=
  run policy account order day (Some (margin, instruments)).

Definition check_margin (policy : Policy) (account : AccountView) (order : ProposedOrder) (day : DayCounters)
    (margin : MarginContext) : Verdict :=
  check_signed policy account order day margin no_instrument_rules.
End check.
