(* ===== verification/GuardFacts.v ===== *)
(** * GuardFacts: what the guard decides, in exact numbers

    The arithmetic of the guard read as integers (10^-18 units), the specification [permitted] of an order that may
    pass, and the refinement: [run] allows exactly the permitted orders, unless its arithmetic overflows. *)

From Stdlib Require Import ZArith Lia String Ascii.
From S2P Require Import Prelude Text BTree Externals Decimal DecMath Mandate Policy Broker Venue Guard.

Local Open Scope Z_scope.

(** ** The writer *)

Lemma gbind_pass {A B} (m : guard A) (k : A → guard B) b :
  gbind m k = ([], Next b) ↔ ∃ a, m = ([], Next a) ∧ k a = ([], Next b).
Proof.
  destruct m as [l [a| |e]]; simpl; [|naive_solver..]. destruct (k a) as [l' c] eqn:Ek. split.
  - intros [= [-> ->]%app_eq_nil ->]. by exists a.
  - intros (a' & [= -> ->] & Hk). rewrite Hk in Ek. by simplify_eq.
Qed.

Lemma lift_pass {A} (m : math A) a : lift m = ([], Next a) ↔ m = Ok a.
Proof. destruct m; simpl; naive_solver. Qed.

Lemma gwhen_pass b c msg u : gwhen b (deny c msg) = ([], Next u) ↔ b = false.
Proof. destruct b, u; simpl; naive_solver. Qed.

(** Nothing in the computation fails. *)
Definition nofail {A} (m : guard A) : Prop := ∀ e, m.2 ≠ Fail e.

Lemma nofail_bind {A B} (m : guard A) (k : A → guard B) :
  nofail (gbind m k) → nofail m ∧ ∀ l a, m = (l, Next a) → nofail (k a).
Proof.
  unfold nofail. destruct m as [l [a| |e]]; simpl; intros H; (split; [|intros ?? [=]; subst]); try naive_solver.
  destruct (k a0) as [l' c]. simpl in *. done.
Qed.

Lemma nofail_lift {A} (m : math A) : nofail (lift m) → ∃ a, m = Ok a.
Proof. unfold nofail. destruct m as [a|e]; simpl; [by exists a|]. intros H. by destruct (H e). Qed.

(** Opens one bind of a hypothesis that says a stage passed. *)
Ltac gpass_step :=
  match goal with
  | H : gbind _ _ = ([], Next _) |- _ => apply gbind_pass in H; destruct H as (? & ? & H)
  | H : lift _ = ([], Next _) |- _ => rewrite lift_pass in H
  | H : gwhen _ (deny _ _) = ([], Next _) |- _ => rewrite gwhen_pass in H
  | H : gret _ = ([], Next _) |- _ => injection H as H; try subst
  end.
Ltac gpass := repeat gpass_step.

(** A stage agrees with a condition: it passes only when the condition holds, and passes when it holds and the
    arithmetic of the stage does not fail. *)
Definition agrees (m : guard unit) (P : Prop) : Prop :=
  (m = ([], Next tt) → P) ∧ (nofail m → P → m = ([], Next tt)).

Lemma agrees_ret : agrees (gret tt) True.
Proof. by split. Qed.

Lemma agrees_iff m P Q : (P ↔ Q) → agrees m P → agrees m Q.
Proof. intros HPQ [HP HQ]. split; [intros Hm; by apply HPQ, HP|]. intros Hf Hq. apply HQ; [done|by apply HPQ]. Qed.

Lemma agrees_exact m P : (m = ([], Next tt) ↔ P) → agrees m P.
Proof. intros HP. split; [apply HP|]. intros _. apply HP. Qed.

Lemma agrees_when b c msg P : (b = false ↔ P) → agrees (gwhen b (deny c msg)) P.
Proof. intros HP. apply agrees_exact. by rewrite gwhen_pass. Qed.

Lemma agrees_bind (m k : guard unit) P Q : agrees m P → agrees k Q → agrees (let! _ := m in k) (P ∧ Q).
Proof.
  intros [HP HP'] [HQ HQ']. split.
  - intros ([] & Hm & Hk)%gbind_pass. split; [by apply HP|by apply HQ].
  - intros [Hfm Hfk]%nofail_bind [Hp Hq]. apply gbind_pass. exists tt. split; [by apply HP'|].
    apply HQ'; [|done]. eapply Hfk. by apply HP'.
Qed.

Lemma agrees_bind_when (b : bool) (m k : guard unit) (P Q : Prop) : (b = true → agrees m P) → agrees k Q →
  agrees (let! _ := gwhen b m in k) ((b = true → P) ∧ Q).
Proof.
  intros Hm Hk. apply agrees_bind; [|done]. destruct b; simpl; [eapply agrees_iff; [|by apply Hm]; naive_solver|].
  eapply agrees_iff; [|apply agrees_ret]. naive_solver.
Qed.

Lemma agrees_lift {A} (x : math A) (k : A → guard unit) P :
  (∀ a, x = Ok a → agrees (k a) P) → agrees (let! a := lift x in k a) P.
Proof.
  intros Hk. split.
  - intros (a & Ha%lift_pass & Hp)%gbind_pass. by apply (Hk a Ha).
  - intros [Hfx Hfk]%nofail_bind Hp. apply nofail_lift in Hfx as [a Ha]. apply gbind_pass. exists a.
    split; [by apply lift_pass|]. apply (Hk a Ha); [|done]. eapply Hfk. rewrite Ha. done.
Qed.

Lemma gbind_next {A B} (a : A) (k : A → guard B) : gbind ([], Next a) k = k a.
Proof. simpl. by destruct (k a). Qed.

(** Returning early without a denial: the check never does. *)
Definition honest {A} (m : guard A) : Prop := m ≠ ([], Return).

Lemma honest_bind {A B} (m : guard A) (k : A → guard B) :
  honest m → (∀ l a, m = (l, Next a) → honest (k a)) → honest (gbind m k).
Proof.
  unfold honest. destruct m as [l [a| |e]]; simpl; [|naive_solver..]. intros _ Hk Hb.
  specialize (Hk l a eq_refl). destruct (k a) as [l' c]. injection Hb as Hl Hc. apply app_eq_nil in Hl as [-> ->]. naive_solver.
Qed.

Lemma honest_lift {A} (m : math A) : honest (lift m).
Proof. by destruct m. Qed.

Lemma honest_when b c msg : honest (gwhen b (deny c msg)).
Proof. by destruct b. Qed.

(** ** Well-formed inputs *)

Section facts.
Context `{Chrono}.

Record account_ok (a : AccountView) : Prop := {
  ac_equity : dec_ok (equity a);
  ac_cash : dec_ok (cash a);
  ac_quantity : ∀ p, p ∈ positions a → dec_ok (pos_quantity p);
  ac_value : ∀ p, p ∈ positions a → dec_ok (market_value p);
}.

Record order_ok (o : ProposedOrder) : Prop := {
  or_quantity : dec_ok (o_quantity o);
  or_fee : dec_ok (o_est_fee o);
  or_price : ∀ pp, o_price o = Some pp → dec_ok (price pp);
}.

Definition day_ok (d : DayCounters) : Prop := dec_ok (turnover_today d).

Definition rule_ok (r : InstrumentVenueRule) : Prop :=
  (∀ d, max_leverage r = Some d → dec_ok d) ∧ (∀ d, max_position_units r = Some d → dec_ok d).

Definition signed_ok (s : option (MarginContext * InstrumentRules)) : Prop :=
  ∀ m i, s = Some (m, i) →
    (∀ bp, buying_power_left m = Some bp → dec_ok bp) ∧ (∀ v sym r, rule i v sym = Some r → rule_ok r).

Lemma held_ok a sym : account_ok a → dec_ok (held a sym).
Proof.
  intros Ha. unfold held, position. destruct (List.find _ _) as [p|] eqn:E; [|apply ZERO_ok].
  apply List.find_some in E as [Hin _]. apply list_elem_of_In in Hin. by apply (ac_quantity a Ha).
Qed.

(** ** Exposure, exactly *)

Definition same_symbol (o : ProposedOrder) (p : Position) : bool :=
  eq_ignore_ascii_case (pos_symbol p) (trim (o_symbol o)).
Definition same_class (class : string) (p : Position) : bool :=
  eq_ignore_ascii_case (trim (pos_asset_class p)) class.

Definition sum_of {A} (f : A → Z) (l : list A) : Z := foldr (λ x s, f x + s) 0 l.

Definition own_value (a : AccountView) (o : ProposedOrder) : Z :=
  sum_of (λ p, if same_symbol o p then atto (market_value p) else 0) (positions a).
Definition others_gross (a : AccountView) (o : ProposedOrder) : Z :=
  sum_of (λ p, if same_symbol o p then 0 else Z.abs (atto (market_value p))) (positions a).
Definition others_net (a : AccountView) (o : ProposedOrder) : Z :=
  sum_of (λ p, if same_symbol o p then 0 else atto (market_value p)) (positions a).
Definition others_class (a : AccountView) (o : ProposedOrder) (class : string) : Z :=
  sum_of (λ p, if same_symbol o p then 0 else if same_class class p then Z.abs (atto (market_value p)) else 0)
    (positions a).

Definition side_sign (s : Side) : Z := match s with Buy => 1 | Sell => -1 end.

(** The account after an order of exact value [n]: position value, gross, net, class gross and cash. *)
Definition x_position (a : AccountView) (o : ProposedOrder) (n : Z) : Z :=
  Z.abs (side_sign (o_side o) * n + own_value a o).
Definition x_gross (a : AccountView) (o : ProposedOrder) (n : Z) : Z := others_gross a o + x_position a o n.
Definition x_net (a : AccountView) (o : ProposedOrder) (n : Z) : Z :=
  others_net a o + (side_sign (o_side o) * n + own_value a o).
Definition x_class (a : AccountView) (o : ProposedOrder) (n : Z) : Z :=
  others_class a o (order_class o) + x_position a o n.
Definition x_cash (a : AccountView) (o : ProposedOrder) (n : Z) : Z :=
  atto (cash a) - side_sign (o_side o) * n - atto (o_est_fee o).

Lemma after_fold_exact o class ps pv og onet ocg r :
  Forall (λ p, dec_ok (market_value p)) ps → dec_ok pv → dec_ok og → dec_ok onet → dec_ok ocg →
  try_fold (after_step o class) (pv, og, onet, ocg) ps = Ok r →
  let '(pv', og', onet', ocg') := r in
  (dec_ok pv' ∧ dec_ok og' ∧ dec_ok onet' ∧ dec_ok ocg') ∧
  atto pv' = atto pv + sum_of (λ p, if same_symbol o p then atto (market_value p) else 0) ps ∧
  atto og' = atto og + sum_of (λ p, if same_symbol o p then 0 else Z.abs (atto (market_value p))) ps ∧
  atto onet' = atto onet + sum_of (λ p, if same_symbol o p then 0 else atto (market_value p)) ps ∧
  atto ocg' = atto ocg +
    sum_of (λ p, if same_symbol o p then 0 else if same_class class p then Z.abs (atto (market_value p)) else 0) ps.
Proof.
  intros Hps. revert pv og onet ocg. induction Hps as [|p ps Hp Hps IH]; intros pv og onet ocg Hpv Hog Hon Hoc Hf; simpl.
  - simpl in Hf. injection Hf as <-. split_and!; try done; simpl; lia.
  - cbn [try_fold] in Hf. apply bind_ok in Hf as (acc & Hstep & Hf). unfold after_step in Hstep.
    fold (same_symbol o p) in Hstep. destruct (same_symbol o p) eqn:Es.
    + apply bind_ok in Hstep as (pv1 & E1 & [= <-]). decs. apply IH in Hf; [|done..].
      destruct r as [[[pv' og'] onet'] ocg']. destruct Hf as (? & ? & ? & ? & ?). split_and!; try tauto; lia.
    + apply bind_ok in Hstep as (ab & E1 & Hstep). apply bind_ok in Hstep as (og1 & E2 & Hstep).
      apply bind_ok in Hstep as (on1 & E3 & Hstep). apply bind_ok in Hstep as (oc1 & E4 & [= <-]).
      fold (same_class class p) in E4. decs.
      assert (dec_ok oc1 ∧ atto oc1 = atto ocg + if same_class class p then Z.abs (atto (market_value p)) else 0) as [? ?].
      { destruct (same_class class p); [decs; split; [done|lia]|]. injection E4 as <-. split; [done|lia]. }
      apply IH in Hf; [|done..]. destruct r as [[[pv' og'] onet'] ocg']. destruct Hf as (? & ? & ? & ? & ?).
      split_and!; try tauto; lia.
Qed.

Record after_ok (f : After) : Prop := {
  af_position : dec_ok (position_value f);
  af_gross : dec_ok (gross f);
  af_net : dec_ok (net f);
  af_class : dec_ok (class_gross f);
  af_cash : dec_ok (after_cash f);
}.

Lemma after_state_exact a o n f : account_ok a → order_ok o → dec_ok n →
  after_state a o n (order_class o) = Ok f →
  after_ok f ∧ atto (position_value f) = x_position a o (atto n) ∧ atto (gross f) = x_gross a o (atto n) ∧
  atto (net f) = x_net a o (atto n) ∧ atto (class_gross f) = x_class a o (atto n) ∧
  atto (after_cash f) = x_cash a o (atto n).
Proof.
  intros Ha Ho Hn Hf. unfold after_state in Hf. apply bind_ok in Hf as (s & Hs & Hf).
  assert (dec_ok s ∧ atto s = side_sign (o_side o) * atto n) as [Hsok Hsv].
  { destruct (o_side o); simpl; [injection Hs as <-; split; [done|lia]|]. decs. split; [done|lia]. }
  apply bind_ok in Hf as (r & Hr & Hf).
  apply after_fold_exact in Hr; [|apply Forall_forall; intros p Hp; by apply (ac_value a Ha)|done|apply ZERO_ok..].
  destruct r as [[[pv og] onet] ocg]. destruct Hr as ((? & ? & ? & ?) & Hpv & Hog & Hon & Hoc).
  apply bind_ok in Hf as (pa & E1 & Hf). apply bind_ok in Hf as (g & E2 & Hf). apply bind_ok in Hf as (nt & E3 & Hf).
  apply bind_ok in Hf as (cg & E4 & Hf). apply bind_ok in Hf as (c1 & E5 & Hf). apply bind_ok in Hf as (c2 & E6 & [= <-]).
  pose proof (ac_cash a Ha). pose proof (or_fee o Ho). decs. rewrite atto_zero in *.
  split; [by split|]. simpl. unfold x_gross, x_net, x_class, x_cash, x_position, own_value, others_gross, others_net, others_class.
  split_and!; lia.
Qed.

(** ** The specification *)

(** A fraction of the capital base, rounded down to 10^-18. *)
Definition scaled (m base : Dec) : Z := atto m * atto base / ONE.

Definition notional_of (o : ProposedOrder) (p : Dec) : Z := atto (o_quantity o) * atto p / ONE.

Definition reducing_spec (a : AccountView) (o : ProposedOrder) : Prop :=
  match o_side o with
  | Sell => 0 < atto (held a (o_symbol o)) ∧ atto (o_quantity o) ≤ atto (held a (o_symbol o))
  | Buy => atto (held a (o_symbol o)) < 0 ∧ atto (o_quantity o) ≤ - atto (held a (o_symbol o))
  end.

Definition opens_short (a : AccountView) (o : ProposedOrder) : Prop :=
  o_side o = Sell ∧ Z.max 0 (atto (held a (o_symbol o))) < atto (o_quantity o).

Definition usable_price (pol : Policy) (a : AccountView) (o : ProposedOrder) (p : Dec) : Prop :=
  ∃ pp, o_price o = Some pp ∧ price pp = p ∧ 0 < atto p ∧
    - 5000 ≤ num_milliseconds (signed_duration_since (now a) (as_of pp)) ≤ i64_saturating_mul (max_price_age_secs pol) 1000.

Definition readable_spec (l : Limits) (a : AccountView) (o : ProposedOrder) : Prop :=
  0 < atto (o_quantity o) ∧ 0 ≤ atto (o_est_fee o) ∧ is_empty (trim (o_symbol o)) = false ∧ 0 < atto (equity a) ∧
  eq_ignore_ascii_case (trim (acc_ccy a)) (l_ccy l) = true.

Definition universe_spec (l : Limits) (o : ProposedOrder) : Prop :=
  let sym := to_uppercase (trim (o_symbol o)) in
  bs_contains (l_instrument_deny l) sym = false ∧ bs_contains (l_instrument_allow l) sym = true ∧
  bs_contains (l_venues l) (to_lowercase (trim (o_venue o))) = true ∧
  bs_contains (l_asset_classes l) (order_class o) = true.

Definition venue_allows_short (i : InstrumentRules) (o : ProposedOrder) : Prop :=
  ∃ r, rule i (o_venue o) (o_symbol o) = Some r ∧
    (short r = Allowed ∨ short r = NeedsLocate ∧ has_locate i (o_venue o) (o_symbol o) = true).

Definition venue_rule_of (s : option (MarginContext * InstrumentRules)) (o : ProposedOrder)
    : option InstrumentVenueRule :=
  let* i := snd <$> s in rule i (o_venue o) (o_symbol o).

(** The part of the order that adds exposure. *)
Definition x_increase (a : AccountView) (o : ProposedOrder) (p : Dec) : Z :=
  let pos := atto (held a (o_symbol o)) in
  let q := atto (o_quantity o) in
  let closing := match o_side o with
                 | Sell => if decide (0 < pos) then Z.min q pos else 0
                 | Buy => if decide (pos < 0) then Z.min q (- pos) else 0
                 end in
  (q - closing) * atto p / ONE.

Record caps_spec (l : Limits) (a : AccountView) (o : ProposedOrder) (base : Dec) (r : option InstrumentVenueRule)
    (p : Dec) : Prop := {
  cp_notional : notional_of o p ≤ atto (l_max_order_notional l);
  cp_position : x_position a o (notional_of o p) ≤ scaled (l_max_position l) base;
  cp_units : ∀ vr u, r = Some vr → max_position_units vr = Some u →
    Z.abs (atto (held a (o_symbol o)) + side_sign (o_side o) * atto (o_quantity o)) ≤ atto u;
  cp_class : ∀ c, bt_get (l_max_asset_class l) (order_class o) = Some c →
    x_class a o (notional_of o p) ≤ scaled c base;
  cp_gross : x_gross a o (notional_of o p) ≤ scaled (l_max_gross l) base;
  cp_net : Z.abs (x_net a o (notional_of o p)) ≤ scaled (l_max_net l) base;
}.

Definition funding_spec (pol : Policy) (a : AccountView) (o : ProposedOrder) (base p : Dec)
    (s : option (MarginContext * InstrumentRules)) : Prop :=
  ∃ reserve, reserve_amount pol base = Ok reserve ∧
  match s with
  | Some ({| buying_power_left := Some bp |}, _) =>
      atto reserve ≤ atto bp - x_increase a o p - atto (o_est_fee o)
  | Some ({| buying_power_left := None |}, _) =>
      o_uses_margin o = false ∧ margin_use a o p = Ok false ∧ atto reserve ≤ x_cash a o (notional_of o p)
  | None => atto reserve ≤ x_cash a o (notional_of o p)
  end.

(** An order that may pass, for limits [l] and the usable price [p]. *)
Record permitted (pol : Policy) (a : AccountView) (o : ProposedOrder) (d : DayCounters)
    (s : option (MarginContext * InstrumentRules)) (l : Limits) (p : Dec) : Prop := {
  pm_limits : limits pol = Some l;
  pm_standing : standing pol (now a) = Standing.Active ∨ standing pol (now a) = Standing.Expired ∧ reducing_spec a o;
  pm_readable : readable_spec l a o;
  pm_halted : halted a = true → reducing_spec a o;
  pm_price : usable_price pol a o p;
  pm_universe : universe_spec l o;
  pm_short : opens_short a o → l_shorting l = true ∧ ∀ m i, s = Some (m, i) → venue_allows_short i o;
  pm_derivative : o_is_derivative o = true → l_derivatives l = true;
  pm_flag : s = None → o_uses_margin o = true → ONE < atto (l_leverage_max_gross l);
  pm_leverage : s ≠ None → ¬ reducing_spec a o →
    x_gross a o (notional_of o p) ≤
      scaled (effective_gross_cap l (venue_rule_of s o)) (capital_base pol (equity a) (acc_ccy a));
  pm_caps : ¬ reducing_spec a o →
    caps_spec l a o (capital_base pol (equity a) (acc_ccy a)) (venue_rule_of s o) p;
  pm_churn : (halted a = false ∧ standing pol (now a) ≠ Standing.Expired ∨ ¬ reducing_spec a o) →
    ¬ (o_loss_rung_cover o = true ∧ o_side o = Buy ∧ reducing_spec a o) →
    orders_today d + 1 ≤ l_max_orders_per_day l ∧
    atto (turnover_today d) + notional_of o p ≤
      scaled (l_max_turnover_per_day l) (capital_base pol (equity a) (acc_ccy a));
  pm_funding : ¬ reducing_spec a o → funding_spec pol a o (capital_base pol (equity a) (acc_ccy a)) p s;
}.

(** ** The stages, one by one *)

Lemma usable_limits_pass pol st l : usable_limits pol st = ([], Next l) ↔
  limits pol = Some l ∧ (st = Standing.Active ∨ st = Standing.Expired).
Proof.
  unfold usable_limits. destruct st; simpl; try (split; [done|]; intros [_ []]; done);
    (destruct (limits pol) as [l'|]; split; [intros [= ->]; tauto|by intros [[= ->] _]|done|by intros [[=] _]]).
Qed.

Lemma readable_pass l a o : account_ok a → order_ok o →
  readable l a o = ([], Next tt) ↔ readable_spec l a o.
Proof.
  intros Ha Ho. unfold readable, readable_spec.
  pose proof (is_positive_atto _ (or_quantity o Ho)). pose proof (is_negative_atto _ (or_fee o Ho)).
  pose proof (is_positive_atto _ (ac_equity a Ha)).
  destruct (is_positive (o_quantity o)), (is_negative (o_est_fee o)), (is_empty (trim (o_symbol o))),
    (is_positive (equity a)), (eq_ignore_ascii_case (trim (acc_ccy a)) (l_ccy l)); simpl; unfold deny_return, gret;
    (split; [intros [=]; split_and!; try done; lia|intros (? & ? & ? & ? & ?); try done; exfalso; lia]).
Qed.

Lemma reducing_exact a o b : account_ok a → order_ok o → is_reducing a o = Ok b → b = true ↔ reducing_spec a o.
Proof.
  intros Ha Ho Hr. unfold is_reducing, reducing_spec in *. pose proof (held_ok a (o_symbol o) Ha) as Hh.
  pose proof (or_quantity o Ho). pose proof (is_positive_atto _ Hh). pose proof (is_negative_atto _ Hh).
  destruct (o_side o).
  - destruct (is_negative (held a (o_symbol o))).
    + apply bind_ok in Hr as (n & Hn & [= <-]). decs. rewrite dec_leb_atto by done. rewrite Z.leb_le. split; intros; lia.
    + injection Hr as <-. split; [done|]. intros []. lia.
  - injection Hr as <-. rewrite andb_true_iff, dec_leb_atto, Z.leb_le by done. tauto.
Qed.

Lemma check_state_pass a e r : check_state a e r = ([], Next tt) ↔ (halted a = true → r = true) ∧ (e = true → r = true).
Proof.
  unfold check_state. rewrite gbind_pass. setoid_rewrite gwhen_pass. destruct (halted a), e, r; simpl; naive_solver.
Qed.

Lemma check_price_pass pol a o op : order_ok o →
  check_price pol a o = ([], Next op) ↔ ∃ p, op = Some p ∧ usable_price pol a o p.
Proof.
  intros Ho. unfold check_price, usable_price. destruct (o_price o) as [pp|] eqn:Ep; [|split; [done|naive_solver]].
  pose proof (is_positive_atto _ (or_price o Ho pp Ep)) as Hpos.
  change (- i64_saturating_mul MAX_FUTURE_SKEW_SECS 1000) with (-5000).
  set (age := num_milliseconds _). set (lim := i64_saturating_mul _ 1000).
  destruct (is_positive (price pp)); simpl.
  2: { split; [done|]. intros (p & -> & pp' & [= <-] & <- & Hp & _). naive_solver. }
  destruct (Z.ltb_spec age (-5000)); [split; [done|]; intros (p & -> & pp' & [= <-] & <- & Hp & Hage); unfold age, lim in *; lia|].
  destruct (Z.ltb_spec lim age); [split; [done|]; intros (p & -> & pp' & [= <-] & <- & Hp & Hage); unfold age, lim in *; lia|].
  unfold gret. split.
  - intros [= <-]. exists (price pp). split; [done|]. exists pp. split_and!; try done; naive_solver.
  - intros (p & -> & pp' & [= <-] & <- & _). done.
Qed.

Lemma check_universe_pass l o : check_universe l o = ([], Next tt) ↔ universe_spec l o.
Proof.
  unfold check_universe, universe_spec. rewrite gbind_pass. setoid_rewrite gbind_pass. setoid_rewrite gwhen_pass.
  destruct (bs_contains (l_instrument_deny l) _); simpl; [naive_solver|].
  destruct (bs_contains (l_instrument_allow l) _), (bs_contains (l_venues l) _), (bs_contains (l_asset_classes l) _);
    simpl; naive_solver.
Qed.

Lemma short_block_none i r o : venue_short_block i r o = None ↔
  ∃ vr, r = Some vr ∧ (short vr = Allowed ∨ short vr = NeedsLocate ∧ has_locate i (o_venue o) (o_symbol o) = true).
Proof.
  unfold venue_short_block. destruct r as [vr|]; [|naive_solver].
  transitivity (short vr = Allowed ∨ short vr = NeedsLocate ∧ has_locate i (o_venue o) (o_symbol o) = true);
    [|split; [intros; by exists vr|by intros (? & [= <-] & ?)]].
  destruct (short vr); [|by split; [left|]|].
  - split; [done|]. by intros [|[]].
  - destruct (has_locate i (o_venue o) (o_symbol o)); (split; [try done; by right|]); [done|]. by intros [|[]].
Qed.

Lemma check_shorting_pass l a o s : account_ok a → order_ok o →
  check_shorting l a o (snd <$> s) (venue_rule_of s o) = ([], Next tt) ↔
  (opens_short a o → l_shorting l = true ∧ ∀ m i, s = Some (m, i) → venue_allows_short i o).
Proof.
  intros Ha Ho. unfold check_shorting. rewrite gwhen_pass. pose proof (held_ok a (o_symbol o) Ha) as Hh.
  set (opens := bool_decide (o_side o = Sell) && _).
  assert (opens = true ↔ opens_short a o) as Hopens.
  { unfold opens, opens_short. rewrite andb_true_iff, bool_decide_eq_true. pose proof (is_positive_atto _ Hh).
    destruct (is_positive (held a (o_symbol o))); rewrite dec_ltb_atto by (apply Ho || apply ZERO_ok || done);
      rewrite ?atto_zero, Z.ltb_lt; split; intros [? ?]; split; try done; lia. }
  destruct opens; simpl.
  - rewrite orb_false_iff, negb_false_iff, bool_decide_eq_false, <-eq_None_not_Some.
    assert ((match snd <$> s with Some i => venue_short_block i (venue_rule_of s o) o | None => None end) = None ↔
      ∀ m i, s = Some (m, i) → venue_allows_short i o) as Hs.
    { destruct s as [[m i]|]; simpl; [|naive_solver]. rewrite short_block_none. unfold venue_allows_short. naive_solver. }
    rewrite Hs. naive_solver.
  - split; [intros _ Hop; naive_solver|]. intros _. destruct s as [[m i]|]; done.
Qed.

(** The comparisons of the guard: [dec_ltb cap x] denies, so passing is [x ≤ cap]. *)
Lemma within_cap cap x : dec_ok cap → dec_ok x → dec_ltb cap x = false ↔ atto x ≤ atto cap.
Proof. intros Hc Hx. rewrite dec_ltb_atto, Z.ltb_ge by done. done. Qed.

Lemma order_notional o p n : order_ok o → dec_ok p → mul (o_quantity o) p = Ok n → dec_ok n ∧ atto n = notional_of o p.
Proof. intros Ho Hp Hn. pose proof (or_quantity o Ho). decs. done. Qed.

Lemma cap_scaled m base c : dec_ok m → dec_ok base → mul m base = Ok c → dec_ok c ∧ atto c = scaled m base.
Proof. intros Hm Hb Hc. decs. done. Qed.

Lemma gross_cap_ok l r : limits_ok l → (∀ vr, r = Some vr → rule_ok vr) → dec_ok (effective_gross_cap l r).
Proof.
  intros Hl Hr. unfold effective_gross_cap. assert (dec_ok (dec_min (l_leverage_max_gross l) (l_max_gross l))).
  { apply dec_min_ok; limit_field. }
  unfold rule_leverage. destruct r as [vr|]; [|done]. destruct (max_leverage vr) eqn:Em; [|done].
  apply dec_min_ok; [done|]. by apply (proj1 (Hr vr eq_refl)).
Qed.

Lemma check_leverage_agrees l a o base red s p : limits_ok l → account_ok a → order_ok o → dec_ok base → dec_ok p →
  (∀ vr, venue_rule_of s o = Some vr → rule_ok vr) →
  agrees (check_leverage l a o base red (bool_decide (is_Some s)) (venue_rule_of s o) (Some p))
    ((s = None → o_uses_margin o = true → ONE < atto (l_leverage_max_gross l)) ∧
     (s ≠ None → red = false →
        x_gross a o (notional_of o p) ≤ scaled (effective_gross_cap l (venue_rule_of s o)) base)).
Proof.
  intros Hl Ha Ho Hb Hp Hr. unfold check_leverage. destruct s as [s'|].
  - rewrite bool_decide_eq_true_2 by done. destruct red.
    { eapply agrees_iff; [|apply agrees_ret]. naive_solver. }
    apply agrees_lift. intros n Hn. destruct (order_notional o p n Ho Hp Hn) as [Hnok Hnv].
    apply agrees_lift. intros f Hf. destruct (after_state_exact a o n f Ha Ho Hnok Hf) as (Hfok & _ & Hg & _).
    apply agrees_lift. intros c Hc. pose proof (gross_cap_ok l (venue_rule_of (Some s') o) Hl Hr) as Hgc.
    destruct (cap_scaled _ base c Hgc Hb Hc) as [Hcok Hcv].
    apply agrees_when. rewrite within_cap, Hg, Hcv, Hnv by (done || apply Hfok). naive_solver.
  - rewrite bool_decide_eq_false_2 by (by intros [? ?]). apply agrees_when.
    assert (dec_ok (l_leverage_max_gross l)) by limit_field.
    assert (dec_ok one) by (unfold one; apply from_i64_ok; unfold i64_min, i64_max; lia).
    rewrite dec_leb_atto by done. change (atto one) with ONE.
    destruct (o_uses_margin o); simpl; [rewrite Z.leb_gt|]; naive_solver.
Qed.

Lemma check_units_agrees a o r : account_ok a → order_ok o → (∀ vr, r = Some vr → rule_ok vr) →
  agrees (check_units a o r)
    (∀ vr u, r = Some vr → max_position_units vr = Some u →
       Z.abs (atto (held a (o_symbol o)) + side_sign (o_side o) * atto (o_quantity o)) ≤ atto u).
Proof.
  intros Ha Ho Hr. unfold check_units. destruct r as [vr|]; [|eapply agrees_iff; [|apply agrees_ret]; naive_solver].
  destruct (max_position_units vr) as [u|] eqn:Eu; [|eapply agrees_iff; [|apply agrees_ret]; naive_solver].
  assert (dec_ok u) by (by apply (proj2 (Hr vr eq_refl))). pose proof (held_ok a (o_symbol o) Ha). pose proof (or_quantity o Ho).
  apply agrees_lift. intros sq Hsq.
  assert (dec_ok sq ∧ atto sq = side_sign (o_side o) * atto (o_quantity o)) as [Hsok Hsv].
  { destruct (o_side o); simpl; [injection Hsq as <-; split; [done|lia]|]. decs. split; [done|lia]. }
  apply agrees_lift. intros q Hq. apply agrees_lift. intros ua Hua. decs. apply agrees_when.
  rewrite within_cap by done. rewrite V0, V, Hsv. naive_solver.
Qed.

Lemma check_class_agrees l base class f : limits_ok l → dec_ok base → after_ok f →
  agrees (check_class l base class f)
    (∀ c, bt_get (l_max_asset_class l) class = Some c → atto (class_gross f) ≤ scaled c base).
Proof.
  intros Hl Hb Hf. unfold check_class. destruct (bt_get (l_max_asset_class l) class) as [cc|] eqn:Ec.
  2: { eapply agrees_iff; [|apply agrees_ret]. naive_solver. }
  assert (dec_ok cc) by (by eapply lo_classes). apply agrees_lift. intros c Hc.
  destruct (cap_scaled cc base c) as [Hcok Hcv]; [done..|]. apply agrees_when.
  rewrite within_cap, Hcv by (done || apply Hf). naive_solver.
Qed.

Lemma check_caps_agrees l a o base r p n f : limits_ok l → account_ok a → order_ok o → dec_ok base → dec_ok p →
  (∀ vr, r = Some vr → rule_ok vr) → mul (o_quantity o) p = Ok n → after_state a o n (order_class o) = Ok f →
  agrees (check_caps l a o base r n f) (caps_spec l a o base r p).
Proof.
  intros Hl Ha Ho Hb Hp Hr Hn Hf. destruct (order_notional o p n Ho Hp Hn) as [Hnok Hnv].
  destruct (after_state_exact a o n f Ha Ho Hnok Hf) as (Hfok & Epos & Egross & Enet & Eclass & _). rewrite Hnv in *.
  assert (dec_ok (l_max_order_notional l)) by limit_field. assert (dec_ok (l_max_position l)) as Hmp by limit_field.
  assert (dec_ok (l_max_gross l)) as Hmg by limit_field. assert (dec_ok (l_max_net l)) as Hmn by limit_field.
  eapply agrees_iff; cycle 1.
  - unfold check_caps. apply agrees_bind; [by apply agrees_when, within_cap|].
    apply agrees_lift. intros c1 Hc1. destruct (cap_scaled _ base c1 Hmp Hb Hc1) as [Hc1ok Hc1v].
    apply agrees_bind; [apply agrees_when; rewrite within_cap, Epos, Hc1v by (done || apply Hfok); reflexivity|].
    apply agrees_bind; [by apply check_units_agrees|]. apply agrees_bind; [by apply check_class_agrees|].
    apply agrees_lift. intros c2 Hc2. destruct (cap_scaled _ base c2 Hmg Hb Hc2) as [Hc2ok Hc2v].
    apply agrees_bind; [apply agrees_when; rewrite within_cap, Egross, Hc2v by (done || apply Hfok); reflexivity|].
    apply agrees_lift. intros c3 Hc3. destruct (cap_scaled _ base c3 Hmn Hb Hc3) as [Hc3ok Hc3v].
    apply agrees_lift. intros nn Hnn.
    destruct (abs_atto (net f) nn (af_net f Hfok) Hnn) as [? V]. apply agrees_when. rewrite within_cap, V, Enet, Hc3v by done. reflexivity.
  - rewrite Hnv. setoid_rewrite Eclass. split.
    + intros (? & ? & ? & ? & ? & ?). by split.
    + intros []. by split_and!.
Qed.

Lemma check_churn_agrees l d base n : limits_ok l → dec_ok base → day_ok d → dec_ok n →
  agrees (check_churn l d base n)
    (orders_today d + 1 ≤ l_max_orders_per_day l ∧
     atto (turnover_today d) + atto n ≤ scaled (l_max_turnover_per_day l) base).
Proof.
  intros Hl Hb Hd Hn. assert (dec_ok (l_max_turnover_per_day l)) by limit_field. unfold check_churn, day_ok in *.
  apply agrees_bind; [apply agrees_when; rewrite Z.ltb_ge; lia|].
  apply agrees_lift. intros t Ht. apply agrees_lift. intros c Hc.
  destruct (cap_scaled (l_max_turnover_per_day l) base c ltac:(limit_field) Hb Hc) as [Hcok Hcv].
  destruct (add_atto (turnover_today d) n t Hd Hn Ht) as [? V]. apply agrees_when. by rewrite within_cap, Hcv, V by done.
Qed.

Lemma increasing_exact a o p inc : account_ok a → order_ok o → dec_ok p → increasing_notional a o p = Ok inc →
  dec_ok inc ∧ atto inc = x_increase a o p.
Proof.
  intros Ha Ho Hp Hi. unfold increasing_notional, x_increase in *. pose proof (held_ok a (o_symbol o) Ha) as Hh.
  pose proof (or_quantity o Ho) as Hq. pose proof (is_positive_atto _ Hh). pose proof (is_negative_atto _ Hh).
  set (pos := held a (o_symbol o)) in *. apply bind_ok in Hi as (cl & Hcl & Hi).
  match goal with |- _ ∧ _ = (_ - ?c) * _ / _ => assert (dec_ok cl ∧ atto cl = c) as [Hclok Hclv] end.
  { destruct (o_side o).
    - destruct (is_negative pos).
      + apply bind_ok in Hcl as (n & Hn & [= <-]). decs. rewrite dec_min_atto by done.
        split; [by apply dec_min_ok|]. case_decide; lia.
      + injection Hcl as <-. split; [apply ZERO_ok|]. rewrite atto_zero. case_decide; [naive_solver|done].
    - injection Hcl as <-. destruct (is_positive pos).
      + rewrite dec_min_atto by done. split; [by apply dec_min_ok|]. case_decide; [done|naive_solver].
      + split; [apply ZERO_ok|]. rewrite atto_zero. case_decide; [naive_solver|done]. }
  apply bind_ok in Hi as (q & Hsub & Hi). decs. split; [done|]. by rewrite V0, V, Hclv.
Qed.

Lemma check_funding_agrees pol a o base p s n f dm : policy_ok pol → account_ok a → order_ok o → dec_ok base →
  dec_ok p → signed_ok s → mul (o_quantity o) p = Ok n → after_state a o n (order_class o) = Ok f →
  (s ≠ None → margin_use a o p = Ok dm) →
  agrees (check_funding pol a o base p (fst <$> s) dm f) (funding_spec pol a o base p s).
Proof.
  intros Hpol Ha Ho Hb Hp Hs Hn Hf Hdm. destruct (order_notional o p n Ho Hp Hn) as [Hnok Hnv].
  destruct (after_state_exact a o n f Ha Ho Hnok Hf) as (Hfok & _ & _ & _ & _ & Ecash). rewrite Hnv in Ecash.
  unfold check_funding, funding_spec. apply agrees_lift. intros rv Hrv.
  pose proof (reserve_amount_ok pol base rv Hpol Hb Hrv) as Hrok.
  assert (∀ P msg, (atto rv ≤ x_cash a o (notional_of o p) ↔ P) →
    agrees (gwhen (dec_ltb (after_cash f) rv) (deny CashReserve msg)) P) as Hcash.
  { intros P msg HP. apply agrees_when. rewrite within_cap by (done || apply Hfok). by rewrite Ecash. }
  rewrite Hrv. destruct s as [[[[bp|]] i]|]; simpl.
  - apply agrees_lift. intros inc Hinc. destruct (increasing_exact a o p inc Ha Ho Hp Hinc) as [Hiok Hiv].
    apply agrees_lift. intros rest Hrest. apply bind_ok in Hrest as (x & Hx & Hrest).
    destruct (Hs _ _ eq_refl) as [Hbp _]. specialize (Hbp bp eq_refl). pose proof (or_fee o Ho). decs. apply agrees_when.
    rewrite within_cap, V0, V, Hiv by done. split; [intros; by exists rv|]. by intros (? & [= <-] & ?).
  - specialize (Hdm ltac:(done)). destruct (o_uses_margin o); simpl.
    { apply agrees_exact. split; [done|]. by intros (? & _ & [=] & _). }
    destruct dm; [apply agrees_exact; split; [done|]; intros (? & _ & _ & Hm & _); congruence|].
    apply Hcash. split; [intros; by exists rv|]. by intros (? & [= <-] & _ & _ & ?).
  - apply Hcash. split; [intros; by exists rv|]. by intros (? & [= <-] & ?).
Qed.

(** Everything after the price: the tail of [check_inner] for a usable price. *)
Lemma check_tail_agrees pol a o d s l p red (expired : bool) (base := capital_base pol (equity a) (acc_ccy a)) :
  policy_ok pol → limits_ok l → account_ok a → order_ok o → day_ok d → signed_ok s → dec_ok p →
  agrees
    (let! _ := check_shorting l a o (snd <$> s) (venue_rule_of s o) in
     let! _ := gwhen (o_is_derivative o && negb (l_derivatives l))
       (deny DerivativesForbidden "derivatives are not allowed by the mandate") in
     let! derived_margin :=
       match fst <$> s with Some _ => lift (margin_use a o p) | None => gret false end in
     let! _ := check_leverage l a o base red (bool_decide (is_Some s)) (venue_rule_of s o) (Some p) in
     let! notional := lift (mul (o_quantity o) p) in
     let! after := lift (after_state a o notional (order_class o)) in
     let! _ := if red then gret tt else check_caps l a o base (venue_rule_of s o) notional after in
     let! _ := gwhen (negb ((halted a || expired) && red) &&
                      negb (o_loss_rung_cover o && bool_decide (o_side o = Buy) && red))
       (check_churn l d base notional) in
     if red then gret tt else check_funding pol a o base p (fst <$> s) derived_margin after)
    ((opens_short a o → l_shorting l = true ∧ ∀ m i, s = Some (m, i) → venue_allows_short i o) ∧
     (o_is_derivative o = true → l_derivatives l = true) ∧
     ((s = None → o_uses_margin o = true → ONE < atto (l_leverage_max_gross l)) ∧
      (s ≠ None → red = false →
         x_gross a o (notional_of o p) ≤ scaled (effective_gross_cap l (venue_rule_of s o)) base)) ∧
     (red = false → caps_spec l a o base (venue_rule_of s o) p) ∧
     (negb ((halted a || expired) && red) && negb (o_loss_rung_cover o && bool_decide (o_side o = Buy) && red) = true →
        orders_today d + 1 ≤ l_max_orders_per_day l ∧
        atto (turnover_today d) + notional_of o p ≤ scaled (l_max_turnover_per_day l) base) ∧
     (red = false → funding_spec pol a o base p s)).
Proof.
  intros Hpol Hl Ha Ho Hd Hs Hp.
  assert (dec_ok base) as Hb by (apply capital_base_ok; [done|apply Ha]).
  assert (∀ vr, venue_rule_of s o = Some vr → rule_ok vr) as Hr.
  { unfold venue_rule_of. destruct s as [[m i]|]; simpl; [|done]. intros vr Hvr. by apply (proj2 (Hs m i eq_refl) _ _ _ Hvr). }
  apply agrees_bind; [by apply agrees_exact, check_shorting_pass|].
  apply agrees_bind; [apply agrees_when; destruct (o_is_derivative o), (l_derivatives l); simpl; naive_solver|].
  assert (∀ dm, (s ≠ None → margin_use a o p = Ok dm) → agrees
     (let! _ := check_leverage l a o base red (bool_decide (is_Some s)) (venue_rule_of s o) (Some p) in
     let! notional := lift (mul (o_quantity o) p) in
     let! after := lift (after_state a o notional (order_class o)) in
     let! _ := if red then gret tt else check_caps l a o base (venue_rule_of s o) notional after in
     let! _ := gwhen (negb ((halted a || expired) && red) &&
                      negb (o_loss_rung_cover o && bool_decide (o_side o = Buy) && red))
       (check_churn l d base notional) in
     if red then gret tt else check_funding pol a o base p (fst <$> s) dm after)
     (((s = None → o_uses_margin o = true → ONE < atto (l_leverage_max_gross l)) ∧
      (s ≠ None → red = false →
         x_gross a o (notional_of o p) ≤ scaled (effective_gross_cap l (venue_rule_of s o)) base)) ∧
     (red = false → caps_spec l a o base (venue_rule_of s o) p) ∧
     (negb ((halted a || expired) && red) && negb (o_loss_rung_cover o && bool_decide (o_side o = Buy) && red) = true →
        orders_today d + 1 ≤ l_max_orders_per_day l ∧
        atto (turnover_today d) + notional_of o p ≤ scaled (l_max_turnover_per_day l) base) ∧
     (red = false → funding_spec pol a o base p s))) as Hrest.
  { intros dm Hdm. apply agrees_bind; [by apply check_leverage_agrees|].
    apply agrees_lift. intros n Hn. apply agrees_lift. intros f Hf.
    destruct (order_notional o p n Ho Hp Hn) as [Hnok Hnv].
    apply agrees_bind; [destruct red; [eapply agrees_iff; [|apply agrees_ret]; naive_solver|];
      eapply agrees_iff; [|by apply (check_caps_agrees l a o base _ p n f)]; naive_solver|].
    apply agrees_bind_when; [intros _; rewrite <-Hnv; by apply check_churn_agrees|].
    destruct red; [eapply agrees_iff; [|apply agrees_ret]; naive_solver|].
    eapply agrees_iff; [|by apply (check_funding_agrees pol a o base p s n f dm)]. naive_solver. }
  destruct s as [[m i]|]; simpl fst; simpl fmap.
  - apply agrees_lift. intros dm Hdm. by apply Hrest.
  - unfold gret. rewrite gbind_next. by apply Hrest.
Qed.

(** A permitted order, read through the boolean [red] the code computes. *)
Lemma permitted_iff pol a o d s l p red : is_reducing a o = Ok red → account_ok a → order_ok o →
  permitted pol a o d s l p ↔
  (limits pol = Some l ∧
   (standing pol (now a) = Standing.Active ∨ standing pol (now a) = Standing.Expired) ∧
   readable_spec l a o ∧
   ((halted a = true → red = true) ∧ (bool_decide (standing pol (now a) = Standing.Expired) = true → red = true)) ∧
   usable_price pol a o p ∧ universe_spec l o ∧
   (opens_short a o → l_shorting l = true ∧ ∀ m i, s = Some (m, i) → venue_allows_short i o) ∧
     (o_is_derivative o = true → l_derivatives l = true) ∧
     ((s = None → o_uses_margin o = true → ONE < atto (l_leverage_max_gross l)) ∧
      (s ≠ None → red = false →
         x_gross a o (notional_of o p) ≤
           scaled (effective_gross_cap l (venue_rule_of s o)) (capital_base pol (equity a) (acc_ccy a)))) ∧
     (red = false → caps_spec l a o (capital_base pol (equity a) (acc_ccy a)) (venue_rule_of s o) p) ∧
     (negb ((halted a || bool_decide (standing pol (now a) = Standing.Expired)) && red) &&
        negb (o_loss_rung_cover o && bool_decide (o_side o = Buy) && red) = true →
        orders_today d + 1 ≤ l_max_orders_per_day l ∧
        atto (turnover_today d) + notional_of o p ≤
          scaled (l_max_turnover_per_day l) (capital_base pol (equity a) (acc_ccy a))) ∧
     (red = false → funding_spec pol a o (capital_base pol (equity a) (acc_ccy a)) p s)).
Proof.
  intros Hred Ha Ho. pose proof (reducing_exact a o red Ha Ho Hred) as Hx.
  assert (red = false ↔ ¬ reducing_spec a o) as Hnx by (rewrite <-Hx; destruct red; naive_solver).
  assert (negb ((halted a || bool_decide (standing pol (now a) = Standing.Expired)) && red) &&
        negb (o_loss_rung_cover o && bool_decide (o_side o = Buy) && red) = true ↔
    (halted a = false ∧ standing pol (now a) ≠ Standing.Expired ∨ ¬ reducing_spec a o) ∧
    ¬ (o_loss_rung_cover o = true ∧ o_side o = Buy ∧ reducing_spec a o)) as Hchurn.
  { rewrite andb_true_iff, !negb_true_iff, !andb_false_iff, orb_false_iff, !bool_decide_eq_false, Hnx, <-Hx.
    destruct (o_loss_rung_cover o), red, (decide (o_side o = Buy)); naive_solver. }
  rewrite Hchurn, bool_decide_eq_true, Hx. rewrite !Hnx. split.
  - intros [Hl Hst Hrd Hh Hpr Hun Hsh Hde Hfl Hlev Hcap Hch Hfu]. split_and!; try done.
    + destruct Hst as [?|[? _]]; [by left|by right].
    + intros He. destruct Hst as [Hact|[_ ?]]; [congruence|done].
    + intros [? ?]. by apply Hch.
  - intros (Hl & Hst & Hrd & [Hh He] & Hpr & Hun & Hsh & Hde & [Hfl Hlev] & Hcap & Hch & Hfu). split; try done.
    + destruct Hst as [?|Hex]; [by left|right; split; [done|by apply He]].
    + intros ? ?. by apply Hch.
Qed.

(** The check up to the price, then the tail. *)
Lemma check_inner_agrees pol a o d s : policy_ok pol → account_ok a → order_ok o → day_ok d → signed_ok s →
  agrees (check_inner pol a o d s) (∃ l p, permitted pol a o d s l p).
Proof.
  intros Hpol Ha Ho Hd Hs. split.
  - intros Hp. unfold check_inner in Hp. apply gbind_pass in Hp as (l & Hul & Hp). apply gbind_pass in Hp as ([] & Hrd & Hp).
    apply gbind_pass in Hp as (red & Hred & Hp). apply gbind_pass in Hp as ([] & Hst & Hp).
    apply gbind_pass in Hp as (op & Hpr & Hp). apply gbind_pass in Hp as ([] & Hun & Hp).
    apply lift_pass in Hred. apply usable_limits_pass in Hul as [Hl Hstand].
    apply check_price_pass in Hpr as (p & -> & Hpr); [|done]. apply readable_pass in Hrd; [|done..].
    apply check_state_pass in Hst. apply check_universe_pass in Hun. exists l, p. apply (permitted_iff pol a o d s l p red); [done..|].
    assert (dec_ok p) as Hpok by (destruct Hpr as (pp & Hpp & <- & _); by apply (or_price o Ho)).
    split; [done|]. split; [done|]. split; [done|]. split; [done|]. split; [done|]. split; [done|].
    exact (proj1 (check_tail_agrees pol a o d s l p red _ Hpol (Hpol l Hl) Ha Ho Hd Hs Hpok) Hp).
  - intros Hf (l & p & Hperm). unfold check_inner in *.
    assert (usable_limits pol (standing pol (now a)) = ([], Next l)) as Hul.
    { apply usable_limits_pass. split; [apply Hperm|]. destruct (pm_standing _ _ _ _ _ _ _ Hperm) as [?|[? _]]; tauto. }
    rewrite Hul, gbind_next in *.
    assert (readable l a o = ([], Next tt)) as Hrd by (apply readable_pass; [done..|apply Hperm]).
    rewrite Hrd, gbind_next in *. destruct (nofail_bind _ _ Hf) as [Hfr _]. apply nofail_lift in Hfr as [red Hred].
    rewrite Hred in *. simpl lift in *. rewrite gbind_next in *.
    pose proof (pm_price _ _ _ _ _ _ _ Hperm) as Hpr.
    assert (dec_ok p) as Hpok by (destruct Hpr as (pp & Hpp & <- & _); by apply (or_price o Ho)).
    apply (permitted_iff pol a o d s l p red) in Hperm as (Hl & _ & _ & Hst & _ & Hun & Htail); [|done..].
    apply check_state_pass in Hst. rewrite Hst, gbind_next in *.
    assert (check_price pol a o = ([], Next (Some p))) as Hcp by (apply check_price_pass; [done|by exists p]).
    rewrite Hcp, gbind_next in *. apply check_universe_pass in Hun. rewrite Hun, gbind_next in *.
    exact (proj2 (check_tail_agrees pol a o d s l p red _ Hpol (Hpol l Hl) Ha Ho Hd Hs Hpok) Hf Htail).
Qed.

Ltac honest :=
  repeat first
    [ apply honest_bind; [|intros ? ? _]
    | apply honest_lift | apply honest_when | done
    | progress cbn beta iota zeta ].

Lemma honest_caps l a o base r n f : honest (check_caps l a o base r n f).
Proof.
  unfold check_caps. honest.
  - unfold check_units. destruct (match r with Some _ => _ | None => _ end); honest.
  - unfold check_class. destruct (bt_get _ _); honest.
Qed.

Lemma honest_funding pol a o base p m dm f : honest (check_funding pol a o base p m dm f).
Proof.
  unfold check_funding. apply honest_bind; [apply honest_lift|]. intros _ r _.
  destruct m as [[[bp|]]|]; [honest|destruct (o_uses_margin o || dm); honest|honest].
Qed.

Lemma check_price_none pol a o l : check_price pol a o = (l, Next None) → l ≠ [].
Proof.
  unfold check_price. destruct (o_price o) as [pp|]; [|simpl; naive_solver].
  destruct (negb (is_positive (price pp))); [simpl; naive_solver|].
  destruct (_ <? - _); [simpl; naive_solver|]. destruct (_ <? _); simpl; unfold gret; naive_solver.
Qed.

Lemma check_inner_honest pol a o d s : honest (check_inner pol a o d s).
Proof.
  unfold check_inner. apply honest_bind.
  { unfold usable_limits. destruct (standing pol (now a)); try done; destruct (limits pol); done. }
  intros _ l _. apply honest_bind.
  { unfold readable. destruct (negb _ || _ || _); [done|]. destruct (negb _); [done|]. by destruct (negb _). }
  intros _ _ _. apply honest_bind; [apply honest_lift|]. intros _ red _.
  apply honest_bind; [unfold check_state; honest|]. intros _ _ _.
  destruct (check_price pol a o) as [lp [[p|]| |e]] eqn:Ep.
  - apply honest_bind; [done|]. intros _ op [= _ <-]. apply honest_bind.
    { unfold check_universe. apply honest_bind; [destruct (bs_contains _ _); honest|intros _ _ _; honest]. }
    intros _ _ _. apply honest_bind; [apply honest_when|]. intros _ _ _. apply honest_bind; [apply honest_when|].
    intros _ _ _. apply honest_bind; [destruct (fst <$> s); honest|]. intros _ dm _.
    apply honest_bind.
    { unfold check_leverage. destruct (bool_decide (is_Some s)); [destruct red; honest|honest]. }
    intros _ _ _. apply honest_bind; [apply honest_lift|]. intros _ n _.
    apply honest_bind; [apply honest_lift|]. intros _ f _.
    apply honest_bind; [destruct red; [done|apply honest_caps]|]. intros _ _ _.
    apply honest_bind; [destruct (negb _ && _); [unfold check_churn; honest|done]|]. intros _ _ _.
    destruct red; [done|apply honest_funding].
  - apply check_price_none in Ep. unfold honest. simpl. destruct (let! _ := _ in _) as [l' c]. intros [= Hl _].
    by apply app_eq_nil in Hl as [-> _].
  - exfalso. revert Ep. unfold check_price. destruct (o_price o) as [pp|]; [|done].
    destruct (negb (is_positive (price pp))); [done|]. destruct (_ <? - _); [done|]. by destruct (_ <? _).
  - done.
Qed.

Lemma run_allow pol a o d s : allow (run pol a o d s) = true ↔ check_inner pol a o d s = ([], Next tt).
Proof.
  unfold run. pose proof (check_inner_honest pol a o d s) as Hh. unfold honest in Hh.
  destruct (check_inner pol a o d s) as [l [[]| |e]]; simpl; destruct l; simpl; naive_solver.
Qed.

Lemma run_nofail pol a o d s : has (run pol a o d s) ArithmeticOverflow = false → nofail (check_inner pol a o d s).
Proof.
  unfold run, has, nofail. destruct (check_inner pol a o d s) as [l [[]| |e]]; simpl; try done.
  rewrite existsb_app, orb_false_iff. by intros [_ Ho].
Qed.
End facts.

(** ** Properties *)

(** C1. The guard implements its specification exactly, on every entry point ([check], [check_margin],
    [check_signed]): an order is allowed only if it is [permitted] (every limit holds, in exact numbers, after the
    order), and a permitted order is allowed unless the check reports an arithmetic overflow. *)
Theorem guard_exact `{Chrono} pol a o d s :
  policy_ok pol → account_ok a → order_ok o → day_ok d → signed_ok s →
  (allow (run pol a o d s) = true → ∃ l p, permitted pol a o d s l p) ∧
  (has (run pol a o d s) ArithmeticOverflow = false → (∃ l p, permitted pol a o d s l p) →
     allow (run pol a o d s) = true).
Proof.
  intros Hpol Ha Ho Hd Hs. destruct (check_inner_agrees pol a o d s Hpol Ha Ho Hd Hs) as [Hto Hfrom].
  rewrite !run_allow. split; [done|]. intros Hn%run_nofail. by apply Hfrom.
Qed.

(** An account in good standing: 1030 USD of equity, most of it in SPY. *)
Module Sample.
Import Baseline.
Definition at_secs := Baseline.at_secs.

Definition spy (q value : string) : Position :=
  {| pos_symbol := "SPY"; pos_venue := "alpaca"; pos_asset_class := "us_etf"; pos_quantity := lit q;
     market_value := lit value |}.

Definition account (h : bool) (t : Z) : AccountView :=
  {| account_id := "acct"; acc_ccy := "USD"; equity := lit "1030"; cash := lit "60.5"; positions := [spy "2" "969.5"];
     halted := h; now := at_secs t |}.

Definition order (symbol : string) (side : Side) (q px : string) (t : Z) : ProposedOrder :=
  {| o_venue := "alpaca"; o_asset_class := "us_etf"; o_symbol := symbol; o_side := side; o_quantity := lit q;
     o_price := Some {| price := lit px; as_of := at_secs t |}; o_est_fee := ZERO; o_uses_margin := false;
     o_is_derivative := false; o_loss_rung_cover := false |}.

(** No deployment limit at all but a smaller turnover and position cap. *)
Definition small_caps : DeploymentLimits :=
  {| d_capital_allocation := None; d_max_position := Some (lit "0.2"); d_max_gross := None; d_max_net := None;
     d_max_order_notional := None; d_max_orders_per_day := None; d_max_turnover_per_day := Some (lit "0.1");
     d_min_cash_reserve := None; d_max_asset_class := [] |}.

Definition smaller_allocation : DeploymentLimits :=
  {| d_capital_allocation := Some (lit "1000"); d_max_position := None; d_max_gross := None; d_max_net := None;
     d_max_order_notional := None; d_max_orders_per_day := None; d_max_turnover_per_day := None;
     d_min_cash_reserve := None; d_max_asset_class := [] |}.

Definition account_okb (a : AccountView) : bool :=
  dec_okb (equity a) && dec_okb (cash a) &&
  forallb (fun p => dec_okb (pos_quantity p) && dec_okb (market_value p)) (positions a).

Lemma account_okb_spec a : account_okb a = true → account_ok a.
Proof.
  unfold account_okb. rewrite !andb_true_iff, forallb_forall. intros [[He Hc] Hp].
  assert (∀ p, p ∈ positions a → dec_ok (pos_quantity p) ∧ dec_ok (market_value p)) as Hps.
  { intros p Hin%list_elem_of_In. specialize (Hp p Hin). rewrite andb_true_iff in Hp. by rewrite !dec_okb_spec in Hp. }
  split; [by apply dec_okb_spec|by apply dec_okb_spec|intros p Hin; by apply Hps|intros p Hin; by apply Hps].
Qed.

Definition order_okb (o : ProposedOrder) : bool :=
  dec_okb (o_quantity o) && dec_okb (o_est_fee o) && match o_price o with Some pp => dec_okb (price pp) | None => true end.

Lemma order_okb_spec o : order_okb o = true → order_ok o.
Proof.
  unfold order_okb. rewrite !andb_true_iff, !dec_okb_spec. intros [[Hq Hf] Hp]. split; [done..|].
  intros pp Hpp. rewrite Hpp in Hp. by apply dec_okb_spec.
Qed.

Lemma no_orders_ok : day_ok no_orders_today.
Proof. apply ZERO_ok. Qed.

Lemma unsigned_ok : signed_ok None.
Proof. intros ? ? [=]. Qed.
End Sample.

Import Baseline.

Lemma guard_exact_witness :
  allow (run Baseline.policy (Sample.account false 2000) (Sample.order "SPY" Sell "0.5" "485" 1999) no_orders_today None) = true ∧
  ∃ l p, permitted Baseline.policy (Sample.account false 2000) (Sample.order "SPY" Sell "0.5" "485" 1999)
    no_orders_today None l p.
Proof.
  assert (allow (run Baseline.policy (Sample.account false 2000) (Sample.order "SPY" Sell "0.5" "485" 1999)
    no_orders_today None) = true) as Hallow by (vm_compute; reflexivity).
  split; [exact Hallow|].
  refine (proj1 (guard_exact _ _ _ _ _ Baseline.policy_wf _ _ Sample.no_orders_ok Sample.unsigned_ok) Hallow).
  - apply Sample.account_okb_spec. vm_compute. reflexivity.
  - apply Sample.order_okb_spec. vm_compute. reflexivity.
Defined.

(** ** No order without a mandate in force *)

(** The mandate has no violation and every number of it converts. *)
Definition mandate_sound `{Chrono, RustDecimal} (b : MandateBody) : Prop := validate b = [] ∧ ∃ l, convert b = Ok l.

(** An envelope says the mandate is active and effective by [t]; it may be past its review. *)
Definition in_force `{Chrono} (e : option MandateEnvelope) (t : DateTime) : Prop :=
  ∃ env, e = Some env ∧ env_status env = MandateStatus.Active ∧ 0 ≤ signed_duration_since t (effective_from env).

(** Nothing said about the mandate. *)
Definition other_codes {A} (m : guard A) : Prop :=
  Forall (λ r, d_code r ≠ MandateInvalid ∧ d_code r ≠ MandateNotActive) m.1.

Lemma other_bind {A B} (m : guard A) (k : A → guard B) : other_codes m → (∀ x, other_codes (k x)) → other_codes (gbind m k).
Proof.
  destruct m as [l [x| |e]]; unfold other_codes; simpl; try done. intros Hl Hk. specialize (Hk x). destruct (k x) as [l' c].
  simpl in *. by apply Forall_app_2.
Qed.

Lemma other_lift {A} (m : math A) : other_codes (lift m).
Proof. by destruct m; constructor. Qed.

Lemma other_ret {A} (x : A) : other_codes (gret x).
Proof. constructor. Qed.

Lemma other_deny {A} c msg (x : ctl A) : c ≠ MandateInvalid → c ≠ MandateNotActive →
  other_codes ([{| d_code := c; d_message := msg |}], x).
Proof. by repeat constructor. Qed.

Create HintDb stages.

(** One stage after another. *)
Ltac other :=
  lazymatch goal with
  | |- other_codes (gbind _ _) => apply other_bind; [other|intros ?; other]
  | |- other_codes (lift _) => apply other_lift
  | |- other_codes (gret _) => apply other_ret
  | |- other_codes (deny _ _) => apply other_deny; discriminate
  | |- other_codes (deny_return _ _) => apply other_deny; discriminate
  | |- other_codes ([], _) => constructor
  | |- other_codes (gwhen ?b _) => destruct b; [cbn [gwhen]; other|apply other_ret]
  | |- other_codes (let x := _ in _) => cbv zeta; other
  | |- other_codes (match ?x with _ => _ end) => destruct x; other
  | |- _ => solve [auto with stages]
  end.

Section stages.
Context `{Chrono}.

Lemma other_readable l a o : other_codes (readable l a o).
Proof. unfold readable. other. Qed.
Lemma other_state a x r : other_codes (check_state a x r).
Proof. unfold check_state. other. Qed.
Lemma other_price pol a o : other_codes (check_price pol a o).
Proof. unfold check_price. other. Qed.
Lemma other_universe l o : other_codes (check_universe l o).
Proof. unfold check_universe. other. Qed.
Lemma other_shorting l a o i r : other_codes (check_shorting l a o i r).
Proof. unfold check_shorting. other. Qed.
Lemma other_leverage l a o base red sg r p : other_codes (check_leverage l a o base red sg r p).
Proof. unfold check_leverage. other. Qed.
Lemma other_units a o r : other_codes (check_units a o r).
Proof. unfold check_units. other. Qed.
Lemma other_class l base c af : other_codes (check_class l base c af).
Proof. unfold check_class. other. Qed.
#[local] Hint Resolve other_units other_class : stages.
Lemma other_caps l a o base r n af : other_codes (check_caps l a o base r n af).
Proof. unfold check_caps. other. Qed.
Lemma other_churn l d base n : other_codes (check_churn l d base n).
Proof. unfold check_churn. other. Qed.
Lemma other_funding pol a o base p m dm af : other_codes (check_funding pol a o base p m dm af).
Proof. unfold check_funding. other. Qed.
#[local] Hint Resolve other_readable other_state other_price other_universe other_shorting other_leverage other_caps other_churn
  other_funding : stages.

(** Once there are limits to check against, no stage speaks of the mandate. *)
Lemma check_inner_other pol a o d s l : usable_limits pol (standing pol (now a)) = gret l → other_codes (check_inner pol a o d s).
Proof. intros Hl. unfold check_inner. cbv zeta. rewrite Hl. other. Qed.
End stages.

Lemma run_other `{Chrono} pol a o d s : other_codes (check_inner pol a o d s) →
  MandateInvalid ∉ codes (run pol a o d s) ∧ MandateNotActive ∉ codes (run pol a o d s).
Proof.
  unfold other_codes, run, codes. destruct (check_inner pol a o d s) as [l c]. cbn [fst reasons]. intros Hl.
  assert (Forall (λ r, d_code r ≠ MandateInvalid ∧ d_code r ≠ MandateNotActive)
    match c with Fail e => l ++ [{| d_code := ArithmeticOverflow; d_message := MathError.display e |}] | _ => l end) as Ha.
  { destruct c; [done..|]. apply Forall_app_2; [done|]. by repeat constructor. }
  rewrite Forall_forall in Ha. split; intros (r & Hr & Hin)%list_elem_of_fmap; apply Ha in Hin; by destruct Hin.
Qed.

(** The envelope alone decides whether a policy with limits may be used. *)
Lemma standing_in_force `{Chrono} pol l t : limits pol = Some l →
  (in_force (envelope pol) t ↔ standing pol t = Standing.Active ∨ standing pol t = Standing.Expired).
Proof.
  intros Hl. unfold standing, in_force. rewrite Hl. destruct (envelope pol) as [env|]; [|naive_solver].
  destruct (bool_decide_reflect (env_status env = MandateStatus.Active)) as [Hs|Hs]; simpl; [|naive_solver].
  unfold dt_ltb. destruct (Z.ltb_spec (signed_duration_since t (effective_from env)) 0).
  - split; [|naive_solver]. intros (e & [= <-] & _ & ?). lia.
  - split; [|by exists env]. intros _. destruct (dt_leb _ _); auto.
Qed.

(** C34. Without a mandate in force everything is denied, reductions included. A policy without limits (a compiled body has
    limits exactly when the mandate has no violation and its numbers convert) denies every order on every account with
    the single reason [MANDATE_INVALID]; one with limits and no envelope, an envelope that is not active (draft, revoked,
    ...), or one not yet effective, with the single reason [MANDATE_NOT_ACTIVE]; and with limits and an envelope in force
    neither reason is ever given. *)
Theorem unusable_mandate_denies_all `{Chrono} pol a o d s :
  (limits pol = None → allow (run pol a o d s) = false ∧ codes (run pol a o d s) = [MandateInvalid]) ∧
  (is_Some (limits pol) → ¬ in_force (envelope pol) (now a) →
     allow (run pol a o d s) = false ∧ codes (run pol a o d s) = [MandateNotActive]) ∧
  (is_Some (limits pol) → in_force (envelope pol) (now a) →
     MandateInvalid ∉ codes (run pol a o d s) ∧ MandateNotActive ∉ codes (run pol a o d s)) ∧
  (∀ `{RustDecimal, !MandateSerde, Sha256} b, is_Some (limits (compile b)) ↔ mandate_sound b).
Proof.
  split_and!.
  - intros Hl. unfold run, check_inner, codes, standing. by rewrite Hl.
  - intros [l Hl] Hn. rewrite (standing_in_force _ l) in Hn by done. unfold run, check_inner, codes.
    destruct (standing pol (now a)) eqn:Es; [naive_solver..|done|]. unfold standing in Es. rewrite Hl in Es. by repeat case_match.
  - intros [l Hl] Hf. rewrite (standing_in_force _ l) in Hf by done. apply run_other, (check_inner_other _ _ _ _ _ l).
    unfold usable_limits. by destruct Hf as [-> | ->]; rewrite Hl.
  - intros HR HM HS b. unfold limits, compile, mandate_sound. simpl. destruct (validate b) as [|v vs]; [|by split; intros [Hx Hy]].
    destruct (convert b) as [l|e]; simpl; [by split; [intros _; split; [|exists l]|eexists]|].
    split; [by intros [x Hx]|by intros [_ [l Hl]]].
Qed.

Lemma unusable_mandate_denies_all_witness :
  codes (run Baseline.body_policy (Sample.account false 2000) (Sample.order "SPY" Sell "0.5" "485" 1999)
    no_orders_today None) = [MandateNotActive].
Proof.
  apply (unusable_mandate_denies_all Baseline.body_policy (Sample.account false 2000)
    (Sample.order "SPY" Sell "0.5" "485" 1999) no_orders_today None); [by eexists; vm_compute|].
  intros (env & He & _). discriminate He.
Defined.

(** C17. De-risking is always open and nothing else is: on a halted account or an expired mandate every allowed order
    is a reduction, and a reduction there passes whatever the exposure caps, the cash reserve, the order count and the
    turnover say; it needs only a usable mandate, a well-formed order, a usable price, the instrument lists, the
    derivatives flag and (long-only path) the leverage flag. *)
Theorem halted_or_expired_only_reductions `{Chrono} pol a o d s :
  policy_ok pol → account_ok a → order_ok o → day_ok d → signed_ok s →
  halted a = true ∨ standing pol (now a) = Standing.Expired →
  (allow (run pol a o d s) = true → reducing_spec a o) ∧
  (reducing_spec a o → has (run pol a o d s) ArithmeticOverflow = false →
   standing pol (now a) = Standing.Active ∨ standing pol (now a) = Standing.Expired →
   ∀ l p, limits pol = Some l → readable_spec l a o → usable_price pol a o p → universe_spec l o →
     (o_is_derivative o = true → l_derivatives l = true) →
     (s = None → o_uses_margin o = true → ONE < atto (l_leverage_max_gross l)) →
     allow (run pol a o d s) = true).
Proof.
  intros Hpol Ha Ho Hd Hs Hde. destruct (check_inner_agrees pol a o d s Hpol Ha Ho Hd Hs) as [Hto Hfrom].
  rewrite !run_allow. split.
  - intros Hp. destruct (Hto Hp) as (l & p & Hperm). destruct Hde as [Hh|He]; [by apply (pm_halted _ _ _ _ _ _ _ Hperm)|].
    destruct (pm_standing _ _ _ _ _ _ _ Hperm) as [?|[_ ?]]; [congruence|done].
  - intros Hred Hn%run_nofail Hst l p Hl Hrd Hpr Hun Hder Hfl. apply run_allow, Hfrom; [done|]. exists l, p. split; try done.
    + destruct Hst as [?|?]; [by left|by right].
    + intros [Hsell Hlt]. unfold reducing_spec in Hred. rewrite Hsell in Hred. lia.
    + intros [[Hh He]|Hnr]; [|done]. destruct Hde; congruence.
Qed.

Lemma halted_or_expired_only_reductions_witness :
  allow (run Baseline.policy (Sample.account true 9500) (Sample.order "SPY" Sell "2" "485" 9500)
    {| orders_today := 1000; turnover_today := Baseline.lit "100000" |} None) = true.
Proof.
  assert (account_ok (Sample.account true 9500)) as Ha by (apply Sample.account_okb_spec; vm_compute; reflexivity).
  assert (order_ok (Sample.order "SPY" Sell "2" "485" 9500)) as Ho by (apply Sample.order_okb_spec; vm_compute; reflexivity).
  assert (day_ok {| orders_today := 1000; turnover_today := Baseline.lit "100000" |}) as Hd by
    (apply dec_okb_spec; vm_compute; reflexivity).
  refine (proj2 (halted_or_expired_only_reductions _ _ _ _ _ Baseline.policy_wf Ha Ho Hd Sample.unsigned_ok (or_introl eq_refl))
    _ _ _ Baseline.mandate_limits (Baseline.lit "485") Baseline.policy_limits _ _ _ _ _).
  - vm_compute. split; [reflexivity|discriminate].
  - vm_compute. reflexivity.
  - right. vm_compute. reflexivity.
  - unfold readable_spec. vm_compute. repeat split; discriminate.
  - eexists. repeat split; vm_compute; discriminate.
  - unfold universe_spec. vm_compute. repeat split.
  - discriminate.
  - discriminate.
Defined.

(** The order the guard evaluates: the halt is reported before the expiry. *)
Example halt_reported_before_expiry :
  codes (run Baseline.policy (Sample.account true 9500) (Sample.order "EFA" Buy "1" "10" 9500) no_orders_today None) =
  [AccountHalted; MandateExpired; CashReserve].
Proof. vm_compute. reflexivity. Qed.

(** A smaller capital allocation also lowers the cash reserve, so an order the mandate denies can pass. *)
Example allocation_lowers_the_reserve :
  codes (run Baseline.policy (Sample.account false 2000) (Sample.order "EFA" Buy "1" "10" 1999) no_orders_today None) =
    [CashReserve] ∧
  codes (run (with_deployment Baseline.policy Sample.smaller_allocation) (Sample.account false 2000)
    (Sample.order "EFA" Buy "1" "10" 1999) no_orders_today None) = [].
Proof. split; vm_compute; reflexivity. Qed.

(** ** Deployments *)

Section deployment.
Context `{Chrono}.

Lemma scaled_mono m m' base : 0 ≤ atto base → atto m' ≤ atto m → scaled m' base ≤ scaled m base.
Proof. intros Hb Hm. unfold scaled. apply Z.div_le_mono; [apply ONE_pos|]. nia. Qed.

Lemma cap_min_le c o : cap_min c o ≤ c.
Proof. unfold cap_min. destruct o; lia. Qed.

Lemma limits_deployment pol l d : limits pol = Some l → limits (with_deployment pol d) = Some (deploy_limits l d).
Proof. unfold limits, with_deployment. destruct (body pol); [|done]. by intros [= ->]. Qed.

Lemma standing_deployment pol d t : standing (with_deployment pol d) t = standing pol t.
Proof. unfold standing, limits, with_deployment. destruct (body pol) eqn:Eb; [done|]. by rewrite Eb. Qed.

Lemma age_deployment pol d : max_price_age_secs (with_deployment pol d) = max_price_age_secs pol.
Proof. unfold with_deployment. by destruct (body pol). Qed.

Lemma base_deployment pol d e c : d_capital_allocation d = None →
  capital_base (with_deployment pol d) e c = capital_base pol e c.
Proof.
  intros Hd. unfold capital_base, limits, with_deployment. destruct (body pol) eqn:Eb; [|by rewrite Eb].
  simpl. by rewrite Hd.
Qed.

Lemma gross_cap_mono l d r : limits_ok l → deployment_ok d → (∀ vr, r = Some vr → rule_ok vr) →
  atto (effective_gross_cap (deploy_limits l d) r) ≤ atto (effective_gross_cap l r).
Proof.
  intros Hl Hd Hr. destruct (deploy_facts l d Hl Hd) as (Hl' & _). destruct Hd as [Hopts _].
  rewrite !Forall_cons in Hopts. destruct Hopts as (_ & _ & Hg & _).
  assert (dec_ok (l_leverage_max_gross l)) by limit_field. assert (dec_ok (l_max_gross l)) by limit_field.
  assert (dec_ok (l_max_gross (deploy_limits l d))) by limit_field.
  assert (atto (l_max_gross (deploy_limits l d)) ≤ atto (l_max_gross l)).
  { simpl. rewrite tighten_atto by done. apply cap_min_le. }
  assert (dec_ok (dec_min (l_leverage_max_gross l) (l_max_gross l))) by (by apply dec_min_ok).
  assert (dec_ok (dec_min (l_leverage_max_gross l) (l_max_gross (deploy_limits l d)))) by (by apply dec_min_ok).
  unfold effective_gross_cap, rule_leverage. change (l_leverage_max_gross (deploy_limits l d)) with (l_leverage_max_gross l).
  destruct r as [vr|]; [destruct (max_leverage vr) as [v|] eqn:Ev|]; rewrite ?dec_min_atto; try done; try lia;
    by apply (proj1 (Hr vr eq_refl)).
Qed.

Lemma caps_deployment l a o base r p d : limits_ok l → deployment_ok d → 0 ≤ atto base →
  caps_spec (deploy_limits l d) a o base r p → caps_spec l a o base r p.
Proof.
  intros Hl Hd Hb [Hn Hp Hu Hc Hg Ht]. destruct (deploy_facts l d Hl Hd) as (Hl' & _ & Hclass). destruct Hd as [Hopts _].
  rewrite !Forall_cons in Hopts. destruct Hopts as (_ & Hop & Hog & Hon & Hom & _).
  assert (∀ x (f : Limits → Dec) o', opt_dec_ok o' → dec_ok (f l) → f (deploy_limits l d) = tighten (f l) o' →
    x ≤ scaled (f (deploy_limits l d)) base → x ≤ scaled (f l) base) as Hmono.
  { intros x f o' Ho' Hf -> Hx. etransitivity; [exact Hx|]. apply scaled_mono; [done|].
    rewrite tighten_atto by done. apply cap_min_le. }
  split; [| | done| | |].
  - etransitivity; [exact Hn|]. simpl. rewrite tighten_atto by (done || limit_field). apply cap_min_le.
  - eapply (Hmono _ l_max_position); [exact Hop|limit_field|done|exact Hp].
  - intros c Ec. specialize (Hclass (order_class o)). destruct (bt_get _ (order_class o)) as [c'|] eqn:Ec' in Hclass.
    + destruct Hclass as (_ & Hle & _). etransitivity; [by apply Hc|]. apply scaled_mono; [done|by apply Hle].
    + destruct Hclass as [Hnone _]. congruence.
  - eapply (Hmono _ l_max_gross); [exact Hog|limit_field|done|exact Hg].
  - eapply (Hmono _ l_max_net); [exact Hon|limit_field|done|exact Ht].
Qed.

Lemma churn_deployment l d base : limits_ok l → deployment_ok d → 0 ≤ atto base →
  l_max_orders_per_day (deploy_limits l d) ≤ l_max_orders_per_day l ∧
  scaled (l_max_turnover_per_day (deploy_limits l d)) base ≤ scaled (l_max_turnover_per_day l) base.
Proof.
  intros Hl [Hopts _] Hb. rewrite !Forall_cons in Hopts. destruct Hopts as (_ & _ & _ & _ & _ & Ht & _).
  assert (dec_ok (l_max_turnover_per_day l)) as Hok by limit_field. split.
  - cbn [l_max_orders_per_day deploy_limits]. destruct (d_max_orders_per_day d); lia.
  - apply scaled_mono; [done|]. cbn [l_max_turnover_per_day deploy_limits]. rewrite tighten_atto by done. apply cap_min_le.
Qed.

(** The reserve fits the unchecked rounding (see [reserve_amount_atto]). *)
Definition reserve_fits (l : Limits) (base : Dec) : Prop :=
  Z.abs (atto (l_min_cash_reserve l) * atto base / ONE) ≤ i128_max.

Lemma reserve_deployment pol l d base r r' : policy_ok pol → limits pol = Some l → deployment_ok d →
  dec_ok base → 0 ≤ atto base → reserve_fits l base → reserve_fits (deploy_limits l d) base →
  reserve_amount pol base = Ok r → reserve_amount (with_deployment pol d) base = Ok r' → atto r ≤ atto r'.
Proof.
  intros Hpol Hl Hd Hb Hb0 Hf Hf' Hr Hr'. destruct (deploy_facts l d (Hpol l Hl) Hd) as (Hl' & Hres & _).
  pose proof (limits_deployment pol l d Hl) as El'.
  assert (policy_ok (with_deployment pol d)) as Hpol' by (intros x Hx; by rewrite El' in Hx; injection Hx as <-).
  destruct (reserve_amount_atto pol l base r Hpol Hl Hb Hf Hr) as [_ ->].
  destruct (reserve_amount_atto _ _ base r' Hpol' El' Hb Hf' Hr') as [_ ->]. cbn [round_to].
  assert (atto (l_min_cash_reserve l) * atto base / ONE ≤ atto (l_min_cash_reserve (deploy_limits l d)) * atto base / ONE) as Hle.
  { apply Z.div_le_mono; [apply ONE_pos|]. rewrite Hres. nia. }
  pose proof (grain_pos 8 ltac:(unfold MAX_SCALE; lia)). apply Z.mul_le_mono_nonneg_r; [lia|].
  set (x := atto (l_min_cash_reserve l) * atto base / ONE) in *.
  set (y := atto (l_min_cash_reserve (deploy_limits l d)) * atto base / ONE) in *.
  enough (- y / grain 8 ≤ - x / grain 8) by lia.
  apply Z.div_le_mono; lia.
Qed.
End deployment.


