(* ===== verification/Planner.v ===== *)
(** * Planner: the order planner (crates/rebalancer-core/src/planner.rs)

    Sleeve targets in, an ordered list of guarded orders out. The planner is pure: [plan] threads the simulated
    account, the day counters and the remaining buying power through the orders it tries, each of which goes through
    the guard of [Guard]. A [for] loop that pushes to several vectors is a fold over a record of those vectors. *)

From Stdlib Require Import ZArith Lia String Ascii.
From S2P Require Import Prelude Text BTree F64 Externals Decimal DecMath Mandate Policy Broker Venue Guard.

Local Open Scope Z_scope.
Local Open Scope rust_scope.

(** ** Inputs *)

Definition MAX_ABS_WEIGHT_CAP : Z := 3.

Inductive WeightBounds := LongOnlyUnit | Signed (max_abs_weight : Dec).

Record TargetWeight := { tw_symbol : string; weight : Dec }.

Record SleeveTarget := {
  sleeve : string;
  share : Dec;
  t_venue : string;
  t_asset_class : string;
  weights : list TargetWeight;
}.

(** The two reference decisions come from another crate; only their instruments' symbols and weights are read. *)
Definition from_etf (sleeve : string) (share : Dec) (venue asset_class : string) (instruments : list (string * f64))
    : math SleeveTarget :=
  let? ws := try_map (fun '(s, w) => let? w := ratio_to_dec w Down in Ok {| tw_symbol := s; weight := w |}) instruments in
  Ok {| sleeve := sleeve; share := share; t_venue := venue; t_asset_class := asset_class; weights := ws |}.

Definition from_crypto (sleeve : string) (share : Dec) (venue asset_class quote : string)
    (instruments : list (string * f64)) : math SleeveTarget :=
  let? ws := try_map (fun '(s, w) =>
    let? w := ratio_to_dec w Down in Ok {| tw_symbol := s +:+ "/" +:+ quote; weight := w |}) instruments in
  Ok {| sleeve := sleeve; share := share; t_venue := venue; t_asset_class := asset_class; weights := ws |}.

Record PlanConfig `{Chrono} := {
  scheduled_for : DateTime;
  risk_scale : Dec;
  min_trade_abs : Dec;
  min_trade_pct : Dec;
  fee_rate : Dec;
  credit_sell_proceeds : bool;
  day : DayCounters;
  signed_sleeves : BTreeMap string Dec;
  buying_power : option Dec;
}.

Definition config_new `{Chrono} (at_ : DateTime) (scale min_abs min_pct fee : Dec) : PlanConfig :=
  {| scheduled_for := at_; risk_scale := scale; min_trade_abs := min_abs; min_trade_pct := min_pct; fee_rate := fee;
     credit_sell_proceeds := true; day := no_orders_today; signed_sleeves := []; buying_power := None |}.

Definition with_signed_sleeve `{Chrono} (c : PlanConfig) (id : string) (max_abs_weight : Dec) : PlanConfig :=
  {| scheduled_for := scheduled_for c; risk_scale := risk_scale c; min_trade_abs := min_trade_abs c;
     min_trade_pct := min_trade_pct c; fee_rate := fee_rate c; credit_sell_proceeds := credit_sell_proceeds c;
     day := day c; signed_sleeves := bt_insert (trim id) max_abs_weight (signed_sleeves c);
     buying_power := buying_power c |}.

Definition bounds_for `{Chrono} (c : PlanConfig) (id : string) : WeightBounds :=
  match bt_get (signed_sleeves c) (trim id) with
  | Some m => Signed m
  | None => LongOnlyUnit
  end.

Definition is_signed (b : WeightBounds) : bool := match b with Signed _ => true | LongOnlyUnit => false end.

(** ** Outputs *)

Record PlannedOrder := {
  tag : string;
  p_sleeve : string;
  p_venue : string;
  p_asset_class : string;
  p_symbol : string;
  p_side : Side;
  p_quantity : Dec;
  p_price : Dec;
  p_notional : Dec;
  p_est_fee : Dec;
}.

Record DeniedOrder := { denied_order : PlannedOrder; denial_reasons : list Denial }.

Module SkipReason.
Inductive t :=
| NoPrice
| NoVenueRules
| ShortPositionHeld
| BelowMinTradeAbs (delta min : Dec)
| BelowMinTradePct (delta min : Dec)
| VenueRefused (refusal : SizeRefusal.t)
| CutBelowVenueMinimum
| NoCashAvailable
| FlipCloseLegNotPlaced.
End SkipReason.

Record SkippedTrade := { s_symbol : string; s_sleeve : string; s_reason : SkipReason.t }.

Record InstrumentLine := {
  i_symbol : string;
  i_sleeve : string;
  i_held : Dec;
  current_notional : Dec;
  target_notional : Dec;
}.

Record MarginReport := {
  mr_signed : bool;
  needs_margin : bool;
  mr_buying_power : option Dec;
  mr_buying_power_left : option Dec;
  target_gross : Dec;
  projected_gross : Dec;
  margin_order_tags : list string;
}.

Definition long_only : MarginReport :=
  {| mr_signed := false; needs_margin := false; mr_buying_power := None; mr_buying_power_left := None;
     target_gross := ZERO; projected_gross := ZERO; margin_order_tags := [] |}.

Record OrderPlan `{Chrono} := {
  inputs_digest : string;
  pl_account_id : string;
  pl_scheduled_for : DateTime;
  pl_equity : Dec;
  pl_capital_base : Dec;
  pl_risk_scale : Dec;
  orders : list PlannedOrder;
  denied : list DeniedOrder;
  skipped : list SkippedTrade;
  lines : list InstrumentLine;
  margin : MarginReport;
}.

Module PlanError.
Inductive t :=
| BadRiskScale (scale : Dec)
| BadParam (what : string)
| BadShare (sleeve : string)
| SharesExceedOne (total : Dec)
| DuplicateSleeve (sleeve : string)
| BadWeight (sleeve symbol : string)
| WeightsExceedOne (sleeve : string)
| DuplicateWeight (sleeve symbol : string)
| InstrumentConflict (symbol : string)
| EquityInvalid (equity : Dec)
| VenueRoundedUp (symbol : string) (wished returned : Dec)
| DuplicateTag (tag : string)
| UnknownSignedSleeve (sleeve : string)
| BadMaxAbsWeight (sleeve : string) (max : Dec)
| BadSignedWeight (sleeve symbol : string) (max : Dec)
| BuyingPowerRequired (gross : Dec)
| GrossAboveCap (gross cap : Dec)
| Math (e : MathError).

(** The [thiserror] messages. *)
Definition display (e : t) : string :=
  match e with
  | BadRiskScale d => "risk_scale must be in (0, 1], got " +:+ to_string d
  | BadParam s => "bad parameter: " +:+ s
  | BadShare s => "sleeve " +:+ debug_str s +:+ ": share must be in (0, 1]"
  | SharesExceedOne d => "sleeve shares sum to " +:+ to_string d +:+ ", more than 1"
  | DuplicateSleeve s => "sleeve id " +:+ debug_str s +:+ " appears twice"
  | BadWeight s sym => "sleeve " +:+ debug_str s +:+ ": weight of " +:+ sym +:+ " must be in [0, 1]"
  | WeightsExceedOne s => "sleeve " +:+ debug_str s +:+ ": weights sum to more than 1"
  | DuplicateWeight s sym => "sleeve " +:+ debug_str s +:+ " lists " +:+ sym +:+ " twice"
  | InstrumentConflict s => s +:+ " is given different venues or asset classes by different sleeves"
  | EquityInvalid d => "account equity " +:+ to_string d +:+ " is not positive"
  | VenueRoundedUp s w r =>
      "venue rules rounded " +:+ s +:+ " UP (" +:+ to_string w +:+ " -> " +:+ to_string r +:+
      "); rules must only round down"
  | DuplicateTag s => "two orders got the same tag " +:+ s
  | UnknownSignedSleeve s => "signed sleeve " +:+ debug_str s +:+ " does not name any target sleeve"
  | BadMaxAbsWeight s m =>
      "signed sleeve " +:+ debug_str s +:+ ": max_abs_weight " +:+ to_string m +:+ " must be in (0, " +:+
      show_int MAX_ABS_WEIGHT_CAP +:+ "]"
  | BadSignedWeight s sym m =>
      "sleeve " +:+ debug_str s +:+ ": |weight| of " +:+ sym +:+ " exceeds the sleeve's max_abs_weight " +:+ to_string m
  | BuyingPowerRequired g =>
      "the targets need margin (a short, or gross " +:+ to_string g +:+ " above equity) and no buying_power was supplied"
  | GrossAboveCap g c => "target gross " +:+ to_string g +:+ " exceeds the mandate's gross cap " +:+ to_string c
  | Math e => MathError.display e
  end.
End PlanError.

Abbreviation PlanError := PlanError.t.
Abbreviation plan_result A := (result PlanError A).

(** [?] on a [MathError] ([#[from]]). *)
Definition lift_math {A} (m : math A) : plan_result A := map_err PlanError.Math m.

(** ** Tags *)

Section tags.
Context `{Chrono, Sha256}.

Definition tag_with (account : string) (at_ : DateTime) (sleeve symbol : string) (side : Side) (suffix : string)
    : string :=
  let sched := dt_compact at_ in
  let identity := "rebalance:" +:+ account +:+ ":" +:+ sched +:+ ":" +:+ sleeve +:+ ":" +:+ symbol +:+ ":" +:+
                  side_str side +:+ suffix in
  let hash := sha256_hex identity in
  let readable := to_uppercase (stake 10 (sfilter is_ascii_alphanumeric symbol)) in
  "rb1:" +:+ sched +:+ ":" +:+ readable +:+ ":" +:+ side_str side +:+ ":" +:+ stake 20 hash.

Definition client_tag (account : string) (at_ : DateTime) (sleeve symbol : string) (side : Side) : string :=
  tag_with account at_ sleeve symbol side EmptyString.

Definition client_tag_close_leg (account : string) (at_ : DateTime) (sleeve symbol : string) (side : Side) : string :=
  tag_with account at_ sleeve symbol side ":close".
End tags.

(** ** Helpers *)

Record Managed := {
  m_symbol : string;
  m_venue : string;
  m_asset_class : string;
  m_sleeves : BTreeSet string;
  m_weight : Dec;
  m_signed : bool;
}.

Definition sleeve_label (m : Managed) : string := join "+" (bs_elements (m_sleeves m)).

Inductive Leg := Whole | Close | Open.

#[export] Instance leg_eq_dec : EqDecision Leg.
Proof. solve_decision. Defined.

Record Candidate `{Chrono} := {
  c_m : Managed;
  c_side : Side;
  c_qty : Dec;
  c_price : PricePoint;
  c_reducing : bool;
  c_leg : Leg;
}.

Definition key (s : string) : string := to_uppercase (trim s).

Definition fee_for (notional rate : Dec) : math Dec := let? m := mul notional rate in or_overflow (round_dp m 8 Ceil).

Definition dtxt (d : Dec) : string := to_string (normalized d).

(** Round a target to 8 digits toward zero. *)
Definition round_toward_zero (v : Dec) : math Dec :=
  let down x := or_overflow (round_dp x 8 Floor) in
  if is_negative v then let? a := DecMath.abs v in let? r := down a in neg r else down v.

(** ** Validation of the inputs *)

Section planner.
Context `{Chrono, Sha256}.

Definition require (b : bool) (e : PlanError) : plan_result unit := if b then Ok tt else Err e.

Definition check_signed_sleeve (targets : list SleeveTarget) (e : string * Dec) : plan_result unit :=
  let '(id, max) := e in
  let? _ := require (existsb (fun t => String.eqb (trim (sleeve t)) id) targets) (PlanError.UnknownSignedSleeve id) in
  require (negb (dec_leb max ZERO || dec_ltb (from_i64 MAX_ABS_WEIGHT_CAP) max)) (PlanError.BadMaxAbsWeight id max).

(** One weight: its bounds, that it is not a repetition, and the running sum. *)
Definition check_weight (t : SleeveTarget) (bounds : WeightBounds) (acc : BTreeSet string * Dec) (w : TargetWeight)
    : plan_result (BTreeSet string * Dec) :=
  let '(symbols, total) := acc in
  let? _ :=
    match bounds with
    | LongOnlyUnit =>
        require (negb (is_negative (weight w) || dec_ltb one (weight w))) (PlanError.BadWeight (sleeve t) (tw_symbol w))
    | Signed m =>
        let? a := lift_math (DecMath.abs (weight w)) in
        require (negb (dec_ltb m a)) (PlanError.BadSignedWeight (sleeve t) (tw_symbol w) m)
    end in
  let? _ := require (negb (bs_contains symbols (key (tw_symbol w)))) (PlanError.DuplicateWeight (sleeve t) (tw_symbol w)) in
  let? total := lift_math (add total (weight w)) in
  Ok (bs_insert (key (tw_symbol w)) symbols, total).

Definition check_sleeve (cfg : PlanConfig) (acc : BTreeSet string * Dec) (t : SleeveTarget)
    : plan_result (BTreeSet string * Dec) :=
  let '(seen, total_share) := acc in
  let? _ := require (negb (bs_contains seen (trim (sleeve t)))) (PlanError.DuplicateSleeve (sleeve t)) in
  let? _ := require (negb (dec_leb (share t) ZERO || dec_ltb one (share t))) (PlanError.BadShare (sleeve t)) in
  let? total_share := lift_math (add total_share (share t)) in
  let bounds := bounds_for cfg (sleeve t) in
  let? (_, total_weight) := try_fold (check_weight t bounds) ([], ZERO) (weights t) in
  let? _ := require (negb (negb (is_signed bounds) && dec_ltb one total_weight)) (PlanError.WeightsExceedOne (sleeve t)) in
  Ok (bs_insert (trim (sleeve t)) seen, total_share).

Definition check_params (account : AccountView) (cfg : PlanConfig) : plan_result unit :=
  let? _ := require (negb (dec_leb (risk_scale cfg) ZERO || dec_ltb one (risk_scale cfg)))
    (PlanError.BadRiskScale (risk_scale cfg)) in
  let? _ := require (negb (is_negative (min_trade_abs cfg))) (PlanError.BadParam "min_trade_abs must not be negative") in
  let? _ := require (negb (is_negative (min_trade_pct cfg) || dec_leb one (min_trade_pct cfg)))
    (PlanError.BadParam "min_trade_pct must be in [0, 1)") in
  let? _ := require (negb (is_negative (fee_rate cfg) || dec_leb one (fee_rate cfg)))
    (PlanError.BadParam "fee_rate must be in [0, 1)") in
  let? _ := require (is_positive (equity account)) (PlanError.EquityInvalid (equity account)) in
  require (negb (match buying_power cfg with Some bp => is_negative bp | None => false end))
    (PlanError.BadParam "buying_power must not be negative").

Definition validate (targets : list SleeveTarget) (account : AccountView) (cfg : PlanConfig) : plan_result unit :=
  let? _ := check_params account cfg in
  let? _ := try_map (check_signed_sleeve targets) (signed_sleeves cfg) in
  let? (_, total_share) := try_fold (check_sleeve cfg) ([], ZERO) targets in
  require (negb (dec_ltb one total_share)) (PlanError.SharesExceedOne total_share).

(** ** Aggregation over the sleeves *)

Definition add_weight (cfg : PlanConfig) (t : SleeveTarget) (map : BTreeMap string Managed) (w : TargetWeight)
    : plan_result (BTreeMap string Managed) :=
  let signed := is_signed (bounds_for cfg (sleeve t)) in
  let k := key (tw_symbol w) in
  let? contribution := lift_math (mul (share t) (weight w)) in
  let venue := to_lowercase (trim (t_venue t)) in
  let class := to_lowercase (trim (t_asset_class t)) in
  match bt_get map k with
  | Some m =>
      let? _ := require (negb (negb (String.eqb (m_venue m) venue) || negb (String.eqb (m_asset_class m) class)))
        (PlanError.InstrumentConflict k) in
      let? total := lift_math (add (m_weight m) contribution) in
      Ok (bt_insert k
        {| m_symbol := m_symbol m; m_venue := m_venue m; m_asset_class := m_asset_class m;
           m_sleeves := bs_insert (trim (sleeve t)) (m_sleeves m); m_weight := total;
           m_signed := m_signed m || signed |} map)
  | None =>
      Ok (bt_insert k
        {| m_symbol := k; m_venue := venue; m_asset_class := class; m_sleeves := bs_of_list [trim (sleeve t)];
           m_weight := contribution; m_signed := signed |} map)
  end.

Definition aggregate (targets : list SleeveTarget) (cfg : PlanConfig) : plan_result (BTreeMap string Managed) :=
  try_fold (fun map t => try_fold (add_weight cfg t) map (weights t)) [] targets.

(** ** The simulated account *)

Definition with_positions (a : AccountView) (ps : list Position) (c : Dec) : AccountView :=
  {| account_id := account_id a; acc_ccy := acc_ccy a; equity := equity a; cash := c; positions := ps;
     halted := halted a; now := now a |}.

Definition move_position (p : Position) (q v : Dec) : math Position :=
  let? q := add (pos_quantity p) q in
  let? v := add (market_value p) v in
  Ok {| pos_symbol := pos_symbol p; pos_venue := pos_venue p; pos_asset_class := pos_asset_class p;
        pos_quantity := q; market_value := v |}.

(** [iter_mut().find(..)], or push. *)
Fixpoint update_position (ps : list Position) (m : Managed) (q v : Dec) : math (list Position) :=
  match ps with
  | [] =>
      Ok [{| pos_symbol := m_symbol m; pos_venue := m_venue m; pos_asset_class := m_asset_class m;
             pos_quantity := q; market_value := v |}]
  | p :: ps' =>
      if eq_ignore_ascii_case (pos_symbol p) (m_symbol m) then
        let? p := move_position p q v in Ok (p :: ps')
      else
        let? ps' := update_position ps' m q v in Ok (p :: ps')
  end.

Definition apply (sim : AccountView) (d : DayCounters) (m : Managed) (side : Side) (qty price fee : Dec)
    : math (AccountView * DayCounters) :=
  let? notional := mul qty price in
  let? (signed_qty, signed_value) :=
    match side with
    | Buy => Ok (qty, notional)
    | Sell => let? q := neg qty in let? v := neg notional in Ok (q, v)
    end in
  let? ps := update_position (positions sim) m signed_qty signed_value in
  let? c := sub (cash sim) signed_value in
  let? c := sub c fee in
  let? turnover := add (turnover_today d) notional in
  Ok (with_positions sim ps c,
      {| orders_today := u32_saturating_add (orders_today d) 1; turnover_today := turnover |}).

(** [prices.iter().map(|(k, v)| (key(k), *v)).collect()] *)
Definition rekey (prices : BTreeMap string PricePoint) : BTreeMap string PricePoint :=
  bt_of_list ((fun kv => (key kv.1, kv.2)) <$> prices).

(** Positions valued at the plan's own prices where it has one. *)
Definition revalue (prices : BTreeMap string PricePoint) (p : Position) : plan_result Position :=
  match bt_get prices (key (pos_symbol p)) with
  | Some px =>
      let? v := lift_math (mul (pos_quantity p) (price px)) in
      Ok {| pos_symbol := pos_symbol p; pos_venue := pos_venue p; pos_asset_class := pos_asset_class p;
            pos_quantity := pos_quantity p; market_value := v |}
  | None => Ok p
  end.

(** ** One instrument: what to trade *)

(** What the loop over the instruments pushes to. *)
Record Draft := {
  dr_lines : list InstrumentLine;
  dr_skipped : list SkippedTrade;
  dr_reducers : list Candidate;
  dr_increasers : list Candidate;
}.

Definition skip (m : Managed) (r : SkipReason.t) : SkippedTrade :=
  {| s_symbol := m_symbol m; s_sleeve := sleeve_label m; s_reason := r |}.

Definition skip_trade (d : Draft) (s : SkippedTrade) : Draft :=
  {| dr_lines := dr_lines d; dr_skipped := dr_skipped d ++ [s]; dr_reducers := dr_reducers d;
     dr_increasers := dr_increasers d |}.

Definition add_line (d : Draft) (l : InstrumentLine) : Draft :=
  {| dr_lines := dr_lines d ++ [l]; dr_skipped := dr_skipped d; dr_reducers := dr_reducers d;
     dr_increasers := dr_increasers d |}.

(** The legs of a trade: (leg, side, wished quantity, reducing). *)
Definition plan_legs (p held current target delta abs_delta : Dec) : plan_result (list (Leg * Side * Dec * bool)) :=
  let? held_abs := lift_math (DecMath.abs held) in
  if (is_positive current && is_negative target) || (is_negative current && is_positive target) then
    let close_side := if is_positive held then Sell else Buy in
    let open_side := if is_positive target then Buy else Sell in
    let? t := lift_math (DecMath.abs target) in
    let? q := lift_math (div_floor t p 18) in
    Ok [(Close, close_side, held_abs, true); (Open, open_side, q, false)]
  else
    let side := if is_positive delta then Buy else Sell in
    let reduction :=
      (bool_decide (side = Sell) && is_positive held) || (bool_decide (side = Buy) && is_negative held) in
    let? wished :=
      if negb reduction then lift_math (div_floor abs_delta p 18)
      else if is_zero target then Ok held_abs
      else let? q := lift_math (div_floor abs_delta p 18) in Ok (dec_min q held_abs) in
    Ok [(Whole, side, wished, reduction)].

(** Sizing the legs: the candidates, and the refusals. A refused close leg drops the whole trade. *)
Fixpoint size_legs (r : VenueRules) (m : Managed) (px : PricePoint) (legs : list (Leg * Side * Dec * bool))
    (pending : list Candidate) (residual : Dec) (refused : list SkippedTrade)
    : plan_result (list Candidate * list SkippedTrade) :=
  match legs with
  | [] => Ok (pending, refused)
  | (leg, side, wished, reducing) :: legs' =>
      let? wished := if bool_decide (leg = Open) then lift_math (add wished residual) else Ok wished in
      match round_quantity r (m_symbol m) side wished (price px) with
      | Err refusal =>
          let refused := refused ++ [skip m (SkipReason.VenueRefused refusal)] in
          if bool_decide (leg = Close) then Ok ([], refused)
          else size_legs r m px legs' pending residual refused
      | Ok qty =>
          let? _ := require (negb (dec_ltb wished qty)) (PlanError.VenueRoundedUp (m_symbol m) wished qty) in
          let? residual := if bool_decide (leg = Close) then lift_math (sub wished qty) else Ok residual in
          size_legs r m px legs'
            (pending ++ [{| c_m := m; c_side := side; c_qty := qty; c_price := px; c_reducing := reducing;
                            c_leg := leg |}]) residual refused
      end
  end.

Definition push_pending (d : Draft) (pending : list Candidate) (refused : list SkippedTrade) : Draft :=
  {| dr_lines := dr_lines d; dr_skipped := dr_skipped d ++ refused;
     dr_reducers := dr_reducers d ++ List.filter (fun c => c_reducing c) pending;
     dr_increasers := dr_increasers d ++ List.filter (fun c => negb (c_reducing c)) pending |}.

Definition usable (prices : BTreeMap string PricePoint) (symbol : string) : option PricePoint :=
  match bt_get prices symbol with
  | Some p => if is_positive (price p) then Some p else None
  | None => None
  end.

(** The target notional of an instrument. *)
Definition target_of (cfg : PlanConfig) (capital_base : Dec) (m : Managed) : math Dec :=
  let? x := mul capital_base (m_weight m) in
  let? x := mul x (risk_scale cfg) in
  round_toward_zero x.

(** The trade below the minimums, if it is: why it is skipped. *)
Definition below_minimum (cfg : PlanConfig) (current target abs_delta : Dec) : math (option SkipReason.t) :=
  if dec_ltb abs_delta (min_trade_abs cfg) then Ok (Some (SkipReason.BelowMinTradeAbs abs_delta (min_trade_abs cfg)))
  else
    let? reference := if is_zero target then DecMath.abs current else DecMath.abs target in
    let? pct_min := mul (min_trade_pct cfg) reference in
    if dec_ltb abs_delta pct_min then Ok (Some (SkipReason.BelowMinTradePct abs_delta pct_min)) else Ok None.

Definition consider (account : AccountView) (prices : BTreeMap string PricePoint) (book : VenueRuleBook)
    (cfg : PlanConfig) (capital_base : Dec) (d : Draft) (m : Managed) : plan_result Draft :=
  match usable prices (m_symbol m) with
  | None => Ok (skip_trade d (skip m SkipReason.NoPrice))
  | Some px =>
      match book_get book (m_venue m) with
      | None => Ok (skip_trade d (skip m SkipReason.NoVenueRules))
      | Some r =>
          let held := held account (m_symbol m) in
          if is_negative held && negb (m_signed m) then Ok (skip_trade d (skip m SkipReason.ShortPositionHeld))
          else
            let? current := lift_math (mul held (price px)) in
            let? target := lift_math (target_of cfg capital_base m) in
            let d := add_line d {| i_symbol := m_symbol m; i_sleeve := sleeve_label m; i_held := held;
                                   current_notional := current; target_notional := target |} in
            let? delta := lift_math (sub target current) in
            if is_zero delta then Ok d
            else
              let? abs_delta := lift_math (DecMath.abs delta) in
              let? small := lift_math (below_minimum cfg current target abs_delta) in
              match small with
              | Some why => Ok (skip_trade d (skip m why))
              | None =>
                  let? legs := plan_legs (price px) held current target delta abs_delta in
                  let? (pending, refused) := size_legs r m px legs [] ZERO [] in
                  Ok (push_pending d pending refused)
              end
      end
  end.

(** ** Margin need of a signed plan *)

Definition margin_report (policy : Policy) (sim : AccountView) (cfg : PlanConfig) (capital_base : Dec)
    (ls : list InstrumentLine) : plan_result MarginReport :=
  let? (tg, named) := try_fold (fun '(tg, named) l =>
    let? a := lift_math (DecMath.abs (target_notional l)) in
    let? tg := lift_math (add tg a) in
    Ok (tg, bs_insert (key (i_symbol l)) named)) (ZERO, []) ls in
  let? projected := try_fold (fun acc p =>
    if bs_contains named (key (pos_symbol p)) then Ok acc
    else let? a := lift_math (DecMath.abs (market_value p)) in lift_math (add acc a)) tg (positions sim) in
  let? _ :=
    match limits policy with
    | Some l =>
        let? cap := lift_math (mul (l_max_gross l) capital_base) in
        require (negb (dec_ltb cap tg)) (PlanError.GrossAboveCap tg cap)
    | None => Ok tt
    end in
  let need := existsb (fun l => is_negative (target_notional l)) ls || dec_ltb (equity sim) projected in
  let? _ := require (negb (need && negb (bool_decide (is_Some (buying_power cfg))))) (PlanError.BuyingPowerRequired projected) in
  Ok {| mr_signed := true; needs_margin := need; mr_buying_power := buying_power cfg;
        mr_buying_power_left := buying_power cfg; target_gross := tg; projected_gross := projected;
        margin_order_tags := [] |}.

(** ** Trying an order *)

(** What the orders tried so far leave behind. *)
Record Book := {
  bk_sim : AccountView;
  bk_day : DayCounters;
  bk_power : option Dec;
  bk_orders : list PlannedOrder;
  bk_denied : list DeniedOrder;
  bk_margin_tags : list string;
}.

Definition proposal (c : Candidate) (qty fee : Dec) (margin : bool) : ProposedOrder :=
  {| o_venue := m_venue (c_m c); o_asset_class := m_asset_class (c_m c); o_symbol := m_symbol (c_m c);
     o_side := c_side c; o_quantity := qty; o_price := Some (c_price c); o_est_fee := fee; o_uses_margin := margin;
     o_is_derivative := false; o_loss_rung_cover := false |}.

(** The guard's verdict on a candidate, with the margin flag that was put on the order. *)
Definition verdict_on (policy : Policy) (instruments : InstrumentRules) (signed : bool) (b : Book) (c : Candidate)
    (qty fee : Dec) : plan_result (Verdict * bool) :=
  if signed then
    let? uses := lift_math (margin_use (bk_sim b) (proposal c qty fee false) (price (c_price c))) in
    Ok (check_signed policy (bk_sim b) (proposal c qty fee uses) (bk_day b)
          {| buying_power_left := bk_power b |} instruments, uses)
  else Ok (check policy (bk_sim b) (proposal c qty fee false) (bk_day b), false).

Definition planned_order (account : AccountView) (cfg : PlanConfig) (c : Candidate) (qty notional fee : Dec)
    : PlannedOrder :=
  let tag_of := if bool_decide (c_leg c = Close) then client_tag_close_leg else client_tag in
  {| tag := tag_of (account_id account) (scheduled_for cfg) (sleeve_label (c_m c)) (m_symbol (c_m c)) (c_side c);
     p_sleeve := sleeve_label (c_m c); p_venue := m_venue (c_m c); p_asset_class := m_asset_class (c_m c);
     p_symbol := m_symbol (c_m c); p_side := c_side c; p_quantity := qty; p_price := price (c_price c);
     p_notional := notional; p_est_fee := fee |}.

Definition try_order (policy : Policy) (account : AccountView) (instruments : InstrumentRules) (cfg : PlanConfig)
    (signed : bool) (b : Book) (c : Candidate) (qty : Dec) : plan_result (Book * bool) :=
  let? notional := lift_math (mul qty (price (c_price c))) in
  let? fee := lift_math (fee_for notional (fee_rate cfg)) in
  let? (verdict, uses) := verdict_on policy instruments signed b c qty fee in
  let planned := planned_order account cfg c qty notional fee in
  if allow verdict then
    let? (sim, d) := lift_math (apply (bk_sim b) (bk_day b) (c_m c) (c_side c) qty (price (c_price c)) fee) in
    let? power :=
      match bk_power b with
      | Some bp =>
          if c_reducing c then Ok (Some bp)
          else let? x := lift_math (sub bp notional) in let? x := lift_math (sub x fee) in Ok (Some x)
      | None => Ok None
      end in
    Ok ({| bk_sim := sim; bk_day := d; bk_power := power; bk_orders := bk_orders b ++ [planned];
           bk_denied := bk_denied b;
           bk_margin_tags := if uses then bk_margin_tags b ++ [tag planned] else bk_margin_tags b |}, true)
  else
    Ok ({| bk_sim := bk_sim b; bk_day := bk_day b; bk_power := bk_power b; bk_orders := bk_orders b;
           bk_denied := bk_denied b ++ [{| denied_order := planned; denial_reasons := reasons verdict |}];
           bk_margin_tags := bk_margin_tags b |}, false).

(** ** The budget of the increasing orders *)

Definition cost (cfg : PlanConfig) (c : Candidate) : math Dec :=
  let? n := mul (c_qty c) (price (c_price c)) in
  let? f := fee_for n (fee_rate cfg) in
  add n f.

(** One order scaled by the common factor and rounded down again by its venue. *)
Definition rescale (book : VenueRuleBook) (factor : Dec) (c : Candidate) : plan_result Dec :=
  let? x := lift_math (mul (c_qty c) factor) in
  let? scaled := lift_math (or_overflow (round_dp x 18 Floor)) in
  if is_zero scaled then Ok ZERO
  else
    match book_get book (m_venue (c_m c)) with
    | None => Ok ZERO
    | Some r =>
        match round_quantity r (m_symbol (c_m c)) (c_side c) scaled (price (c_price c)) with
        | Err _ => Ok ZERO
        | Ok rounded =>
            if dec_leb rounded scaled then Ok rounded
            else Err (PlanError.VenueRoundedUp (m_symbol (c_m c)) scaled rounded)
        end
    end.

(** The quantities of the increasing orders that fit the money available. *)
Definition fit_buys (book : VenueRuleBook) (cfg : PlanConfig) (available : Dec) (buys : list Candidate)
    : plan_result (list Dec) :=
  match buys with
  | [] => Ok []
  | _ =>
      let? costs := lift_math (try_map (cost cfg) buys) in
      let? total := lift_math (sum costs) in
      if dec_ltb available total then
        let? unit := lift_math (or_overflow (dec_new 1 8)) in
        let? slack := lift_math (mul unit (from_i64 (Z.min (Z.of_nat (length buys)) i64_max))) in
        let? usable := lift_math (sub available slack) in
        let? factor := if is_positive usable then lift_math (div_floor usable total 18) else Ok ZERO in
        try_map (rescale book factor) buys
      else Ok (c_qty <$> buys)
  end.

(** ** The digest of the inputs *)

Definition policy_debug (p : Policy) : string :=
  debug_option (fun e =>
    "(" +:+ show_int (env_version e) +:+ ", " +:+ MandateStatus.debug (env_status e) +:+ ", " +:+
    debug_str (dt_to_rfc3339 (effective_from e)) +:+ ", " +:+ debug_str (dt_to_rfc3339 (review_by e)) +:+ ")") (envelope p).

Definition digest_inputs (targets : list SleeveTarget) (account : AccountView) (prices : BTreeMap string PricePoint)
    (book : VenueRuleBook) (policy : Policy) (cfg : PlanConfig) (managed : BTreeMap string Managed) : string :=
  let account_line := "account|" +:+ join "|"
    [account_id account; acc_ccy account; dtxt (equity account); dtxt (cash account); show_bool (halted account);
     dt_to_rfc3339 (now account)] in
  let position_lines := sort_by key_gt ((fun p => "pos|" +:+ join "|"
    [key (pos_symbol p); to_lowercase (pos_venue p); to_lowercase (pos_asset_class p); dtxt (pos_quantity p);
     dtxt (market_value p)]) <$> positions account) in
  let price_lines := (fun kv => "price|" +:+ join "|" [kv.1; dtxt (price kv.2); dt_to_rfc3339 (as_of kv.2)]) <$> prices in
  let target_lines := sort_by key_gt ((fun t => "target|" +:+ join "|"
    [trim (sleeve t); dtxt (share t); to_lowercase (trim (t_venue t)); to_lowercase (trim (t_asset_class t));
     join "," (sort_by key_gt ((fun w => key (tw_symbol w) +:+ "=" +:+ dtxt (weight w)) <$> weights t))]) <$> targets) in
  let policy_line := "policy|" +:+ join "|"
    [body_hash policy; policy_debug policy; show_int (max_price_age_secs policy)] in
  let cfg_line := "cfg|" +:+ join "|"
    [dt_to_rfc3339 (scheduled_for cfg); dtxt (risk_scale cfg); dtxt (min_trade_abs cfg); dtxt (min_trade_pct cfg);
     dtxt (fee_rate cfg); show_bool (credit_sell_proceeds cfg); show_int (orders_today (day cfg));
     dtxt (turnover_today (day cfg))] in
  let signed_lines :=
    match signed_sleeves cfg with
    | [] => []
    | _ =>
        ((fun e => "signed|" +:+ e.1 +:+ "|" +:+ dtxt e.2) <$> signed_sleeves cfg) ++
        ["buying_power|" +:+ match buying_power cfg with Some d => dtxt d | None => "-" end] ++
        ((fun m => "instrument_rule|" +:+ join "|"
            [m_venue m; m_symbol m; instrument_fingerprint (instrument_rules book) (m_venue m) (m_symbol m)])
         <$> bt_values managed)
    end in
  let rule_lines := flat_map (fun m =>
    match book_get book (m_venue m) with
    | Some r => ["rules|" +:+ fingerprint r (m_symbol m)]
    | None => []
    end) (bt_values managed) in
  sha256_hex (join newline
    (["rb-plan-digest-v1"; account_line] ++ position_lines ++ price_lines ++ target_lines ++
     [policy_line; cfg_line] ++ signed_lines ++ rule_lines)).

(** ** The plan *)

Definition candidate_gt (a b : Candidate) : bool :=
  key_gt (m_venue (c_m a), m_symbol (c_m a)) (m_venue (c_m b), m_symbol (c_m b)).

Definition signed_plan (cfg : PlanConfig) : bool := match signed_sleeves cfg with [] => false | _ => true end.

(** One reduction; the symbols whose close leg was placed are remembered. *)
Definition try_reduction (policy : Policy) (account : AccountView) (book : VenueRuleBook) (cfg : PlanConfig)
    (acc : Book * BTreeSet string) (c : Candidate) : plan_result (Book * BTreeSet string) :=
  let '(b, closed) := acc in
  let? (b, placed) := try_order policy account (instrument_rules book) cfg (signed_plan cfg) b c (c_qty c) in
  Ok (b, if placed && bool_decide (c_leg c = Close) then bs_insert (m_symbol (c_m c)) closed else closed).

(** The open leg of a crossing trade only follows an accepted close leg. *)
Definition orphan (closed : BTreeSet string) (c : Candidate) : bool :=
  bool_decide (c_leg c = Open) && negb (bs_contains closed (m_symbol (c_m c))).

(** One increase with its fitted quantity. *)
Definition try_increase (policy : Policy) (account : AccountView) (book : VenueRuleBook) (cfg : PlanConfig)
    (available : Dec) (acc : Book * list SkippedTrade) (cq : Candidate * Dec) : plan_result (Book * list SkippedTrade) :=
  let '(b, sk) := acc in
  let '(c, q) := cq in
  if is_zero q then
    Ok (b, sk ++ [skip (c_m c) (if is_positive available then SkipReason.CutBelowVenueMinimum
                                else SkipReason.NoCashAvailable)])
  else
    let? (b, _) := try_order policy account (instrument_rules book) cfg (signed_plan cfg) b c q in
    Ok (b, sk).

(** What the increasing orders may spend, before the reserve. *)
Definition budget (account : AccountView) (cfg : PlanConfig) (sim : AccountView) : Dec :=
  match signed_plan cfg, buying_power cfg with
  | true, Some bp => bp
  | _, _ => if credit_sell_proceeds cfg then cash sim else dec_min (cash sim) (cash account)
  end.

Definition check_tags (b : Book) : plan_result unit :=
  match all_fresh [] ((tag <$> bk_orders b) ++ ((fun d => tag (denied_order d)) <$> bk_denied b)) with
  | Some t => Err (PlanError.DuplicateTag t)
  | None => Ok tt
  end.

Definition start (account : AccountView) (cfg : PlanConfig) (sim : AccountView) (mr : MarginReport) : Book :=
  {| bk_sim := sim; bk_day := day cfg; bk_power := mr_buying_power_left mr; bk_orders := []; bk_denied := [];
     bk_margin_tags := [] |}.

Definition plan (targets : list SleeveTarget) (account : AccountView) (prices : BTreeMap string PricePoint)
    (book : VenueRuleBook) (policy : Policy) (cfg : PlanConfig) : plan_result OrderPlan :=
  let? _ := validate targets account cfg in
  let? managed := aggregate targets cfg in
  let prices := rekey prices in
  let base := capital_base policy (equity account) (acc_ccy account) in
  let? ps := try_map (revalue prices) (positions account) in
  let sim := with_positions account ps (cash account) in
  let? d := try_fold (consider account prices book cfg base)
    {| dr_lines := []; dr_skipped := []; dr_reducers := []; dr_increasers := [] |} (bt_values managed) in
  let? mr := if signed_plan cfg then margin_report policy sim cfg base (dr_lines d) else Ok long_only in
  let reducers := sort_by candidate_gt (dr_reducers d) in
  let increasers := sort_by candidate_gt (dr_increasers d) in
  let? (b, closed) := try_fold (try_reduction policy account book cfg) (start account cfg sim mr, []) reducers in
  let sk := dr_skipped d ++
    ((fun c => skip (c_m c) SkipReason.FlipCloseLegNotPlaced) <$> List.filter (orphan closed) increasers) in
  let buys := List.filter (fun c => negb (orphan closed c)) increasers in
  let? reserve := lift_math (reserve_amount policy base) in
  let? available := lift_math (sub (budget account cfg (bk_sim b)) reserve) in
  let? qtys := fit_buys book cfg available buys in
  let? (b, sk) := try_fold (try_increase policy account book cfg available) (b, sk) (zip buys qtys) in
  let? _ := check_tags b in
  Ok {| inputs_digest := digest_inputs targets account prices book policy cfg managed;
        pl_account_id := account_id account; pl_scheduled_for := scheduled_for cfg; pl_equity := equity account;
        pl_capital_base := base; pl_risk_scale := risk_scale cfg; orders := bk_orders b; denied := bk_denied b;
        skipped := sk; lines := dr_lines d;
        margin := {| mr_signed := mr_signed mr; needs_margin := needs_margin mr; mr_buying_power := mr_buying_power mr;
                     mr_buying_power_left := bk_power b; target_gross := target_gross mr;
                     projected_gross := projected_gross mr; margin_order_tags := bk_margin_tags b |} |}.
End planner.
