(* ===== verification/Data.v ===== *)
(** * Data: crates/rebalancer-run/src/data.rs

    What the runner needs of the data layer: the sleeves of an account, the report of the two-source gate, and the
    vocabulary of the reference rules. The rules themselves live in another repository ([reference-rules]); they are the
    class [ReferenceRules]. *)

From Stdlib Require Import ZArith Lia String Ascii.
From S2P Require Import Prelude Text BTree F64 Externals Decimal Guard.

Local Open Scope Z_scope.

(** ** The reference rules *)

Inductive Signal := Long | Cash.

Record InstrumentDecision := { id_symbol : string; id_close : f64; id_sma : f64; id_signal : Signal; id_weight : f64 }.

Record EtfDecision `{Chrono} := {
  etf_decision_date : NaiveDate;
  etf_month_end_dates : list NaiveDate;
  etf_instruments : list InstrumentDecision;
}.

Class ReferenceRules `{Chrono} := {
  PriceSeries : Type;
  Panel : Type;
  Options : Type;
  CryptoDecision : Type;
  RuleError : Type;
  rule_error_display : RuleError → string;
  ETF_SYMBOLS : list string;
  CRYPTO_SYMBOLS : list string;
  ETF_SMA_MONTH_ENDS : Z;
  CRYPTO_SMA_DAYS : Z;
  MOMENTUM_RANK_WEIGHTED_DEFAULT_LOOKBACK : Z;
  ETF_WEIGHT_PER_INSTRUMENT : f64;
  CRYPTO_WEIGHT_PER_INSTRUMENT : f64;
  ETF_MAX_STALE_DAYS : Z;
  ETF_MAX_MISSING_WEEKDAYS : Z;
  (** A series is never empty: its dates and closes have the same positive length. *)
  series_symbol : PriceSeries → string;
  series_dates : PriceSeries → list NaiveDate;
  series_closes : PriceSeries → list f64;
  last_date : PriceSeries → NaiveDate;
  (** [panel.iter()] and [panel.get(symbol)] *)
  panel_series : Panel → list PriceSeries;
  panel_get : Panel → string → result RuleError PriceSeries;
  data_fingerprint : Panel → string;
  latest_decision_date : Panel → list string → result RuleError NaiveDate;
  missing_weekdays_between : NaiveDate → NaiveDate → Z;
  (** [Options::etf_live], [Options::crypto_live] and [opts.require_panel_end_on_decision_date = false] *)
  options_etf_live : NaiveDate → Options;
  options_crypto_live : NaiveDate → Options;
  any_panel_end : Options → Options;
  decide_etf_trend_with_weight : Panel → NaiveDate → Options → list string → Z → f64 → result RuleError EtfDecision;
  decide_crypto_trend_with : Panel → NaiveDate → Options → list string → Z → result RuleError CryptoDecision;
  crypto_instruments : CryptoDecision → list InstrumentDecision;
  (** [momentum_rank_weights(closes, symbols, lookback).weights] *)
  momentum_rank_weights : list (list f64) → list string → Z → list f64;
  (** The errors the runner raises itself. *)
  FormingBar : string → NaiveDate → NaiveDate → RuleError;
  StaleData : string → NaiveDate → NaiveDate → Z → RuleError;
  EmptySeries : string → RuleError;
  DateNotInPanel : string → NaiveDate → RuleError;
  DataGap : string → NaiveDate → NaiveDate → Z → Z → bool → RuleError;
}.

(** ** Sleeves *)

Module SleeveKind.
Inductive t := EtfTrend | CryptoTrend | EtfMomentum.
End SleeveKind.
Abbreviation SleeveKind := SleeveKind.t.

#[export] Instance sleeve_kind_eq_dec : EqDecision SleeveKind.
Proof. solve_decision. Defined.

Inductive Cadence := Daily | OnDecision.

#[export] Instance cadence_eq_dec : EqDecision Cadence.
Proof. solve_decision. Defined.

Definition cadence_of (k : SleeveKind) : Cadence :=
  match k with
  | SleeveKind.CryptoTrend => Daily
  | SleeveKind.EtfTrend | SleeveKind.EtfMomentum => OnDecision
  end.

Definition kind_str (k : SleeveKind) : string :=
  match k with
  | SleeveKind.EtfTrend => "etf_trend"
  | SleeveKind.CryptoTrend => "crypto_trend"
  | SleeveKind.EtfMomentum => "etf_momentum"
  end.

Record SleeveSpec := {
  sp_id : string;
  sp_kind : SleeveKind;
  sp_share : Dec;
  sp_venue : string;
  sp_asset_class : string;
  sp_quote : string;
  sp_instruments : list string;
  sp_tranche_sessions : Z;
  sp_lookback : option Z;
}.

Definition is_published_point (s : SleeveSpec) : bool :=
  match sp_instruments s, sp_lookback s with
  | [], None => sp_tranche_sessions s =? 0
  | _, _ => false
  end.

(** [i.split('/').next().unwrap_or(i)] *)
Definition base_of (instrument : string) : string :=
  match split_once (fun c => (code c =? 47)) instrument with Some (b, _) => b | None => instrument end.

Definition variant_key (s : SleeveSpec) : string :=
  if is_published_point s then EmptyString
  else join "," (sp_instruments s) +:+ "|t" +:+ show_int (sp_tranche_sessions s) +:+ "|l" +:+
       match sp_lookback s with Some l => show_int l | None => EmptyString end.

Section rules.
Context `{ReferenceRules}.

Definition rule_symbols (s : SleeveSpec) : list string :=
  match sp_instruments s with
  | [] =>
      match sp_kind s with
      | SleeveKind.EtfTrend | SleeveKind.EtfMomentum => ETF_SYMBOLS
      | SleeveKind.CryptoTrend => CRYPTO_SYMBOLS
      end
  | instruments =>
      match sp_kind s with
      | SleeveKind.EtfTrend | SleeveKind.EtfMomentum => instruments
      | SleeveKind.CryptoTrend => base_of <$> instruments
      end
  end.

Definition sma_lookback (s : SleeveSpec) : Z :=
  match sp_kind s, sp_lookback s with
  | _, Some n => n
  | SleeveKind.EtfTrend, None => ETF_SMA_MONTH_ENDS
  | SleeveKind.CryptoTrend, None => CRYPTO_SMA_DAYS
  | SleeveKind.EtfMomentum, None => MOMENTUM_RANK_WEIGHTED_DEFAULT_LOOKBACK
  end.
End rules.

(** ** The two-source gate's report *)

Inductive GateMode := Shadow.
Definition gate_mode_str (m : GateMode) : string := match m with Shadow => "shadow" end.

Module GateVerdict.
Inductive t := Pass | Flag | Refuse.
Definition as_str (v : t) : string := match v with Pass => "PASS" | Flag => "FLAG" | Refuse => "REFUSE" end.
End GateVerdict.
Abbreviation GateVerdict := GateVerdict.t.

Module BarPosition.
Inductive t := MonthEnd | DecisionDay | Window | DailyClose.
Definition as_str (p : t) : string :=
  match p with
  | MonthEnd => "month_end"
  | DecisionDay => "decision_day"
  | Window => "window"
  | DailyClose => "daily_close"
  end.
End BarPosition.

Section gate.
Context `{Chrono}.

Record GateReason := {
  g_code : string;
  g_verdict : GateVerdict;
  g_symbol : option string;
  g_date : option NaiveDate;
  g_detail : string;
}.

Record GateComparison := {
  gc_symbol : string;
  gc_date : NaiveDate;
  gc_position : BarPosition.t;
  primary_close : option f64;
  secondary_close : option f64;
  diff_bps : option f64;
  gc_verdict : GateVerdict;
}.

Record GateInstrument := {
  gi_symbol : string;
  gi_verdict : GateVerdict;
  max_diff_bps : option f64;
  comparisons : list GateComparison;
}.

Record DataGateReport := {
  gate_mode : GateMode;
  gate_kind : SleeveKind;
  gate_as_of : NaiveDate;
  primary_source : string;
  secondary_source : string;
  policy_version : string;
  policy_hash : string;
  primary_fingerprint : string;
  secondary_fingerprint : option string;
  primary_decision_date : option NaiveDate;
  secondary_decision_date : option NaiveDate;
  gate_verdict : GateVerdict;
  gate_reasons : list GateReason;
  gate_instruments : list GateInstrument;
}.

(** [filter(|r| seen.insert((r.symbol, r.date)))]: the first of each key. *)
Fixpoint first_of_each {A K} `{EqDecision K} (key : A → K) (seen : list K) (l : list A) : list A :=
  match l with
  | [] => []
  | x :: l' => if bool_decide (key x ∈ seen) then first_of_each key seen l' else x :: first_of_each key (key x :: seen) l'
  end.

Definition is_refusal (r : GateReason) : bool := match g_verdict r with GateVerdict.Refuse => true | _ => false end.

Definition refusals (r : DataGateReport) : list GateReason :=
  first_of_each (fun r => (g_symbol r, g_date r)) [] (List.filter is_refusal (gate_reasons r)).

Definition reason_text (r : GateReason) : string :=
  match g_symbol r, g_date r with
  | Some s, Some d => g_code r +:+ "(" +:+ s +:+ "@" +:+ date_display d +:+ ")"
  | Some s, None => g_code r +:+ "(" +:+ s +:+ ")"
  | None, Some d => g_code r +:+ "(@" +:+ date_display d +:+ ")"
  | None, None => g_code r
  end.

Definition gate_summary (r : DataGateReport) : string :=
  let reasons := reason_text <$> firstn 8 (gate_reasons r) in
  gate_mode_str (gate_mode r) +:+ " gate " +:+ primary_source r +:+ " vs " +:+ secondary_source r +:+ ": " +:+
  GateVerdict.as_str (gate_verdict r) +:+
  match reasons with
  | [] => EmptyString
  | _ => " [" +:+ join ", " reasons +:+ (if (8 <? length (gate_reasons r))%nat then ", ..." else EmptyString) +:+ "]"
  end.
End gate.

(** ** What the data layer returns *)

Record SleeveData `{ReferenceRules} := { panel : Panel; gate : option DataGateReport }.

Record DataError := { data_code : string; data_message : string }.
Definition data_error_display (e : DataError) : string := data_code e +:+ ": " +:+ data_message e.

(** ** Facts *)

Lemma first_of_each_spec {A K} `{EqDecision K} (key : A → K) seen l :
  (∀ x, x ∈ first_of_each key seen l → x ∈ l ∧ key x ∉ seen) ∧
  NoDup (key <$> first_of_each key seen l) ∧
  (∀ x, x ∈ l → key x ∈ seen ∨ key x ∈ key <$> first_of_each key seen l).
Proof.
  revert seen. induction l as [|x l IH]; intros seen; simpl.
  { split_and!; [set_solver|constructor|set_solver]. }
  case_bool_decide as Hs.
  - destruct (IH seen) as (H1 & H2 & H3). split_and!; [set_solver|done|]. intros y [->|Hy]%elem_of_cons; [by left|by apply H3].
  - destruct (IH (key x :: seen)) as (H1 & H2 & H3). split_and!.
    + intros y Hy. apply elem_of_cons in Hy as [Hy|Hy]; [rewrite Hy; split; [left|done]|]. destruct (H1 y Hy). set_solver.
    + rewrite fmap_cons. constructor; [|done]. intros (y & He & Hy)%list_elem_of_fmap.
      destruct (H1 y Hy) as [_ Hn]. apply Hn. rewrite <-He. left.
    + intros y Hy. rewrite fmap_cons. apply elem_of_cons in Hy as [Hy|Hy]; [right; rewrite Hy; left|].
      destruct (H3 y Hy) as [[Hk|Hk]%elem_of_cons|Hk]; [right; rewrite Hk; left|by left|right; by right].
Qed.

(** The shadow alert is raised once per (symbol, date): every refusal has an alert and no two alerts share a key. *)
Lemma refusals_once `{Chrono} r :
  NoDup ((fun x => (g_symbol x, g_date x)) <$> refusals r) ∧
  ∀ x, x ∈ gate_reasons r → is_refusal x = true →
    ∃ y, y ∈ refusals r ∧ g_symbol y = g_symbol x ∧ g_date y = g_date x.
Proof.
  destruct (first_of_each_spec (fun r => (g_symbol r, g_date r)) [] (List.filter is_refusal (gate_reasons r))) as (_ & H2 & H3).
  split; [exact H2|]. intros x Hx Hr.
  destruct (H3 x) as [Hk|(y & Hk & Hy)%list_elem_of_fmap]; [|set_solver|].
  - apply list_elem_of_In, filter_In. split; [by apply list_elem_of_In|done].
  - exists y. injection Hk as -> ->. done.
Qed.
