(* ===== verification/Decision.v ===== *)
(** * Decision: crates/rebalancer-run/src/decision.rs and cell_rules.rs

    What a sleeve wants today, whoever holds it: fetch its panel, run its rule, through the memo of one driver tick. *)

From Stdlib Require Import ZArith Lia String Ascii.
From Stdlib Require Import Floats.SpecFloat.
From S2P Require Import Prelude Assoc Text BTree F64 Externals Decimal DecMath Guard Planner Data Calls.

Local Open Scope Z_scope.

(** ** Doubles *)

Definition f64_add (a b : f64) : f64 := SFadd 53 1024 a b.
Definition f64_sub (a b : f64) : f64 := SFsub 53 1024 a b.
Definition f64_mul (a b : f64) : f64 := SFmul 53 1024 a b.
Definition f64_div (a b : f64) : f64 := SFdiv 53 1024 a b.

(** [f64::floor] *)
Definition f64_floor (v : f64) : f64 :=
  match v with
  | S754_finite s m e =>
      if 0 <=? e then v
      else
        let z := Z.div (if s then Z.neg m else Z.pos m) (2 ^ (- e)) in
        binary_normalize 53 1024 z 0 s
  | _ => v
  end.

(** ** Weight policies (cell_rules.rs) *)

Inductive WeightPolicy := FixedConstant | EqualOverN.

#[export] Instance weight_policy_eq_dec : EqDecision WeightPolicy.
Proof. solve_decision. Defined.

Definition trend_weight_policy (s : SleeveSpec) : WeightPolicy :=
  match sp_instruments s with [] => FixedConstant | _ => EqualOverN end.

Definition long_weight (p : WeightPolicy) (n : nat) (fixed_constant : f64) : f64 :=
  match p with
  | FixedConstant => fixed_constant
  | EqualOverN => f64_div f64_one (f64_of_int (Z.of_nat n))
  end.

Definition trend_max_gross (p : WeightPolicy) (n : nat) (fixed_constant : f64) : f64 :=
  f64_mul (long_weight p n fixed_constant) (f64_of_int (Z.of_nat n)).

(** ** Evaluations *)

Record InstrumentEvidence := { ev_symbol : string; ev_close : f64; ev_sma : f64; margin_bps : f64; ev_weight : f64 }.

(** [w] floored to 12 decimals. *)
Definition floor_weight (w : f64) : f64 :=
  let scale := f64_of_int (10 ^ 12) in f64_div (f64_floor (f64_mul w scale)) scale.

Definition evidence (i : InstrumentDecision) : InstrumentEvidence :=
  {| ev_symbol := id_symbol i; ev_close := id_close i; ev_sma := id_sma i;
     margin_bps := f64_mul (f64_sub (f64_div (id_close i) (id_sma i)) f64_one) (f64_of_int 10000); ev_weight := id_weight i |}.

Section decision.
Context `{ReferenceRules}.

Inductive RuleDecision := Etf (d : EtfDecision) | Crypto (d : CryptoDecision).

Record Evaluation := {
  e_kind : SleeveKind;
  e_as_of : NaiveDate;
  fingerprint : string;
  decision_date : NaiveDate;
  newest_bar_date : NaiveDate;
  lag_sessions : Z;
  e_instruments : list InstrumentEvidence;
  rule : RuleDecision;
  data_gate : option DataGateReport;
}.

(** [self.lag_sessions.saturating_sub(1)] *)
Definition sessions_past_action (e : Evaluation) : Z := Z.max 0 (lag_sessions e - 1).

Definition symbol_weight (i : InstrumentDecision) : string * f64 := (id_symbol i, id_weight i).

Definition eval_target (e : Evaluation) (s : SleeveSpec) : math SleeveTarget :=
  match rule e with
  | Etf d =>
      let ws := symbol_weight <$> etf_instruments d in
      let ws := if bool_decide (e_kind e = SleeveKind.EtfMomentum) then (fun '(x, w) => (x, floor_weight w)) <$> ws else ws in
      from_etf (sp_id s) (sp_share s) (sp_venue s) (sp_asset_class s) ws
  | Crypto d => from_crypto (sp_id s) (sp_share s) (sp_venue s) (sp_asset_class s) (sp_quote s) (symbol_weight <$> crypto_instruments d)
  end.

Inductive EvalError := EvalData (e : DataError) | EvalRule (e : RuleError).

Record Fetched := { f_data : SleeveData; f_fingerprint : string }.

Definition sleeve_max_gross (s : SleeveSpec) : f64 :=
  let count (published : list string) := length (match sp_instruments s with [] => published | l => l end) in
  let per_unit :=
    match sp_kind s with
    | SleeveKind.EtfTrend => trend_max_gross (trend_weight_policy s) (count ETF_SYMBOLS) ETF_WEIGHT_PER_INSTRUMENT
    | SleeveKind.CryptoTrend => f64_mul CRYPTO_WEIGHT_PER_INSTRUMENT (f64_of_int (Z.of_nat (count CRYPTO_SYMBOLS)))
    | SleeveKind.EtfMomentum => f64_one
    end in
  f64_mul per_unit (to_f64 (sp_share s)).

(** ** The rules *)

Abbreviation rule_result A := (result RuleError A).

(** The newest date: the last of the greatest, as [Iterator::max]. *)
Definition max_date (l : list NaiveDate) : option NaiveDate :=
  fold_left (fun acc d => match acc with Some m => Some (if date_gtb m d then m else d) | None => Some d end) l None.

Definition newest_bar (p : Panel) : option NaiveDate := max_date (last_date <$> panel_series p).

(** A live series: closed before the run date and not stale. *)
Definition live_series (p : Panel) (as_of : NaiveDate) (sym : string) : rule_result PriceSeries :=
  let? s := panel_get p sym in
  if negb (date_gtb as_of (last_date s)) then Err (FormingBar sym (last_date s) as_of)
  else if ETF_MAX_STALE_DAYS <? date_diff_days as_of (last_date s) then
    Err (StaleData sym (last_date s) as_of ETF_MAX_STALE_DAYS)
  else Ok s.

Fixpoint check_gaps (symbol : string) (dates : list NaiveDate) : rule_result unit :=
  match dates with
  | a :: (b :: _) as rest =>
      let missing := missing_weekdays_between a b in
      if ETF_MAX_MISSING_WEEKDAYS <? missing then Err (DataGap symbol a b missing ETF_MAX_MISSING_WEEKDAYS true)
      else check_gaps symbol rest
  | _ => Ok tt
  end.

(** The first reference date that [dates] does not repeat. *)
Fixpoint first_difference (reference dates : list NaiveDate) : option NaiveDate :=
  match reference, dates with
  | r :: rs, d :: ds => if bool_decide (r = d) then first_difference rs ds else Some r
  | _, _ => None
  end.

(** One series of the window check; the accumulator is the reference dates. *)
Definition check_series (date : NaiveDate) (window : nat) (reference : option (list NaiveDate)) (s : PriceSeries)
    : rule_result (option (list NaiveDate)) :=
  if negb (bool_decide (last_date s = date)) then Err (DateNotInPanel (series_symbol s) date)
  else
    let n := length (series_dates s) in
    if (n <? window)%nat then Ok reference
    else
      let dates := drop (n - window) (series_dates s) in
      let? _ := check_gaps (series_symbol s) dates in
      match reference with
      | None => Ok (Some dates)
      | Some r =>
          match first_difference r dates with
          | Some d => Err (DateNotInPanel (series_symbol s) d)
          | None => Ok reference
          end
      end.

Definition momentum_row (window : nat) (s : PriceSeries) (w : f64) : InstrumentDecision :=
  let closes := series_closes s in
  let last := default f64_zero (last closes) in
  let base := if (window <=? length closes)%nat then default last (closes !! (length closes - window)%nat) else last in
  {| id_symbol := series_symbol s; id_close := last; id_sma := base;
     id_signal := if f64_ltb f64_zero w then Long else Cash; id_weight := w |}.

Definition decide_momentum (p : Panel) (symbols : list string) (lookback : Z) (as_of : NaiveDate) : rule_result EtfDecision :=
  let? series := try_map (live_series p as_of) symbols in
  match max_date (last_date <$> series) with
  | None => Err (EmptySeries EmptyString)
  | Some date =>
      let window := S (Z.to_nat lookback) in
      let? _ := try_fold (check_series date window) None series in
      let weights := momentum_rank_weights (series_closes <$> series) symbols lookback in
      Ok {| etf_decision_date := date; etf_month_end_dates := [];
            etf_instruments := zip_with (momentum_row window) series weights |}
  end.

Definition decide_trend (p : Panel) (date : NaiveDate) (o : Options) (symbols : list string) (sma : Z) (w : WeightPolicy)
    : rule_result EtfDecision :=
  decide_etf_trend_with_weight p date o symbols sma (long_weight w (length symbols) ETF_WEIGHT_PER_INSTRUMENT).

Definition decide_sleeve (s : SleeveSpec) (p : Panel) (as_of : NaiveDate) : rule_result (NaiveDate * RuleDecision) :=
  let symbols := rule_symbols s in
  match sp_kind s with
  | SleeveKind.EtfTrend =>
      let? date := latest_decision_date p symbols in
      let? d := decide_trend p date (options_etf_live as_of) symbols (sma_lookback s) (trend_weight_policy s) in
      Ok (date, Etf d)
  | SleeveKind.EtfMomentum =>
      let? d := decide_momentum p symbols (sma_lookback s) as_of in
      Ok (etf_decision_date d, Etf d)
  | SleeveKind.CryptoTrend =>
      let yesterday := default as_of (date_pred_opt as_of) in
      let lag := sp_tranche_sessions s in
      let date := default yesterday (date_sub_days yesterday lag) in
      let opts := options_crypto_live as_of in
      let opts := if 0 <? lag then any_panel_end opts else opts in
      let? d := decide_crypto_trend_with p date opts symbols (sma_lookback s) in
      Ok (date, Crypto d)
  end.

Definition rule_instruments (r : RuleDecision) : list InstrumentDecision :=
  match r with Etf d => etf_instruments d | Crypto d => crypto_instruments d end.

(** [s.dates().partition_point(|d| *d <= decision_date)], of ascending dates *)
Definition bars_after (s : PriceSeries) (date : NaiveDate) : Z :=
  Z.of_nat (length (List.filter (fun d => date_gtb d date) (series_dates s))).

Definition build (s : SleeveSpec) (as_of : NaiveDate) (f : Fetched) : rule_result Evaluation :=
  let p := panel (f_data f) in
  let? (date, r) := decide_sleeve s p as_of in
  let instruments := evidence <$> rule_instruments r in
  let lag :=
    match instruments with
    | [] => 0
    | i :: _ => match panel_get p (ev_symbol i) with Ok series => bars_after series date | Err _ => 0 end
    end in
  Ok {| e_kind := sp_kind s; e_as_of := as_of; fingerprint := f_fingerprint f; decision_date := date;
        newest_bar_date := default date (newest_bar p); lag_sessions := lag; e_instruments := instruments; rule := r;
        data_gate := gate (f_data f) |}.

(** ** The memo of one tick *)

Definition FetchKey : Type := SleeveKind * string * string * string * string * NaiveDate.
Definition DecisionKey : Type := SleeveKind * NaiveDate * string * string.

Record EvalCache := {
  fetched : Assoc FetchKey (result DataError Fetched);
  decided : Assoc DecisionKey (result RuleError Evaluation);
}.

Definition new_cache : EvalCache := {| fetched := []; decided := [] |}.

Definition fetch_key (s : SleeveSpec) (as_of : NaiveDate) : FetchKey :=
  (sp_kind s, sp_venue s, sp_asset_class s, sp_quote s, variant_key s, as_of).
Definition decision_key (s : SleeveSpec) (as_of : NaiveDate) (fp : string) : DecisionKey :=
  (sp_kind s, as_of, fp, variant_key s).

(** [DataSource::sleeve_data] *)
Inductive data_call : Type → Type :=
| SleeveDataOf (s : SleeveSpec) (as_of : NaiveDate) : data_call (result DataError SleeveData).

Definition fingerprinted (d : SleeveData) : Fetched := {| f_data := d; f_fingerprint := data_fingerprint (panel d) |}.

Definition map_ok {E A B} (f : A → B) (m : result E A) : result E B := match m with Ok a => Ok (f a) | Err e => Err e end.

Definition remember_fetch (k : FetchKey) (r : result DataError Fetched) (c : option EvalCache) : option EvalCache :=
  let* c := c in Some {| fetched := as_insert k r (fetched c); decided := decided c |}.
Definition remember_decision (k : DecisionKey) (r : result RuleError Evaluation) (c : option EvalCache) : option EvalCache :=
  let* c := c in Some {| fetched := fetched c; decided := as_insert k r (decided c) |}.

Abbreviation cached A := (program data_call (option EvalCache) A).

Definition fetch (s : SleeveSpec) (as_of : NaiveDate) : cached (result DataError Fetched) :=
  let key := fetch_key s as_of in
  let# cache := get in
  match (let* c := cache in as_get (fetched c) key) with
  | Some hit => ret hit
  | None =>
      let# d := ask (SleeveDataOf s as_of) in
      let r := map_ok fingerprinted d in
      let# _ := modify (remember_fetch key r) in
      ret r
  end.

Definition evaluate (s : SleeveSpec) (as_of : NaiveDate) : cached (result EvalError Evaluation) :=
  let# f := fetch s as_of in
  match f with
  | Err e => ret (Err (EvalData e))
  | Ok f =>
      let key := decision_key s as_of (f_fingerprint f) in
      let# cache := get in
      match (let* c := cache in as_get (decided c) key) with
      | Some hit => ret (map_err EvalRule hit)
      | None =>
          let r := build s as_of f in
          let# _ := modify (remember_decision key r) in
          ret (map_err EvalRule r)
      end
  end.
End decision.
