(* ===== verification/PlanFacts.v ===== *)
(** * PlanFacts: what the planner guarantees

    The plan is read back as a [replay]: every planned order is [permitted] (the exact specification of the guard, in
    [GuardFacts]) on the account that the orders before it leave. The other facts are about the order of the orders,
    the sizes, the targets and the budget. The venues enter only through the [VenueLaw] of [Venue]. *)

From Stdlib Require Import ZArith Lia String Sorting.Sorted.
From S2P Require Import Prelude Text BTree F64 Externals Decimal DecMath Mandate Policy Broker Alpaca Venue Guard GuardFacts Planner.

Local Open Scope Z_scope.
Local Open Scope rust_scope.

(** ** Well-formed inputs *)

Section facts.
Context `{Chrono, Sha256}.

Record config_ok (cfg : PlanConfig) : Prop := {
  cf_scale : dec_ok (risk_scale cfg);
  cf_abs : dec_ok (min_trade_abs cfg);
  cf_pct : dec_ok (min_trade_pct cfg);
  cf_fee : dec_ok (fee_rate cfg);
  cf_day : day_ok (day cfg);
  cf_signed : ∀ e, e ∈ signed_sleeves cfg → dec_ok e.2;
  cf_power : opt_dec_ok (buying_power cfg);
}.

Definition targets_ok (targets : list SleeveTarget) : Prop :=
  ∀ t, t ∈ targets → dec_ok (share t) ∧ ∀ w, w ∈ weights t → dec_ok (weight w).

Definition prices_ok (prices : BTreeMap string PricePoint) : Prop := ∀ k p, bt_get prices k = Some p → dec_ok (price p).

Record inputs_ok (targets : list SleeveTarget) (account : AccountView) (prices : BTreeMap string PricePoint)
    (book : VenueRuleBook) (policy : Policy) (cfg : PlanConfig) : Prop := {
  in_targets : targets_ok targets;
  in_account : account_ok account;
  in_prices : ∀ k p, (k, p) ∈ prices → dec_ok (price p);
  in_book : book_ok book;
  in_rules : ∀ v sym r, rule (instrument_rules book) v sym = Some r → rule_ok r;
  in_policy : policy_ok policy;
  in_config : config_ok cfg;
}.

(** ** [apply] keeps the account well formed *)

Lemma lift_math_ok {A} (m : math A) a : lift_math m = Ok a ↔ m = Ok a.
Proof. apply map_err_ok. Qed.

Lemma require_ok b e u : require b e = Ok u ↔ b = true.
Proof. unfold require. destruct b, u; naive_solver. Qed.

Lemma update_position_ok ps m q v ps' : dec_ok q → dec_ok v →
  (∀ p, p ∈ ps → dec_ok (pos_quantity p) ∧ dec_ok (market_value p)) → update_position ps m q v = Ok ps' →
  ∀ p, p ∈ ps' → dec_ok (pos_quantity p) ∧ dec_ok (market_value p).
Proof.
  intros Hq Hv. revert ps'. induction ps as [|p ps IH]; cbn [update_position]; intros ps' Hps.
  - intros [= <-] p ->%list_elem_of_singleton. done.
  - assert (dec_ok (pos_quantity p) ∧ dec_ok (market_value p)) as [Hpq Hpv] by (apply Hps; by left).
    destruct (eq_ignore_ascii_case _ _).
    + intros (p' & Hmv & [= <-])%bind_ok. unfold move_position in Hmv. inv_ok. decs.
      intros z [->|Hz]%elem_of_cons; [done|]. apply Hps. by right.
    + intros (ps1 & H1 & [= <-])%bind_ok. intros x [->|Hx]%elem_of_cons; [done|].
      eapply IH; [|exact H1|done]. intros y Hy. apply Hps. by right.
Qed.

Lemma apply_ok sim d m side qty p fee sim' d' : account_ok sim → day_ok d → dec_ok qty → dec_ok p → dec_ok fee →
  apply sim d m side qty p fee = Ok (sim', d') → account_ok sim' ∧ day_ok d'.
Proof.
  intros Hsim Hd Hq Hp Hf Happ. unfold apply in Happ. unfold day_ok in *. pose proof (ac_cash sim Hsim) as Hc.
  apply bind_ok in Happ as (n & Hn & Happ). decs. apply bind_ok in Happ as ([sq sv] & Hs & Happ).
  assert (dec_ok sq ∧ dec_ok sv) as [Hsq Hsv].
  { destruct side; inv_ok; [by simplify_eq|]. decs. by simplify_eq. }
  apply bind_ok in Happ as (ps & Hps & Happ). inv_ok. decs. simplify_eq. split; [|done].
  pose proof (update_position_ok _ _ _ _ _ Hsq Hsv
    (λ p Hp, conj (ac_quantity sim Hsim p Hp) (ac_value sim Hsim p Hp)) Hps) as Hall.
  split; simpl; [apply Hsim|done|intros z Hz; by apply Hall|intros z Hz; by apply Hall].
Qed.

(** ** Replaying a plan *)

(** The order a planned order was checked as. *)
Definition proposal_of (o : PlannedOrder) (px : PricePoint) (margin : bool) : ProposedOrder :=
  {| o_venue := p_venue o; o_asset_class := p_asset_class o; o_symbol := p_symbol o; o_side := p_side o;
     o_quantity := p_quantity o; o_price := Some px; o_est_fee := p_est_fee o; o_uses_margin := margin;
     o_is_derivative := false; o_loss_rung_cover := false |}.

Definition context (signed : bool) (instruments : InstrumentRules) (power : option Dec)
    : option (MarginContext * InstrumentRules) :=
  if signed then Some ({| buying_power_left := power |}, instruments) else None.

(** What is left of the buying power after an order that adds exposure ([reducing] is false) or does not. *)
Definition spend (power : option Dec) (reducing : bool) (notional fee : Dec) : math (option Dec) :=
  match power with
  | Some bp => if reducing then Ok (Some bp) else let? x := sub bp notional in let? x := sub x fee in Ok (Some x)
  | None => Ok None
  end.

Definition sim_state : Type := AccountView * DayCounters * option Dec.

(** The orders of [os], one after the other: each is priced at the plan's own price of its symbol, pays the fee of the
    configuration, uses margin exactly when the account it meets says so, is [permitted] on the account, day counters
    and buying power it meets, and leaves what [apply] and [spend] compute. [reducing] says whether the orders take
    exposure off; the buying power pays for those that do not. *)
Inductive replay (pol : Policy) (cfg : PlanConfig) (instruments : InstrumentRules) (prices : BTreeMap string PricePoint)
    (reducing : bool) : sim_state → list PlannedOrder → sim_state → Prop :=
| replay_done s : replay pol cfg instruments prices reducing s [] s
| replay_order sim d power o m px uses l p sim' d' power' os s :
    usable prices (p_symbol o) = Some px → price px = p_price o →
    mul (p_quantity o) (p_price o) = Ok (p_notional o) → fee_for (p_notional o) (fee_rate cfg) = Ok (p_est_fee o) →
    (if signed_plan cfg then margin_use sim (proposal_of o px false) (p_price o) = Ok uses else uses = false) →
    permitted pol sim (proposal_of o px uses) d (context (signed_plan cfg) instruments power) l p →
    m_symbol m = p_symbol o ∧ m_venue m = p_venue o ∧ m_asset_class m = p_asset_class o →
    apply sim d m (p_side o) (p_quantity o) (p_price o) (p_est_fee o) = Ok (sim', d') →
    spend power reducing (p_notional o) (p_est_fee o) = Ok power' →
    replay pol cfg instruments prices reducing (sim', d', power') os s →
    replay pol cfg instruments prices reducing (sim, d, power) (o :: os) s.

Lemma replay_app pol cfg ins prices red s os s' os' s'' :
  replay pol cfg ins prices red s os s' → replay pol cfg ins prices red s' os' s'' →
  replay pol cfg ins prices red s (os ++ os') s''.
Proof. induction 1; simpl; [done|]. intros. eapply replay_order; eauto. Qed.

Record book_state_ok (b : Book) : Prop := {
  bo_sim : account_ok (bk_sim b);
  bo_day : day_ok (bk_day b);
  bo_power : opt_dec_ok (bk_power b);
}.

Definition state_of (b : Book) : sim_state := (bk_sim b, bk_day b, bk_power b).

(** A candidate at the plan's own price of its symbol, reducing or not. *)
Definition cand_at (prices : BTreeMap string PricePoint) (red : bool) (c : Candidate) : Prop :=
  usable prices (m_symbol (c_m c)) = Some (c_price c) ∧ c_reducing c = red.

Definition cand_ok (c : Candidate) : Prop := dec_ok (c_qty c) ∧ dec_ok (price (c_price c)).

Lemma fee_ok n rate f : dec_ok n → dec_ok rate → fee_for n rate = Ok f → dec_ok f.
Proof.
  intros Hn Hr Hf. unfold fee_for in Hf. inv_ok. decs. by eapply round_dp_ok; [..|exact Hf].
Qed.

Lemma spend_ok power red n f power' : opt_dec_ok power → dec_ok n → dec_ok f → spend power red n f = Ok power' →
  opt_dec_ok power'.
Proof.
  intros Hp Hn Hf Hs. unfold spend in Hs. destruct power as [bp|]; [|by injection Hs as <-].
  assert (dec_ok bp) by (by apply Hp). destruct red; [by injection Hs as <-|]. inv_ok. decs. by intros ? [= <-].
Qed.

(** One tried order: denied, and nothing but the list of denials changes; or placed, and it extends the replay. *)
Lemma try_order_spec pol account ins cfg prices red b c q b' placed :
  policy_ok pol → config_ok cfg → (∀ v sym r, rule ins v sym = Some r → rule_ok r) →
  book_state_ok b → dec_ok q → dec_ok (price (c_price c)) → cand_at prices red c →
  try_order pol account ins cfg (signed_plan cfg) b c q = Ok (b', placed) →
  ∃ n f, mul q (price (c_price c)) = Ok n ∧ fee_for n (fee_rate cfg) = Ok f ∧ book_state_ok b' ∧
    let o := planned_order account cfg c q n f in
    if placed then
      bk_orders b' = bk_orders b ++ [o] ∧ bk_denied b' = bk_denied b ∧
      replay pol cfg ins prices red (state_of b) [o] (state_of b')
    else
      bk_orders b' = bk_orders b ∧ state_of b' = state_of b ∧
      ∃ rs, bk_denied b' = bk_denied b ++ [{| denied_order := o; denial_reasons := rs |}].
Proof.
  intros Hpol Hcfg Hins [Hsim Hday Hpow] Hq Hp [Hpx <-] Ht. unfold try_order in Ht.
  apply bind_ok in Ht as (n & Hn & Ht). apply lift_math_ok in Hn.
  apply bind_ok in Ht as (f & Hf & Ht). apply lift_math_ok in Hf.
  assert (dec_ok n) as Hnok by (by apply (mul_atto q (price (c_price c)) n)).
  assert (dec_ok f) as Hfok by (eapply fee_ok; [exact Hnok|exact (cf_fee _ Hcfg)|exact Hf]).
  exists n, f. split; [done|]. split; [done|].
  apply bind_ok in Ht as ([v uses] & Hv & Ht).
  assert (v = run pol (bk_sim b) (proposal c q f uses) (bk_day b) (context (signed_plan cfg) ins (bk_power b)) ∧
    (if signed_plan cfg then margin_use (bk_sim b) (proposal c q f false) (price (c_price c)) = Ok uses else uses = false))
    as [Hrun Huses].
  { unfold verdict_on in Hv. destruct (signed_plan cfg); [apply bind_ok in Hv as (u & Hu%lift_math_ok & Hv)|]; by simplify_eq. }
  destruct (allow v) eqn:Eallow.
  - apply bind_ok in Ht as ([sim' d'] & Ha & Ht). apply lift_math_ok in Ha.
    apply bind_ok in Ht as (power' & Hs & Ht). injection Ht as <- <-.
    assert (spend (bk_power b) (c_reducing c) n f = Ok power') as Hsp.
    { revert Hs. unfold spend. destruct (bk_power b); [|by intros [= <-]].
      destruct (c_reducing c); [by intros [= <-]|]. intros Hs.
      apply bind_ok in Hs as (x & Hx & Hs). apply lift_math_ok in Hx. rewrite Hx. simpl.
      apply bind_ok in Hs as (y & Hy & Hs). apply lift_math_ok in Hy. injection Hs as <-. by rewrite Hy. }
    destruct (apply_ok _ _ _ _ _ _ _ _ _ Hsim Hday Hq Hp Hfok Ha) as [Hsim' Hday'].
    split; [split; [done..|]; simpl; by apply (spend_ok (bk_power b) (c_reducing c) n f)|].
    split; [done|]. split; [done|]. rewrite Hrun in Eallow. apply run_allow in Eallow.
    apply (check_inner_agrees pol) in Eallow as (l & p & Hperm); [|done|done| |done|].
    + eapply (replay_order _ _ _ _ _ _ _ _ _ (c_m c) (c_price c) uses);
        [done|done|exact Hn|exact Hf|exact Huses|exact Hperm|done|exact Ha|exact Hsp|constructor].
    + split; [done|done|]. by intros ? [= <-].
    + intros mc i Hmi. unfold context in Hmi. destruct (signed_plan cfg); [|done]. injection Hmi as <- <-. by split.
  - injection Ht as <- <-. split; [done|]. split; [done|]. split; [done|]. by eexists.
Qed.

(** ** The orders that were tried, in order *)

Inductive tried (pol : Policy) (account : AccountView) (ins : InstrumentRules) (cfg : PlanConfig)
    : Book → list (Candidate * Dec) → Book → Prop :=
| tried_none b : tried pol account ins cfg b [] b
| tried_order b c q b1 placed cqs b2 :
    try_order pol account ins cfg (signed_plan cfg) b c q = Ok (b1, placed) →
    tried pol account ins cfg b1 cqs b2 → tried pol account ins cfg b ((c, q) :: cqs) b2.

(** [o] is the planned order of the candidate [cq.1] at the quantity [cq.2]. *)
Definition planned_as (account : AccountView) (cfg : PlanConfig) (cq : Candidate * Dec) (o : PlannedOrder) : Prop :=
  ∃ n f, mul cq.2 (price (c_price cq.1)) = Ok n ∧ fee_for n (fee_rate cfg) = Ok f ∧
    o = planned_order account cfg cq.1 cq.2 n f.

Definition pair_ok (cq : Candidate * Dec) : Prop := dec_ok cq.2 ∧ dec_ok (price (c_price cq.1)).

Lemma tried_spec pol account ins cfg prices red b cqs b' :
  policy_ok pol → config_ok cfg → (∀ v sym r, rule ins v sym = Some r → rule_ok r) →
  tried pol account ins cfg b cqs b' → book_state_ok b → Forall pair_ok cqs → Forall (λ cq, cand_at prices red cq.1) cqs →
  book_state_ok b' ∧ ∃ placed os,
    placed `sublist_of` cqs ∧ Forall2 (planned_as account cfg) placed os ∧
    bk_orders b' = bk_orders b ++ os ∧ replay pol cfg ins prices red (state_of b) os (state_of b').
Proof.
  intros Hpol Hcfg Hins. induction 1 as [b|b c q b1 placed cqs b2 Ht _ IH]; intros Hb Hcqs Hat.
  - split; [done|]. exists [], []. rewrite app_nil_r. repeat (split; [constructor|]). constructor.
  - apply Forall_cons in Hcqs as [[Hq Hp] Hcqs]. apply Forall_cons in Hat as [Hc Hat].
    destruct (try_order_spec pol account ins cfg prices red b c q b1 placed Hpol Hcfg Hins Hb Hq Hp Hc Ht)
      as (n & f & Hn & Hf & Hb1 & Hplaced).
    destruct (IH Hb1 Hcqs Hat) as (Hb2 & pl & os & Hsub & Hall & Hos & Hrep). split; [done|]. destruct placed.
    + destruct Hplaced as (Ho & _ & Hr). exists ((c, q) :: pl), (planned_order account cfg c q n f :: os).
      split; [by constructor|]. split; [constructor; [by exists n, f|done]|].
      split; [by rewrite Hos, Ho, <-app_assoc|]. change (?x :: ?l) with ([x] ++ l). by eapply replay_app.
    + destruct Hplaced as (Ho & Hst & _). exists pl, os. split; [by constructor|]. split; [done|].
      rewrite Hos, Ho, <-Hst. done.
Qed.

Lemma reductions_tried pol account book cfg b cl cs b' cl' :
  try_fold (try_reduction pol account book cfg) (b, cl) cs = Ok (b', cl') →
  tried pol account (instrument_rules book) cfg b ((λ c, (c, c_qty c)) <$> cs) b'.
Proof.
  revert b cl. induction cs as [|c cs IH]; intros b cl Hf; cbn [try_fold] in Hf.
  - injection Hf as <- <-. constructor.
  - apply bind_ok in Hf as ([b1 cl1] & Ht & Hf). unfold try_reduction in Ht.
    apply bind_ok in Ht as ([b2 placed] & Ht & Hk). injection Hk as <- <-.
    econstructor; [exact Ht|by eapply IH].
Qed.

(** The symbols remembered as closed are those of the placed close legs. *)
Definition close_placed (account : AccountView) (cfg : PlanConfig) (cs : list Candidate) (os : list PlannedOrder) (sym : string)
    : Prop :=
  ∃ c n f, c ∈ cs ∧ c_leg c = Close ∧ m_symbol (c_m c) = sym ∧ planned_order account cfg c (c_qty c) n f ∈ os.

Lemma try_order_orders pol account ins cfg sg b c q b' placed : try_order pol account ins cfg sg b c q = Ok (b', placed) →
  ∃ n f, bk_orders b' = bk_orders b ++ (if placed then [planned_order account cfg c q n f] else []).
Proof.
  unfold try_order. intros (n & _ & (f & _ & ([v uses] & _ & Ht)%bind_ok)%bind_ok)%bind_ok. exists n, f.
  destruct (allow v); [|injection Ht as <- <-; simpl; by rewrite app_nil_r].
  apply bind_ok in Ht as ([sim' d'] & _ & Ht). apply bind_ok in Ht as (power' & _ & Ht). by injection Ht as <- <-.
Qed.

Lemma reductions_closed pol account book cfg b cl cs b' cl' :
  try_fold (try_reduction pol account book cfg) (b, cl) cs = Ok (b', cl') →
  (∃ os, bk_orders b' = bk_orders b ++ os) ∧
  ∀ sym, bs_contains cl' sym = true → bs_contains cl sym = true ∨ close_placed account cfg cs (bk_orders b') sym.
Proof.
  revert b cl. induction cs as [|c cs IH]; intros b cl Hf; cbn [try_fold] in Hf.
  { injection Hf as <- <-. split; [exists []; by rewrite app_nil_r|by left]. }
  apply bind_ok in Hf as ([b1 cl1] & Ht & Hf). unfold try_reduction in Ht.
  apply bind_ok in Ht as ([b2 placed] & Ht & Hk). injection Hk as <- <-.
  apply try_order_orders in Ht as (n & f & Hos). destruct (IH _ _ Hf) as [(os & Hos') Hcl].
  split; [eexists; by rewrite Hos', Hos, <-app_assoc|]. intros sym Hsym.
  destruct (Hcl sym Hsym) as [H1|(c' & n' & f' & Hc' & Hrest)]; [|right; exists c', n', f'; split; [by right|done]].
  destruct placed; simpl in H1; [|by left]. destruct (bool_decide (c_leg c = Close)) eqn:El; [|by left].
  apply bool_decide_eq_true_1 in El. apply bs_contains_insert in H1 as [->|H1]; [|by left].
  right. exists c, n, f. split; [by left|]. split; [done|]. split; [done|]. rewrite Hos', Hos.
  apply elem_of_app. left. apply elem_of_app. right. by left.
Qed.

Lemma increases_tried pol account book cfg av b sk cqs b' sk' :
  try_fold (try_increase pol account book cfg av) (b, sk) cqs = Ok (b', sk') →
  tried pol account (instrument_rules book) cfg b (List.filter (λ cq, negb (is_zero cq.2)) cqs) b'.
Proof.
  revert b sk. induction cqs as [|[c q] cqs IH]; intros b sk Hf; cbn [try_fold] in Hf.
  - injection Hf as <- <-. constructor.
  - apply bind_ok in Hf as ([b1 sk1] & Ht & Hf). unfold try_increase in Ht. simpl.
    destruct (is_zero q); simpl.
    + injection Ht as <- <-. by eapply IH.
    + apply bind_ok in Ht as ([b2 placed] & Ht & Hk). injection Hk as <- <-.
      econstructor; [exact Ht|by eapply IH].
Qed.

(** ** The candidates of one instrument *)

(** An order that only takes a held position towards zero. *)
Definition reduces (held : Dec) (side : Side) (qty : Dec) : Prop :=
  match side with
  | Sell => 0 < atto qty ≤ atto held
  | Buy => 0 < atto qty ≤ - atto held
  end.

(** A side that takes a position away from zero, or towards it and beyond. *)
Definition away (held : Dec) (side : Side) : Prop := match side with Sell => atto held ≤ 0 | Buy => 0 ≤ atto held end.
Definition towards (held : Dec) (side : Side) : Prop := match side with Sell => 0 < atto held | Buy => atto held < 0 end.

Record cand_spec (account : AccountView) (prices : BTreeMap string PricePoint) (cfg : PlanConfig) (base : Dec)
    (m : Managed) (c : Candidate) : Prop := {
  cs_m : c_m c = m;
  cs_qty : dec_ok (c_qty c) ∧ 0 < atto (c_qty c);
  cs_price : usable prices (m_symbol m) = Some (c_price c);
  cs_reduces : c_reducing c = true → reduces (held account (m_symbol m)) (c_side c) (c_qty c);
  cs_long : m_signed m = false → 0 ≤ atto (held account (m_symbol m));
  cs_adds : c_reducing c = false →
    c_leg c = Open ∧ towards (held account (m_symbol m)) (c_side c) ∨ away (held account (m_symbol m)) (c_side c);
  cs_buys : c_reducing c = false → m_signed m = false → (∀ t, target_of cfg base m = Ok t → 0 ≤ atto t) → c_side c = Buy;
}.

Lemma usable_ok prices sym px : prices_ok prices → usable prices sym = Some px → dec_ok (price px) ∧ 0 < atto (price px).
Proof.
  intros Hp Hu. unfold usable in Hu. destruct (bt_get prices sym) as [p|] eqn:E; [|done].
  destruct (is_positive (price p)) eqn:Ep; [|done]. injection Hu as <-.
  assert (dec_ok (price p)) by (by eapply Hp). split; [done|]. by apply is_positive_atto.
Qed.

(** The legs that are sized: a well-formed wish, and for a reducing one a bound on it. *)
Definition leg_spec (held target delta : Dec) (l : Leg * Side * Dec * bool) : Prop :=
  let '(leg, side, wished, reducing) := l in
  dec_ok wished ∧ (reducing = true → leg ≠ Open ∧
    match side with Sell => atto wished ≤ atto held | Buy => atto wished ≤ - atto held end) ∧
  (reducing = false → side = Sell → atto target < 0 ∨ atto held ≤ 0 ∧ atto delta ≤ 0) ∧
  (reducing = false → leg = Open ∧ towards held side ∨ away held side).

Lemma sign_of_product held p v : 0 < atto p → atto v = atto held * atto p / ONE →
  (0 < atto v → 0 < atto held) ∧ (atto v < 0 → atto held < 0).
Proof.
  intros Hp Hv. pose proof ONE_pos. rewrite Hv. split; intros Hs.
  - assert (0 < atto held * atto p); [|nia]. apply Z.nle_gt. intros Hle.
    assert (atto held * atto p / ONE ≤ 0); [|lia]. apply Z.div_le_upper_bound; lia.
  - apply Z.nle_gt. intros Hle. assert (0 ≤ atto held * atto p / ONE); [|lia]. apply Z.div_pos; nia.
Qed.

Lemma plan_legs_ok p held current target delta abs_delta legs :
  dec_ok p → 0 < atto p → dec_ok held → dec_ok current → dec_ok target → dec_ok delta → dec_ok abs_delta →
  atto current = atto held * atto p / ONE → plan_legs p held current target delta abs_delta = Ok legs →
  Forall (leg_spec held target delta) legs.
Proof.
  intros Hp Hp0 Hh Hc Ht Hd Had Hcv Hl. unfold plan_legs in Hl.
  destruct (sign_of_product held p current Hp0 Hcv) as [Hpos Hneg].
  pose proof (is_positive_atto _ Hh) as Hhp. pose proof (is_negative_atto _ Hh) as Hhn.
  pose proof (is_positive_atto _ Hc) as Hcp. pose proof (is_negative_atto _ Hc) as Hcn.
  apply bind_ok in Hl as (ha & Hha & Hl). apply lift_math_ok in Hha. apply abs_atto in Hha as [Hha Hhav]; [|done].
  destruct (_ || _) eqn:Ecross.
  - apply bind_ok in Hl as (t & Hta & Hl). apply lift_math_ok in Hta. apply abs_atto in Hta as [Hta _]; [|done].
    apply bind_ok in Hl as (q & Hq & Hl). apply lift_math_ok in Hq.
    apply div_floor_atto in Hq as (Hq & _); [|done|done|lia]. injection Hl as <-.
    pose proof (is_negative_atto _ Ht) as Htn. pose proof (is_positive_atto _ Ht) as Htp.
    apply Forall_cons. split; [split; [done|]; split; [|done]|apply Forall_singleton; split; [done|]; split; [done|split]].
    + intros _. split; [done|]. destruct (is_positive held) eqn:E; [assert (0 < atto held) by tauto; lia|].
      assert (¬ 0 < atto held) by (intros Hx%Hhp; done). lia.
    + intros _. left. apply Htn. destruct (is_positive target) eqn:E; [done|].
      rewrite andb_false_r, orb_false_r in Ecross. by apply andb_prop in Ecross as [_ ?].
    + intros _. left. split; [done|]. unfold towards.
      apply orb_prop in Ecross as [[Hcc%Hcp%Hpos Htt%Htn]%andb_prop|[Hcc%Hcn%Hneg Htt]%andb_prop].
      * destruct (is_positive target) eqn:E; [|done]. assert (0 < atto target) by tauto. lia.
      * by rewrite Htt.
  - set (side := if is_positive delta then Buy else Sell) in *. set (red := _ || _) in Hl.
    apply bind_ok in Hl as (w & Hw & Hl). injection Hl as <-. constructor; [|constructor]. split; [|split; [|split]].
    + destruct red; simpl in Hw; [destruct (is_zero target)|].
      * by injection Hw as <-.
      * apply bind_ok in Hw as (q & Hq & Hw). apply lift_math_ok in Hq.
        apply div_floor_atto in Hq as (Hq & _); [|done|done|lia]. injection Hw as <-. by apply dec_min_ok.
      * apply lift_math_ok in Hw. by apply div_floor_atto in Hw as (Hw & _).
    + intros Hred. rewrite Hred in Hw. simpl in Hw. split; [done|].
      assert (atto w ≤ Z.abs (atto held)) as Hwle.
      { destruct (is_zero target); [injection Hw as <-; lia|]. apply bind_ok in Hw as (q & Hq & Hw).
        apply lift_math_ok in Hq. apply div_floor_atto in Hq as (Hq & _); [|done|done|lia]. injection Hw as <-.
        rewrite dec_min_atto by done. lia. }
      subst red. apply orb_prop in Hred as [[Hs%bool_decide_eq_true_1 Hx]%andb_prop|[Hs%bool_decide_eq_true_1 Hx]%andb_prop].
      * rewrite Hs. assert (0 < atto held) by tauto. lia.
      * rewrite Hs. assert (atto held < 0) by tauto. lia.
    + pose proof (is_positive_atto _ Hd) as Hdp. intros Hred Hside. right. subst red side.
      destruct (is_positive delta) eqn:Ed; [done|]. simpl in Hred. rewrite orb_false_r in Hred.
      split; apply Z.nlt_ge; [intros Hx%Hhp|intros Hx%Hdp; done]. by rewrite Hx in Hred.
    + intros Hred. right. subst red. apply orb_false_elim in Hred as [H1 H2]. clearbody side. clear Hw.
      destruct side; apply Z.nlt_ge; [intros Hx%Hhn; by rewrite Hx in H2|intros Hx%Hhp; by rewrite Hx in H1].
Qed.

(** A sized leg. *)
Definition sized (held target delta : Dec) (m : Managed) (px : PricePoint) (c : Candidate) : Prop :=
  c_m c = m ∧ c_price c = px ∧ (dec_ok (c_qty c) ∧ 0 < atto (c_qty c)) ∧
  (c_reducing c = true → reduces held (c_side c) (c_qty c)) ∧
  (c_reducing c = false → c_side c = Sell → atto target < 0 ∨ atto held ≤ 0 ∧ atto delta ≤ 0) ∧
  (c_reducing c = false → c_leg c = Open ∧ towards held (c_side c) ∨ away held (c_side c)).

Lemma size_legs_ok held target delta r m px legs pending residual refused cs refused' :
  VenueLaw r → dec_ok (price px) → dec_ok residual → Forall (leg_spec held target delta) legs → Forall (sized held target delta m px) pending →
  size_legs r m px legs pending residual refused = Ok (cs, refused') →
  Forall (sized held target delta m px) cs ∧ (c_reducing <$> cs) `sublist_of` (c_reducing <$> pending) ++ ((λ l, l.2) <$> legs).
Proof.
  intros Hlaw Hpx. revert pending residual refused.
  induction legs as [|[[[leg side] wished] red] legs IH]; intros pending residual refused Hres Hlegs Hpend Hs;
    cbn [size_legs] in Hs.
  - injection Hs as <- <-. split; [done|]. by rewrite app_nil_r.
  - apply Forall_cons in Hlegs as [(Hw & Hred & Hinc) Hlegs].
    apply bind_ok in Hs as (w & Hw' & Hs).
    assert (dec_ok w ∧ (red = true → w = wished)) as [Hwok Hweq].
    { destruct (bool_decide (leg = Open)) eqn:Hopen; [|by injection Hw' as <-].
      apply bool_decide_eq_true_1 in Hopen. apply lift_math_ok in Hw'.
      destruct (add_atto wished residual w Hw Hres Hw') as [Hwok _]. split; [done|]. intros Hr. by apply Hred in Hr as [? _]. }
    destruct (round_quantity r _ _ _ _) as [q|e] eqn:Eq.
    + apply bind_ok in Hs as (? & _ & Hs). apply bind_ok in Hs as (res' & Hres' & Hs).
      destruct (Hlaw _ _ _ _ _ Hwok Hpx Eq) as (Hqok & Hqpos & Hqle).
      assert (dec_ok res').
      { destruct (bool_decide (leg = Close)); [|by injection Hres' as <-]. apply lift_math_ok in Hres'. by apply sub_atto in Hres' as [? _]. }
      apply IH in Hs as [Hall Hsub]; [|done|done|].
      * split; [done|]. by rewrite fmap_app, <-app_assoc in Hsub.
      * apply Forall_app. split; [done|]. apply Forall_singleton. split; [done|]. split; [done|]. split; [done|].
        split; [|done]. simpl. intros Hr. destruct (Hred Hr) as [_ Hle]. rewrite (Hweq Hr) in Hqle. unfold reduces. destruct side; lia.
    + destruct (bool_decide (leg = Close)); [injection Hs as <- <-; split; [constructor|apply sublist_nil_l]|].
      apply IH in Hs as [Hall Hsub]; [|done..]. split; [done|].
      etransitivity; [exact Hsub|]. apply sublist_app; [done|]. by apply sublist_cons.
Qed.

Lemma plan_legs_flags p held current target delta abs_delta legs :
  plan_legs p held current target delta abs_delta = Ok legs →
  ((λ l, l.2) <$> legs) = [true; false] ∨ ∃ b, ((λ l, l.2) <$> legs) = [b].
Proof.
  unfold plan_legs. intros (ha & _ & Hl)%bind_ok. destruct (_ || _).
  - apply bind_ok in Hl as (t & _ & Hl). apply bind_ok in Hl as (q & _ & Hl). injection Hl as <-. by left.
  - apply bind_ok in Hl as (w & _ & Hl). injection Hl as <-. right. by eexists.
Qed.

Lemma flags_filter {A} (f : A → bool) (l : list A) fs : (f <$> l) `sublist_of` fs →
  fs = [true; false] ∨ (∃ b, fs = [b]) →
  (length (List.filter f l) ≤ 1)%nat ∧ (length (List.filter (λ x, negb (f x)) l) ≤ 1)%nat.
Proof.
  intros Hsub Hfs.
  assert (∀ g : bool → bool, length (List.filter (λ x, g (f x)) l) = length (List.filter g (f <$> l))) as Hlen.
  { intros g. clear Hsub Hfs. induction l as [|x l IH]; [done|]. simpl. destruct (g (f x)); simpl; by rewrite IH. }
  assert (∀ g : bool → bool, (length (List.filter g (f <$> l)) ≤ length (List.filter g fs))%nat) as Hle.
  { intros g. clear Hlen Hfs. induction Hsub as [|b k1 k2 _ IH|b k1 k2 _ IH]; simpl; [done| |];
      destruct (g b); simpl; lia. }
  assert (length (List.filter f l) = length (List.filter (λ b, b) (f <$> l))) as L1 by exact (Hlen (λ b, b)).
  pose proof (Hlen negb) as L2. pose proof (Hle (λ b, b)). pose proof (Hle negb). rewrite L1, L2. destruct Hfs as [->|[b ->]]; simpl in *; [lia|destruct b; simpl in *; lia].
Qed.

(** ** One instrument *)

Definition line_spec (account : AccountView) (cfg : PlanConfig) (base : Dec) (m : Managed) (l : InstrumentLine) : Prop :=
  i_symbol l = m_symbol m ∧ i_held l = held account (m_symbol m) ∧ target_of cfg base m = Ok (target_notional l).

(** What considering one instrument appends: at most one line, one reduction and one increase, all of this instrument. *)
Record considered (account : AccountView) (prices : BTreeMap string PricePoint) (cfg : PlanConfig) (base : Dec)
    (m : Managed) (ls : list InstrumentLine) (rs is_ : list Candidate) : Prop := {
  cd_lines : (length ls ≤ 1)%nat ∧ Forall (line_spec account cfg base m) ls;
  cd_reducers : (length rs ≤ 1)%nat ∧ Forall (λ c, cand_spec account prices cfg base m c ∧ c_reducing c = true) rs;
  cd_increasers : (length is_ ≤ 1)%nat ∧ Forall (λ c, cand_spec account prices cfg base m c ∧ c_reducing c = false) is_;
}.

Lemma considered_skip account prices cfg base m ls :
  (length ls ≤ 1)%nat → Forall (line_spec account cfg base m) ls → considered account prices cfg base m ls [] [].
Proof. intros. split; [done|..]; (split; [simpl; lia|constructor]). Qed.

Lemma target_of_ok cfg base m t : dec_ok base → dec_ok (m_weight m) → dec_ok (risk_scale cfg) →
  target_of cfg base m = Ok t → dec_ok t.
Proof.
  intros Hb Hw Hs Ht. unfold target_of, round_toward_zero in Ht. inv_ok. decs.
  case_match; inv_ok; decs; [|by eapply round_dp_ok; [..|eassumption]].
  match goal with H : round_dp _ _ _ = Ok _ |- _ => apply round_dp_ok in H; [|done|lia] end. decs. done.
Qed.

Lemma consider_spec account prices book cfg base d m d' :
  account_ok account → prices_ok prices → book_ok book → config_ok cfg → dec_ok base → dec_ok (m_weight m) →
  consider account prices book cfg base d m = Ok d' →
  ∃ ls rs is_, considered account prices cfg base m ls rs is_ ∧ dr_lines d' = dr_lines d ++ ls ∧
    dr_reducers d' = dr_reducers d ++ rs ∧ dr_increasers d' = dr_increasers d ++ is_.
Proof.
  intros Ha Hp Hbook Hcfg Hb Hw Hc. unfold consider in Hc.
  assert (∀ d1 ls, dr_lines d1 = dr_lines d ++ ls → dr_reducers d1 = dr_reducers d → dr_increasers d1 = dr_increasers d →
    (length ls ≤ 1)%nat → Forall (line_spec account cfg base m) ls → d' = d1 →
    ∃ ls rs is_, considered account prices cfg base m ls rs is_ ∧ dr_lines d' = dr_lines d ++ ls ∧
      dr_reducers d' = dr_reducers d ++ rs ∧ dr_increasers d' = dr_increasers d ++ is_) as Hnone.
  { intros d1 ls Hl Hr Hi Hlen Hls ->. exists ls, [], []. rewrite !app_nil_r. split; [by apply considered_skip|done]. }
  assert (∀ s, @Ok PlanError _ (skip_trade d s) = Ok d' → ∃ ls rs is_, considered account prices cfg base m ls rs is_ ∧
    dr_lines d' = dr_lines d ++ ls ∧ dr_reducers d' = dr_reducers d ++ rs ∧ dr_increasers d' = dr_increasers d ++ is_) as Hskip.
  { intros s [= <-]. apply (Hnone (skip_trade d s) []); simpl; rewrite ?app_nil_r; try done. lia. }
  destruct (usable prices (m_symbol m)) as [px|] eqn:Epx; [|by eapply Hskip].
  destruct (usable_ok _ _ _ Hp Epx) as [Hpx Hpx0].
  destruct (book_get book (m_venue m)) as [r|] eqn:Er; [|by eapply Hskip].
  pose proof (held_ok account (m_symbol m) Ha) as Hh. set (h := held account (m_symbol m)) in *.
  destruct (is_negative h && negb (m_signed m)) eqn:Ehm; [by eapply Hskip|].
  apply bind_ok in Hc as (cur & Hcur & Hc). apply lift_math_ok in Hcur.
  destruct (mul_atto _ _ _ Hh Hpx Hcur) as [Hcurok Hcurv].
  apply bind_ok in Hc as (t & Ht & Hc). apply lift_math_ok in Ht.
  assert (dec_ok t) as Htok by (eapply target_of_ok; [exact Hb|exact Hw|exact (cf_scale _ Hcfg)|exact Ht]).
  set (ln := {| i_symbol := _ |}) in Hc.
  assert (Forall (line_spec account cfg base m) [ln]) as Hline by (apply Forall_singleton; by split_and!).
  apply bind_ok in Hc as (dl & Hdl & Hc). apply lift_math_ok in Hdl.
  destruct (is_zero dl) eqn:Ezero; [injection Hc as <-; by apply (Hnone (add_line d ln) [ln])|].
  apply not_true_iff_false in Ezero.
  apply bind_ok in Hc as (adl & Hadl & Hc). apply lift_math_ok in Hadl. decs.
  apply bind_ok in Hc as (small & Hsmall & Hc). destruct small as [why|].
  { injection Hc as <-. by apply (Hnone (skip_trade (add_line d ln) (skip m why)) [ln]). }
  apply bind_ok in Hc as (legs & Hlegs & Hc). apply bind_ok in Hc as ([cs refused] & Hsize & Hc). injection Hc as <-.
  pose proof (plan_legs_flags _ _ _ _ _ _ _ Hlegs) as Hflags.
  apply (plan_legs_ok (price px) h cur t dl adl) in Hlegs; [|done..].
  destruct (size_legs_ok h t dl r m px legs [] ZERO [] cs refused (Hbook _ _ Er) Hpx ZERO_ok Hlegs ltac:(constructor) Hsize)
    as [Hall Hsub]. simpl in Hsub. destruct (flags_filter _ _ _ Hsub Hflags) as [Hlr Hli].
  assert (∀ c, c ∈ cs → cand_spec account prices cfg base m c) as Hcand.
  { intros c Hc. rewrite Forall_forall in Hall. destruct (Hall c Hc) as (Hm & Hpc & Hq & Hr & Hi & Hadd). split; [done|done| |done| |done|].
    - by rewrite Hpc.
    - intros Hsg. rewrite Hsg, andb_true_r in Ehm. apply Z.nlt_ge. intros Hx. assert (is_negative h = true) by (by apply is_negative_atto). congruence.
    - intros Hred Hsg Htp. specialize (Htp t Ht). rewrite Hsg, andb_true_r in Ehm.
      destruct (c_side c) eqn:Eside; [done|]. exfalso. apply Ezero, is_zero_atto; [done|].
      destruct (Hi Hred eq_refl) as [?|[Hh0 Hd0]]; [lia|].
      assert (atto h = 0) as Hz.
      { assert (¬ atto h < 0); [|lia]. intros Hx. assert (is_negative h = true) by (by apply is_negative_atto). congruence. }
      rewrite Hz in Hcurv. change (0 * _ / ONE) with 0 in Hcurv. lia. }
  exists [ln], (List.filter (λ c, c_reducing c) cs), (List.filter (λ c, negb (c_reducing c)) cs).
  split; [|by rewrite <-?app_assoc]. split; [by split; [simpl; lia|]|split; [done|]|split; [done|]];
    apply Forall_forall; intros c Hc%list_elem_of_In%filter_In; destruct Hc as [Hc%list_elem_of_In Hred].
  - split; [by apply Hcand|done].
  - split; [by apply Hcand|]. by destruct (c_reducing c).
Qed.

Lemma short_sublist m (cs : list Candidate) (P : Candidate → Prop) : (length cs ≤ 1)%nat → Forall P cs →
  (∀ c, P c → c_m c = m) → (c_m <$> cs) `sublist_of` [m].
Proof.
  intros Hlen Hall Hm. destruct cs as [|c [|]]; simpl in *; [apply sublist_nil_l| |lia].
  apply Forall_cons in Hall as [Hc _]. by rewrite (Hm c Hc).
Qed.

(** ** All the instruments *)

Definition cand_is (account : AccountView) (prices : BTreeMap string PricePoint) (cfg : PlanConfig) (base : Dec) (red : bool) (c : Candidate) : Prop :=
  cand_spec account prices cfg base (c_m c) c ∧ c_reducing c = red.

Record drafted (account : AccountView) (prices : BTreeMap string PricePoint) (cfg : PlanConfig) (base : Dec)
    (ms : list Managed) (ls : list InstrumentLine) (rs is_ : list Candidate) : Prop := {
  df_lines : ∃ ms', ms' `sublist_of` ms ∧ Forall2 (line_spec account cfg base) ms' ls;
  df_reducers : (c_m <$> rs) `sublist_of` ms ∧ Forall (cand_is account prices cfg base true) rs;
  df_increasers : (c_m <$> is_) `sublist_of` ms ∧ Forall (cand_is account prices cfg base false) is_;
}.

Lemma considered_drafted account prices cfg base m ls rs is_ :
  considered account prices cfg base m ls rs is_ → drafted account prices cfg base [m] ls rs is_.
Proof.
  intros [[Hl Hls] [Hr Hrs] [Hi His]]. split.
  - destruct ls as [|l [|]]; simpl in Hl; [exists []; split; [apply sublist_nil_l|constructor]| |lia].
    exists [m]. split; [done|]. apply Forall_cons in Hls as [Hl1 _]. by constructor.
  - split; [eapply short_sublist; [done|exact Hrs|intros c [Hc _]; by apply Hc]|].
    eapply Forall_impl; [exact Hrs|]. intros c [Hc Hred]. split; [|done]. by rewrite (cs_m _ _ _ _ _ _ Hc).
  - split; [eapply short_sublist; [done|exact His|intros c [Hc _]; by apply Hc]|].
    eapply Forall_impl; [exact His|]. intros c [Hc Hred]. split; [|done]. by rewrite (cs_m _ _ _ _ _ _ Hc).
Qed.

Lemma drafted_app account prices cfg base ms ms' ls ls' rs rs' is_ is' :
  drafted account prices cfg base ms ls rs is_ → drafted account prices cfg base ms' ls' rs' is' →
  drafted account prices cfg base (ms ++ ms') (ls ++ ls') (rs ++ rs') (is_ ++ is').
Proof.
  intros [(m1 & Hm1 & Hl1) [Hr1 Hrs1] [Hi1 His1]] [(m2 & Hm2 & Hl2) [Hr2 Hrs2] [Hi2 His2]]. split.
  - exists (m1 ++ m2). split; [by apply sublist_app|by apply Forall2_app].
  - rewrite fmap_app. split; [by apply sublist_app|by apply Forall_app].
  - rewrite fmap_app. split; [by apply sublist_app|by apply Forall_app].
Qed.

Lemma draft_spec account prices book cfg base ms d d' :
  account_ok account → prices_ok prices → book_ok book → config_ok cfg → dec_ok base → Forall (λ m, dec_ok (m_weight m)) ms →
  try_fold (consider account prices book cfg base) d ms = Ok d' →
  ∃ ls rs is_, drafted account prices cfg base ms ls rs is_ ∧ dr_lines d' = dr_lines d ++ ls ∧
    dr_reducers d' = dr_reducers d ++ rs ∧ dr_increasers d' = dr_increasers d ++ is_.
Proof.
  intros Ha Hp Hbook Hcfg Hb. revert d. induction ms as [|m ms IH]; intros d Hms Hf; cbn [try_fold] in Hf.
  - injection Hf as <-. exists [], [], []. rewrite !app_nil_r. split; [|done].
    split; [exists []; split; [done|constructor]|split; [done|constructor]|split; [done|constructor]].
  - apply Forall_cons in Hms as [Hm Hms]. apply bind_ok in Hf as (d1 & Hc & Hf).
    destruct (consider_spec account prices book cfg base d m d1 Ha Hp Hbook Hcfg Hb Hm Hc)
      as (l1 & r1 & i1 & Hcons & Hl1 & Hr1 & Hi1).
    destruct (IH d1 Hms Hf) as (l2 & r2 & i2 & Hdr & Hl2 & Hr2 & Hi2).
    exists (l1 ++ l2), (r1 ++ r2), (i1 ++ i2). rewrite !app_assoc, <-Hl1, <-Hr1, <-Hi1. split; [|done].
    apply (drafted_app _ _ _ _ [m]); [by apply considered_drafted|done].
Qed.

(** ** The managed instruments *)

Definition managed_ok (map : BTreeMap string Managed) : Prop :=
  bt_sorted map ∧ ∀ k m, (k, m) ∈ map → m_symbol m = k ∧ dec_ok (m_weight m).

Lemma add_weight_ok cfg t map w map' : dec_ok (share t) → dec_ok (weight w) → managed_ok map →
  add_weight cfg t map w = Ok map' → managed_ok map'.
Proof.
  intros Hs Hw [Hsort Hall] Ha. unfold add_weight in Ha.
  apply bind_ok in Ha as (x & Hx & Ha). apply lift_math_ok in Hx. decs.
  destruct (bt_get map (key (tw_symbol w))) as [m|] eqn:Em.
  - apply bt_get_elem in Em as Hin. destruct (Hall _ _ Hin) as [Hsym Hmw].
    apply bind_ok in Ha as (? & _ & Ha). apply bind_ok in Ha as (total & Ht & Ha). apply lift_math_ok in Ht. decs.
    injection Ha as <-. split; [by apply bt_insert_sorted|].
    intros k m' [[= -> ->]|Hin']%bt_insert_elem; [by simpl|by apply Hall].
  - injection Ha as <-. split; [by apply bt_insert_sorted|].
    intros k m' [[= -> ->]|Hin']%bt_insert_elem; [by simpl|by apply Hall].
Qed.

Lemma aggregate_ok targets cfg map : targets_ok targets → aggregate targets cfg = Ok map → managed_ok map.
Proof.
  intros Ht. unfold aggregate. apply (try_fold_inv managed_ok); [|split; [constructor|intros k m Hin; by apply not_elem_of_nil in Hin]].
  intros map1 t map2 Hin Hmap. destruct (Ht t Hin) as [Hs Hws]. apply (try_fold_inv managed_ok); [|done].
  intros map3 w map4 Hw Hm3. apply add_weight_ok; [done|by apply Hws|done].
Qed.

Lemma managed_symbols map : managed_ok map → NoDup (m_symbol <$> bt_values map).
Proof.
  intros [Hsort Hall]. apply bt_sorted_nodup in Hsort. unfold bt_values. rewrite <-list_fmap_compose.
  erewrite (list_fmap_ext _ fst); [exact Hsort|]. intros i [k m] Hi. simpl. apply list_elem_of_lookup_2 in Hi.
  by apply Hall.
Qed.

(** ** The whole plan, opened *)

Lemma rekey_ok prices : (∀ k p, (k, p) ∈ prices → dec_ok (price p)) → prices_ok (rekey prices).
Proof.
  intros Hp k p Hk%bt_get_elem. unfold rekey, bt_of_list in Hk.
  assert (∀ l (m : BTreeMap string PricePoint) x, x ∈ fold_left (λ m kv, bt_insert kv.1 kv.2 m) l m → x ∈ l ∨ x ∈ m) as Hgen.
  { intros l. induction l as [|y l IH]; intros m x; simpl; [by right|]. intros [Hx|Hx]%IH; [left; by right|].
    apply bt_insert_elem in Hx as [->|Hx]; [left; destruct y; by left|by right]. }
  apply Hgen in Hk as [Hk|Hk]; [|by apply not_elem_of_nil in Hk].
  apply list_elem_of_fmap in Hk as ([k' p'] & [= -> ->] & Hin). by eapply Hp.
Qed.

Lemma revalue_ok prices p p' : prices_ok prices → dec_ok (pos_quantity p) → dec_ok (market_value p) →
  revalue prices p = Ok p' → dec_ok (pos_quantity p') ∧ dec_ok (market_value p').
Proof.
  intros Hp Hq Hv Hr. unfold revalue in Hr. destruct (bt_get prices (key (pos_symbol p))) as [px|] eqn:E; [|by simplify_eq].
  apply Hp in E. apply bind_ok in Hr as (v & Hm & [= <-]). apply lift_math_ok in Hm. decs. done.
Qed.

Lemma revalued_ok prices account ps : prices_ok prices → account_ok account →
  try_map (revalue prices) (positions account) = Ok ps → account_ok (with_positions account ps (cash account)).
Proof.
  intros Hp Ha Hr. rewrite try_map_ok in Hr.
  assert (∀ p', p' ∈ ps → dec_ok (pos_quantity p') ∧ dec_ok (market_value p')) as Hall.
  { intros p' Hin. apply list_elem_of_lookup in Hin as [i Hi]. destruct (Forall2_lookup_r _ _ _ i p' Hr Hi) as (p & Hpi & Hrev).
    apply list_elem_of_lookup_2 in Hpi. eapply revalue_ok; [exact Hp|by apply (ac_quantity account)|by apply (ac_value account)|exact Hrev]. }
  split; simpl; [apply Ha|apply Ha|intros p Hin; by apply Hall|intros p Hin; by apply Hall].
Qed.

Lemma rescale_ok book factor c q : book_ok book → dec_ok factor → cand_ok c → rescale book factor c = Ok q → dec_ok q.
Proof.
  intros Hb Hf [Hq Hp] Hr. unfold rescale in Hr. apply bind_ok in Hr as (y & Hy & Hr).
  apply lift_math_ok in Hy. decs. apply bind_ok in Hr as (scaled & Hs & Hr). apply lift_math_ok, map_err_ok in Hs.
  apply round_dp_ok in Hs; [|done|lia].
  destruct (is_zero _); [injection Hr as <-; apply ZERO_ok|].
  destruct (book_get book _) as [r|] eqn:Er; [|injection Hr as <-; apply ZERO_ok].
  destruct (round_quantity r _ _ _ _) as [rounded|] eqn:Eq; [|injection Hr as <-; apply ZERO_ok].
  destruct (dec_leb _ _); [|done]. injection Hr as <-. by apply (Hb _ _ Er) in Eq as [? _].
Qed.

Lemma cost_ok cfg c x : dec_ok (fee_rate cfg) → cand_ok c → cost cfg c = Ok x → dec_ok x.
Proof.
  intros Hf [Hq Hp] Hc. unfold cost in Hc. apply bind_ok in Hc as (n & Hn & Hc). decs.
  apply bind_ok in Hc as (f & Hfee & Hc). apply fee_ok in Hfee; [|done..]. decs. done.
Qed.

Lemma fit_buys_ok book cfg available buys qs : book_ok book → dec_ok (fee_rate cfg) → dec_ok available →
  Forall cand_ok buys → fit_buys book cfg available buys = Ok qs → Forall pair_ok (zip buys qs).
Proof.
  intros Hb Hf Hav Hall Hfit. unfold fit_buys in Hfit.
  assert (∀ qs, Forall dec_ok qs → Forall pair_ok (zip buys qs)) as Hzip.
  { intros l Hl. clear Hfit. revert l Hl. induction Hall as [|c buys [_ Hp] _ IH]; intros l Hl; [constructor|].
    destruct l as [|q l]; [constructor|]. apply Forall_cons in Hl as [Hq Hl]. simpl. constructor; [done|by apply IH]. }
  destruct buys as [|c0 buys']; [constructor|]. set (buys := c0 :: buys') in *.
  apply bind_ok in Hfit as (costs & Hcosts & Hfit). apply lift_math_ok, try_map_ok in Hcosts.
  assert (Forall dec_ok costs) as Hck.
  { clear -Hcosts Hall Hf. clearbody buys. revert Hall. induction Hcosts as [|c x l l' Hc _ IH]; intros Hall; [constructor|].
    apply Forall_cons in Hall as [Hcok Hall]. constructor; [by eapply cost_ok|by apply IH]. }
  apply bind_ok in Hfit as (total & Htot & Hfit). apply lift_math_ok in Htot. apply sum_atto in Htot as [Htok _]; [|done].
  destruct (dec_ltb available total).
  - apply bind_ok in Hfit as (unit & Hunit & Hfit). apply lift_math_ok, map_err_ok in Hunit.
    apply dec_new_ok in Hunit as [Hunit _]; [|lia|done].
    apply bind_ok in Hfit as (slack & Hslack & Hfit). apply lift_math_ok in Hslack.
    assert (dec_ok (from_i64 (Z.min (Z.of_nat (length buys)) i64_max))).
    { apply from_i64_ok. unfold i64_min, i64_max. lia. }
    decs. apply bind_ok in Hfit as (u & Hu & Hfit). apply lift_math_ok in Hu. decs.
    apply bind_ok in Hfit as (f & Hfac & Hfit).
    assert (dec_ok f) as Hfok.
    { destruct (is_positive u); [|by injection Hfac as <-]. apply lift_math_ok in Hfac.
      by apply div_floor_atto in Hfac as (? & _). }
    apply Hzip. rewrite try_map_ok in Hfit. clear -Hfit Hall Hb Hfok. clearbody buys.
    revert Hall. induction Hfit as [|c q l l' Hc _ IH]; intros Hall; [constructor|].
    apply Forall_cons in Hall as [Hcok Hall]. constructor; [by eapply rescale_ok|by apply IH].
  - injection Hfit as <-. apply Hzip. change (Forall dec_ok (c_qty <$> buys)). apply Forall_fmap. eapply Forall_impl; [exact Hall|]. by intros c [? _].
Qed.

(** The order the planned orders come in. *)
Definition comes_before (a b : PlannedOrder) : Prop := kcmp (p_venue a, p_symbol a) (p_venue b, p_symbol b) = Lt.

(** The facts of a successful plan every property starts from. *)
Record plan_facts (account : AccountView) (prices : BTreeMap string PricePoint) (book : VenueRuleBook)
    (policy : Policy) (cfg : PlanConfig) (managed : BTreeMap string Managed) (ps : list Position)
    (rs is_ : list Candidate) (placed1 placed2 : list (Candidate * Dec)) (os1 os2 : list PlannedOrder)
    (s1 s2 : sim_state) (pl : OrderPlan) : Prop := {
  pf_revalued : try_map (revalue (rekey prices)) (positions account) = Ok ps;
  pf_drafted : drafted account (rekey prices) cfg (capital_base policy (equity account) (acc_ccy account))
    (bt_values managed) (lines pl) rs is_;
  pf_placed1 : placed1 `sublist_of` ((λ c, (c, c_qty c)) <$> sort_by candidate_gt rs);
  pf_placed2 : placed2.*1 `sublist_of` sort_by candidate_gt is_;
  pf_planned1 : Forall2 (planned_as account cfg) placed1 os1;
  pf_planned2 : Forall2 (planned_as account cfg) placed2 os2;
  pf_orders : orders pl = os1 ++ os2;
  pf_replay1 : replay policy cfg (instrument_rules book) (rekey prices) true
    (with_positions account ps (cash account), day cfg, if signed_plan cfg then buying_power cfg else None) os1 s1;
  pf_replay2 : replay policy cfg (instrument_rules book) (rekey prices) false s1 os2 s2;
  pf_power : mr_buying_power_left (margin pl) = s2.2;
  pf_closed : ∀ c, c ∈ placed2.*1 → c_leg c = Open → close_placed account cfg rs os1 (m_symbol (c_m c));
  pf_tags : NoDup ((tag <$> orders pl) ++ ((λ d, tag (denied_order d)) <$> denied pl));
}.

Lemma filter_sublist {A} (f : A → bool) (l : list A) : List.filter f l `sublist_of` l.
Proof. induction l as [|x l IH]; simpl; [done|]. destruct (f x); by constructor. Qed.

Lemma zip_fst_sublist {A B} (l : list A) (k : list B) (l' : list (A * B)) : l' `sublist_of` zip l k → l'.*1 `sublist_of` l.
Proof.
  intros Hs. apply (fmap_sublist fst) in Hs. etransitivity; [exact Hs|]. clear Hs l'. revert k.
  induction l as [|x l IH]; intros [|y k]; simpl; try apply sublist_nil_l. by constructor.
Qed.

Lemma margin_report_power policy sim cfg base ls mr : margin_report policy sim cfg base ls = Ok mr →
  mr_buying_power_left mr = buying_power cfg.
Proof.
  unfold margin_report. intros ([tg named] & _ & (p & _ & (? & _ & (? & _ & [= <-])%bind_ok)%bind_ok)%bind_ok)%bind_ok. done.
Qed.

Lemma drafted_cands account prices cfg base ms ls rs is_ : prices_ok prices →
  drafted account prices cfg base ms ls rs is_ →
  (Forall cand_ok rs ∧ Forall (cand_at prices true) rs) ∧ (Forall cand_ok is_ ∧ Forall (cand_at prices false) is_).
Proof.
  intros Hp [_ [_ Hr] [_ Hi]]. assert (∀ b c, cand_is account prices cfg base b c → cand_ok c ∧ cand_at prices b c) as Hc.
  { intros b c [Hc Hb]. pose proof (cs_price _ _ _ _ _ _ Hc) as Hu. split; [|done].
    split; [by apply (cs_qty _ _ _ _ _ _ Hc)|]. by apply (usable_ok prices (m_symbol (c_m c))). }
  split; apply Forall_and; [eapply Forall_impl; [exact Hr|]|eapply Forall_impl; [exact Hi|]]; intros c; by apply Hc.
Qed.

Lemma plan_open targets account prices book policy cfg pl : inputs_ok targets account prices book policy cfg →
  plan targets account prices book policy cfg = Ok pl →
  ∃ managed ps rs is_ placed1 placed2 os1 os2 s1 s2, aggregate targets cfg = Ok managed ∧
    plan_facts account prices book policy cfg managed ps rs is_ placed1 placed2 os1 os2 s1 s2 pl.
Proof.
  intros [Ht Ha Hp Hb Hr Hpol Hcfg] Hpl. apply rekey_ok in Hp as Hpk.
  assert (dec_ok (capital_base policy (equity account) (acc_ccy account))) as Hbase by (apply capital_base_ok; [done|apply Ha]).
  unfold plan in Hpl. apply bind_ok in Hpl as (? & _ & Hpl).
  apply bind_ok in Hpl as (managed & Hman & Hpl). exists managed.
  apply bind_ok in Hpl as (ps & Hps & Hpl). set (sim := with_positions _ _ _) in Hpl.
  apply bind_ok in Hpl as (d & Hd & Hpl). apply bind_ok in Hpl as (mr & Hmr & Hpl).
  apply bind_ok in Hpl as ([b1 closed] & Hb1 & Hpl). set (is_ := sort_by candidate_gt (dr_increasers d)) in Hpl.
  apply bind_ok in Hpl as (reserve & Hres & Hpl). apply lift_math_ok in Hres.
  apply bind_ok in Hpl as (av & Hav & Hpl). apply lift_math_ok in Hav.
  apply bind_ok in Hpl as (qtys & Hq & Hpl). apply bind_ok in Hpl as ([b2 sk] & Hb2 & Hpl).
  apply bind_ok in Hpl as (? & Htags & Hpl).
  assert (managed_ok managed) as Hmok by (by eapply aggregate_ok).
  assert (Forall (λ m, dec_ok (m_weight m)) (bt_values managed)) as Hws.
  { apply Forall_forall. intros m Hm. apply list_elem_of_fmap in Hm as ([k m'] & -> & Hin). by apply (proj2 Hmok k m'). }
  destruct (draft_spec account (rekey prices) book cfg _ (bt_values managed) _ d Ha Hpk Hb Hcfg Hbase Hws Hd) as
    (ls & rs & is0 & Hdr & Hls & Hrs & His).
  simpl in Hls, Hrs, His. destruct (drafted_cands _ _ _ _ _ _ _ _ Hpk Hdr) as [[Hcr Hcra] [Hci Hcia]].
  assert (account_ok sim) as Hsim by (by eapply revalued_ok).
  assert (book_state_ok (start account cfg sim mr)) as Hstart.
  { split; simpl; [done|apply Hcfg|]. destruct (signed_plan cfg); [|by injection Hmr as <-].
    rewrite (margin_report_power _ _ _ _ _ _ Hmr). apply Hcfg. }
  assert (Forall cand_ok (sort_by candidate_gt rs)) as Hcr' by (by rewrite sort_by_perm).
  destruct (reductions_closed _ _ _ _ _ _ _ _ _ Hb1) as [_ Hclosed].
  apply reductions_tried in Hb1. rewrite Hrs in Hb1.
  destruct (tried_spec policy account _ cfg (rekey prices) true _ _ _ Hpol Hcfg Hr Hb1 Hstart)
    as (Hok1 & pl1 & os1 & Hs1 & Hp1 & Ho1 & Hrep1).
  { apply Forall_fmap. exact Hcr'. }
  { apply Forall_fmap. by rewrite sort_by_perm. }
  assert (dec_ok av) as Havok.
  { assert (dec_ok (budget account cfg (bk_sim b1))).
    { pose proof (ac_cash _ (bo_sim _ Hok1)). pose proof (ac_cash _ Ha). unfold budget.
      destruct (signed_plan cfg); [destruct (buying_power cfg) as [bp|] eqn:Ebp; [by apply (cf_power _ Hcfg)|]|];
        (destruct (credit_sell_proceeds cfg); [done|by apply dec_min_ok]). }
    assert (dec_ok reserve) by (eapply reserve_amount_ok; [exact Hpol|exact Hbase|exact Hres]). decs. done. }
  set (buys := List.filter _ is_) in Hb2, Hq.
  assert (Forall cand_ok buys) as Hbuys.
  { apply Forall_forall. intros c Hc%list_elem_of_In%filter_In%proj1%list_elem_of_In. subst is_.
    rewrite sort_by_perm, His in Hc. rewrite Forall_forall in Hci. by apply Hci. }
  pose proof (fit_buys_ok book cfg av buys qtys Hb (cf_fee _ Hcfg) Havok Hbuys Hq) as Hpairs.
  apply increases_tried in Hb2.
  destruct (tried_spec policy account _ cfg (rekey prices) false _ _ _ Hpol Hcfg Hr Hb2 Hok1)
    as (Hok2 & pl2 & os2 & Hs2 & Hp2 & Ho2 & Hrep2).
  { apply Forall_forall. intros c Hc%list_elem_of_In%filter_In%proj1%list_elem_of_In. rewrite Forall_forall in Hpairs. by apply Hpairs. }
  { apply Forall_forall. intros [c q] Hc%list_elem_of_In%filter_In%proj1%list_elem_of_In.
    apply elem_of_zip_l, list_elem_of_In, filter_In in Hc as [Hc%list_elem_of_In _]. subst is_. rewrite sort_by_perm, His in Hc.
    rewrite Forall_forall in Hcia. by apply Hcia. }
  assert (pl2.*1 `sublist_of` buys) as Hsub2.
  { eapply zip_fst_sublist. etransitivity; [exact Hs2|apply filter_sublist]. }
  exists ps, rs, is0, pl1, pl2, os1, os2, (state_of b1), (state_of b2). split; [done|]. injection Hpl as <-.
  simpl in Ho1. split; simpl.
  - done.
  - by rewrite Hls.
  - done.
  - etransitivity; [exact Hsub2|]. subst buys is_. rewrite His. apply filter_sublist.
  - done.
  - done.
  - by rewrite Ho2, Ho1.
  - revert Hrep1. unfold start, state_of. simpl.
    destruct (signed_plan cfg); [by rewrite (margin_report_power _ _ _ _ _ _ Hmr)|by injection Hmr as <-].
  - exact Hrep2.
  - done.
  - intros c Hc Hopen. eapply elem_of_sublist in Hc; [|exact Hsub2]. subst buys.
    apply list_elem_of_In, filter_In in Hc as [_ Hor]. unfold orphan in Hor.
    rewrite bool_decide_eq_true_2 in Hor by done. simpl in Hor. rewrite negb_involutive in Hor.
    destruct (Hclosed _ Hor) as [?|(c' & n & f & Hc' & Hrest)]; [done|]. rewrite Ho1 in Hrest.
    exists c', n, f. split; [by rewrite sort_by_perm, Hrs in Hc'|done].
  - unfold check_tags in Htags. destruct (all_fresh [] _) eqn:E; [done|]. by apply all_fresh_none in E as [? _].
Qed.

(** ** Long-only plans: the targets fit the capital *)

Definition weight_sum (t : SleeveTarget) : Z := atto_sum (weight <$> weights t).

Record long_target (t : SleeveTarget) : Prop := {
  lt_share : 0 < atto (share t);
  lt_weights : Forall (λ w, 0 ≤ atto (weight w)) (weights t);
  lt_sum : weight_sum t ≤ ONE;
}.

Lemma bounds_long cfg id : signed_sleeves cfg = [] → bounds_for cfg id = LongOnlyUnit.
Proof. intros Hs. unfold bounds_for. by rewrite Hs. Qed.

Lemma long_weights t ws acc acc' : Forall (λ w, dec_ok (weight w)) ws → dec_ok acc.2 →
  try_fold (check_weight t LongOnlyUnit) acc ws = Ok acc' →
  Forall (λ w, 0 ≤ atto (weight w)) ws ∧ dec_ok acc'.2 ∧ atto acc'.2 = atto acc.2 + atto_sum (weight <$> ws).
Proof.
  revert acc. induction ws as [|w ws IH]; intros [sy tot] Hws Hacc Hf; cbn [try_fold] in Hf.
  - injection Hf as <-. split; [constructor|]. split; [done|]. simpl. lia.
  - apply Forall_cons in Hws as [Hw Hws]. apply bind_ok in Hf as ([sy1 tot1] & Hc & Hf). unfold check_weight in Hc.
    apply bind_ok in Hc as (? & Hneg & Hc). rewrite require_ok in Hneg. apply bind_ok in Hc as (? & _ & Hc).
    apply bind_ok in Hc as (tot2 & Ht & Hc). apply lift_math_ok in Ht. injection Hc as <- <-. simpl in Hacc.
    destruct (add_atto _ _ _ Hacc Hw Ht) as [K V].
    destruct (IH (_, tot2) Hws K Hf) as (Hall & Hok & Hsum). split; [|split; [done|]].
    + constructor; [|done]. apply Z.nlt_ge. intros Hx. apply is_negative_atto in Hx; [|done]. by rewrite Hx in Hneg.
    + rewrite Hsum, fmap_cons, atto_sum_cons. simpl snd. lia.
Qed.

Lemma long_sleeves cfg ts acc acc' : signed_sleeves cfg = [] → targets_ok ts → dec_ok acc.2 →
  try_fold (check_sleeve cfg) acc ts = Ok acc' →
  Forall long_target ts ∧ dec_ok acc'.2 ∧ atto acc'.2 = atto acc.2 + atto_sum (share <$> ts).
Proof.
  intros Hsg. revert acc. induction ts as [|t ts IH]; intros [seen tot] Hts Hacc Hf; cbn [try_fold] in Hf.
  - injection Hf as <-. split; [constructor|]. split; [done|]. simpl. lia.
  - destruct (Hts t ltac:(by left)) as [Hsh Hws]. apply bind_ok in Hf as ([seen1 tot1] & Hc & Hf). unfold check_sleeve in Hc.
    apply bind_ok in Hc as (? & _ & Hc). apply bind_ok in Hc as (? & Hshare & Hc). rewrite require_ok in Hshare.
    apply bind_ok in Hc as (tot2 & Ht & Hc). apply lift_math_ok in Ht. simpl in Hacc.
    destruct (add_atto _ _ _ Hacc Hsh Ht) as [K V].
    rewrite bounds_long in Hc by done. apply bind_ok in Hc as ([sy tw] & Hw & Hc).
    apply bind_ok in Hc as (? & Hle & Hc). rewrite require_ok in Hle. injection Hc as <- <-.
    destruct (long_weights t (weights t) ([], ZERO) (sy, tw)) as (Hnn & Htw & Hsum); [by apply Forall_forall|apply ZERO_ok|done|].
    destruct (IH (_, tot2) ltac:(intros t' Ht'; apply Hts; by right) K Hf) as (Hall & Hok & Htot).
    split; [|split; [done|rewrite Htot, fmap_cons, atto_sum_cons; simpl snd; lia]]. constructor; [|done]. split; [|done|].
    + apply negb_true_iff, orb_false_elim in Hshare as [Hx _]. rewrite dec_leb_atto in Hx by (done || apply ZERO_ok).
      rewrite atto_zero in Hx. lia.
    + simpl in Hle, Hsum. rewrite dec_ltb_atto in Hle by (done || (apply from_i64_ok; unfold i64_min, i64_max; lia)).
      change (atto one) with ONE in Hle. unfold weight_sum. rewrite atto_zero in Hsum. simpl in Htw.
      destruct (Z.ltb_spec ONE (atto tw)); [done|]. lia.
Qed.

Lemma validate_long targets account cfg u : signed_sleeves cfg = [] → targets_ok targets → config_ok cfg →
  validate targets account cfg = Ok u →
  Forall long_target targets ∧ atto_sum (share <$> targets) ≤ ONE ∧ 0 < atto (risk_scale cfg) ≤ ONE.
Proof.
  intros Hsg Hts Hcfg Hv. unfold validate in Hv. apply bind_ok in Hv as (? & Hpar & Hv).
  apply bind_ok in Hv as (? & _ & Hv). apply bind_ok in Hv as ([seen tot] & Hf & Hv). rewrite require_ok in Hv.
  destruct (long_sleeves cfg targets ([], ZERO) (seen, tot) Hsg Hts ZERO_ok Hf) as (Hall & Hok & Hsum).
  assert (dec_ok one) as H1 by (apply from_i64_ok; unfold i64_min, i64_max; lia).
  split; [done|]. split.
  - simpl in *. rewrite dec_ltb_atto in Hv by done. change (atto one) with ONE in Hv. rewrite atto_zero in Hsum.
    destruct (Z.ltb_spec ONE (atto tot)); [done|]. lia.
  - unfold check_params in Hpar. apply bind_ok in Hpar as (? & Hs & _). rewrite require_ok in Hs.
    apply negb_true_iff, orb_false_elim in Hs as [Hs0 Hs1].
    rewrite dec_leb_atto in Hs0 by (exact (cf_scale _ Hcfg) || apply ZERO_ok).
    rewrite dec_ltb_atto in Hs1 by (exact (cf_scale _ Hcfg) || done).
    rewrite atto_zero in Hs0. change (atto one) with ONE in Hs1. lia.
Qed.

(** The sum of a function over the values of a map, after an insertion. *)
Definition value_sum {V} (f : V → Z) (m : BTreeMap string V) : Z := sum_of (λ kv, f kv.2) m.

Lemma value_sum_insert {V} (f : V → Z) k v (m : BTreeMap string V) : bt_sorted m →
  value_sum f (bt_insert k v m) = value_sum f m + f v - match bt_get m k with Some v' => f v' | None => 0 end.
Proof.
  unfold value_sum. induction m as [|[k1 v1] m IH]; intros Hs; cbn [bt_insert bt_get]; [simpl; lia|].
  inversion Hs as [|? ? Hs' Hlt]; subst. destruct (kcmp k k1) eqn:E; simpl.
  - lia.
  - assert (bt_get m k = None) as ->; [|simpl; lia]. destruct (bt_get m k) as [v'|] eqn:Eg; [|done].
    apply bt_get_elem in Eg. rewrite Forall_forall in Hlt. specialize (Hlt _ Eg). unfold bt_lt in Hlt. simpl in Hlt.
    pose proof (kcmp_trans _ _ _ E Hlt) as Hx. by rewrite kcmp_refl in Hx.
  - rewrite (IH Hs'). lia.
Qed.

(** Long-only aggregation so far: no weight is negative, none is signed, and the weights are within what the sleeves
    processed so far were given. *)
Definition aggregated (map : BTreeMap string Managed) (spent : Z) : Prop :=
  managed_ok map ∧ (∀ k m, (k, m) ∈ map → 0 ≤ atto (m_weight m) ∧ m_signed m = false) ∧
  value_sum (λ m, atto (m_weight m)) map * ONE ≤ spent.

Lemma add_weight_long cfg t map w map' spent : signed_sleeves cfg = [] → dec_ok (share t) → dec_ok (weight w) →
  0 < atto (share t) → 0 ≤ atto (weight w) → aggregated map spent → add_weight cfg t map w = Ok map' →
  aggregated map' (spent + atto (share t) * atto (weight w)).
Proof.
  intros Hsg Hs Hw Hs0 Hw0 (Hok & Hnn & Hsum) Ha.
  pose proof (add_weight_ok cfg t map w map' Hs Hw Hok Ha) as Hok'. split; [done|]. unfold add_weight in Ha.
  rewrite bounds_long in Ha by done. apply bind_ok in Ha as (x & Hx & Ha). apply lift_math_ok in Hx.
  destruct (mul_atto _ _ _ Hs Hw Hx) as [K V]. pose proof ONE_pos. pose proof (Z.mul_div_le (atto (share t) * atto (weight w)) ONE ltac:(lia)).
  assert (0 ≤ atto x) by (rewrite V; apply Z.div_pos; nia).
  destruct (bt_get map (key (tw_symbol w))) as [m|] eqn:Em.
  - apply bt_get_elem in Em as Hin. destruct (Hnn _ _ Hin) as [Hm0 Hmsg]. destruct (proj2 Hok _ _ Hin) as [_ Hmok].
    apply bind_ok in Ha as (? & _ & Ha). apply bind_ok in Ha as (total & Ht & Ha). apply lift_math_ok in Ht. decs.
    injection Ha as <-. split.
    + intros k m' [[= -> ->]|Hin']%bt_insert_elem; [simpl; split; [lia|by rewrite Hmsg]|by eapply Hnn].
    + rewrite value_sum_insert, Em by apply Hok. simpl. nia.
  - injection Ha as <-. split.
    + intros k m' [[= -> ->]|Hin']%bt_insert_elem; [by simpl|by eapply Hnn].
    + rewrite value_sum_insert, Em by apply Hok. simpl. nia.
Qed.

Lemma add_weights_long cfg t ws map map' spent : signed_sleeves cfg = [] → dec_ok (share t) → 0 < atto (share t) →
  Forall (λ w, dec_ok (weight w) ∧ 0 ≤ atto (weight w)) ws → aggregated map spent →
  try_fold (add_weight cfg t) map ws = Ok map' →
  aggregated map' (spent + atto (share t) * atto_sum (weight <$> ws)).
Proof.
  intros Hsg Hs Hs0. revert map spent. induction ws as [|w ws IH]; intros map spent Hws Hagg Hf; cbn [try_fold] in Hf.
  - injection Hf as <-. simpl. by replace (spent + atto (share t) * 0) with spent by lia.
  - apply Forall_cons in Hws as [[Hw Hw0] Hws]. apply bind_ok in Hf as (map1 & Hc & Hf).
    pose proof (add_weight_long cfg t map w map1 spent Hsg Hs Hw Hs0 Hw0 Hagg Hc) as Hagg1.
    pose proof (IH _ _ Hws Hagg1 Hf) as Hr. rewrite fmap_cons, atto_sum_cons, Z.mul_add_distr_l, Z.add_assoc. done.
Qed.

Lemma aggregate_long targets cfg map : signed_sleeves cfg = [] → targets_ok targets → Forall long_target targets →
  aggregate targets cfg = Ok map → aggregated map (atto_sum (share <$> targets) * ONE).
Proof.
  intros Hsg. unfold aggregate.
  assert (∀ ts map0 map1 spent, targets_ok ts → Forall long_target ts → aggregated map0 spent →
    try_fold (λ map t, try_fold (add_weight cfg t) map (weights t)) map0 ts = Ok map1 →
    aggregated map1 (spent + atto_sum (share <$> ts) * ONE)) as Hgen.
  { intros ts. induction ts as [|t ts IH]; intros map0 map1 spent Hts Hlong Hagg Hf; cbn [try_fold] in Hf.
    - injection Hf as <-. simpl. by replace (spent + 0 * ONE) with spent by lia.
    - apply Forall_cons in Hlong as [[Hs0 Hnn Hsum] Hlong]. destruct (Hts t ltac:(by left)) as [Hs Hws].
      apply bind_ok in Hf as (map2 & Hc & Hf).
      assert (aggregated map2 (spent + atto (share t) * weight_sum t)) as Hagg2.
      { eapply add_weights_long; [done..| |exact Hagg|exact Hc]. rewrite Forall_forall in Hnn |- *.
        intros w Hw. split; [by apply Hws|by apply Hnn]. }
      eapply IH in Hf; [|intros t' Ht'; apply Hts; by right|done|exact Hagg2].
      destruct Hf as (? & ? & ?). split; [done|]. split; [done|]. rewrite fmap_cons, atto_sum_cons. nia. }
  intros Hts Hlong Hf. apply (Hgen targets [] map 0) in Hf; [done|done|done|].
  split; [split; [constructor|]|split]; [intros k m Hin; by apply not_elem_of_nil in Hin..|]. unfold value_sum. simpl. lia.
Qed.

Lemma target_long cfg base m t : dec_ok base → 0 ≤ atto base ≤ i128_max → dec_ok (m_weight m) →
  0 ≤ atto (m_weight m) ≤ ONE → dec_ok (risk_scale cfg) → 0 < atto (risk_scale cfg) ≤ ONE → target_of cfg base m = Ok t →
  0 ≤ atto t ∧ atto t * ONE * ONE ≤ atto base * atto (m_weight m) * atto (risk_scale cfg).
Proof.
  intros Hb Hb0 Hw Hw0 Hs Hs0 Ht. unfold target_of in Ht.
  apply bind_ok in Ht as (x1 & H1 & Ht). apply bind_ok in Ht as (x2 & H2 & Ht).
  destruct (mul_atto _ _ _ Hb Hw H1) as [K1 V1]. destruct (mul_atto _ _ _ K1 Hs H2) as [K2 V2]. pose proof ONE_pos.
  pose proof (Z.mul_div_le (atto base * atto (m_weight m)) ONE ltac:(lia)) as L1. rewrite <-V1 in L1.
  pose proof (Z.mul_div_le (atto x1 * atto (risk_scale cfg)) ONE ltac:(lia)) as L2. rewrite <-V2 in L2.
  assert (0 ≤ atto x1) by (rewrite V1; apply Z.div_pos; nia).
  assert (0 ≤ atto x2) by (rewrite V2; apply Z.div_pos; nia).
  assert (atto x1 ≤ atto base) by nia. assert (atto x2 ≤ atto x1) by nia.
  unfold round_toward_zero in Ht. destruct (is_negative x2) eqn:En; [apply is_negative_atto in En; [lia|done]|].
  rewrite map_err_ok in Ht.
  destruct (round_dp_atto x2 8 Floor K2 ltac:(unfold MAX_SCALE; lia)) as (r & Hr & Hok & _ & Hv).
  { apply round_fits_atto; [done|unfold MAX_SCALE; lia|lia]. }
  rewrite Hr in Ht. injection Ht as <-. pose proof (grain_pos 8 ltac:(unfold MAX_SCALE; lia)).
  pose proof (round_to_bounds Floor (atto x2) (grain 8) ltac:(done)) as [Hle _]. rewrite <-Hv in Hle.
  split; [rewrite Hv; simpl; apply Z.mul_nonneg_nonneg; [apply Z.div_pos|]; lia|]. nia.
Qed.

Lemma sublist_sum {A} (f : A → Z) (l l' : list A) : l' `sublist_of` l → Forall (λ x, 0 ≤ f x) l → sum_of f l' ≤ sum_of f l.
Proof.
  induction 1 as [|x l' l _ IH|x l' l _ IH]; intros Hall; simpl; [lia|apply Forall_cons in Hall as [? ?%IH]; lia..].
Qed.

Lemma value_sum_values {V} (f : V → Z) (m : BTreeMap string V) : value_sum f m = sum_of f (bt_values m).
Proof. unfold value_sum, bt_values. induction m as [|[k v] m IH]; [done|]. simpl. by rewrite IH. Qed.

Lemma weight_le_sum map spent m : aggregated map spent → spent ≤ ONE * ONE → m ∈ bt_values map →
  dec_ok (m_weight m) ∧ 0 ≤ atto (m_weight m) ≤ ONE ∧ m_signed m = false.
Proof.
  intros (Hok & Hnn & Hsum) Hsp Hm. apply list_elem_of_fmap in Hm as ([k m'] & -> & Hin). simpl.
  destruct (Hnn _ _ Hin) as [Hw Hsg]. split; [by apply (proj2 Hok _ _ Hin)|]. split; [|done]. split; [done|].
  assert (atto (m_weight m') ≤ value_sum (λ m, atto (m_weight m)) map).
  { rewrite value_sum_values. replace (atto (m_weight m')) with (sum_of (λ m, atto (m_weight m)) [m']) by (simpl; lia).
    apply sublist_sum; [apply singleton_sublist_l, list_elem_of_fmap; by exists (k, m')|].
    apply Forall_forall. intros m Hm. apply list_elem_of_fmap in Hm as ([k' m''] & -> & Hin'). by apply (Hnn _ _ Hin'). }
  pose proof ONE_pos. nia.
Qed.

(** What a long-only plan was made from. *)
Lemma long_inputs targets account prices book policy cfg pl managed : signed_sleeves cfg = [] →
  inputs_ok targets account prices book policy cfg → plan targets account prices book policy cfg = Ok pl →
  aggregate targets cfg = Ok managed → 0 < atto (risk_scale cfg) ≤ ONE ∧ aggregated managed (ONE * ONE).
Proof.
  intros Hsg [Ht _ _ _ _ _ Hcfg] Hpl Hman. unfold plan in Hpl. apply bind_ok in Hpl as (u & Hv & _).
  destruct (validate_long targets account cfg u Hsg Ht Hcfg Hv) as (Hlong & Hshares & Hscale). split; [done|].
  destruct (aggregate_long targets cfg managed Hsg Ht Hlong Hman) as (? & ? & ?). split; [done|]. split; [done|].
  pose proof ONE_pos. nia.
Qed.

Lemma lines_sum account cfg base ms ls : dec_ok base → 0 ≤ atto base ≤ i128_max → dec_ok (risk_scale cfg) →
  0 < atto (risk_scale cfg) ≤ ONE → Forall (λ m, dec_ok (m_weight m) ∧ 0 ≤ atto (m_weight m) ≤ ONE) ms →
  Forall2 (line_spec account cfg base) ms ls →
  Forall (λ l, 0 ≤ atto (target_notional l)) ls ∧
  sum_of (λ l, atto (target_notional l)) ls * ONE * ONE ≤
    atto base * sum_of (λ m, atto (m_weight m)) ms * atto (risk_scale cfg).
Proof.
  intros Hb Hb0 Hs Hs0 Hms. induction 1 as [|m l ms ls (_ & _ & Ht) _ IH]; [split; [constructor|simpl; lia]|].
  apply Forall_cons in Hms as [[Hw Hw0] Hms]. destruct (IH Hms) as [Hall Hsum].
  destruct (target_long cfg base m _ Hb Hb0 Hw Hw0 Hs Hs0 Ht) as [Hnn Hle]. split; [by constructor|]. simpl. nia.
Qed.

(** The plan's order inside each half, and that an instrument is in a half at most once. *)
Lemma candidate_sorted (cs : list Candidate) : NoDup (m_symbol ∘ c_m <$> cs) →
  StronglySorted (λ a b, kcmp (m_venue (c_m a), m_symbol (c_m a)) (m_venue (c_m b), m_symbol (c_m b)) = Lt)
    (sort_by candidate_gt cs).
Proof.
  intros Hnd. assert (NoDup (m_symbol ∘ c_m <$> sort_by candidate_gt cs)) as Hnd' by (by rewrite sort_by_perm).
  pose proof (sort_by_sorted candidate_gt (λ x y, key_gt_total _ _) (λ x y z, key_gt_trans _ _ _) cs) as Hs.
  revert Hnd'. induction Hs as [|c l _ IH Hc]; intros Hnd'; [constructor|].
  rewrite fmap_cons in Hnd'. apply NoDup_cons in Hnd' as [Hnot Hnd']. constructor; [by apply IH|].
  rewrite Forall_forall in Hc |- *. intros c' Hc'. specialize (Hc c' Hc'). unfold candidate_gt, key_gt in Hc.
  destruct (kcmp (m_venue (c_m c), _) _) eqn:E; [|done|done]. exfalso. apply kcmp_eq in E. injection E as _ E.
  apply Hnot. simpl. rewrite E. apply list_elem_of_fmap. by exists c'.
Qed.

Lemma sublist_sorted {A} (R : A → A → Prop) l l' : l' `sublist_of` l → StronglySorted R l → StronglySorted R l'.
Proof.
  intros Hs. induction Hs as [|x l' l Hs IH|x l' l Hs IH]; intros Hl; [done|inversion Hl as [|? ? Hl' Hx]; subst..].
  - constructor; [by apply IH|]. rewrite Forall_forall in Hx |- *. intros y Hy. by eapply Hx, elem_of_sublist.
  - by apply IH.
Qed.

Lemma planned_sorted account cfg placed os :
  StronglySorted (λ a b, kcmp (m_venue (c_m a), m_symbol (c_m a)) (m_venue (c_m b), m_symbol (c_m b)) = Lt) placed.*1 →
  Forall2 (planned_as account cfg) placed os → StronglySorted comes_before os.
Proof.
  intros Hs Hp. revert Hs. induction Hp as [|[c q] o placed os (n & f & _ & _ & ->) Hp IH]; intros Hs; [constructor|].
  simpl in Hs. inversion Hs as [|? ? Hs' Hc]; subst. constructor; [by apply IH|].
  apply Forall_forall. intros o Ho. apply list_elem_of_lookup in Ho as [i Hi].
  destruct (Forall2_lookup_r _ _ _ _ _ Hp Hi) as ([c' q'] & Hi' & n' & f' & _ & _ & ->).
  rewrite Forall_forall in Hc. apply Hc. apply list_elem_of_lookup_2 in Hi'. apply list_elem_of_fmap. by exists (c', q').
Qed.

(** The candidates behind the planned orders. *)
Lemma facts_reducers account prices book policy cfg managed ps rs is_ placed1 placed2 os1 os2 s1 s2 pl :
  plan_facts account prices book policy cfg managed ps rs is_ placed1 placed2 os1 os2 s1 s2 pl →
  let base := capital_base policy (equity account) (acc_ccy account) in
  ∀ o, o ∈ os1 → ∃ c, c_m c ∈ bt_values managed ∧ cand_is account (rekey prices) cfg base true c ∧
    p_symbol o = m_symbol (c_m c) ∧ p_side o = c_side c ∧ p_quantity o = c_qty c.
Proof.
  intros Hf base o Ho. destruct (df_reducers _ _ _ _ _ _ _ _ (pf_drafted _ _ _ _ _ _ _ _ _ _ _ _ _ _ _ _ Hf)) as [Hsub Hall].
  apply list_elem_of_lookup in Ho as [i Hi].
  destruct (Forall2_lookup_r _ _ _ _ _ (pf_planned1 _ _ _ _ _ _ _ _ _ _ _ _ _ _ _ _ Hf) Hi) as ([c q] & Hci & n & f & _ & _ & ->).
  apply list_elem_of_lookup_2 in Hci. eapply elem_of_sublist in Hci; [|exact (pf_placed1 _ _ _ _ _ _ _ _ _ _ _ _ _ _ _ _ Hf)].
  apply list_elem_of_fmap in Hci as (c' & [= -> ->] & Hc). rewrite sort_by_perm in Hc.
  exists c'. split; [|split; [rewrite Forall_forall in Hall; by apply Hall|done]].
  eapply elem_of_sublist; [|exact Hsub]. apply list_elem_of_fmap. by exists c'.
Qed.

Lemma facts_increasers account prices book policy cfg managed ps rs is_ placed1 placed2 os1 os2 s1 s2 pl :
  plan_facts account prices book policy cfg managed ps rs is_ placed1 placed2 os1 os2 s1 s2 pl →
  let base := capital_base policy (equity account) (acc_ccy account) in
  ∀ o, o ∈ os2 → ∃ c, c_m c ∈ bt_values managed ∧ cand_is account (rekey prices) cfg base false c ∧
    p_symbol o = m_symbol (c_m c) ∧ p_side o = c_side c.
Proof.
  intros Hf base o Ho. destruct (df_increasers _ _ _ _ _ _ _ _ (pf_drafted _ _ _ _ _ _ _ _ _ _ _ _ _ _ _ _ Hf)) as [Hsub Hall].
  apply list_elem_of_lookup in Ho as [i Hi].
  destruct (Forall2_lookup_r _ _ _ _ _ (pf_planned2 _ _ _ _ _ _ _ _ _ _ _ _ _ _ _ _ Hf) Hi) as ([c q] & Hci & n & f & _ & _ & ->).
  apply list_elem_of_lookup_2 in Hci. assert (c ∈ placed2.*1) as Hc by (apply list_elem_of_fmap; by exists (c, q)).
  eapply elem_of_sublist in Hc; [|exact (pf_placed2 _ _ _ _ _ _ _ _ _ _ _ _ _ _ _ _ Hf)]. rewrite sort_by_perm in Hc.
  exists c. split; [|split; [rewrite Forall_forall in Hall; by apply Hall|done]].
  eapply elem_of_sublist; [|exact Hsub]. apply list_elem_of_fmap. by exists c.
Qed.

(** An order that takes the position of the account away from zero, or opens the other side of a position that a close
    leg among [reductions] closes. *)
Definition adds (account : AccountView) (cfg : PlanConfig) (reductions : list PlannedOrder) (o : PlannedOrder) : Prop :=
  away (held account (p_symbol o)) (p_side o) ∨
  ∃ o', o' ∈ reductions ∧ p_symbol o' = p_symbol o ∧ p_side o' = p_side o ∧
    tag o' = client_tag_close_leg (account_id account) (scheduled_for cfg) (p_sleeve o') (p_symbol o') (p_side o').

Lemma facts_reduce account prices book policy cfg managed ps rs is_ placed1 placed2 os1 os2 s1 s2 pl :
  plan_facts account prices book policy cfg managed ps rs is_ placed1 placed2 os1 os2 s1 s2 pl →
  ∀ o, o ∈ os1 → reduces (held account (p_symbol o)) (p_side o) (p_quantity o).
Proof.
  intros Hf o Ho. destruct (facts_reducers _ _ _ _ _ _ _ _ _ _ _ _ _ _ _ _ Hf o Ho) as (c & _ & [Hc Hred] & -> & -> & ->).
  by apply (cs_reduces _ _ _ _ _ _ Hc).
Qed.

Lemma facts_add account prices book policy cfg managed ps rs is_ placed1 placed2 os1 os2 s1 s2 pl :
  plan_facts account prices book policy cfg managed ps rs is_ placed1 placed2 os1 os2 s1 s2 pl →
  ∀ o, o ∈ os2 → adds account cfg os1 o.
Proof.
  intros Hf o Ho. apply list_elem_of_lookup in Ho as [i Hi].
  destruct (Forall2_lookup_r _ _ _ _ _ (pf_planned2 _ _ _ _ _ _ _ _ _ _ _ _ _ _ _ _ Hf) Hi) as ([c q] & Hci & n & f & _ & _ & ->).
  apply list_elem_of_lookup_2 in Hci. assert (c ∈ placed2.*1) as Hc by (apply list_elem_of_fmap; by exists (c, q)).
  pose proof (pf_drafted _ _ _ _ _ _ _ _ _ _ _ _ _ _ _ _ Hf) as Hdr.
  destruct (df_increasers _ _ _ _ _ _ _ _ Hdr) as [_ Hinc]. destruct (df_reducers _ _ _ _ _ _ _ _ Hdr) as [_ Hred].
  assert (c ∈ is_) as Hcis.
  { rewrite <-(sort_by_perm candidate_gt is_). eapply elem_of_sublist; [exact Hc|apply Hf]. }
  rewrite Forall_forall in Hinc. destruct (Hinc c Hcis) as [Hcs Hflag].
  destruct (cs_adds _ _ _ _ _ _ Hcs Hflag) as [[Hopen Hto]|Haway]; [|by left]. right.
  destruct (pf_closed _ _ _ _ _ _ _ _ _ _ _ _ _ _ _ _ Hf c Hc Hopen) as (c' & n' & f' & Hc' & Hclose & Hsym & Hin).
  exists (planned_order account cfg c' (c_qty c') n' f'). split; [done|]. split; [done|].
  rewrite Forall_forall in Hred. destruct (Hred c' Hc') as [Hcs' Hflag'].
  pose proof (cs_reduces _ _ _ _ _ _ Hcs' Hflag') as Hr. rewrite Hsym in Hr. split.
  - simpl. revert Hr Hto. unfold reduces, towards. destruct (c_side c'), (c_side c); try done; lia.
  - simpl. by rewrite bool_decide_eq_true_2.
Qed.

Lemma facts_sorted account prices book policy cfg managed ps rs is_ placed1 placed2 os1 os2 s1 s2 pl :
  managed_ok managed →
  plan_facts account prices book policy cfg managed ps rs is_ placed1 placed2 os1 os2 s1 s2 pl →
  StronglySorted comes_before os1 ∧ StronglySorted comes_before os2.
Proof.
  intros Hm%managed_symbols Hf.
  destruct (pf_drafted _ _ _ _ _ _ _ _ _ _ _ _ _ _ _ _ Hf) as [_ [Hr _] [Hi _]].
  assert (∀ cs, (c_m <$> cs) `sublist_of` bt_values managed → NoDup (m_symbol ∘ c_m <$> cs)) as Hnd.
  { intros cs Hs. rewrite list_fmap_compose. eapply sublist_NoDup; [exact Hm|]. by apply fmap_sublist. }
  split.
  - eapply planned_sorted; [|exact (pf_planned1 _ _ _ _ _ _ _ _ _ _ _ _ _ _ _ _ Hf)].
    pose proof (fmap_sublist fst _ _ (pf_placed1 _ _ _ _ _ _ _ _ _ _ _ _ _ _ _ _ Hf)) as Hs.
    rewrite <-list_fmap_compose in Hs. unfold compose in Hs. simpl in Hs. rewrite list_fmap_id in Hs.
    exact (sublist_sorted _ _ _ Hs (candidate_sorted _ (Hnd _ Hr))).
  - eapply planned_sorted; [|exact (pf_planned2 _ _ _ _ _ _ _ _ _ _ _ _ _ _ _ _ Hf)].
    exact (sublist_sorted _ _ _ (pf_placed2 _ _ _ _ _ _ _ _ _ _ _ _ _ _ _ _ Hf) (candidate_sorted _ (Hnd _ Hi))).
Qed.
End facts.

(** ** Properties *)

(** C3. The planner and the guard compose. A plan is its reductions followed by its increases; replayed in that order
    from the broker's account valued at the plan's prices, every order is priced at the plan's price of its symbol, pays
    the configured fee, uses margin exactly when the account it meets needs it, and satisfies the guard's exact
    specification on the account, day counters and buying power that the orders before it leave. A reduction only takes
    a held position towards zero and leaves the buying power as it is; every other order lowers it by its notional and
    fee. What the plan reports as left is what the replay leaves. *)
Theorem plan_orders_permitted `{Chrono, Sha256} targets account prices book policy cfg pl :
  inputs_ok targets account prices book policy cfg → plan targets account prices book policy cfg = Ok pl →
  ∃ ps reductions increases s1 s2,
    try_map (revalue (rekey prices)) (positions account) = Ok ps ∧ orders pl = reductions ++ increases ∧
    (∀ o, o ∈ reductions → reduces (held account (p_symbol o)) (p_side o) (p_quantity o)) ∧
    (∀ o, o ∈ increases → adds account cfg reductions o) ∧
    replay policy cfg (instrument_rules book) (rekey prices) true
      (with_positions account ps (cash account), day cfg, if signed_plan cfg then buying_power cfg else None)
      reductions s1 ∧
    replay policy cfg (instrument_rules book) (rekey prices) false s1 increases s2 ∧
    mr_buying_power_left (margin pl) = s2.2.
Proof.
  intros Hin Hpl. destruct (plan_open _ _ _ _ _ _ _ Hin Hpl) as (managed & ps & rs & is_ & p1 & p2 & os1 & os2 & s1 & s2 & _ & Hf).
  exists ps, os1, os2, s1, s2. split; [apply Hf|]. split; [apply Hf|]. split; [by eapply facts_reduce|].
  split; [by eapply facts_add|]. split; [apply Hf|]. split; apply Hf.
Qed.

(** C18. Risk is taken off before it is added: a plan is its reductions followed by its increases, each half in strict
    (venue, symbol) order, so an instrument is in a half at most once. A reduction only moves a held position towards
    zero and is never larger than it; an increase moves the position it finds away from zero, unless it is the open leg
    of a trade that crosses zero, whose close leg is among the reductions. No two orders, placed or denied, have the
    same tag. *)
Theorem plan_reduces_first `{Chrono, Sha256} targets account prices book policy cfg pl :
  inputs_ok targets account prices book policy cfg → plan targets account prices book policy cfg = Ok pl →
  ∃ reductions increases, orders pl = reductions ++ increases ∧
    StronglySorted comes_before reductions ∧ StronglySorted comes_before increases ∧
    (∀ o, o ∈ reductions → reduces (held account (p_symbol o)) (p_side o) (p_quantity o)) ∧
    (∀ o, o ∈ increases → adds account cfg reductions o) ∧
    NoDup ((tag <$> orders pl) ++ ((λ d, tag (denied_order d)) <$> denied pl)).
Proof.
  intros Hin Hpl.
  destruct (plan_open _ _ _ _ _ _ _ Hin Hpl) as (managed & ps & rs & is_ & p1 & p2 & os1 & os2 & s1 & s2 & Hman & Hf).
  apply aggregate_ok in Hman; [|apply Hin]. destruct (facts_sorted _ _ _ _ _ _ _ _ _ _ _ _ _ _ _ _ Hman Hf) as [H1 H2].
  exists os1, os2. split; [apply Hf|]. split; [done|]. split; [done|].
  split; [by eapply facts_reduce|]. split; [by eapply facts_add|apply Hf].
Qed.


(** The targets of a long-only plan fit the capital: none is negative, and together they are at most the capital
    base times the risk scale (so at most the capital base), whatever the sleeves and however they overlap; every
    rounding on the way is downwards. *)
Theorem long_only_targets_fit `{Chrono, Sha256} targets account prices book policy cfg pl
    (base := capital_base policy (equity account) (acc_ccy account)) :
  inputs_ok targets account prices book policy cfg → signed_sleeves cfg = [] → 0 ≤ atto base ≤ i128_max →
  plan targets account prices book policy cfg = Ok pl →
  Forall (λ l, 0 ≤ atto (target_notional l)) (lines pl) ∧
  sum_of (λ l, atto (target_notional l)) (lines pl) * ONE ≤ atto base * atto (risk_scale cfg) ∧
  0 < atto (risk_scale cfg) ≤ ONE.
Proof.
  intros Hin Hsg Hb Hpl.
  destruct (plan_open _ _ _ _ _ _ _ Hin Hpl) as (managed & ps & rs & is_ & p1 & p2 & os1 & os2 & s1 & s2 & Hman & Hf).
  destruct (long_inputs _ _ _ _ _ _ _ _ Hsg Hin Hpl Hman) as [Hscale Hagg].
  assert (dec_ok base) as Hbok by (apply capital_base_ok; apply Hin).
  destruct (df_lines _ _ _ _ _ _ _ _ (pf_drafted _ _ _ _ _ _ _ _ _ _ _ _ _ _ _ _ Hf)) as (ms & Hsub & Hlines).
  assert (∀ m, m ∈ bt_values managed → dec_ok (m_weight m) ∧ 0 ≤ atto (m_weight m) ≤ ONE) as Hws.
  { intros m Hm. by destruct (weight_le_sum _ _ m Hagg ltac:(lia) Hm) as (? & ? & _). }
  destruct (lines_sum account cfg base ms (lines pl) Hbok Hb (cf_scale _ (in_config _ _ _ _ _ _ Hin)) Hscale) as [Hnn Hsum].
  { apply Forall_forall. intros m Hm. eapply Hws, elem_of_sublist; eassumption. }
  { exact Hlines. }
  split; [done|]. split; [|done].
  assert (sum_of (λ m, atto (m_weight m)) ms ≤ ONE) as Hw.
  { destruct Hagg as (_ & _ & Htot). rewrite value_sum_values in Htot. pose proof ONE_pos.
    assert (sum_of (λ m, atto (m_weight m)) ms ≤ sum_of (λ m, atto (m_weight m)) (bt_values managed)); [|nia].
    apply sublist_sum; [done|]. apply Forall_forall. intros m Hm. destruct (Hws m Hm) as [? [? ?]]. done. }
  pose proof ONE_pos. apply (Z.mul_le_mono_pos_r _ _ ONE); [done|]. eapply Z.le_trans; [exact Hsum|].
  set (w := sum_of (λ m, atto (m_weight m)) ms) in *.
  assert (atto base * w ≤ atto base * ONE) by nia. nia.
Qed.

(** ** A concrete plan *)

(** An account of 1030 USD that is heavy in SPY, rebalanced towards 60% SPY and 10% EFA: one reduction, one increase. *)
Module Rebalance.
Import Baseline.

Definition tw (s w : string) : TargetWeight := {| tw_symbol := s; weight := lit w |}.
Definition sleeves : list SleeveTarget :=
  [{| sleeve := "etf"; share := lit "1"; t_venue := "alpaca"; t_asset_class := "us_etf";
      weights := [tw "SPY" "0.6"; tw "EFA" "0.1"] |}].
Definition px (p : string) : PricePoint := {| price := lit p; as_of := at_secs 1999 |}.
Definition prices : BTreeMap string PricePoint := bt_of_list [("SPY", px "484.75"); ("EFA", px "85")]%string.
Definition book : VenueRuleBook :=
  book_with empty_book "alpaca" (AlpacaRules Alpaca.builtin
   {| Alpaca.allow_extended_hours := false; Alpaca.min_notional := lit "1"; Alpaca.own_tag_prefix := Some "rb1:"%string;
      Alpaca.refuse_builtin_assets := false; Alpaca.allow_crypto := false |}).
Definition cfg : PlanConfig := config_new (at_secs 1990) (lit "1") (lit "1") (lit "0.001") (lit "0.001").
Definition account : AccountView := Sample.account false 2000.
Definition result : plan_result OrderPlan := plan sleeves account prices book policy cfg.

Definition empty_plan : OrderPlan :=
  {| inputs_digest := ""; pl_account_id := ""; pl_scheduled_for := at_secs 0; pl_equity := ZERO; pl_capital_base := ZERO;
     pl_risk_scale := ZERO; orders := []; denied := []; skipped := []; lines := []; margin := long_only |}.
Definition planned : OrderPlan := match result with Ok p => p | Err _ => empty_plan end.

Example planned_summary :
  ((λ o, (p_symbol o, p_side o)) <$> orders planned) = [("SPY", Sell); ("EFA", Buy)]%string ∧ denied planned = [].
Proof. vm_compute. done. Qed.

Lemma result_ok : plan sleeves account prices book policy cfg = Ok planned.
Proof.
  assert (match result with Ok _ => true | Err _ => false end = true) as Hok by (vm_compute; reflexivity).
  change (result = Ok planned). unfold planned. by destruct result.
Qed.

Lemma values_ok `{KeyOrd K} {A} (P : A → Prop) (m : BTreeMap K A) k a : Forall P m.*2 → (k, a) ∈ m → P a.
Proof. intros Hall Hin. rewrite Forall_forall in Hall. apply Hall, list_elem_of_fmap. by exists (k, a). Qed.

Lemma builtin_ok : assets_ok Alpaca.builtin.
Proof.
  intros s a Ha%bt_get_elem. revert Ha. apply values_ok. vm_compute.
  repeat constructor; simpl; try done; intros ? [=].
Qed.

Lemma book_is_ok : book_ok book.
Proof.
  intros v r Hr%bt_get_elem. revert Hr. apply (values_ok VenueLaw). constructor; [apply alpaca_law, builtin_ok|constructor].
Qed.

Lemma inputs : inputs_ok sleeves account prices book policy cfg.
Proof.
  split.
  - intros t ->%list_elem_of_singleton. split; [by apply dec_okb_spec|]. intros w Hw.
    repeat (apply elem_of_cons in Hw as [->|Hw]; [by apply dec_okb_spec|]). by apply not_elem_of_nil in Hw.
  - apply Sample.account_okb_spec. vm_compute. reflexivity.
  - intros k p. apply (values_ok (λ p, dec_ok (price p))).
    constructor; [by apply dec_okb_spec|]. constructor; [by apply dec_okb_spec|constructor].
  - exact book_is_ok.
  - intros v sym r [=].
  - exact policy_wf.
  - split; try (by apply dec_okb_spec); [intros e He; by apply not_elem_of_nil in He|intros d [=]].
Qed.
End Rebalance.

Lemma plan_orders_permitted_witness :
  ∃ ps reductions increases s1 s2,
    try_map (revalue (rekey Rebalance.prices)) (positions Rebalance.account) = Ok ps ∧
    orders Rebalance.planned = reductions ++ increases ∧
    (∀ o, o ∈ reductions → reduces (held Rebalance.account (p_symbol o)) (p_side o) (p_quantity o)) ∧
    (∀ o, o ∈ increases → @adds epoch_chrono plain_digest Rebalance.account Rebalance.cfg reductions o) ∧
    replay Baseline.policy Rebalance.cfg (instrument_rules Rebalance.book) (rekey Rebalance.prices) true
      (with_positions Rebalance.account ps (cash Rebalance.account), day Rebalance.cfg, None) reductions s1 ∧
    replay Baseline.policy Rebalance.cfg (instrument_rules Rebalance.book) (rekey Rebalance.prices) false s1 increases s2 ∧
    mr_buying_power_left (margin Rebalance.planned) = s2.2.
Proof. exact (plan_orders_permitted _ _ _ _ _ _ _ Rebalance.inputs Rebalance.result_ok). Defined.

Lemma plan_reduces_first_witness :
  ∃ reductions increases, orders Rebalance.planned = reductions ++ increases ∧
    StronglySorted comes_before reductions ∧ StronglySorted comes_before increases ∧
    (∀ o, o ∈ reductions → reduces (held Rebalance.account (p_symbol o)) (p_side o) (p_quantity o)) ∧
    (∀ o, o ∈ increases → @adds epoch_chrono plain_digest Rebalance.account Rebalance.cfg reductions o) ∧
    NoDup ((tag <$> orders Rebalance.planned) ++ ((λ d, tag (denied_order d)) <$> denied Rebalance.planned)).
Proof. exact (plan_reduces_first _ _ _ _ _ _ _ Rebalance.inputs Rebalance.result_ok). Defined.


Lemma long_only_targets_fit_witness :
  Forall (λ l, 0 ≤ atto (target_notional l)) (lines Rebalance.planned) ∧
  sum_of (λ l, atto (target_notional l)) (lines Rebalance.planned) * ONE ≤
    atto (capital_base Baseline.policy (equity Rebalance.account) (acc_ccy Rebalance.account)) * atto (risk_scale Rebalance.cfg) ∧
  0 < atto (risk_scale Rebalance.cfg) ≤ ONE.
Proof.
  refine (long_only_targets_fit _ _ _ _ _ _ _ Rebalance.inputs eq_refl _ Rebalance.result_ok).
  split; apply Z.leb_le; vm_compute; reflexivity.
Defined.
