(* ===== verification/PlanBudget.v ===== *)
(** * PlanBudget: the increasing orders of a plan fit the money available

    [fit_buys] scales every increasing order by one factor that is computed against a budget shrunk by one fee
    increment per order. The bound is proved from the arithmetic alone, whatever the venues round down to. *)

From Stdlib Require Import ZArith Lia String.
From S2P Require Import Prelude Text BTree F64 Externals Decimal DecMath Mandate Policy Broker Alpaca Venue Guard GuardFacts Planner PlanFacts.

Local Open Scope Z_scope.
Local Open Scope rust_scope.

Section budget.
Context `{Chrono, Sha256}.

Definition resized (c : Candidate) (q : Dec) : Candidate :=
  {| c_m := c_m c; c_side := c_side c; c_qty := q; c_price := c_price c; c_reducing := c_reducing c; c_leg := c_leg c |}.

(** A wished buy: neither negative nor too big for its fee to be computed (above 1.7 * 10^20 in the account currency). *)
Record buy_ok (c : Candidate) : Prop := {
  bk_cand : cand_ok c;
  bk_qty : 0 ≤ atto (c_qty c);
  bk_price : 0 ≤ atto (price (c_price c));
  bk_fits : atto (c_qty c) * atto (price (c_price c)) ≤ i128_max * ONE;
}.

Definition inexact (c : Candidate) : bool := negb (atto (c_qty c) * atto (price (c_price c)) mod ONE =? 0).

Lemma fee_atto n rate f : dec_ok n → dec_ok rate → 0 ≤ atto n ≤ i128_max → 0 ≤ atto rate < ONE → fee_for n rate = Ok f →
  dec_ok f ∧ atto f = round_to Ceil (atto n * atto rate / ONE) (grain 8).
Proof.
  intros Hn Hr Hn0 Hr0 Hf. unfold fee_for in Hf. apply bind_ok in Hf as (m & Hm & Hf). apply map_err_ok in Hf.
  destruct (mul_atto _ _ _ Hn Hr Hm) as [Hmok Ha]. pose proof ONE_pos.
  assert (0 ≤ atto m ≤ atto n) as Hb by (rewrite Ha; split; [apply Z.div_pos|apply Z.div_le_upper_bound]; nia).
  destruct (round_dp_atto m 8 Ceil Hmok ltac:(unfold MAX_SCALE; lia)) as (r & Hrd & Hrok & _ & Hra).
  { apply round_fits_atto; [done|unfold MAX_SCALE; lia|lia]. }
  rewrite Hrd in Hf. injection Hf as <-. split; [done|]. by rewrite Hra, Ha.
Qed.

Lemma cost_atto cfg c k : dec_ok (fee_rate cfg) → 0 ≤ atto (fee_rate cfg) < ONE → buy_ok c → cost cfg c = Ok k →
  let n := atto (c_qty c) * atto (price (c_price c)) / ONE in
  dec_ok k ∧ atto k = n + round_to Ceil (n * atto (fee_rate cfg) / ONE) (grain 8).
Proof.
  intros Hr Hr0 [[Hq Hp] Hq0 Hp0 Hfits] Hk n. unfold cost in Hk. apply bind_ok in Hk as (n' & Hn & Hk).
  destruct (mul_atto _ _ _ Hq Hp Hn) as [Hnok Hna]. apply bind_ok in Hk as (f & Hf & Hk). pose proof ONE_pos.
  assert (0 ≤ atto n' ≤ i128_max) as Hnb by (rewrite Hna; split; [apply Z.div_pos|apply Z.div_le_upper_bound]; nia).
  destruct (fee_atto _ _ _ Hnok Hr Hnb Hr0 Hf) as [Hfok Hfa].
  destruct (add_atto _ _ _ Hnok Hfok Hk) as [Hkok Hka]. split; [done|]. rewrite Hka, Hfa, Hna. done.
Qed.

(** One order after scaling: its cost is at most the factor times its old cost, one fee increment, and two units of the
    last decimal place if its notional had to be rounded. *)
Lemma scaled_cost q p r f q' : 0 ≤ q → 0 ≤ p → 0 ≤ r < ONE → 0 ≤ f < ONE → 0 ≤ q' → q' * ONE ≤ q * f →
  let n := q * p / ONE in let n' := q' * p / ONE in
  (n' + round_to Ceil (n' * r / ONE) (grain 8)) * ONE ≤
  f * (n + round_to Ceil (n * r / ONE) (grain 8)) + grain 8 * ONE + (if q * p mod ONE =? 0 then 0 else 2 * ONE).
Proof.
  intros Hq Hp Hr Hf Hq' Hle n n'. pose proof ONE_pos as HO.
  assert (0 < grain 8) as HG by (apply grain_pos; unfold MAX_SCALE; lia).
  pose proof (round_to_bounds Ceil (n * r / ONE) _ HG) as Hc. pose proof (round_to_bounds Ceil (n' * r / ONE) _ HG) as Hc'.
  cbv beta iota in Hc, Hc'. set (fee := round_to Ceil (n * r / ONE) (grain 8)) in *.
  set (fee' := round_to Ceil (n' * r / ONE) (grain 8)) in *.
  pose proof (Z.mod_pos_bound (q * p) ONE HO) as He. pose proof (Z.div_mod (q * p) ONE ltac:(lia)) as Hn. fold n in Hn.
  set (e := (q * p) mod ONE) in *.
  pose proof (Z.mod_pos_bound (q' * p) ONE HO) as He'. pose proof (Z.div_mod (q' * p) ONE ltac:(lia)) as Hn'. fold n' in Hn'.
  pose proof (Z.mod_pos_bound (n * r) ONE HO) as Hm. pose proof (Z.div_mod (n * r) ONE ltac:(lia)) as Hmn.
  pose proof (Z.mod_pos_bound (n' * r) ONE HO) as Hm'. pose proof (Z.div_mod (n' * r) ONE ltac:(lia)) as Hmn'.
  set (x := if e =? 0 then 0 else 1).
  assert (0 ≤ x ≤ 1 ∧ e ≤ x * ONE) as [Hx Hex] by (unfold x; destruct (Z.eqb_spec e 0); lia).
  replace (if e =? 0 then 0 else 2 * ONE) with (2 * x * ONE) by (unfold x; destruct (e =? 0); lia).
  assert (n' * ONE * ONE ≤ f * (n * ONE + e)) as F1.
  { assert (n' * ONE ≤ q' * p) by lia. assert (q' * ONE * p ≤ q * f * p) by nia. nia. }
  assert (n' * ONE ≤ f * (n + x)) as F2.
  { assert (f * e ≤ f * (x * ONE)) by nia. nia. }
  assert (0 ≤ n) by (apply Z.div_pos; nia). assert (0 ≤ n') by (apply Z.div_pos; nia).
  assert (n * r ≤ fee * ONE + (ONE - 1)) as F3 by nia.
  assert ((n' * r / ONE) * ONE * ONE ≤ f * (fee * ONE + ONE + x * r)) as F4.
  { assert ((n' * r / ONE) * ONE ≤ n' * r) by lia. assert (n' * r * ONE ≤ f * (n + x) * r) by nia. nia. }
  assert ((n' * r / ONE) * ONE ≤ f * fee + ONE + x * ONE) as F5.
  { assert (f * (ONE + x * r) ≤ (ONE + x * ONE) * ONE) by nia. nia. }
  nia.
Qed.

(** Rounding a scaled order down again, whatever the venue. *)
Lemma rescale_atto book factor c q : book_ok book → dec_ok factor → 0 ≤ atto factor → buy_ok c →
  rescale book factor c = Ok q → dec_ok q ∧ 0 ≤ atto q ∧ atto q * ONE ≤ atto (c_qty c) * atto factor.
Proof.
  intros Hb Hf Hf0 [[Hq Hp] Hq0 Hp0 _] Hr. unfold rescale in Hr. apply bind_ok in Hr as (x & Hx & Hr).
  apply lift_math_ok in Hx. destruct (mul_atto _ _ _ Hq Hf Hx) as [Hxok Hxa]. pose proof ONE_pos.
  assert (0 ≤ atto x ∧ atto x * ONE ≤ atto (c_qty c) * atto factor) as [Hx0 Hxle].
  { rewrite Hxa. split; [apply Z.div_pos; nia|]. rewrite Z.mul_comm. apply Z.mul_div_le. lia. }
  apply bind_ok in Hr as (scaled & Hs & Hr). apply lift_math_ok, map_err_ok in Hs.
  apply round_floor_le in Hs as (Hsok & _ & Hsle); [|done| |lia].
  2: { destruct (atto_sign x Hxok) as (? & ? & ?). lia. }
  assert (dec_ok ZERO ∧ 0 ≤ atto ZERO ∧ atto ZERO * ONE ≤ atto (c_qty c) * atto factor) as Hzero.
  { split; [apply ZERO_ok|]. rewrite atto_zero. nia. }
  destruct (is_zero _); [by injection Hr as <-|].
  destruct (book_get book _) as [v|] eqn:Ev; [|by injection Hr as <-].
  destruct (round_quantity v _ _ _ _) as [rounded|] eqn:Eq; [|by injection Hr as <-].
  destruct (dec_leb _ _); [|done]. injection Hr as <-.
  apply (Hb _ _ Ev) in Eq as [? ?]; [|done..]. split; [done|]. nia.
Qed.

Lemma resized_ok c q f : buy_ok c → dec_ok q → 0 ≤ f ≤ ONE → 0 ≤ atto q → atto q * ONE ≤ atto (c_qty c) * f →
  buy_ok (resized c q) ∧ atto q ≤ atto (c_qty c).
Proof.
  intros [[Hq Hp] Hq0 Hp0 Hfits] Hqok Hf Hq0' Hle. pose proof ONE_pos.
  assert (atto q ≤ atto (c_qty c)) by nia. split; [|done]. split; simpl; [by split|done..|nia].
Qed.

Definition costs_of (cfg : PlanConfig) (buys : list Candidate) (qs : list Dec) : math (list Dec) :=
  try_map (cost cfg) (zip_with resized buys qs).

Definition slack_of (buys : list Candidate) : Z := sum_of (λ c, if inexact c then 2 else 0) buys.

Lemma rescaled_costs book cfg factor buys qs old new : book_ok book →
  dec_ok (fee_rate cfg) → 0 ≤ atto (fee_rate cfg) < ONE → dec_ok factor → 0 ≤ atto factor < ONE → Forall buy_ok buys →
  try_map (rescale book factor) buys = Ok qs → try_map (cost cfg) buys = Ok old → costs_of cfg buys qs = Ok new →
  Forall2 (λ c q, 0 ≤ atto q ≤ atto (c_qty c)) buys qs ∧
  atto_sum new * ONE ≤ atto factor * atto_sum old + Z.of_nat (length buys) * (grain 8 * ONE) + slack_of buys * ONE.
Proof.
  intros Hb Hr Hr0 Hf Hf0 Hall Hqs Hold. revert old new Hold Hall. rewrite try_map_ok in Hqs. unfold costs_of.
  induction Hqs as [|c q buys qs Hq _ IH]; intros old new Hold Hall Hnew; rewrite try_map_ok in Hold, Hnew.
  - inversion Hold; subst. inversion Hnew; subst. simpl. split; [constructor|]. unfold atto_sum, slack_of. simpl. lia.
  - inversion Hold as [|? k ? old' Hk Hold']; subst. inversion Hnew as [|? k' ? new' Hk' Hnew']; subst.
    rewrite <-try_map_ok in Hold', Hnew'. apply Forall_cons in Hall as [Hc Hall].
    destruct (IH old' new' Hold' Hall Hnew') as [Hqs Hsum]. pose proof ONE_pos.
    destruct (rescale_atto _ _ _ _ Hb Hf ltac:(lia) Hc Hq) as (Hqok & Hq0 & Hqle).
    destruct (resized_ok c q (atto factor) Hc Hqok ltac:(lia) Hq0 Hqle) as [Hc' Hqc].
    split; [by constructor|]. rewrite !atto_sum_cons.
    destruct (cost_atto _ _ _ Hr Hr0 Hc Hk) as [_ ->]. destruct (cost_atto _ _ _ Hr Hr0 Hc' Hk') as [_ ->].
    pose proof (scaled_cost (atto (c_qty c)) (atto (price (c_price c))) (atto (fee_rate cfg)) (atto factor) (atto q)
      (bk_qty c Hc) (bk_price c Hc) Hr0 Hf0 Hq0 Hqle) as Hone.
    change (slack_of (c :: buys)) with ((if inexact c then 2 else 0) + slack_of buys). unfold inexact.
    cbn [length resized c_qty c_price] in *. destruct (_ mod _ =? 0); cbn [negb]; lia.
Qed.

Lemma resized_same buys : zip_with resized buys (c_qty <$> buys) = buys.
Proof. induction buys as [|[] buys IH]; [done|]. cbn. f_equal. exact IH. Qed.

Lemma costs_ok cfg buys old : dec_ok (fee_rate cfg) → 0 ≤ atto (fee_rate cfg) < ONE → Forall buy_ok buys →
  try_map (cost cfg) buys = Ok old → Forall dec_ok old.
Proof.
  intros Hr Hr0 Hall Hold. rewrite try_map_ok in Hold. induction Hold as [|c k buys old Hk _ IH]; [constructor|].
  apply Forall_cons in Hall as [Hc Hall]. constructor; [by destruct (cost_atto _ _ _ Hr Hr0 Hc Hk)|by apply IH].
Qed.

Lemma zero_costs book cfg buys qs new : book_ok book → dec_ok (fee_rate cfg) → 0 ≤ atto (fee_rate cfg) < ONE →
  Forall buy_ok buys → try_map (rescale book ZERO) buys = Ok qs → costs_of cfg buys qs = Ok new →
  Forall2 (λ c q, 0 ≤ atto q ≤ atto (c_qty c)) buys qs ∧ atto_sum new = 0.
Proof.
  intros Hb Hr Hr0 Hall Hqs. revert new Hall. rewrite try_map_ok in Hqs. unfold costs_of.
  induction Hqs as [|c q buys qs Hq _ IH]; intros new Hall Hnew; rewrite try_map_ok in Hnew; inversion Hnew as [|? k ? new' Hk Hnew'];
    subst; [split; [constructor|done]|].
  rewrite <-try_map_ok in Hnew'. apply Forall_cons in Hall as [Hc Hall]. destruct (IH _ Hall Hnew') as [Hqs Hsum].
  pose proof ONE_pos. destruct (rescale_atto _ _ _ _ Hb ZERO_ok ltac:(rewrite atto_zero; lia) Hc Hq) as (Hqok & Hq0 & Hqle).
  rewrite atto_zero in Hqle. destruct (resized_ok c q 0 Hc Hqok ltac:(lia) Hq0 Hqle) as [Hc' Hqc].
  assert (atto q = 0) as Hz by nia. split; [by constructor|]. rewrite atto_sum_cons, Hsum. destruct (cost_atto _ _ _ Hr Hr0 Hc' Hk) as [_ ->]. cbn [resized c_qty c_price].
  rewrite Hz, Z.mul_0_l, Z.div_0_l by lia. rewrite Z.mul_0_l, Z.div_0_l by lia. done.
Qed.

Lemma slack_nonneg buys : 0 ≤ slack_of buys.
Proof. induction buys as [|c buys IH]; [done|]. change (slack_of (c :: buys)) with ((if inexact c then 2 else 0) + slack_of buys). destruct (inexact c); lia. Qed.

(** The factor is a proper fraction of the usable budget over the total. *)
Lemma factor_spec usable total f : dec_ok usable → dec_ok total → 0 < atto usable < atto total →
  div_floor usable total 18 = Ok f → dec_ok f ∧ 0 ≤ atto f < ONE ∧ atto f * atto total ≤ atto usable * ONE.
Proof.
  intros Hu Ht Hlt Hf. destruct (div_floor_atto usable total 18 f Hu Ht ltac:(lia) Hf) as (Hok & _ & _ & ->). split; [done|].
  change (grain 18) with 1. rewrite Z.mul_1_r. change (10 ^ 18) with ONE. pose proof ONE_pos.
  split; [split; [apply Z.div_pos; nia|apply Z.div_lt_upper_bound; nia]|]. rewrite Z.mul_comm. apply Z.mul_div_le. lia.
Qed.
End budget.

(** ** Property *)

(** C31. The buys fit: the quantities [fit_buys] chooses are never larger than the wished ones, and their total cost
    (notional and fee, computed the way the orders are priced) is at most the money available, or zero where nothing is
    available. Orders whose notional needs more than 18 decimals may exceed it by at most two units of the 18th
    decimal each; when every notional is exact the total provably fits. *)
Theorem fitted_buys_fit `{Chrono} book cfg available buys qs costs :
  book_ok book → dec_ok (fee_rate cfg) → 0 ≤ atto (fee_rate cfg) < ONE → dec_ok available →
  Forall buy_ok buys → Z.of_nat (length buys) ≤ i64_max →
  fit_buys book cfg available buys = Ok qs → costs_of cfg buys qs = Ok costs →
  Forall2 (λ c q, 0 ≤ atto q ≤ atto (c_qty c)) buys qs ∧
  atto_sum costs ≤ Z.max 0 (atto available) + slack_of buys.
Proof.
  intros Hb Hr Hr0 Hav Hall Hlen Hfit Hcosts. unfold fit_buys in Hfit.
  destruct buys as [|c0 buys']; [injection Hfit as <-; injection Hcosts as <-; split; [constructor|unfold atto_sum; simpl; lia]|].
  set (buys := c0 :: buys') in *. clearbody buys.
  apply bind_ok in Hfit as (old & Hold & Hfit). apply lift_math_ok in Hold.
  apply bind_ok in Hfit as (total & Htot & Hfit). apply lift_math_ok in Htot.
  pose proof (costs_ok _ _ _ Hr Hr0 Hall Hold) as Holdok. destruct (sum_atto _ _ Holdok Htot) as [Htotok Hta].
  pose proof (slack_nonneg buys) as Hsl. pose proof ONE_pos.
  rewrite dec_ltb_atto in Hfit by done. destruct (Z.ltb_spec (atto available) (atto total)) as [Hlt|Hge].
  - apply bind_ok in Hfit as (unit & Hunit & Hfit). apply lift_math_ok, map_err_ok in Hunit.
    apply dec_new_ok in Hunit as [Hunit Hu]; [|lia|done].
    apply bind_ok in Hfit as (slack & Hslack & Hfit). apply lift_math_ok in Hslack.
    rewrite Z.min_l in Hslack by lia.
    assert (dec_ok (from_i64 (Z.of_nat (length buys)))) as Hlok by (apply from_i64_ok; unfold i64_min, i64_max in *; lia).
    destruct (mul_atto _ _ _ Hunit Hlok Hslack) as [Hslok Hsla].
    rewrite Hu, atto_from_i64, Z.mul_assoc, Z.div_mul in Hsla by lia. change (atto (mkDec 1 8)) with (grain 8) in Hsla.
    apply bind_ok in Hfit as (u & Hus & Hfit). apply lift_math_ok in Hus.
    destruct (sub_atto _ _ _ Hav Hslok Hus) as [Huok Hua]. apply bind_ok in Hfit as (f & Hfac & Hqs).
    assert (0 < grain 8) by (apply grain_pos; unfold MAX_SCALE; lia).
    destruct (is_positive u) eqn:Eu.
    + apply is_positive_atto in Eu; [|done]. apply lift_math_ok, factor_spec in Hfac as (Hfok & Hf0 & Hft); [|done|done|nia].
      destruct (rescaled_costs _ _ _ _ _ _ _ Hb Hr Hr0 Hfok Hf0 Hall Hqs Hold Hcosts) as [Hq Hsum]. split; [done|].
      rewrite <-Hta in Hsum. nia.
    + injection Hfac as <-. destruct (zero_costs _ _ _ _ _ Hb Hr Hr0 Hall Hqs Hcosts) as [Hq ->]. split; [done|lia].
  - injection Hfit as <-. change (costs_of cfg buys (c_qty <$> buys) = Ok costs) in Hcosts.
    unfold costs_of in Hcosts. rewrite resized_same, Hold in Hcosts. injection Hcosts as <-.
    split; [|lia]. clear -Hall. induction Hall as [|c buys Hc _ IH]; constructor; [|done]. pose proof (bk_qty c Hc). lia.
Qed.

(** ** A concrete budget: 265 USD of wished buys against 100 USD *)
Module Fit.
Import Baseline.

Definition managed (s : string) (w : string) : Managed :=
  {| m_symbol := s; m_venue := "alpaca"; m_asset_class := "us_etf"; m_sleeves := bs_of_list ["etf"%string];
     m_weight := lit w; m_signed := false |}.
Definition buy (s q p : string) : Candidate :=
  {| c_m := managed s "0.1"; c_side := Buy; c_qty := lit q; c_price := Rebalance.px p; c_reducing := false; c_leg := Whole |}.
Definition buys : list Candidate := [buy "EFA" "2" "85"; buy "IEF" "1" "95"].

Definition qtys : list Dec := match fit_buys Rebalance.book Rebalance.cfg (lit "100") buys with Ok qs => qs | Err _ => [] end.
Definition costs : list Dec := match costs_of Rebalance.cfg buys qtys with Ok cs => cs | Err _ => [] end.

Example spends : (to_string <$> qtys, atto_sum costs <=? atto (lit "100"), atto (lit "99.99999") <=? atto_sum costs) =
  (["0.753963017"; "0.376981508"]%string, true, true).
Proof. vm_compute. reflexivity. Qed.

Lemma buys_ok : Forall buy_ok buys.
Proof.
  repeat (constructor; [split; [split; by apply dec_okb_spec|apply Z.leb_le; vm_compute; reflexivity..]|]). constructor.
Qed.
End Fit.

Lemma fitted_buys_fit_witness :
  Forall2 (λ c q, 0 ≤ atto q ≤ atto (c_qty c)) Fit.buys Fit.qtys ∧ atto_sum Fit.costs ≤ 100 * ONE.
Proof.
  destruct (fitted_buys_fit Rebalance.book Rebalance.cfg (Baseline.lit "100") Fit.buys Fit.qtys Fit.costs) as [Hq Hc].
  - exact Rebalance.book_is_ok.
  - by apply dec_okb_spec.
  - split; [apply Z.leb_le|apply Z.ltb_lt]; vm_compute; reflexivity.
  - by apply dec_okb_spec.
  - exact Fit.buys_ok.
  - apply Z.leb_le. vm_compute. reflexivity.
  - vm_compute. reflexivity.
  - vm_compute. reflexivity.
  - split; [exact Hq|]. eapply Z.le_trans; [exact Hc|]. apply Z.leb_le. vm_compute. reflexivity.
Defined.
