(* ===== verification/RiskState.v ===== *)
(** * RiskState: the account state machine and the human approval

    [state.rs], [approval.rs] and the equity reading of [overlay.rs] in [crates/rebalancer-risk/src]. Every
    transition is a function from a state to a new state, as in the source; [step] collects them into the relation
    that the safety theorems go by. *)

From Stdlib Require Import ZArith Lia String.
From S2P Require Import Prelude Text BTree Externals Decimal DecMath.

Local Open Scope Z_scope.
Local Open Scope rust_scope.

(** ** Data *)

Module AccountStatus.
Inductive t := Active | Shrunk | Flattening | Halted.

#[global] Instance eq_dec : EqDecision t.
Proof. solve_decision. Defined.

Definition as_str (s : t) : string :=
  match s with Active => "active" | Shrunk => "shrunk" | Flattening => "flattening" | Halted => "halted" end.

Definition may_add_risk (s : t) : bool := match s with Active | Shrunk => true | _ => false end.

Definition is_halt (s : t) : bool := match s with Flattening | Halted => true | _ => false end.
End AccountStatus.
Abbreviation AccountStatus := AccountStatus.t.

Module HaltReason.
Inductive t := DailyLoss | DrawdownLadder | Reconciliation | Manual | EquityInvalid.

#[global] Instance eq_dec : EqDecision t.
Proof. solve_decision. Defined.

Definition code (r : t) : string :=
  match r with
  | DailyLoss => "HALT_DAILY_LOSS"
  | DrawdownLadder => "HALT_DRAWDOWN_LADDER"
  | Reconciliation => "HALT_RECONCILIATION"
  | Manual => "HALT_MANUAL"
  | EquityInvalid => "HALT_EQUITY_INVALID"
  end.

Definition ALL : list t := [DailyLoss; DrawdownLadder; Reconciliation; Manual; EquityInvalid].
End HaltReason.
Abbreviation HaltReason := HaltReason.t.

Inductive DayStartRule := FirstObservation | UtcMidnight (max_lag_secs : Z).

Definition DEFAULT_DAY_START_MAX_LAG_SECS : Z := 1800.

Record EquitySnapshot `{Chrono} := { eq_equity : Dec; eq_ccy : string; eq_at : DateTime; eq_venue : string }.

Definition broker_reported `{Chrono} (venue ccy : string) (equity : Dec) (at_ : DateTime) : EquitySnapshot :=
  {| eq_equity := equity; eq_ccy := to_uppercase (trim ccy); eq_at := at_; eq_venue := to_lowercase (trim venue) |}.

Record HaltRecord `{Chrono} := {
  h_reason : HaltReason;
  h_at : DateTime;
  h_detail : string;
  equity_at_halt : option Dec;
  hwm_at_halt : option Dec;
  failed_flatten_attempts : Z;
}.

Record ResumeRecord `{Chrono} := {
  r_approver : string;
  r_at : DateTime;
  r_note : string;
  equity_at_resume : Dec;
  hwm_before : option Dec;
  r_halt_reason : HaltReason;
  halted_at : DateTime;
}.

Record Transition := { t_from : AccountStatus; t_to : AccountStatus; t_code : string }.

Module ResumeError.
Inductive t := NotHalted (status : string) | FlattenIncomplete | EquityInvalid (d : Dec).

Definition display (e : t) : string :=
  match e with
  | NotHalted s => "RESUME_NOT_HALTED: the account is " +:+ s +:+ ", only a halted account can be resumed"
  | FlattenIncomplete => "RESUME_FLATTEN_INCOMPLETE: the account is still flattening; finish (or verify) the flatten first"
  | EquityInvalid d => "RESUME_EQUITY_INVALID: the resume equity snapshot " +:+ to_string d +:+ " is not positive"
  end.

Definition code (e : t) : string :=
  match e with
  | NotHalted _ => "RESUME_NOT_HALTED"
  | FlattenIncomplete => "RESUME_FLATTEN_INCOMPLETE"
  | EquityInvalid _ => "RESUME_EQUITY_INVALID"
  end.
End ResumeError.

(** The state, and its plain-data form for a persistence layer, which has the same fields. *)
Record AccountState `{Chrono} := {
  account : string;
  version : Z;
  status : AccountStatus;
  scale_now : Dec;
  shrink_rung : option nat;
  hwm : option Dec;
  day_start_equity : option Dec;
  trading_day : option NaiveDate;
  last_equity : option Dec;
  last_equity_at : option DateTime;
  halt_record : option HaltRecord;
  resumes : list ResumeRecord;
}.

Record AccountStateRecord `{Chrono} := {
  rec_account_id : string;
  rec_version : Z;
  rec_status : AccountStatus;
  rec_risk_scale : Dec;
  rec_shrink_rung : option nat;
  rec_hwm : option Dec;
  rec_day_start_equity : option Dec;
  rec_trading_day : option NaiveDate;
  rec_last_equity : option Dec;
  rec_last_equity_at : option DateTime;
  rec_halt : option HaltRecord;
  rec_resumes : list ResumeRecord;
}.

(** ** Approvals *)

Inductive PrincipalKind := Human | Agent | ApiKey | Service.

#[export] Instance principal_kind_eq_dec : EqDecision PrincipalKind.
Proof. solve_decision. Defined.

(** [AuthenticatedPrincipal]: what the API layer knows of the caller. *)
Record AuthenticatedPrincipal := { subject : string; kind : PrincipalKind }.

Module ApprovalDenied.
Inductive t := NotHuman | NoteRequired | SubjectRequired.

Definition display (e : t) : string :=
  match e with
  | NotHuman => "APPROVAL_NOT_HUMAN: only an authenticated person may approve a resume"
  | NoteRequired => "APPROVAL_NOTE_REQUIRED: a resume needs a non-empty note recording why it is safe"
  | SubjectRequired => "APPROVAL_SUBJECT_REQUIRED: the principal has no identifier to record"
  end.

Definition code (e : t) : string :=
  match e with
  | NotHuman => "APPROVAL_NOT_HUMAN"
  | NoteRequired => "APPROVAL_NOTE_REQUIRED"
  | SubjectRequired => "APPROVAL_SUBJECT_REQUIRED"
  end.
End ApprovalDenied.

Record HumanApproval `{Chrono} := { approver : string; ap_at : DateTime; note : string }.

Definition issue_human_approval `{Chrono} (principal : AuthenticatedPrincipal) (note : string) (now : DateTime)
    : result ApprovalDenied.t HumanApproval :=
  if negb (bool_decide (kind principal = Human)) then Err ApprovalDenied.NotHuman
  else if is_empty (trim (subject principal)) then Err ApprovalDenied.SubjectRequired
  else if is_empty (trim note) then Err ApprovalDenied.NoteRequired
  else Ok {| approver := trim (subject principal); ap_at := now; note := trim note |}.

Section state.
Context `{Chrono}.

(** ** Construction, accessors and the persistence boundary *)

(** "one()" of [state.rs] *)
Definition full_size : Dec := from_i64 1.

Definition within_anchor_window (at_ : DateTime) (max_lag_secs : Z) : bool :=
  let lag := signed_duration_since at_ (midnight_utc (date_naive at_)) in
  (0 <=? max_lag_secs) && (lag <=? duration_seconds max_lag_secs).

Definition new_state (account_id : string) : AccountState :=
  {| account := account_id; version := 0; status := AccountStatus.Active; scale_now := full_size; shrink_rung := None;
     hwm := None; day_start_equity := None; trading_day := None; last_equity := None; last_equity_at := None;
     halt_record := None; resumes := [] |}.

Definition risk_scale (s : AccountState) : Dec :=
  match status s with
  | AccountStatus.Active | AccountStatus.Shrunk => scale_now s
  | AccountStatus.Flattening | AccountStatus.Halted => ZERO
  end.

Definition to_record (s : AccountState) : AccountStateRecord :=
  {| rec_account_id := account s; rec_version := version s; rec_status := status s; rec_risk_scale := scale_now s;
     rec_shrink_rung := shrink_rung s; rec_hwm := hwm s; rec_day_start_equity := day_start_equity s;
     rec_trading_day := trading_day s; rec_last_equity := last_equity s; rec_last_equity_at := last_equity_at s;
     rec_halt := halt_record s; rec_resumes := resumes s |}.

Definition is_some {A} (o : option A) : bool := match o with Some _ => true | None => false end.

Definition from_record (r : AccountStateRecord) : result string AccountState :=
  if negb (Bool.eqb (AccountStatus.is_halt (rec_status r)) (is_some (rec_halt r))) then
    Err ("status " +:+ AccountStatus.as_str (rec_status r) +:+ " and halt record presence disagree")
  else if dec_leb (rec_risk_scale r) ZERO || dec_ltb full_size (rec_risk_scale r) then
    Err ("risk_scale " +:+ to_string (rec_risk_scale r) +:+ " is outside (0, 1]")
  else if negb (Bool.eqb (bool_decide (rec_status r = AccountStatus.Shrunk)) (is_some (rec_shrink_rung r))) then
    Err "shrink_rung must be present exactly when the status is shrunk"
  else
    Ok {| account := rec_account_id r; version := rec_version r; status := rec_status r; scale_now := rec_risk_scale r;
          shrink_rung := rec_shrink_rung r; hwm := rec_hwm r; day_start_equity := rec_day_start_equity r;
          trading_day := rec_trading_day r; last_equity := rec_last_equity r; last_equity_at := rec_last_equity_at r;
          halt_record := rec_halt r; resumes := rec_resumes r |}.

(** Field updates ([let mut s = self.clone(); s.field = ...]). *)
Definition with_version (s : AccountState) (v : Z) : AccountState :=
  {| account := account s; version := v; status := status s; scale_now := scale_now s; shrink_rung := shrink_rung s;
     hwm := hwm s; day_start_equity := day_start_equity s; trading_day := trading_day s; last_equity := last_equity s;
     last_equity_at := last_equity_at s; halt_record := halt_record s; resumes := resumes s |}.

Definition with_status (s : AccountState) (st : AccountStatus) (h : option HaltRecord) : AccountState :=
  {| account := account s; version := version s; status := st; scale_now := scale_now s; shrink_rung := shrink_rung s;
     hwm := hwm s; day_start_equity := day_start_equity s; trading_day := trading_day s; last_equity := last_equity s;
     last_equity_at := last_equity_at s; halt_record := h; resumes := resumes s |}.

Definition with_posture (s : AccountState) (st : AccountStatus) (scale : Dec) (rung : option nat) : AccountState :=
  {| account := account s; version := version s; status := st; scale_now := scale; shrink_rung := rung;
     hwm := hwm s; day_start_equity := day_start_equity s; trading_day := trading_day s; last_equity := last_equity s;
     last_equity_at := last_equity_at s; halt_record := halt_record s; resumes := resumes s |}.

(** [==] on resume records: derived, so decimals compare by value. *)
Definition opt_dec_eqb (a b : option Dec) : bool :=
  match a, b with Some x, Some y => dec_eqb x y | None, None => true | _, _ => false end.

Definition resume_eqb (a b : ResumeRecord) : bool :=
  String.eqb (r_approver a) (r_approver b) && bool_decide (r_at a = r_at b) && String.eqb (r_note a) (r_note b) &&
  dec_eqb (equity_at_resume a) (equity_at_resume b) && opt_dec_eqb (hwm_before a) (hwm_before b) &&
  bool_decide (r_halt_reason a = r_halt_reason b) && bool_decide (halted_at a = halted_at b).

(** [old == new[..old.len()]], with [new.len() >= old.len()] checked by the callers *)
Fixpoint resumes_prefix (old new : list ResumeRecord) : bool :=
  match old, new with
  | [], _ => true
  | a :: old', b :: new' => resume_eqb a b && resumes_prefix old' new'
  | _ :: _, [] => false
  end.

Definition transition_allowed (old new : AccountState) : bool :=
  if negb (String.eqb (account old) (account new)) then false
  else if AccountStatus.is_halt (status old) && AccountStatus.may_add_risk (status new) then
    Nat.eqb (length (resumes new)) (length (resumes old) + 1) && resumes_prefix (resumes old) (resumes new)
  else if bool_decide (status old = AccountStatus.Halted) && bool_decide (status new = AccountStatus.Flattening) then false
  else Nat.leb (length (resumes old)) (length (resumes new)) && resumes_prefix (resumes old) (resumes new).

(** ** Observation *)

Definition ratchet (old : option Dec) (equity : Dec) : Dec :=
  match old with
  | Some h => if dec_leb equity h then h else equity
  | None => equity
  end.

(** What [observe] and [observe_anchored] share: [start] is the day-start of a new day. *)
Definition fold_in (s : AccountState) (snapshot : EquitySnapshot) (day : NaiveDate) (start : option Dec) : AccountState :=
  let new_day := match trading_day s with None => true | Some d => date_gtb day d end in
  {| account := account s; version := version s; status := status s; scale_now := scale_now s; shrink_rung := shrink_rung s;
     hwm := if AccountStatus.may_add_risk (status s) then Some (ratchet (hwm s) (eq_equity snapshot)) else hwm s;
     day_start_equity := if new_day then start else day_start_equity s;
     trading_day := if new_day then Some day else trading_day s;
     last_equity := Some (eq_equity snapshot); last_equity_at := Some (eq_at snapshot);
     halt_record := halt_record s; resumes := resumes s |}.

Definition observe (s : AccountState) (snapshot : EquitySnapshot) (day : NaiveDate) : AccountState :=
  fold_in s snapshot day (Some (eq_equity snapshot)).

Definition observe_anchored (s : AccountState) (snapshot : EquitySnapshot) (max_lag_secs : Z) : AccountState :=
  fold_in s snapshot (date_naive (eq_at snapshot))
    (if within_anchor_window (eq_at snapshot) max_lag_secs then Some (eq_equity snapshot) else None).

Definition observe_with (s : AccountState) (snapshot : EquitySnapshot) (day : NaiveDate) (rule : DayStartRule) : AccountState :=
  match rule with
  | FirstObservation => observe s snapshot day
  | UtcMidnight max_lag_secs => observe_anchored s snapshot max_lag_secs
  end.

Definition day_start_missing (s : AccountState) (day : NaiveDate) : bool :=
  bool_decide (trading_day s = Some day) && negb (is_some (day_start_equity s)).

(** ** Halting *)

Definition new_halt_record (s : AccountState) (reason : HaltReason) (detail : string) (at_ : DateTime) : HaltRecord :=
  {| h_reason := reason; h_at := at_; h_detail := detail; equity_at_halt := last_equity s; hwm_at_halt := hwm s;
     failed_flatten_attempts := 0 |}.

Definition halt (s : AccountState) (reason : HaltReason) (detail : string) (at_ : DateTime) : AccountState * option Transition :=
  if AccountStatus.is_halt (status s) then (s, None)
  else (with_status s AccountStatus.Halted (Some (new_halt_record s reason detail at_)),
        Some {| t_from := status s; t_to := AccountStatus.Halted; t_code := HaltReason.code reason |}).

Definition begin_flatten (s : AccountState) (reason : HaltReason) (detail : string) (at_ : DateTime)
    : AccountState * option Transition :=
  if AccountStatus.is_halt (status s) then (s, None)
  else (with_status s AccountStatus.Flattening (Some (new_halt_record s reason detail at_)),
        Some {| t_from := status s; t_to := AccountStatus.Flattening; t_code := HaltReason.code reason |}).

Definition count_failure (h : HaltRecord) : HaltRecord :=
  {| h_reason := h_reason h; h_at := h_at h; h_detail := h_detail h; equity_at_halt := equity_at_halt h;
     hwm_at_halt := hwm_at_halt h; failed_flatten_attempts := u32_saturating_add (failed_flatten_attempts h) 1 |}.

Definition complete_flatten (s : AccountState) (verified_flat : bool) : AccountState * option Transition :=
  if negb (bool_decide (status s = AccountStatus.Flattening)) then (s, None)
  else if verified_flat then
    (with_status s AccountStatus.Halted (halt_record s),
     Some {| t_from := AccountStatus.Flattening; t_to := AccountStatus.Halted;
             t_code := match halt_record s with Some h => HaltReason.code (h_reason h) | None => "HALT_UNKNOWN" end |})
  else (with_status s (status s) (count_failure <$> halt_record s), None).

(** ** Shrink posture *)

Definition with_shrink (s : AccountState) (scale : Dec) (rung : nat) : AccountState * option Transition :=
  if negb (AccountStatus.may_add_risk (status s)) then (s, None)
  else (with_posture s AccountStatus.Shrunk scale (Some rung),
        if bool_decide (status s = AccountStatus.Shrunk) then None
        else Some {| t_from := status s; t_to := AccountStatus.Shrunk; t_code := "RISK_DRAWDOWN_SHRINK" |}).

Definition with_full_size (s : AccountState) : AccountState * option Transition :=
  if negb (AccountStatus.may_add_risk (status s)) then (s, None)
  else (with_posture s AccountStatus.Active full_size None,
        if bool_decide (status s = AccountStatus.Active) then None
        else Some {| t_from := status s; t_to := AccountStatus.Active; t_code := "RISK_RECOVERED" |}).

(** ** Resume: the only way out of a halt *)

Definition resume_record (approval : HumanApproval) (equity : EquitySnapshot) (h : HaltRecord) : ResumeRecord :=
  {| r_approver := approver approval; r_at := ap_at approval; r_note := note approval; equity_at_resume := eq_equity equity;
     hwm_before := hwm_at_halt h; r_halt_reason := h_reason h; halted_at := h_at h |}.

Definition resumed (s : AccountState) (equity : EquitySnapshot) (day : NaiveDate) (r : ResumeRecord) : AccountState :=
  {| account := account s; version := version s; status := AccountStatus.Active; scale_now := full_size; shrink_rung := None;
     hwm := Some (eq_equity equity); day_start_equity := Some (eq_equity equity); trading_day := Some day;
     last_equity := Some (eq_equity equity); last_equity_at := Some (eq_at equity); halt_record := None;
     resumes := (resumes s ++ [r]) |}.

Definition resume (s : AccountState) (approval : HumanApproval) (equity : EquitySnapshot) (day : NaiveDate)
    : result ResumeError.t (AccountState * Transition) :=
  match status s with
  | AccountStatus.Halted =>
      if negb (is_positive (eq_equity equity)) then Err (ResumeError.EquityInvalid (eq_equity equity))
      else
        match halt_record s with
        | None => Err (ResumeError.NotHalted "halted without a halt record")
        | Some h =>
            Ok (resumed s equity day (resume_record approval equity h),
                {| t_from := AccountStatus.Halted; t_to := AccountStatus.Active; t_code := "RESUMED" |})
        end
  | AccountStatus.Flattening => Err ResumeError.FlattenIncomplete
  | other => Err (ResumeError.NotHalted (AccountStatus.as_str other))
  end.
End state.

Definition all_state_codes : BTreeSet string :=
  bs_of_list ((HaltReason.code <$> HaltReason.ALL) ++
    ["RESUMED"; "RESUME_NOT_HALTED"; "RESUME_FLATTEN_INCOMPLETE"; "RESUME_EQUITY_INVALID"]).

Example codes_sorted : bs_elements all_state_codes =
  ["HALT_DAILY_LOSS"; "HALT_DRAWDOWN_LADDER"; "HALT_EQUITY_INVALID"; "HALT_MANUAL"; "HALT_RECONCILIATION";
   "RESUMED"; "RESUME_EQUITY_INVALID"; "RESUME_FLATTEN_INCOMPLETE"; "RESUME_NOT_HALTED"].
Proof. reflexivity. Qed.
