(* ===== verification/Overlay.v ===== *)
(** * Overlay: the drawdown ladder and the daily loss limit

    [overlay.rs] in [crates/rebalancer-risk/src]: the risk policy and its checks, the evaluation of a broker-reported
    equity reading, and the step of the account state machine. *)

From Stdlib Require Import ZArith Lia String.
From S2P Require Import Prelude Text BTree F64 Externals Decimal DecMath Mandate RiskState.

Local Open Scope Z_scope.
Local Open Scope rust_scope.

(** ** Policy *)

Module RungAction.
Inductive t := Shrink (scale : Dec) | HaltFlatten.
End RungAction.

Record Rung := { r_at_ : Dec; r_action : RungAction.t }.

Definition risk_policy_error (m : string) : string := "RISK_POLICY_INVALID: " +:+ m.

Definition DEFAULT_RECOVERY_FRACTION_TEXT : string := "0.5".

Record RiskPolicy := { daily_limit : Dec; rungs : list Rung; recovery_fraction : Dec }.

(** "in (0, 1]" *)
Definition proper_fraction (d : Dec) : bool := negb (dec_leb d ZERO) && negb (dec_ltb full_size d).

(** One rung of [RiskPolicy::new]; the state is [(prev_at, prev_scale)]. The error is the text of [RiskPolicyError]. *)
Definition check_ladder_rung (is_last : bool) (prev_at prev_scale : Dec) (r : Rung) : result string (Dec * Dec) :=
  if dec_leb (r_at_ r) prev_at || dec_ltb full_size (r_at_ r) then
    Err "ladder rungs must be strictly ascending fractions in (0, 1]"
  else
    match r_action r with
    | RungAction.Shrink scale =>
        if is_last then Err "the last rung must be halt_flatten"
        else if dec_leb scale ZERO || dec_leb full_size scale then Err "a shrink scale must be in (0, 1)"
        else if dec_ltb prev_scale scale then Err "a later shrink rung cannot scale back up"
        else Ok (r_at_ r, scale)
    | RungAction.HaltFlatten =>
        if is_last then Ok (r_at_ r, prev_scale) else Err "only the last rung may be halt_flatten"
    end.

Fixpoint check_ladder (prev_at prev_scale : Dec) (l : list Rung) : result string unit :=
  match l with
  | [] => Ok tt
  | r :: l' =>
      let? (at_, scale) := check_ladder_rung (match l' with [] => true | _ => false end) prev_at prev_scale r in
      check_ladder at_ scale l'
  end.

Definition policy_new (daily_loss_limit : Dec) (rs : list Rung) (recovery : Dec) : result string RiskPolicy :=
  if negb (proper_fraction daily_loss_limit) then Err "daily_loss_limit must be in (0, 1]"
  else if negb (proper_fraction recovery) then Err "recovery_fraction must be in (0, 1]"
  else
    match rs with
    | [] => Err "the ladder needs at least one rung"
    | _ =>
        let? _ := check_ladder ZERO full_size rs in
        Ok {| daily_limit := daily_loss_limit; rungs := rs; recovery_fraction := recovery |}
    end.

Definition with_recovery_fraction (p : RiskPolicy) (f : Dec) : result string RiskPolicy :=
  if dec_leb f ZERO || dec_ltb full_size f then Err "recovery_fraction must be in (0, 1]"
  else Ok {| daily_limit := daily_limit p; rungs := rungs p; recovery_fraction := f |}.

(** "conv" *)
Definition ratio_down (v : f64) : result string Dec := map_err MathError.display (ratio_to_dec v Down).

Definition rung_from (r : LadderRung) : result string Rung :=
  let? action :=
    match rung_action r with
    | Shrink =>
        let? s := ok_or (rung_scale r) "a shrink rung has no scale" in
        let? d := ratio_down s in
        Ok (RungAction.Shrink d)
    | HaltFlatten => Ok RungAction.HaltFlatten
    end in
  let? at_ := ratio_down (rung_at r) in
  Ok {| r_at_ := at_; r_action := action |}.

Definition from_mandate_with_recovery `{Chrono, RustDecimal} (body : MandateBody) (recovery : Dec)
    : result string RiskPolicy :=
  match validate body with
  | [] =>
      let? rs := try_map rung_from (drawdown_ladder (loss body)) in
      let? limit := ratio_down (daily_loss_limit (loss body)) in
      policy_new limit rs recovery
  | violations =>
      Err ("the mandate is invalid: " +:+ join "; " ((λ v, v_field v +:+ ": " +:+ v_message v) <$> violations))
  end.

Definition from_mandate `{Chrono, RustDecimal} (body : MandateBody) : result string RiskPolicy :=
  from_mandate_with_recovery body
    (match parse DEFAULT_RECOVERY_FRACTION_TEXT with Ok d => d | Err _ => full_size end).

(** ** Decision *)

Module RiskCode.
Inductive t :=
| NoAction | DrawdownShrink | ShrinkHeld | PartialRecovery | Recovered | DrawdownHalt | DailyLossHalt | AlreadyHalted
| EquityInvalid | ArithmeticOverflow.

#[global] Instance eq_dec : EqDecision t.
Proof. solve_decision. Defined.

Definition ALL : list t :=
  [NoAction; DrawdownShrink; ShrinkHeld; PartialRecovery; Recovered; DrawdownHalt; DailyLossHalt; AlreadyHalted;
   EquityInvalid; ArithmeticOverflow].

Definition as_str (c : t) : string :=
  match c with
  | NoAction => "RISK_NO_ACTION"
  | DrawdownShrink => "RISK_DRAWDOWN_SHRINK"
  | ShrinkHeld => "RISK_SHRINK_HELD"
  | PartialRecovery => "RISK_PARTIAL_RECOVERY"
  | Recovered => "RISK_RECOVERED"
  | DrawdownHalt => "RISK_DRAWDOWN_HALT"
  | DailyLossHalt => "RISK_DAILY_LOSS_HALT"
  | AlreadyHalted => "RISK_ALREADY_HALTED"
  | EquityInvalid => "RISK_EQUITY_INVALID"
  | ArithmeticOverflow => "RISK_ARITHMETIC_OVERFLOW"
  end.
End RiskCode.
Abbreviation RiskCode := RiskCode.t.

Record RiskReason := { rr_code : RiskCode; rr_message : string }.

Module RiskAction.
Inductive t := None | Shrink (scale : Dec) | HaltFlatten.
End RiskAction.

Record RiskDecision := {
  rd_scale : Dec;
  rd_action : RiskAction.t;
  rd_reasons : list RiskReason;
  next_rung : option nat;
  rd_halt_reason : option HaltReason;
  drawdown : option Dec;
  daily_loss : option Dec;
}.

Definition has_code (d : RiskDecision) (c : RiskCode) : bool :=
  existsb (λ r, bool_decide (rr_code r = c)) (rd_reasons d).
Definition risk_codes (d : RiskDecision) : list string := (λ r, RiskCode.as_str (rr_code r)) <$> rd_reasons d.
Definition reason (code : RiskCode) (message : string) : RiskReason := {| rr_code := code; rr_message := message |}.

(** [RiskDecision::halted] *)
Definition halted (h : HaltReason) (reasons : list RiskReason) (drawdown daily_loss : option Dec) : RiskDecision :=
  {| rd_scale := ZERO; rd_action := RiskAction.HaltFlatten; rd_reasons := reasons; next_rung := None;
     rd_halt_reason := Some h; drawdown := drawdown; daily_loss := daily_loss |}.

Definition breached (reference equity fraction : Dec) : math bool :=
  let? loss := sub reference equity in
  let? threshold := mul fraction reference in
  Ok (dec_leb threshold loss).

Definition recovered (reference equity at_ recovery : Dec) : math bool :=
  let? loss := sub reference equity in
  let? m := mul at_ recovery in
  let? threshold := mul m reference in
  Ok (dec_leb loss threshold).

Definition fraction_of (reference equity : Dec) : option Dec :=
  let* loss := ok (sub reference equity) in
  if is_negative loss then
    let* gain := ok (sub equity reference) in
    let* f := ok (div_floor gain reference 6) in
    let* f := checked_add ZERO f in
    ok (sub ZERO f)
  else ok (div_floor loss reference 6).

(** The rungs are only indexed below their length: an index comes from enumerating them or is clamped to the last
    shrink rung. The default is the halt rung that a policy ends in. *)
Definition rung_of (p : RiskPolicy) (i : nat) : Rung := nth i (rungs p) {| r_at_ := full_size; r_action := RungAction.HaltFlatten |}.

(** The highest rung hit: [raw] in the source, with the index of the first rung of [l]. *)
Fixpoint highest_hit (reference equity : Dec) (i : nat) (l : list Rung) (raw : option nat) : math (option nat) :=
  match l with
  | [] => Ok raw
  | r :: l' =>
      let? b := breached reference equity (r_at_ r) in
      highest_hit reference equity (S i) l' (if b then Some i else raw)
  end.

(** [while let Some(c) = held { if recovered(..)? { held = c.checked_sub(1) } else { break } }] *)
Fixpoint release (p : RiskPolicy) (reference equity : Dec) (c : nat) : math (option nat) :=
  let? r := recovered reference equity (r_at_ (rung_of p c)) (recovery_fraction p) in
  if r then match c with O => Ok None | S c' => release p reference equity c' end else Ok (Some c).

Section evaluate.
Context `{Chrono}.

Definition already_halted (s : AccountState) : RiskDecision :=
  {| rd_scale := ZERO; rd_action := RiskAction.None;
     rd_reasons := [reason RiskCode.AlreadyHalted
       ("the account is " +:+ AccountStatus.as_str (status s) +:+ ": no equity path can change that, only a human resume can")];
     next_rung := None; rd_halt_reason := None; drawdown := None; daily_loss := None |}.

(** Daily loss: the halt it asks for, with its reason, and the fraction for the record. *)
Definition check_daily_loss (s : AccountState) (equity : Dec) (p : RiskPolicy)
    : math (option HaltReason * list RiskReason * option Dec) :=
  match day_start_equity s with
  | Some day_start =>
      if is_positive day_start then
        let dl := fraction_of day_start equity in
        let? b := breached day_start equity (daily_limit p) in
        if b then
          let? below := sub day_start equity in
          Ok (Some HaltReason.DailyLoss,
              [reason RiskCode.DailyLossHalt
                ("equity " +:+ to_string equity +:+ " is " +:+ to_string below +:+ " below the day-start " +:+
                 to_string day_start +:+ ": the daily loss limit is " +:+ to_string (daily_limit p))], dl)
        else Ok (None, [], dl)
      else Ok (None, [], None)
  | None => Ok (None, [], None)
  end.

(** The drawdown ladder: the halt it asks for on top of [h], if the highest rung hit is the halt rung. *)
Definition check_ladder_halt (equity high : Dec) (p : RiskPolicy) (raw : option nat) (h : option HaltReason)
    (reasons : list RiskReason) : math (option HaltReason * list RiskReason) :=
  match raw with
  | Some i =>
      match r_action (rung_of p i) with
      | RungAction.HaltFlatten =>
          let? below := sub high equity in
          Ok (Some (default HaltReason.DrawdownLadder h),
              reasons ++ [reason RiskCode.DrawdownHalt
                ("equity " +:+ to_string equity +:+ " is " +:+ to_string below +:+ " below the high-water mark " +:+
                 to_string high +:+ ": the halt rung is " +:+ to_string (r_at_ (rung_of p i)))])
      | _ => Ok (h, reasons)
      end
  | None => Ok (h, reasons)
  end.

(** The shrink rung in force before this reading, clamped to the policy's ladder. *)
Definition held_rung (s : AccountState) (p : RiskPolicy) : option nat :=
  if bool_decide (status s = AccountStatus.Shrunk) then
    match shrink_rung s, (if Nat.leb 2 (length (rungs p)) then Some (length (rungs p) - 2)%nat else None) with
    | Some c, Some l => Some (Nat.min c l)
    | None, Some l => Some l
    | _, None => None
    end
  else None.

Definition release_held (p : RiskPolicy) (high equity : Dec) (held : option nat) : math (option nat) :=
  match held with Some c => release p high equity c | None => Ok None end.

Definition most_severe (a b : option nat) : option nat :=
  match a, b with
  | Some x, Some y => Some (Nat.max x y)
  | Some x, None => Some x
  | None, y => y
  end.

(** The decision once no halt is due. *)
Definition posture (s : AccountState) (high : Dec) (p : RiskPolicy) (raw target : option nat) (dd dl : option Dec) : RiskDecision :=
  let shrunk := bool_decide (status s = AccountStatus.Shrunk) in
  match target with
  | None =>
      let r :=
        if shrunk then reason RiskCode.Recovered
          ("drawdown recovered to within " +:+ to_string (recovery_fraction p) +:+ " of the shrink trigger: full size again")
        else reason RiskCode.NoAction "no risk limit is hit" in
      {| rd_scale := full_size; rd_action := RiskAction.None; rd_reasons := [r]; next_rung := None; rd_halt_reason := None;
         drawdown := dd; daily_loss := dl |}
  | Some i =>
      match r_action (rung_of p i) with
      | RungAction.HaltFlatten =>
          halted HaltReason.DrawdownLadder [reason RiskCode.DrawdownHalt "internal: halt rung reached the shrink branch"] dd dl
      | RungAction.Shrink scale =>
          let newly := bool_decide (raw = Some i) && negb (bool_decide (shrink_rung s = Some i)) in
          let stepped_down := shrunk && match shrink_rung s with Some c => Nat.ltb i c | None => false end in
          let code :=
            if newly then RiskCode.DrawdownShrink else if stepped_down then RiskCode.PartialRecovery else RiskCode.ShrinkHeld in
          {| rd_scale := scale; rd_action := RiskAction.Shrink scale;
             rd_reasons := [reason code
               ("drawdown " +:+ match dd with Some d => to_string d | None => "?" end +:+ " from the high-water mark " +:+
                to_string high +:+ ": shrink rung " +:+ to_string (r_at_ (rung_of p i)) +:+ " in force, targets scaled by " +:+
                to_string scale)];
             next_rung := Some i; rd_halt_reason := None; drawdown := dd; daily_loss := dl |}
      end
  end.

Definition evaluate_inner (s : AccountState) (snapshot : EquitySnapshot) (p : RiskPolicy) : math RiskDecision :=
  if AccountStatus.is_halt (status s) then Ok (already_halted s)
  else
    let equity := eq_equity snapshot in
    if negb (is_positive equity) then
      Ok (halted HaltReason.EquityInvalid
            [reason RiskCode.EquityInvalid ("broker-reported equity " +:+ to_string equity +:+ " is not positive")] None None)
    else
      let high := ratchet (hwm s) equity in
      let dd := fraction_of high equity in
      let? (h, reasons, dl) := check_daily_loss s equity p in
      let? raw := highest_hit high equity 0 (rungs p) None in
      let? (h, reasons) := check_ladder_halt equity high p raw h reasons in
      match h with
      | Some h => Ok (halted h reasons dd dl)
      | None =>
          let? held := release_held p high equity (held_rung s p) in
          Ok (posture s high p raw (most_severe raw held) dd dl)
      end.

Definition evaluate_risk (s : AccountState) (snapshot : EquitySnapshot) (p : RiskPolicy) : RiskDecision :=
  match evaluate_inner s snapshot p with
  | Ok d => d
  | Err e =>
      halted HaltReason.EquityInvalid
        [reason RiskCode.ArithmeticOverflow ("risk arithmetic failed (" +:+ MathError.display e +:+ "); failing closed")] None None
  end.

Definition apply_decision (s : AccountState) (d : RiskDecision) (at_ : DateTime) : AccountState * option Transition :=
  if AccountStatus.is_halt (status s) then (s, None)
  else
    match rd_action d with
    | RiskAction.None => with_full_size s
    | RiskAction.Shrink scale =>
        match next_rung d with
        | Some rung => with_shrink s scale rung
        | None => begin_flatten s HaltReason.EquityInvalid "internal: a shrink decision without a rung; failing closed" at_
        end
    | RiskAction.HaltFlatten =>
        let detail := join " | " ((λ r, RiskCode.as_str (rr_code r) +:+ ": " +:+ rr_message r) <$> rd_reasons d) in
        begin_flatten s (default HaltReason.EquityInvalid (rd_halt_reason d)) detail at_
    end.

Definition step_with (s : AccountState) (snapshot : EquitySnapshot) (day : NaiveDate) (p : RiskPolicy) (rule : DayStartRule)
    : AccountState * RiskDecision * option Transition :=
  let observed := observe_with s snapshot day rule in
  let decision := evaluate_risk observed snapshot p in
  let '(next, transition) := apply_decision observed decision (eq_at snapshot) in
  (next, decision, transition).

Definition step (s : AccountState) (snapshot : EquitySnapshot) (day : NaiveDate) (p : RiskPolicy)
    : AccountState * RiskDecision * option Transition :=
  step_with s snapshot day p FirstObservation.
End evaluate.
