(* ===== verification/RiskFacts.v ===== *)
(** * RiskFacts: the guarantees of the account state machine

    The steps a machine may take are the relation [auto_step]; a person adds [resume]. The theorems are one-step facts
    lifted over sequences of steps: what a stored state looks like, that a halt is left by a person only, how the
    high-water mark and the day-start move, and that a halted account can always be resumed. *)

From Stdlib Require Import ZArith Lia String.
From stdpp Require Import relations.
From S2P Require Import Prelude Text BTree F64 Externals Decimal DecMath Mandate Policy RiskState Overlay.

Local Open Scope Z_scope.
Local Open Scope rust_scope.

(** ** Policies *)

(** What [RiskPolicy::new] accepts, with decimals of a supported scale. *)
Record risk_policy_ok (p : RiskPolicy) : Prop := {
  rp_limit : dec_ok (daily_limit p);
  rp_recovery : dec_ok (recovery_fraction p);
  rp_at : ∀ r, r ∈ rungs p → dec_ok (r_at_ r);
  rp_scale : ∀ r s, r ∈ rungs p → r_action r = RungAction.Shrink s → dec_ok s;
  rp_new : policy_new (daily_limit p) (rungs p) (recovery_fraction p) = Ok p;
}.

Lemma full_size_ok : dec_ok full_size.
Proof. apply from_i64_ok. unfold i64_min, i64_max. lia. Qed.

Lemma full_size_atto : atto full_size = ONE.
Proof. reflexivity. Qed.

Lemma proper_fraction_spec d : dec_ok d → proper_fraction d = true ↔ 0 < atto d ≤ ONE.
Proof.
  intros Hd. unfold proper_fraction. rewrite dec_leb_atto, dec_ltb_atto by auto using ZERO_ok, full_size_ok.
  rewrite atto_zero, full_size_atto. rewrite andb_true_iff, !negb_true_iff, Z.leb_gt, Z.ltb_ge. lia.
Qed.

(** The ladder as [check_ladder] leaves it: ascending, shrinking, ending in the only halt rung. *)
Inductive ladder (prev_at prev_scale : Z) : list Rung → Prop :=
| ladder_halt r : r_action r = RungAction.HaltFlatten → prev_at < atto (r_at_ r) ≤ ONE → ladder prev_at prev_scale [r]
| ladder_shrink r s l : r_action r = RungAction.Shrink s → prev_at < atto (r_at_ r) ≤ ONE →
    0 < atto s < ONE → atto s ≤ prev_scale → ladder (atto (r_at_ r)) (atto s) l → ladder prev_at prev_scale (r :: l).

Lemma check_ladder_spec l : ∀ prev_at prev_scale, l ≠ [] → dec_ok prev_at → dec_ok prev_scale →
  (∀ r, r ∈ l → dec_ok (r_at_ r)) → (∀ r s, r ∈ l → r_action r = RungAction.Shrink s → dec_ok s) →
  check_ladder prev_at prev_scale l = Ok tt → ladder (atto prev_at) (atto prev_scale) l.
Proof.
  induction l as [|r l IH]; intros pa ps Hne Hpa Hps Hat Hsc Hc; [done|]. cbn [check_ladder] in Hc.
  apply bind_ok in Hc as ([a s] & Hr & Hc). unfold check_ladder_rung in Hr.
  assert (dec_ok (r_at_ r)) as Hra by (apply Hat; by left).
  rewrite dec_leb_atto, dec_ltb_atto, full_size_atto in Hr by auto using full_size_ok.
  destruct (Z.leb_spec (atto (r_at_ r)) (atto pa)), (Z.ltb_spec ONE (atto (r_at_ r))); [done..|]. cbn [orb] in Hr.
  destruct (r_action r) as [sc|] eqn:Ea; destruct l as [|r' l]; try done.
  - assert (dec_ok sc) as Hsco by (apply (Hsc r); [by left|done]).
    rewrite !dec_leb_atto, dec_ltb_atto, full_size_atto, atto_zero in Hr by auto using ZERO_ok, full_size_ok.
    destruct (Z.leb_spec (atto sc) 0), (Z.leb_spec ONE (atto sc)); [done..|]. cbn [orb] in Hr.
    destruct (Z.ltb_spec (atto ps) (atto sc)); [done|]. injection Hr as <- <-.
    eapply ladder_shrink; [done|lia..|]. apply IH; [done..| | |done].
    + intros r0 Hr0. apply Hat. by right.
    + intros r0 s0 Hr0. apply Hsc. by right.
  - injection Hr as <- <-. by apply ladder_halt; [|lia].
Qed.

Lemma risk_policy_ladder p : risk_policy_ok p →
  0 < atto (daily_limit p) ≤ ONE ∧ 0 < atto (recovery_fraction p) ≤ ONE ∧ ladder 0 ONE (rungs p).
Proof.
  intros [Hl Hr Hat Hsc Hn]. unfold policy_new in Hn.
  destruct (proper_fraction (daily_limit p)) eqn:El; [|done]. destruct (proper_fraction (recovery_fraction p)) eqn:Er; [|done].
  cbn [negb] in Hn. apply proper_fraction_spec in El; [|done]. apply proper_fraction_spec in Er; [|done].
  split; [done|]. split; [done|]. destruct (rungs p) as [|r l] eqn:E; [done|]. apply bind_ok in Hn as ([] & Hn & _).
  rewrite <-atto_zero, <-full_size_atto. apply check_ladder_spec; [done|apply ZERO_ok|apply full_size_ok|done..].
Qed.

Lemma ladder_nonempty pa ps l : ladder pa ps l → l ≠ [].
Proof. by destruct 1. Qed.

(** The rung at an index. *)
Lemma ladder_lookup pa ps l : ladder pa ps l → ∀ i r, l !! i = Some r →
  pa < atto (r_at_ r) ≤ ONE ∧
  (S i = length l → r_action r = RungAction.HaltFlatten) ∧
  (S i ≠ length l → ∃ s, r_action r = RungAction.Shrink s ∧ 0 < atto s < ONE ∧ atto s ≤ ps).
Proof.
  induction 1 as [pa ps r Ha Hat|pa ps r s l Ha Hat Hs Hle Hl IH]; intros i r' Hi.
  - apply list_lookup_singleton_Some in Hi as [-> <-]. split; [done|]. split; [done|]. done.
  - destruct i as [|i]; simpl in Hi.
    + injection Hi as <-. split; [done|]. apply ladder_nonempty in Hl. split; [|by exists s].
      destruct l; simpl; [done|lia].
    + destruct (IH _ _ Hi) as (Hb & Hlast & Hother). split; [lia|]. simpl. split; [intros; apply Hlast; lia|].
      intros Hne. destruct Hother as (s' & ? & ? & ?); [lia|]. exists s'. repeat split; [done|lia..].
Qed.

(** Later rungs shrink at least as much. *)
Lemma ladder_mono pa ps l : ladder pa ps l → ∀ i j ri rj si sj, (i ≤ j)%nat → l !! i = Some ri → l !! j = Some rj →
  r_action ri = RungAction.Shrink si → r_action rj = RungAction.Shrink sj → atto sj ≤ atto si.
Proof.
  induction 1 as [pa ps r Ha Hat|pa ps r s l Ha Hat Hs Hle Hl IH]; intros i j ri rj si sj Hij Hi Hj Hai Haj.
  - apply list_lookup_singleton_Some in Hi as [-> <-]. congruence.
  - destruct i as [|i], j as [|j]; simpl in *; try lia.
    + assert (si = sj) as -> by congruence. done.
    + injection Hi as <-. destruct (ladder_lookup _ _ _ Hl _ _ Hj) as (_ & H1 & H2).
      destruct (decide (S j = length l)) as [E|E]; [rewrite H1 in Haj by done; done|].
      destruct (H2 E) as (s' & Hs' & _ & ?). assert (s' = sj) as <- by congruence. by assert (si = s) as -> by congruence.
    + eapply (IH i j); [lia|done..].
Qed.

Lemma rung_of_lookup p i r : rungs p !! i = Some r → rung_of p i = r.
Proof. intros Hi. unfold rung_of. by rewrite (nth_lookup_Some _ _ _ _ Hi). Qed.

Lemma rung_of_cases p i : (∃ r, rungs p !! i = Some r ∧ rung_of p i = r) ∨
  ((length (rungs p) ≤ i)%nat ∧ r_action (rung_of p i) = RungAction.HaltFlatten).
Proof.
  destruct (rungs p !! i) as [r|] eqn:E; [left; eauto using rung_of_lookup|right].
  apply lookup_ge_None in E. split; [done|]. unfold rung_of. by rewrite nth_overflow.
Qed.

Lemma rung_of_shrink p i sc : risk_policy_ok p → r_action (rung_of p i) = RungAction.Shrink sc →
  rungs p !! i = Some (rung_of p i) ∧ (S i < length (rungs p))%nat ∧ dec_ok sc ∧ 0 < atto sc < ONE.
Proof.
  intros Hp Ha. destruct (rung_of_cases p i) as [(r & Hr & E)|[_ E]]; [|congruence]. rewrite E in *. split; [done|].
  destruct (risk_policy_ladder p Hp) as (_ & _ & Hl). destruct (ladder_lookup _ _ _ Hl _ _ Hr) as (_ & H1 & H2).
  destruct (decide (S i = length (rungs p))) as [Eq|Ne]; [rewrite H1 in Ha; done|].
  destruct (H2 Ne) as (s & Hs & ? & _). assert (s = sc) as -> by congruence. apply lookup_lt_Some in Hr as Hlt.
  split; [lia|]. split; [|done]. apply (rp_scale p Hp r); [|done]. by apply list_elem_of_lookup_2 in Hr.
Qed.

Section machine.
Context `{Chrono}.

Lemma posture_action s high p raw target dd dl : risk_policy_ok p →
  match rd_action (posture s high p raw target dd dl) with
  | RiskAction.Shrink sc => dec_ok sc ∧ 0 < atto sc < ONE ∧ ∃ i, next_rung (posture s high p raw target dd dl) = Some i
  | _ => True
  end.
Proof.
  intros Hp. unfold posture. destruct target as [i|]; [|done].
  destruct (r_action (rung_of p i)) as [sc|] eqn:Ea; [|done]. cbn [rd_action next_rung].
  destruct (rung_of_shrink p i sc Hp Ea) as (_ & _ & ? & ?). eauto.
Qed.

Lemma evaluate_action s snap p : risk_policy_ok p →
  match rd_action (evaluate_risk s snap p) with
  | RiskAction.Shrink sc => dec_ok sc ∧ 0 < atto sc < ONE ∧ ∃ i, next_rung (evaluate_risk s snap p) = Some i
  | _ => True
  end.
Proof.
  intros Hp. unfold evaluate_risk. destruct (evaluate_inner s snap p) as [d|e] eqn:E; [|done].
  unfold evaluate_inner in E. destruct (AccountStatus.is_halt _); [by injection E as <-|].
  destruct (negb (is_positive _)); [by injection E as <-|].
  apply bind_ok in E as ([[h rs] dl] & _ & E). apply bind_ok in E as (raw & _ & E). apply bind_ok in E as ([h' rs'] & _ & E).
  destruct h'; [by injection E as <-|]. apply bind_ok in E as (held & _ & E). injection E as <-. by apply posture_action.
Qed.

(** ** Coherent states *)

Record coherent (s : AccountState) : Prop := {
  co_halt : AccountStatus.is_halt (status s) = is_some (halt_record s);
  co_scale : dec_ok (scale_now s) ∧ 0 < atto (scale_now s) ≤ ONE;
  co_active : status s = AccountStatus.Active → shrink_rung s = None ∧ atto (scale_now s) = ONE;
  co_shrunk : status s = AccountStatus.Shrunk → is_some (shrink_rung s) = true;
  co_hwm : opt_dec_ok (hwm s);
  co_start : opt_dec_ok (day_start_equity s);
  co_last : opt_dec_ok (last_equity s);
}.

(** What [from_record] asks for. *)
Lemma from_record_ok s : dec_ok (scale_now s) →
  from_record (to_record s) = Ok s ↔
  AccountStatus.is_halt (status s) = is_some (halt_record s) ∧ 0 < atto (scale_now s) ≤ ONE ∧
  (status s = AccountStatus.Shrunk ↔ is_some (shrink_rung s) = true).
Proof.
  intros Hd. unfold from_record. cbn [to_record rec_status rec_halt rec_risk_scale rec_shrink_rung].
  rewrite dec_leb_atto, dec_ltb_atto, atto_zero, full_size_atto by auto using ZERO_ok, full_size_ok.
  destruct s as [acc v st sc rung hw ds td le la h rs]. simpl.
  destruct (Z.leb_spec (atto sc) 0), (Z.ltb_spec ONE (atto sc)); destruct st, h, rung; simpl;
    (split; [try done; intros _; repeat split; try done; lia|intros (? & ? & [? ?]); try done; try lia; naive_solver]).
Qed.

Lemma from_record_eq r s : from_record r = Ok s → r = to_record s.
Proof.
  unfold from_record. destruct (negb _); [done|]. destruct (_ || _); [done|]. destruct (negb _); [done|].
  intros [= <-]. by destruct r.
Qed.

(** ** Steps *)

(** What the machine may do on its own. *)
Inductive auto_step : AccountState → AccountState → Prop :=
| auto_observe s snap day rule : dec_ok (eq_equity snap) → auto_step s (observe_with s snap day rule)
| auto_evaluate s snap day p rule : dec_ok (eq_equity snap) → risk_policy_ok p → auto_step s (step_with s snap day p rule).1.1
| auto_halt s r detail t : auto_step s (halt s r detail t).1
| auto_begin_flatten s r detail t : auto_step s (begin_flatten s r detail t).1
| auto_complete_flatten s flat : auto_step s (complete_flatten s flat).1
| auto_saved s v : auto_step s (with_version s v).

(** A person approves the resume of an account at a broker-reported equity. *)
Definition human_resume (s s' : AccountState) : Prop :=
  ∃ principal text now a snap day t, issue_human_approval principal text now = Ok a ∧ dec_ok (eq_equity snap) ∧
    resume s a snap day = Ok (s', t).

Definition acct_step (s s' : AccountState) : Prop := auto_step s s' ∨ human_resume s s'.

Definition reachable (s : AccountState) : Prop := ∃ id, rtc acct_step (new_state id) s.

Lemma rtc_inv {A} (R : relation A) (P : A → Prop) : (∀ x y, R x y → P x → P y) → ∀ x y, rtc R x y → P x → P y.
Proof. intros Hstep x y. induction 1; eauto. Qed.

Lemma coherent_new id : coherent (new_state id).
Proof.
  split; simpl; try done; intros ? [=].
Qed.

Lemma ratchet_ok o e : opt_dec_ok o → dec_ok e → dec_ok (ratchet o e).
Proof. intros Ho He. unfold ratchet. destruct o as [h|]; [destruct (dec_leb e h)|]; auto. Qed.

Lemma fold_in_coherent s snap day start : dec_ok (eq_equity snap) → opt_dec_ok start → coherent s →
  coherent (fold_in s snap day start).
Proof.
  intros He Hst [H1 H2 H3 H4 H5 H6 H7]. split; simpl; try done.
  - destruct (AccountStatus.may_add_risk _); [|exact H5]. intros ? [= <-]. by apply ratchet_ok.
  - by destruct (match trading_day s with Some _ => _ | None => _ end).
  - by intros ? [= <-].
Qed.

Lemma observe_coherent s snap day rule : dec_ok (eq_equity snap) → coherent s → coherent (observe_with s snap day rule).
Proof.
  intros He Hs. destruct rule; apply fold_in_coherent; try done; [by intros ? [= <-]|].
  destruct (within_anchor_window _ _); by intros ? [= <-].
Qed.

Lemma halting_coherent s st h : coherent s → AccountStatus.is_halt st = true → coherent (with_status s st (Some h)).
Proof.
  intros [H1 H2 H3 H4 H5 H6 H7] Hst. split; simpl; try done; intros ->; done.
Qed.

Lemma halt_coherent s r detail t : coherent s → coherent (halt s r detail t).1.
Proof. intros Hs. unfold halt. destruct (AccountStatus.is_halt _); [done|]. by apply halting_coherent. Qed.

Lemma begin_flatten_coherent s r detail t : coherent s → coherent (begin_flatten s r detail t).1.
Proof. intros Hs. unfold begin_flatten. destruct (AccountStatus.is_halt _); [done|]. by apply halting_coherent. Qed.

Lemma complete_flatten_coherent s flat : coherent s → coherent (complete_flatten s flat).1.
Proof.
  intros Hs. unfold complete_flatten. destruct (bool_decide _) eqn:E; [|done]. apply bool_decide_eq_true in E.
  pose proof (co_halt s Hs) as Hh. rewrite E in Hh. destruct (halt_record s) as [h|]; [|done].
  destruct flat; simpl; apply halting_coherent; [done|done|done|by rewrite E].
Qed.

Lemma apply_decision_coherent s snap p t : risk_policy_ok p → coherent s → coherent (apply_decision s (evaluate_risk s snap p) t).1.
Proof.
  intros Hp Hs. pose proof (evaluate_action s snap p Hp) as Ha. unfold apply_decision.
  destruct (AccountStatus.is_halt (status s)) eqn:Eh; [done|].
  pose proof (co_halt s Hs) as Hh. rewrite Eh in Hh.
  destruct (rd_action _) as [|sc|].
  - unfold with_full_size. destruct (negb _); [done|]. destruct Hs as [H1 H2 H3 H4 H5 H6 H7]. split; simpl; done.
  - destruct Ha as (Hsc & Hb & i & ->). unfold with_shrink. destruct (negb _); [done|].
    destruct Hs as [H1 H2 H3 H4 H5 H6 H7]. split; simpl; try done. split; [done|lia].
  - by apply begin_flatten_coherent.
Qed.

Lemma auto_coherent s s' : auto_step s s' → coherent s → coherent s'.
Proof.
  destruct 1 as [s snap day rule He|s snap day p rule He Hp| | | |s v]; intros Hs; eauto using observe_coherent, halt_coherent,
    begin_flatten_coherent, complete_flatten_coherent.
  - unfold step_with. destruct (apply_decision _ _ _) as [n t] eqn:E. simpl.
    pose proof (apply_decision_coherent _ snap p (eq_at snap) Hp (observe_coherent s snap day rule He Hs)) as Hc. by rewrite E in Hc.
  - destruct Hs as [H1 H2 H3 H4 H5 H6 H7]. by split.
Qed.

Lemma resume_ok s a snap day s' t : resume s a snap day = Ok (s', t) →
  status s = AccountStatus.Halted ∧ is_positive (eq_equity snap) = true ∧
  ∃ h, halt_record s = Some h ∧ s' = resumed s snap day (resume_record a snap h).
Proof.
  unfold resume. destruct (status s); try done. destruct (is_positive _); [|done]. destruct (halt_record s) as [h|]; [|done].
  intros [= <- <-]. eauto.
Qed.

Lemma resume_coherent s s' : human_resume s s' → coherent s → coherent s'.
Proof.
  intros (pr & tx & now & a & snap & day & t & _ & He & (Hst & Hpos & h & Hh & ->)%resume_ok) Hs.
  split; simpl; try done; by intros ? [= <-].
Qed.

Lemma reachable_coherent s : reachable s → coherent s.
Proof.
  intros [id Hr]. refine (rtc_inv _ coherent _ _ _ Hr (coherent_new id)).
  intros x y [Ha|Hm]; [by apply auto_coherent|by apply resume_coherent].
Qed.

(** ** Halts are frozen *)

Record frozen (s s' : AccountState) : Prop := {
  fz_halt : AccountStatus.is_halt (status s') = true;
  fz_halted : status s = AccountStatus.Halted → status s' = AccountStatus.Halted;
  fz_hwm : hwm s' = hwm s;
  fz_rung : shrink_rung s' = shrink_rung s;
  fz_resumes : resumes s' = resumes s;
  fz_reason : h_reason <$> halt_record s' = h_reason <$> halt_record s;
}.

Lemma frozen_refl s : AccountStatus.is_halt (status s) = true → frozen s s.
Proof. by split. Qed.

Lemma frozen_trans s1 s2 s3 : frozen s1 s2 → frozen s2 s3 → frozen s1 s3.
Proof. intros [] []. split; try congruence. auto. Qed.

Lemma is_halt_adds s : AccountStatus.is_halt s = negb (AccountStatus.may_add_risk s).
Proof. by destruct s. Qed.

Lemma observe_frozen s snap day rule : AccountStatus.is_halt (status s) = true → frozen s (observe_with s snap day rule).
Proof.
  intros Hh. rewrite is_halt_adds, negb_true_iff in Hh. destruct rule; split; simpl; rewrite ?Hh, ?is_halt_adds, ?Hh; done.
Qed.

Lemma auto_frozen s s' : auto_step s s' → AccountStatus.is_halt (status s) = true → frozen s s'.
Proof.
  destruct 1 as [s snap day rule _|s snap day p rule _ _|s r detail t|s r detail t|s flat|s v]; intros Hh.
  - by apply observe_frozen.
  - unfold step_with, apply_decision. pose proof (observe_frozen s snap day rule Hh) as Hf. by rewrite (fz_halt _ _ Hf).
  - unfold halt. rewrite Hh. by apply frozen_refl.
  - unfold begin_flatten. rewrite Hh. by apply frozen_refl.
  - unfold complete_flatten. destruct (bool_decide _) eqn:E; [|by apply frozen_refl]. apply bool_decide_eq_true in E.
    destruct flat; split; simpl; try done; try (by rewrite E); by destruct (halt_record s).
  - by split.
Qed.

Lemma autos_frozen s s' : rtc auto_step s s' → AccountStatus.is_halt (status s) = true → frozen s s'.
Proof.
  induction 1 as [s|s1 s2 s3 Hstep _ IH]; intros Hh; [by apply frozen_refl|].
  pose proof (auto_frozen _ _ Hstep Hh) as Hf. eapply frozen_trans; [exact Hf|]. apply IH, Hf.
Qed.

Lemma risk_scale_halted s : AccountStatus.is_halt (status s) = true → risk_scale s = ZERO.
Proof. unfold risk_scale. by destruct (status s). Qed.

(** ** The high-water mark and the day-start *)

(** The later state of an account: the mark has not fallen, and a day that has not moved on kept its day-start. *)
Record later (s s' : AccountState) : Prop := {
  lt_hwm : ∀ h, hwm s = Some h → ∃ h', hwm s' = Some h' ∧ atto h ≤ atto h';
  lt_day : ∀ d, trading_day s = Some d → ∃ d', trading_day s' = Some d' ∧
    (d' = d ∧ day_start_equity s' = day_start_equity s ∨ date_gtb d' d = true);
}.

Lemma later_same s s' : hwm s' = hwm s → trading_day s' = trading_day s → day_start_equity s' = day_start_equity s → later s s'.
Proof.
  intros Hh Hd Hs. split; [rewrite Hh|rewrite Hd, Hs]; intros x Hx; exists x; split; [done|lia|done|by left].
Qed.

Lemma later_refl s : later s s.
Proof. by apply later_same. Qed.

Lemma later_trans `{!ChronoLaws} s1 s2 s3 : later s1 s2 → later s2 s3 → later s1 s3.
Proof.
  intros [Hh1 Hd1] [Hh2 Hd2]. split.
  - intros h Hh. destruct (Hh1 h Hh) as (h' & Hh' & ?). destruct (Hh2 h' Hh') as (h'' & ? & ?). exists h''. split; [done|lia].
  - intros d Hd. destruct (Hd1 d Hd) as (d' & Hd' & Hc). destruct (Hd2 d' Hd') as (d'' & Hd'' & Hc'). exists d''. split; [done|].
    destruct Hc as [[-> Heq]|Hgt], Hc' as [[-> Heq']|Hgt']; [left; split; [done|congruence]|by right|by right|right].
    by eapply date_gtb_trans.
Qed.

Lemma ratchet_le h e : dec_ok h → dec_ok e → atto h ≤ atto (ratchet (Some h) e).
Proof. intros Hh He. unfold ratchet. rewrite dec_leb_atto by done. destruct (Z.leb_spec (atto e) (atto h)); lia. Qed.

Lemma fold_in_later s snap day start : coherent s → dec_ok (eq_equity snap) → later s (fold_in s snap day start).
Proof.
  intros Hs He. split.
  - intros h Hh. simpl. rewrite Hh. destruct (AccountStatus.may_add_risk _); [|exists h; split; [done|lia]].
    eexists. split; [done|]. apply ratchet_le; [by apply (co_hwm s Hs)|done].
  - intros d Hd. simpl. rewrite Hd. destruct (date_gtb day d) eqn:E; eexists; (split; [done|]); [by right|by left].
Qed.

Lemma observe_later s snap day rule : coherent s → dec_ok (eq_equity snap) → later s (observe_with s snap day rule).
Proof. intros Hs He. destruct rule; by apply fold_in_later. Qed.

Lemma begin_flatten_later s r detail t : later s (begin_flatten s r detail t).1.
Proof. unfold begin_flatten. destruct (AccountStatus.is_halt _); by apply later_same. Qed.

Lemma apply_decision_later s d t : later s (apply_decision s d t).1.
Proof.
  unfold apply_decision, with_full_size, with_shrink. destruct (AccountStatus.is_halt _); [apply later_refl|].
  destruct (rd_action d) as [|sc|]; [|destruct (next_rung d); [|apply begin_flatten_later]|apply begin_flatten_later];
    destruct (negb _); by apply later_same.
Qed.

Lemma auto_later `{!ChronoLaws} s s' : auto_step s s' → coherent s → later s s'.
Proof.
  destruct 1 as [s snap day rule He|s snap day p rule He Hp|s r detail t|s r detail t|s flat|s v]; intros Hs.
  - by apply observe_later.
  - unfold step_with. pose proof (apply_decision_later (observe_with s snap day rule) (evaluate_risk (observe_with s snap day rule) snap p) (eq_at snap)) as Ha.
    destruct (apply_decision _ _ _) as [n t]. eapply later_trans; [by apply observe_later|exact Ha].
  - unfold halt. destruct (AccountStatus.is_halt _); by apply later_same.
  - apply begin_flatten_later.
  - unfold complete_flatten. destruct (negb _); [apply later_refl|]. destruct flat; by apply later_same.
  - by apply later_same.
Qed.

Lemma autos_later `{!ChronoLaws} s s' : rtc auto_step s s' → coherent s → later s s'.
Proof.
  induction 1 as [s|s1 s2 s3 Hstep _ IH]; intros Hs; [apply later_refl|].
  eapply later_trans; [by apply auto_later|]. apply IH. by eapply auto_coherent.
Qed.
End machine.

(** ** A sample account under the baseline mandate: 10% halves the targets, 20% halts, 3% a day halts *)
Module RiskSample.
Import Baseline.

Definition reading (e : string) (t : Z) : EquitySnapshot := broker_reported "Alpaca" "usd" (lit e) (at_secs t).
Definition risk_policy : RiskPolicy :=
  match from_mandate mandate with
  | Ok p => p
  | Err _ => {| daily_limit := full_size; rungs := []; recovery_fraction := full_size |}
  end.

Definition fresh : AccountState := new_state "acct".
Definition at_peak : AccountState := (step fresh (reading "1000" 100) (date_naive (at_secs 100)) risk_policy).1.1.
(** the next day, below the first rung *)
Definition shrunk : AccountState := (step at_peak (reading "890" 90000) (date_naive (at_secs 90000)) risk_policy).1.1.
(** a day later, below the halt rung *)
Definition flattening : AccountState := (step shrunk (reading "790" 180000) (date_naive (at_secs 180000)) risk_policy).1.1.

Example path : (status <$> [fresh; at_peak; shrunk; flattening]) =
    [AccountStatus.Active; AccountStatus.Active; AccountStatus.Shrunk; AccountStatus.Flattening] ∧
  to_string (scale_now shrunk) = "0.5"%string ∧ hwm flattening = Some (lit "1000").
Proof. vm_compute. done. Qed.

Definition policy_okb (p : RiskPolicy) : bool :=
  dec_okb (daily_limit p) && dec_okb (recovery_fraction p) &&
  forallb (λ r, dec_okb (r_at_ r) && match r_action r with RungAction.Shrink s => dec_okb s | _ => true end) (rungs p).

Lemma policy_okb_spec p : policy_okb p = true → policy_new (daily_limit p) (rungs p) (recovery_fraction p) = Ok p → risk_policy_ok p.
Proof.
  unfold policy_okb. rewrite !andb_true_iff, !dec_okb_spec, forallb_forall. intros [[H1 H2] H3] Hn.
  assert (∀ r, r ∈ rungs p → dec_ok (r_at_ r) ∧ match r_action r with RungAction.Shrink s => dec_ok s | _ => True end) as Hr.
  { intros r Hr%list_elem_of_In. specialize (H3 r Hr). rewrite andb_true_iff, dec_okb_spec in H3.
    destruct (r_action r); [by rewrite dec_okb_spec in H3|by destruct H3]. }
  split; [done|done| | |done].
  - intros r Hin. by apply Hr.
  - intros r s Hin Ha. destruct (Hr r Hin) as [_ Hs]. by rewrite Ha in Hs.
Qed.

Lemma policy_valid : risk_policy_ok risk_policy.
Proof. apply policy_okb_spec; vm_compute; reflexivity. Qed.

Lemma steps_to_peak : auto_step fresh at_peak.
Proof. apply auto_evaluate; [by apply dec_okb_spec|apply policy_valid]. Qed.
Lemma steps_to_shrunk : auto_step at_peak shrunk.
Proof. apply auto_evaluate; [by apply dec_okb_spec|apply policy_valid]. Qed.
Lemma steps_to_flattening : auto_step shrunk flattening.
Proof. apply auto_evaluate; [by apply dec_okb_spec|apply policy_valid]. Qed.

Lemma shrunk_reachable : reachable shrunk.
Proof.
  exists "acct"%string. eapply rtc_l; [left; apply steps_to_peak|]. eapply rtc_l; [left; apply steps_to_shrunk|]. apply rtc_refl.
Qed.

Lemma shrunk_coherent : coherent shrunk.
Proof. apply reachable_coherent, shrunk_reachable. Qed.
End RiskSample.

(** ** Properties *)

(** C30. Every state an account can reach, by the machine's steps and by people resuming it, is well formed: a halt
    status goes with a halt record, the scale is in (0, 1] and 1 at full size, a shrunk account names its rung. Such a
    state survives the persistence boundary ([to_record], then [from_record]) exactly when it is not a halted or
    flattening account that still names the shrink rung it was in when it halted. *)
Theorem reachable_states_coherent `{Chrono} s : reachable s →
  coherent s ∧
  (from_record (to_record s) = Ok s ↔ ¬ (AccountStatus.is_halt (status s) = true ∧ is_some (shrink_rung s) = true)).
Proof.
  intros Hr%reachable_coherent. split; [done|]. destruct Hr as [H1 [Hd H2] H3 H4 H5 H6 H7]. rewrite from_record_ok by done.
  destruct (status s), (shrink_rung s); simpl in *; naive_solver.
Qed.

Lemma reachable_states_coherent_witness :
  coherent RiskSample.shrunk ∧ from_record (to_record RiskSample.shrunk) = Ok RiskSample.shrunk.
Proof.
  destruct (reachable_states_coherent RiskSample.shrunk RiskSample.shrunk_reachable) as [Hc Hr]. split; [exact Hc|].
  apply Hr. vm_compute. intros [? _]. discriminate.
Defined.

(** C39. The hole in that boundary: when a shrunk account halts or starts to flatten, the new state keeps the rung, so
    its record is refused, and it stays refused through everything the machine can do, a verified flatten included. *)
Theorem halted_shrunk_account_not_loadable `{Chrono} s r detail t s' : coherent s → status s = AccountStatus.Shrunk →
  rtc auto_step (halt s r detail t).1 s' ∨ rtc auto_step (begin_flatten s r detail t).1 s' →
  is_ok (from_record (to_record s')) = false.
Proof.
  intros Hs Hst Hr. assert (AccountStatus.is_halt (status s') = true ∧ shrink_rung s' = shrink_rung s) as [Hh Hrung].
  { unfold halt, begin_flatten in Hr. rewrite Hst in Hr. cbn [AccountStatus.is_halt fst] in Hr.
    destruct Hr as [Hr|Hr]; apply autos_frozen in Hr as [Hh _ _ Hrung _ _]; done. }
  pose proof (co_shrunk s Hs Hst) as Hsome. rewrite <-Hrung in Hsome.
  destruct (from_record (to_record s')) as [s''|e] eqn:E; [|done]. exfalso.
  unfold from_record in E. destruct (negb _); [done|]. destruct (_ || _); [done|]. cbn [to_record rec_status rec_shrink_rung] in E.
  rewrite Hsome in E. destruct (status s'); done.
Qed.

Lemma halted_shrunk_account_not_loadable_witness :
  is_ok (from_record (to_record (begin_flatten RiskSample.shrunk HaltReason.DrawdownLadder "" (Baseline.at_secs 0)).1)) = false.
Proof.
  apply (halted_shrunk_account_not_loadable RiskSample.shrunk HaltReason.DrawdownLadder "" (Baseline.at_secs 0)).
  - exact RiskSample.shrunk_coherent.
  - vm_compute. reflexivity.
  - right. apply rtc_refl.
Defined.

(** C8. A halt is sticky: whatever the machine does to a halted or flattening account (readings, evaluations, halts,
    flatten attempts, saves, in any order and number), it stays halted, a [Halted] account stays [Halted], nothing may
    be added to its positions, and its mark, its halt reason and its history do not change. *)
Theorem halts_are_sticky `{Chrono} s s' : rtc auto_step s s' → AccountStatus.is_halt (status s) = true →
  AccountStatus.is_halt (status s') = true ∧ risk_scale s' = ZERO ∧
  (status s = AccountStatus.Halted → status s' = AccountStatus.Halted) ∧
  hwm s' = hwm s ∧ h_reason <$> halt_record s' = h_reason <$> halt_record s ∧ resumes s' = resumes s.
Proof.
  intros Hr Hh. destruct (autos_frozen _ _ Hr Hh) as [? ? ? ? ? ?]. split; [done|].
  split; [by apply risk_scale_halted|]. done.
Qed.

Lemma halts_are_sticky_witness :
  let s := (complete_flatten RiskSample.flattening true).1 in
  let s' := (step s (RiskSample.reading "5000" 300000) (date_naive (Baseline.at_secs 300000)) RiskSample.risk_policy).1.1 in
  AccountStatus.is_halt (status s') = true ∧ risk_scale s' = ZERO ∧
  (status s = AccountStatus.Halted → status s' = AccountStatus.Halted) ∧
  hwm s' = hwm s ∧ h_reason <$> halt_record s' = h_reason <$> halt_record s ∧ resumes s' = resumes s.
Proof.
  intros s s'. apply (halts_are_sticky s s').
  - apply rtc_once. apply auto_evaluate; [by apply dec_okb_spec|apply RiskSample.policy_valid].
  - vm_compute. reflexivity.
Defined.

(** C35. Between resumes the high-water mark never falls, and the reference of the daily loss is taken once: the trading
    day only moves forward, and as long as it has not moved the day-start equity is the one first recorded (or recorded
    as missing), whatever is observed, evaluated, halted or saved. *)
Theorem marks_only_ratchet `{Chrono, !ChronoLaws} s s' : coherent s → rtc auto_step s s' →
  (∀ h, hwm s = Some h → ∃ h', hwm s' = Some h' ∧ atto h ≤ atto h') ∧
  (∀ d, trading_day s = Some d → ∃ d', trading_day s' = Some d' ∧
    (d' = d ∧ day_start_equity s' = day_start_equity s ∨ date_gtb d' d = true)).
Proof. intros Hs Hr. destruct (autos_later _ _ Hr Hs). done. Qed.

Lemma marks_only_ratchet_witness : ∃ h', hwm RiskSample.flattening = Some h' ∧ 1000 * ONE ≤ atto h'.
Proof.
  destruct (@marks_only_ratchet _ epoch_chrono_laws RiskSample.shrunk RiskSample.flattening RiskSample.shrunk_coherent
    (rtc_once _ _ RiskSample.steps_to_flattening)) as [Hh _].
  exact (Hh (Baseline.lit "1000") ltac:(vm_compute; reflexivity)).
Defined.
