(* ===== verification/OverlayFacts.v ===== *)
(** * OverlayFacts: the risk evaluation against a reference in exact numbers

    [evaluate_risk] is a chain of checked decimal operations and two loops. [reference] states its verdict with exact
    integers (units of 10^-18) and the highest index that satisfies a predicate; the two agree unless the arithmetic
    overflows, and then the account halts. *)

From Stdlib Require Import ZArith Lia String.
From S2P Require Import Prelude Text BTree F64 Externals Decimal DecMath Mandate Policy RiskState Overlay RiskFacts.

Local Open Scope Z_scope.
Local Open Scope rust_scope.

(** ** The reference *)

(** The loss from [high] to [equity] has reached the fraction [f] of [high]; the threshold is rounded down, so a trigger
    is never late. *)
Definition hit (high equity f : Z) : bool := f * high / ONE <=? high - equity.

(** The loss is back within [recovery] of the rung [f]. *)
Definition back (high equity f recovery : Z) : bool := high - equity <=? f * recovery / ONE * high / ONE.

(** The highest index below [n] that satisfies [P]. *)
Fixpoint highest (P : nat → bool) (n : nat) : option nat :=
  match n with
  | O => None
  | S k => if P k then Some k else highest P k
  end.

Definition trigger (p : RiskPolicy) (i : nat) : Z := atto (r_at_ (rung_of p i)).

Definition mark (o : option Dec) (equity : Z) : Z := match o with Some h => Z.max (atto h) equity | None => equity end.

Definition rungs_hit (p : RiskPolicy) (high equity : Z) : option nat :=
  highest (λ i, hit high equity (trigger p i)) (length (rungs p)).

Definition rungs_held (p : RiskPolicy) (high equity : Z) (held : option nat) : option nat :=
  match held with
  | Some c => highest (λ i, negb (back high equity (trigger p i) (atto (recovery_fraction p)))) (S c)
  | None => None
  end.

Section reference.
Context `{Chrono}.

Definition daily_hit (s : AccountState) (p : RiskPolicy) (equity : Z) : bool :=
  match day_start_equity s with
  | Some d => (0 <? atto d) && hit (atto d) equity (atto (daily_limit p))
  | None => false
  end.

(** Action, scale, shrink rung and halt reason. *)
Definition verdict : Type := RiskAction.t * Dec * option nat * option HaltReason.

Definition halt_verdict (r : HaltReason) : verdict := (RiskAction.HaltFlatten, ZERO, None, Some r).

Definition reference (s : AccountState) (p : RiskPolicy) (equity : Z) : verdict :=
  let high := mark (hwm s) equity in
  let raw := rungs_hit p high equity in
  if AccountStatus.is_halt (status s) then (RiskAction.None, ZERO, None, None)
  else if equity <=? 0 then halt_verdict HaltReason.EquityInvalid
  else if daily_hit s p equity then halt_verdict HaltReason.DailyLoss
  else if bool_decide (raw = Some (length (rungs p) - 1)%nat) then halt_verdict HaltReason.DrawdownLadder
  else
    match most_severe raw (rungs_held p high equity (held_rung s p)) with
    | None => (RiskAction.None, full_size, None, None)
    | Some i =>
        match r_action (rung_of p i) with
        | RungAction.Shrink sc => (RiskAction.Shrink sc, sc, Some i, None)
        | RungAction.HaltFlatten => halt_verdict HaltReason.DrawdownLadder
        end
    end.

Definition verdict_of (d : RiskDecision) : verdict := (rd_action d, rd_scale d, next_rung d, rd_halt_reason d).

(** ** The checked arithmetic computes the reference predicates *)

Lemma breached_hit r e f b : dec_ok r → dec_ok e → dec_ok f → breached r e f = Ok b → b = hit (atto r) (atto e) (atto f).
Proof.
  intros Hr He Hf Hb. unfold breached in Hb. apply bind_ok in Hb as (loss & Hl & Hb). apply bind_ok in Hb as (th & Ht & [= <-]).
  destruct (sub_atto _ _ _ Hr He Hl) as [Hlok Hla]. destruct (mul_atto _ _ _ Hf Hr Ht) as [Htok Hta].
  rewrite dec_leb_atto, Hla, Hta by done. done.
Qed.

Lemma recovered_back r e f rc b : dec_ok r → dec_ok e → dec_ok f → dec_ok rc → recovered r e f rc = Ok b →
  b = back (atto r) (atto e) (atto f) (atto rc).
Proof.
  intros Hr He Hf Hrc Hb. unfold recovered in Hb. apply bind_ok in Hb as (loss & Hl & Hb).
  apply bind_ok in Hb as (m & Hm & Hb). apply bind_ok in Hb as (th & Ht & [= <-]).
  destruct (sub_atto _ _ _ Hr He Hl) as [Hlok Hla]. destruct (mul_atto _ _ _ Hf Hrc Hm) as [Hmok Hma].
  destruct (mul_atto _ _ _ Hmok Hr Ht) as [Htok Hta]. rewrite dec_leb_atto, Hla, Hta, Hma by done. done.
Qed.

Lemma ratchet_mark o e : opt_dec_ok o → dec_ok e → atto (ratchet o e) = mark o (atto e).
Proof.
  intros Ho He. unfold ratchet, mark. destruct o as [h|]; [|done]. rewrite dec_leb_atto by auto.
  destruct (Z.leb_spec (atto e) (atto h)); lia.
Qed.

(** Peeling a predicate from below instead of from above. *)
Lemma highest_S P n : highest P (S n) =
  match highest (λ k, P (S k)) n with Some k => Some (S k) | None => if P 0%nat then Some 0%nat else None end.
Proof.
  induction n as [|n IH]; [cbn; by destruct (P 0%nat)|]. cbn [highest]. destruct (P (S n)); [done|]. rewrite <-IH. done.
Qed.

Lemma highest_some P n i : highest P n = Some i → (i < n)%nat ∧ P i = true.
Proof.
  induction n as [|n IH]; [done|]. cbn [highest]. destruct (P n) eqn:E; [intros [= <-]; split; [lia|done]|].
  intros [? ?]%IH. split; [lia|done].
Qed.

Lemma highest_hit_spec r e l : dec_ok r → dec_ok e → (∀ x, x ∈ l → dec_ok (r_at_ x)) → ∀ i raw res,
  highest_hit r e i l raw = Ok res →
  res = match highest (λ k, hit (atto r) (atto e) (atto (r_at_ (nth k l {| r_at_ := full_size; r_action := RungAction.HaltFlatten |})))) (length l) with
        | Some k => Some (i + k)%nat
        | None => raw
        end.
Proof.
  intros Hr He. induction l as [|x l IH]; intros Hl i raw res Hres; cbn [highest_hit] in Hres; [by injection Hres as <-|].
  apply bind_ok in Hres as (b & Hb & Hres). apply breached_hit in Hb; [|done|done|apply Hl; by left].
  apply IH in Hres; [|intros y Hy; apply Hl; by right]. rewrite Hres. cbn [length]. rewrite highest_S. cbn [nth].
  destruct (highest _ (length l)) as [k|]; [f_equal; lia|]. subst b. destruct (hit _ _ _); [f_equal; lia|done].
Qed.

Lemma rungs_hit_spec p r e res : risk_policy_ok p → dec_ok r → dec_ok e → highest_hit r e 0 (rungs p) None = Ok res →
  res = rungs_hit p (atto r) (atto e).
Proof.
  intros Hp Hr He Hres. apply highest_hit_spec in Hres; [|done|done|apply Hp]. rewrite Hres. unfold rungs_hit, trigger, rung_of.
  by destruct (highest _ _).
Qed.

Lemma rung_at_ok p i : risk_policy_ok p → dec_ok (r_at_ (rung_of p i)).
Proof.
  intros Hp. unfold rung_of. destruct (nth_in_or_default i (rungs p) {| r_at_ := full_size; r_action := RungAction.HaltFlatten |}) as [Hin| ->].
  - by apply Hp, list_elem_of_In.
  - apply full_size_ok.
Qed.

Lemma release_spec p r e c res : risk_policy_ok p → dec_ok r → dec_ok e → release p r e c = Ok res →
  res = rungs_held p (atto r) (atto e) (Some c).
Proof.
  intros Hp Hr He. revert res. induction c as [|c IH]; intros res Hres; cbn [release] in Hres;
    apply bind_ok in Hres as (b & Hb & Hres); apply recovered_back in Hb; auto using rung_at_ok, rp_recovery;
    unfold rungs_held in *; cbn [highest]; change (atto (r_at_ (rung_of p ?i))) with (trigger p i) in Hb; rewrite <-Hb;
    destruct b; cbn [negb] in *; try (by injection Hres as <-). by rewrite (IH _ Hres).
Qed.

(** ** The evaluation, case by case *)

Lemma check_daily_spec s p e h rs dl : coherent s → risk_policy_ok p → dec_ok e → check_daily_loss s e p = Ok (h, rs, dl) →
  h = (if daily_hit s p (atto e) then Some HaltReason.DailyLoss else None).
Proof.
  intros Hs Hp He Hc. unfold check_daily_loss, daily_hit in *. pose proof (co_start s Hs) as Hstart.
  destruct (day_start_equity s) as [d|]; [|by injection Hc as <- _ _]. specialize (Hstart d eq_refl).
  destruct (is_positive d) eqn:Ed.
  - apply is_positive_atto in Ed; [|done]. rewrite (proj2 (Z.ltb_lt _ _) Ed). cbn [andb].
    apply bind_ok in Hc as (b & Hb & Hc). apply breached_hit in Hb; [|done|done|apply Hp]. rewrite <-Hb.
    destruct b; [apply bind_ok in Hc as (x & _ & [= <- _ _])|injection Hc as <- _ _]; done.
  - destruct (Z.ltb_spec 0 (atto d)) as [Hlt|_]; [apply is_positive_atto in Hlt; [congruence|done]|].
    by injection Hc as <- _ _.
Qed.

Lemma rungs_nonempty p : risk_policy_ok p → (0 < length (rungs p))%nat.
Proof.
  intros Hp. destruct (risk_policy_ladder p Hp) as (_ & _ & Hl%ladder_nonempty). destruct (rungs p); [done|simpl; lia].
Qed.

(** The halt rung is the last one. *)
Lemma rung_of_halt p i : risk_policy_ok p → (i < length (rungs p))%nat →
  r_action (rung_of p i) = RungAction.HaltFlatten ↔ i = (length (rungs p) - 1)%nat.
Proof.
  intros Hp Hi. destruct (risk_policy_ladder p Hp) as (_ & _ & Hl).
  destruct (lookup_lt_is_Some_2 (rungs p) i Hi) as [r Hr]. rewrite (rung_of_lookup _ _ _ Hr).
  destruct (ladder_lookup _ _ _ Hl _ _ Hr) as (_ & H1 & H2).
  destruct (decide (S i = length (rungs p))) as [E|E]; [rewrite H1 by done; split; [lia|done]|].
  destruct (H2 E) as (sc & -> & _). split; [done|lia].
Qed.

Lemma rung_of_is_shrink p i : risk_policy_ok p → (S i < length (rungs p))%nat → ∃ sc, r_action (rung_of p i) = RungAction.Shrink sc.
Proof.
  intros Hp Hi. destruct (r_action (rung_of p i)) as [sc|] eqn:E; [by exists sc|].
  apply (rung_of_halt p i Hp) in E; lia.
Qed.

Lemma check_ladder_halt_spec p high e raw h rs h' rs' : risk_policy_ok p →
  (∀ i, raw = Some i → (i < length (rungs p))%nat) →
  check_ladder_halt e high p raw h rs = Ok (h', rs') →
  h' = if bool_decide (raw = Some (length (rungs p) - 1)%nat) then Some (default HaltReason.DrawdownLadder h) else h.
Proof.
  intros Hp Hraw Hc. unfold check_ladder_halt in Hc. destruct raw as [i|].
  - specialize (Hraw i eq_refl). pose proof (rung_of_halt p i Hp Hraw) as Hi. destruct (r_action (rung_of p i)) as [sc|].
    + injection Hc as <- _. rewrite bool_decide_eq_false_2; [done|]. intros [= Heq]. by apply Hi in Heq.
    + apply bind_ok in Hc as (x & _ & [= <- _]). rewrite bool_decide_eq_true_2; [done|]. f_equal. by apply Hi.
  - injection Hc as <- _. done.
Qed.

Lemma posture_verdict s high p raw target dd dl :
  verdict_of (posture s high p raw target dd dl) =
  match target with
  | None => (RiskAction.None, full_size, None, None)
  | Some i =>
      match r_action (rung_of p i) with
      | RungAction.Shrink sc => (RiskAction.Shrink sc, sc, Some i, None)
      | RungAction.HaltFlatten => halt_verdict HaltReason.DrawdownLadder
      end
  end.
Proof. unfold posture, verdict_of. destruct target as [i|]; [|done]. by destruct (r_action (rung_of p i)). Qed.

Lemma evaluate_inner_reference s snap p d : coherent s → risk_policy_ok p → dec_ok (eq_equity snap) →
  evaluate_inner s snap p = Ok d → verdict_of d = reference s p (atto (eq_equity snap)).
Proof.
  intros Hs Hp He Hd. unfold evaluate_inner in Hd. unfold reference.
  destruct (AccountStatus.is_halt (status s)); [by injection Hd as <-|].
  destruct (is_positive (eq_equity snap)) eqn:Epos; cbn [negb] in Hd.
  2: { injection Hd as <-. destruct (Z.leb_spec (atto (eq_equity snap)) 0) as [_|Hlt]; [done|].
       apply is_positive_atto in Hlt; [congruence|done]. }
  apply is_positive_atto in Epos; [|done]. destruct (Z.leb_spec (atto (eq_equity snap)) 0); [lia|].
  pose proof (ratchet_ok _ _ (co_hwm s Hs) He) as Hhigh. pose proof (ratchet_mark _ _ (co_hwm s Hs) He) as Hmark.
  set (high := ratchet (hwm s) (eq_equity snap)) in *.
  apply bind_ok in Hd as ([[h rs] dl] & Hdl & Hd). apply check_daily_spec in Hdl; [|done..].
  apply bind_ok in Hd as (raw & Hraw & Hd). apply rungs_hit_spec in Hraw; [|done..]. rewrite Hmark in Hraw. rewrite <-Hraw.
  apply bind_ok in Hd as ([h' rs'] & Hlad & Hd). apply check_ladder_halt_spec in Hlad; [|done|].
  2: { intros i Hi. rewrite Hi in Hraw. symmetry in Hraw. by apply highest_some in Hraw as [? _]. }
  subst h h'. destruct (daily_hit _ _ _).
  { destruct (bool_decide _); by injection Hd as <-. }
  destruct (bool_decide _); [by injection Hd as <-|].
  apply bind_ok in Hd as (held & Hheld & Hd). injection Hd as <-. rewrite posture_verdict.
  replace held with (rungs_held p (mark (hwm s) (atto (eq_equity snap))) (atto (eq_equity snap)) (held_rung s p)); [done|].
  unfold release_held in Hheld. destruct (held_rung s p) as [c|]; [|by injection Hheld as <-].
  apply release_spec in Hheld; [|done..]. by rewrite Hheld, Hmark.
Qed.

(** Only the fail-closed branch reports an overflow. *)
Lemma posture_no_overflow s high p raw target dd dl : has_code (posture s high p raw target dd dl) RiskCode.ArithmeticOverflow = false.
Proof.
  unfold posture, has_code. destruct target as [i|]; [destruct (r_action (rung_of p i))|]; simpl;
    repeat destruct (bool_decide (_ = _) && _); repeat destruct (bool_decide (status s = _)); simpl; try done;
    by repeat case_match.
Qed.

Lemma evaluate_inner_no_overflow s snap p d : evaluate_inner s snap p = Ok d → has_code d RiskCode.ArithmeticOverflow = false.
Proof.
  unfold evaluate_inner. destruct (AccountStatus.is_halt (status s)); [by intros [= <-]|].
  destruct (negb _); [by intros [= <-]|]. intros ([[h rs] dl] & Hdl & (raw & _ & ([h' rs'] & Hlad & Hd)%bind_ok)%bind_ok)%bind_ok.
  assert (existsb (λ r, bool_decide (rr_code r = RiskCode.ArithmeticOverflow)) rs = false) as Hrs.
  { unfold check_daily_loss in Hdl. destruct (day_start_equity s) as [ds|]; [|by injection Hdl as _ <- _].
    destruct (is_positive ds); [|by injection Hdl as _ <- _]. apply bind_ok in Hdl as ([] & _ & Hdl).
    - by apply bind_ok in Hdl as (x & _ & [= _ <- _]).
    - by injection Hdl as _ <- _. }
  assert (existsb (λ r, bool_decide (rr_code r = RiskCode.ArithmeticOverflow)) rs' = false) as Hrs'.
  { unfold check_ladder_halt in Hlad. destruct raw as [i|]; [|by injection Hlad as _ <-].
    destruct (r_action _); [by injection Hlad as _ <-|]. apply bind_ok in Hlad as (x & _ & [= _ <-]).
    by rewrite existsb_app, Hrs. }
  destruct h'; [injection Hd as <-; exact Hrs'|]. apply bind_ok in Hd as (held & _ & [= <-]). apply posture_no_overflow.
Qed.

Definition overflowed (d : RiskDecision) : bool := has_code d RiskCode.ArithmeticOverflow.

Lemma evaluate_cases s snap p : coherent s → risk_policy_ok p → dec_ok (eq_equity snap) →
  verdict_of (evaluate_risk s snap p) = reference s p (atto (eq_equity snap)) ∨
  overflowed (evaluate_risk s snap p) = true ∧ verdict_of (evaluate_risk s snap p) = halt_verdict HaltReason.EquityInvalid.
Proof.
  intros Hs Hp He. unfold evaluate_risk. destruct (evaluate_inner s snap p) as [d|e] eqn:E; [left|right; done].
  by apply evaluate_inner_reference.
Qed.

(** ** Monotonicity *)

(** How far down the ladder an index is. *)
Definition rank (o : option nat) : Z := match o with Some n => Z.of_nat n | None => -1 end.

Lemma rank_mono P Q n : (∀ i, P i = true → Q i = true) → rank (highest P n) ≤ rank (highest Q n).
Proof.
  intros HPQ. induction n as [|n IH]; [done|]. cbn [highest]. destruct (P n) eqn:E; [by rewrite (HPQ _ E)|].
  destruct (Q n); [|done]. destruct (highest P n) as [k|] eqn:Ek; simpl; [apply highest_some in Ek as [? _]|]; lia.
Qed.

Lemma most_severe_rank a b : rank (most_severe a b) = Z.max (rank a) (rank b).
Proof. destruct a, b; simpl; lia. Qed.

Lemma mul_floor_mono f a b : 0 ≤ f → a ≤ b → f * a / ONE ≤ f * b / ONE.
Proof. intros Hf Hab. apply Z.div_le_mono; [by apply ONE_pos|nia]. Qed.

Lemma hit_mono h e1 e2 f : 0 ≤ f → e1 ≤ e2 → hit (mark h e2) e2 f = true → hit (mark h e1) e1 f = true.
Proof.
  unfold hit. intros Hf He. rewrite !Z.leb_le. intros Hh.
  assert (mark h e1 ≤ mark h e2 ∧ mark h e2 - e2 ≤ mark h e1 - e1) as [Hm Hl] by (unfold mark; destruct h; lia).
  pose proof (mul_floor_mono f _ _ Hf Hm). lia.
Qed.

Lemma hit_mono_fixed d e1 e2 f : e1 ≤ e2 → hit d e2 f = true → hit d e1 f = true.
Proof. unfold hit. rewrite !Z.leb_le. lia. Qed.

Lemma back_mono h e1 e2 f r : 0 ≤ f → 0 ≤ r → e1 ≤ e2 → back (mark h e1) e1 f r = true → back (mark h e2) e2 f r = true.
Proof.
  unfold back. intros Hf Hr He. rewrite !Z.leb_le. intros Hh.
  assert (mark h e1 ≤ mark h e2 ∧ mark h e2 - e2 ≤ mark h e1 - e1) as [Hm Hl] by (unfold mark; destruct h; lia).
  assert (0 ≤ f * r / ONE) as Hfr by (apply Z.div_pos; [nia|apply ONE_pos]).
  pose proof (mul_floor_mono _ _ _ Hfr Hm). lia.
Qed.

Lemma trigger_nonneg p i : risk_policy_ok p → 0 ≤ trigger p i.
Proof.
  intros Hp. unfold trigger. destruct (risk_policy_ladder p Hp) as (_ & _ & Hl).
  destruct (rungs p !! i) as [r|] eqn:Hr.
  - rewrite (rung_of_lookup _ _ _ Hr). destruct (ladder_lookup _ _ _ Hl _ _ Hr) as (? & _). lia.
  - apply lookup_ge_None in Hr. unfold rung_of. rewrite nth_overflow by lia. simpl. rewrite full_size_atto. pose proof ONE_pos. lia.
Qed.

Lemma rungs_hit_mono h p e1 e2 : risk_policy_ok p → e1 ≤ e2 →
  rank (rungs_hit p (mark h e2) e2) ≤ rank (rungs_hit p (mark h e1) e1).
Proof. intros Hp He. apply rank_mono. intros i. apply hit_mono; [by apply trigger_nonneg|done]. Qed.

Lemma rungs_held_mono h p e1 e2 c : risk_policy_ok p → e1 ≤ e2 →
  rank (rungs_held p (mark h e2) e2 c) ≤ rank (rungs_held p (mark h e1) e1 c).
Proof.
  intros Hp He. destruct c as [c|]; [|done]. apply rank_mono. intros i. rewrite !negb_true_iff.
  destruct (risk_policy_ladder p Hp) as (_ & Hr & _). intros Hb.
  destruct (back (mark h e1) e1 _ _) eqn:E; [|done]. apply (back_mono h e1 e2) in E; [congruence|by apply trigger_nonneg|lia|done].
Qed.

Lemma rungs_held_lt p h e c i : risk_policy_ok p → rungs_held p h e (held_rung c p) = Some i → (S i < length (rungs p))%nat.
Proof.
  intros Hp. unfold rungs_held, held_rung. destruct (bool_decide _); [|done].
  destruct (Nat.leb_spec 2 (length (rungs p))) as [Hlen|Hlen]; [|by destruct (shrink_rung c)].
  destruct (shrink_rung c) as [k|]; intros [? _]%highest_some; lia.
Qed.

(** The scale of a rung, as a number; nothing in force is full size. *)
Definition scale_of (p : RiskPolicy) (o : option nat) : Z :=
  match o with
  | None => ONE
  | Some i => match r_action (rung_of p i) with RungAction.Shrink sc => atto sc | RungAction.HaltFlatten => 0 end
  end.

Lemma scale_of_mono p a b : risk_policy_ok p → (∀ i, a = Some i → (i < length (rungs p))%nat) → rank b ≤ rank a →
  0 ≤ scale_of p a ≤ scale_of p b.
Proof.
  intros Hp Ha Hr. pose proof ONE_pos. destruct (risk_policy_ladder p Hp) as (_ & _ & Hl).
  assert (∀ o, 0 ≤ scale_of p o ≤ ONE) as Hb.
  { intros [i|]; [|simpl; lia]. simpl. destruct (r_action (rung_of p i)) as [sc|] eqn:E; [|lia].
    destruct (rung_of_shrink p i sc Hp E) as (_ & _ & _ & ?). lia. }
  split; [apply Hb|]. destruct a as [i|], b as [j|]; simpl in Hr; try lia; [|apply Hb].
  specialize (Ha i eq_refl). simpl. pose proof (Hb (Some j)) as Hbj. simpl in Hbj.
  destruct (r_action (rung_of p i)) as [si|] eqn:Ei; [|lia].
  destruct (r_action (rung_of p j)) as [sj|] eqn:Ej.
  - destruct (rung_of_shrink p i si Hp Ei) as (Hi & _). destruct (rung_of_shrink p j sj Hp Ej) as (Hj & _).
    eapply (ladder_mono 0 ONE (rungs p) Hl j i); [lia|done..].
  - apply (rung_of_halt p j Hp) in Ej; [|lia]. destruct (rung_of_shrink p i si Hp Ei) as (_ & ? & _). lia.
Qed.

Definition halts_at (s : AccountState) (p : RiskPolicy) (e : Z) : bool :=
  (e <=? 0) || daily_hit s p e || bool_decide (rungs_hit p (mark (hwm s) e) e = Some (length (rungs p) - 1)%nat).

Definition target_at (s : AccountState) (p : RiskPolicy) (e : Z) : option nat :=
  most_severe (rungs_hit p (mark (hwm s) e) e) (rungs_held p (mark (hwm s) e) e (held_rung s p)).

(** The scale the reference gives: zero for a halt, else the scale of the rung in force. *)
Lemma reference_scale s p e : AccountStatus.is_halt (status s) = false →
  atto (reference s p e).1.1.2 = if halts_at s p e then 0 else scale_of p (target_at s p e).
Proof.
  intros Hh. unfold reference, halts_at, target_at. rewrite Hh.
  destruct (e <=? 0); [done|]. destruct (daily_hit s p e); [done|]. destruct (bool_decide _); [done|]. cbn [orb].
  destruct (most_severe _ _) as [i|]; [|done]. simpl. by destruct (r_action (rung_of p i)).
Qed.

Lemma target_lt s p e i : risk_policy_ok p → target_at s p e = Some i → (i < length (rungs p))%nat.
Proof.
  intros Hp Hi. unfold target_at, most_severe in Hi. destruct (rungs_hit _ _ _) as [a|] eqn:Ea.
  - apply highest_some in Ea as [? _]. destruct (rungs_held _ _ _ _) as [b|] eqn:Eb; injection Hi as <-; [|lia].
    apply rungs_held_lt in Eb; [|done]. lia.
  - apply rungs_held_lt in Hi; [lia|done].
Qed.

Lemma target_mono s p e1 e2 : risk_policy_ok p → e1 ≤ e2 →
  0 ≤ scale_of p (target_at s p e1) ≤ scale_of p (target_at s p e2).
Proof.
  intros Hp He. apply scale_of_mono; [done|intros i; by apply target_lt|]. unfold target_at. rewrite !most_severe_rank.
  pose proof (rungs_hit_mono (hwm s) p e1 e2 Hp He). pose proof (rungs_held_mono (hwm s) p e1 e2 (held_rung s p) Hp He). lia.
Qed.

Lemma target_le_one s p e : risk_policy_ok p → 0 ≤ scale_of p (target_at s p e) ≤ ONE.
Proof.
  intros Hp. destruct (scale_of_mono p (target_at s p e) None Hp) as [? ?]; [intros i; by apply target_lt| |done].
  destruct (target_at s p e); simpl; lia.
Qed.

Lemma halts_mono s p e1 e2 : risk_policy_ok p → e1 ≤ e2 → halts_at s p e2 = true → halts_at s p e1 = true.
Proof.
  intros Hp He. unfold halts_at. rewrite !orb_true_iff, !bool_decide_eq_true, !Z.leb_le. intros [[H0|Hd]|Hr]; [left; left; lia|left; right|right].
  - unfold daily_hit in *. destruct (day_start_equity s) as [d|]; [|done]. apply andb_true_iff in Hd as [-> Hd].
    by eapply hit_mono_fixed.
  - pose proof (rungs_hit_mono (hwm s) p e1 e2 Hp He) as Hm. rewrite Hr in Hm. pose proof (rungs_nonempty p Hp).
    destruct (rungs_hit p (mark (hwm s) e1) e1) as [k|] eqn:E; simpl in Hm; [|lia].
    apply highest_some in E as [? _]. f_equal. lia.
Qed.
End reference.

(** ** A fresh baseline *)

(** The policy's fractions of an equity can be computed and are not rounded to nothing. *)
Definition measurable (p : RiskPolicy) (e : Dec) : Prop :=
  ∀ f, f = daily_limit p ∨ (∃ r, r ∈ rungs p ∧ f = r_at_ r) → in_i128 (units f * units e) ∧ ONE ≤ atto f * atto e.

Lemma sub_self e : dec_ok e → 0 < atto e → ∃ z, sub e e = Ok z ∧ dec_ok z ∧ atto z = 0.
Proof.
  intros He Hpos. pose proof He as [Hs Hu]. assert (0 < units e) as Hup by (by apply (atto_sign e He)).
  unfold sub, neg. assert (in_i128 (- units e)) as Hn by (unfold in_i128, i128_min, i128_max in *; lia).
  rewrite (proj2 (checked_i128_some _ _) (conj eq_refl Hn)). cbn [ok_or result_bind]. unfold dec_new.
  destruct (Z.ltb_spec MAX_SCALE (scale e)); [lia|]. cbn [map_err result_bind]. unfold add.
  set (m := {| units := - units e; scale := scale e |}). assert (dec_ok m) as Hm by (split; [done|exact Hn]).
  destruct (checked_add e m) as [z|] eqn:E.
  - exists z. split; [done|]. destruct (add_atto e m z He Hm) as [Hz Ha]; [unfold add; by rewrite E|]. split; [done|].
    rewrite Ha. unfold m. rewrite !atto_grain. simpl. lia.
  - exfalso. apply add_none in E; [|done|done]. apply E. unfold sum_fits, m. simpl. rewrite Z.max_id, Z.sub_diag, Z.pow_0_r.
    unfold in_i128, i128_min, i128_max in *. lia.
Qed.

Lemma breached_self e f : dec_ok e → 0 < atto e → dec_ok f → in_i128 (units f * units e) → ONE ≤ atto f * atto e →
  breached e e f = Ok false.
Proof.
  intros He Hpos Hf Hin Hge. unfold breached. destruct (sub_self e He Hpos) as (z & -> & Hz & Hz0). cbn [result_bind].
  unfold mul. destruct (checked_mul f e) as [t|] eqn:Et; [|by apply checked_mul_none in Et].
  cbn [ok_or result_bind]. destruct (mul_atto f e t Hf He) as [Ht Hta]; [unfold mul; by rewrite Et|].
  rewrite dec_leb_atto by done. do 2 f_equal. apply Z.leb_gt. rewrite Hz0, Hta. pose proof ONE_pos.
  assert (1 ≤ atto f * atto e / ONE); [|lia]. apply Z.div_le_lower_bound; lia.
Qed.

Lemma highest_hit_self e l : dec_ok e → 0 < atto e →
  (∀ r, r ∈ l → dec_ok (r_at_ r) ∧ in_i128 (units (r_at_ r) * units e) ∧ ONE ≤ atto (r_at_ r) * atto e) →
  ∀ i raw, highest_hit e e i l raw = Ok raw.
Proof.
  intros He Hpos. induction l as [|r l IH]; intros Hl i raw; [done|]. cbn [highest_hit].
  destruct (Hl r) as (Hr & Hin & Hge); [by left|]. rewrite breached_self by done. cbn [result_bind].
  apply IH. intros x Hx. apply Hl. by right.
Qed.

Section resumed.
Context `{Chrono}.

Lemma evaluate_resumed s snap day r p : dec_ok (eq_equity snap) → 0 < atto (eq_equity snap) → risk_policy_ok p →
  measurable p (eq_equity snap) →
  verdict_of (evaluate_risk (resumed s snap day r) snap p) = (RiskAction.None, full_size, None, None).
Proof.
  intros He Hpos Hp Hm. unfold evaluate_risk, evaluate_inner. cbn [resumed status AccountStatus.is_halt].
  rewrite (proj2 (is_positive_atto _ He) Hpos). cbn [negb].
  replace (ratchet _ _) with (eq_equity snap) by (unfold ratchet; simpl; by destruct (dec_leb _ _)).
  unfold check_daily_loss. cbn [resumed day_start_equity]. rewrite (proj2 (is_positive_atto _ He) Hpos).
  destruct (Hm (daily_limit p) (or_introl eq_refl)) as [Hin Hge].
  rewrite breached_self by (done || apply Hp). cbn [result_bind].
  rewrite highest_hit_self; [|done|done|].
  2: { intros x Hx. split; [by apply Hp|]. apply Hm. right. by exists x. }
  cbn [result_bind check_ladder_halt]. unfold held_rung. cbn [resumed status]. done.
Qed.
End resumed.

Lemma sample_measurable : measurable RiskSample.risk_policy (eq_equity (RiskSample.reading "780" 200000)).
Proof.
  assert (forallb (λ f, in_i128b (units f * units (Baseline.lit "780")) && (ONE <=? atto f * atto (Baseline.lit "780")))
    (daily_limit RiskSample.risk_policy :: (r_at_ <$> rungs RiskSample.risk_policy)) = true) as Hall by (vm_compute; reflexivity).
  rewrite forallb_forall in Hall. intros f Hf. specialize (Hall f). rewrite andb_true_iff, in_i128b_spec, Z.leb_le in Hall.
  apply Hall, list_elem_of_In, elem_of_cons. destruct Hf as [->|(r & Hr & ->)]; [by left|right]. apply list_elem_of_fmap. by exists r.
Qed.

(** ** Properties *)

(** C9. [evaluate_risk] is the reference: halted accounts get the sticky no-op; otherwise non-positive equity halts, the
    daily loss halts when the loss since the day-start reaches its fraction, the ladder halts when the last rung is hit,
    and else the rung in force is the more severe of the highest rung hit and the highest held rung that has not
    recovered. Triggers are inclusive and never late. If the arithmetic overflows the account halts. *)
Theorem evaluate_is_reference `{Chrono} s snap p : coherent s → risk_policy_ok p → dec_ok (eq_equity snap) →
  let d := evaluate_risk s snap p in
  let equity := atto (eq_equity snap) in
  (rd_action d, rd_scale d, next_rung d, rd_halt_reason d) =
    (if has_code d RiskCode.ArithmeticOverflow then halt_verdict HaltReason.EquityInvalid else reference s p equity) ∧
  (∀ high f, f * high ≤ (high - equity) * ONE → hit high equity f = true) ∧
  (∀ high f, hit high equity f = true → f * high < (high - equity + 1) * ONE).
Proof.
  intros Hs Hp He d equity. split; [|split; intros high f; unfold hit; rewrite Z.leb_le; pose proof ONE_pos].
  - destruct (evaluate_cases s snap p Hs Hp He) as [Hv|[Hc Hv]].
    2: { unfold overflowed in Hc. subst d. rewrite Hc. exact Hv. }
    destruct (has_code d _) eqn:E; [|exact Hv].
    subst d. unfold evaluate_risk in *. destruct (evaluate_inner s snap p) as [d|e] eqn:Ei; [|done].
    exfalso. revert E. by rewrite (evaluate_inner_no_overflow _ _ _ _ Ei).
  - intros Hle. etransitivity; [apply Z.div_le_mono; [lia|exact Hle]|]. by rewrite Z.div_mul by lia.
  - intros Hle. pose proof (Z.div_mod (f * high) ONE). pose proof (Z.mod_pos_bound (f * high) ONE). nia.
Qed.

Lemma evaluate_is_reference_witness :
  let d := evaluate_risk RiskSample.shrunk (RiskSample.reading "790" 180000) RiskSample.risk_policy in
  (rd_action d, rd_scale d, next_rung d, rd_halt_reason d) =
    (if has_code d RiskCode.ArithmeticOverflow then halt_verdict HaltReason.EquityInvalid
     else reference RiskSample.shrunk RiskSample.risk_policy (atto (eq_equity (RiskSample.reading "790" 180000)))) ∧
  reference RiskSample.shrunk RiskSample.risk_policy (atto (Baseline.lit "790")) =
    (RiskAction.HaltFlatten, ZERO, None, Some HaltReason.DailyLoss).
Proof.
  split; [|vm_compute; reflexivity].
  exact (proj1 (evaluate_is_reference RiskSample.shrunk (RiskSample.reading "790" 180000) RiskSample.risk_policy
    RiskSample.shrunk_coherent RiskSample.policy_valid (proj1 (dec_okb_spec (Baseline.lit "790")) eq_refl))).
Defined.

(** C27. Monotone: for one state of an account and one policy, a lower equity never gives a larger scale for the targets
    (unless the arithmetic of the higher reading overflows, which halts at scale zero). *)
Theorem lower_equity_never_scales_up `{Chrono} s p low high : coherent s → risk_policy_ok p →
  dec_ok (eq_equity low) → dec_ok (eq_equity high) → atto (eq_equity low) ≤ atto (eq_equity high) →
  has_code (evaluate_risk s high p) RiskCode.ArithmeticOverflow = false →
  0 ≤ atto (rd_scale (evaluate_risk s low p)) ≤ atto (rd_scale (evaluate_risk s high p)) ≤ ONE.
Proof.
  intros Hs Hp Hl Hh Hle Hov. destruct (evaluate_cases s high p Hs Hp Hh) as [Hvh|[Hc _]]; [|unfold overflowed in Hc; congruence].
  destruct (AccountStatus.is_halt (status s)) eqn:Ehalt.
  { unfold evaluate_risk, evaluate_inner. rewrite Ehalt. simpl. rewrite atto_zero. pose proof ONE_pos. lia. }
  pose proof ONE_pos. pose proof (target_le_one s p (atto (eq_equity high)) Hp) as Hb.
  assert (atto (rd_scale (evaluate_risk s high p)) = atto (reference s p (atto (eq_equity high))).1.1.2) as -> by (by rewrite <-Hvh).
  rewrite reference_scale by done. destruct (evaluate_cases s low p Hs Hp Hl) as [Hvl|[_ Hvl]].
  - assert (atto (rd_scale (evaluate_risk s low p)) = atto (reference s p (atto (eq_equity low))).1.1.2) as -> by (by rewrite <-Hvl).
    rewrite reference_scale by done. pose proof (halts_mono s p _ _ Hp Hle) as Hm. pose proof (target_mono s p _ _ Hp Hle).
    destruct (halts_at s p (atto (eq_equity high))); [rewrite (Hm eq_refl); lia|].
    destruct (halts_at s p (atto (eq_equity low))); lia.
  - assert (rd_scale (evaluate_risk s low p) = ZERO) as -> by (unfold verdict_of, halt_verdict in Hvl; congruence).
    rewrite atto_zero. destruct (halts_at _ _ _); lia.
Qed.

Lemma lower_equity_never_scales_up_witness :
  0 ≤ atto (rd_scale (evaluate_risk RiskSample.at_peak (RiskSample.reading "890" 90000) RiskSample.risk_policy)) ≤
    atto (rd_scale (evaluate_risk RiskSample.at_peak (RiskSample.reading "990" 90000) RiskSample.risk_policy)) ≤ ONE.
Proof.
  apply (lower_equity_never_scales_up RiskSample.at_peak).
  - apply (auto_coherent _ _ RiskSample.steps_to_peak), coherent_new.
  - apply RiskSample.policy_valid.
  - by apply dec_okb_spec.
  - by apply dec_okb_spec.
  - apply Z.leb_le. vm_compute. reflexivity.
  - vm_compute. reflexivity.
Defined.

(** C32. A halt can always be ended by a person: once a flatten is verified, a named human with a note and a positive
    broker-reported equity resumes the account to full size; the new state is loadable, its baseline is that equity,
    its history records who; and evaluating the same reading again does not halt or shrink it under any risk policy that
    is measurable at that equity, that is, when the daily limit and every rung, taken of that equity, neither overflow nor
    round to nothing. *)
Theorem halted_account_can_resume `{Chrono} s principal text now snap day : coherent s →
  AccountStatus.is_halt (status s) = true → kind principal = Human → trim (subject principal) ≠ ""%string → trim text ≠ ""%string →
  dec_ok (eq_equity snap) → 0 < atto (eq_equity snap) →
  ∃ a s' t, issue_human_approval principal text now = Ok a ∧ resume (complete_flatten s true).1 a snap day = Ok (s', t) ∧
    status s' = AccountStatus.Active ∧ risk_scale s' = full_size ∧ hwm s' = Some (eq_equity snap) ∧
    from_record (to_record s') = Ok s' ∧
    (∃ r, resumes s' = resumes s ++ [r] ∧ r_approver r = trim (subject principal) ∧ r_note r = trim text) ∧
    (∀ p, risk_policy_ok p → measurable p (eq_equity snap) →
       rd_action (evaluate_risk s' snap p) = RiskAction.None ∧ rd_scale (evaluate_risk s' snap p) = full_size).
Proof.
  intros Hs Hh Hk Hsub Htext He Hpos. unfold issue_human_approval. rewrite bool_decide_eq_true_2 by done. cbn [negb].
  destruct (is_empty (trim (subject principal))) eqn:E1; [by destruct (trim (subject principal))|].
  destruct (is_empty (trim text)) eqn:E2; [by destruct (trim text)|].
  pose proof (complete_flatten_coherent s true Hs) as Hc. set (s1 := (complete_flatten s true).1) in *.
  assert (status s1 = AccountStatus.Halted ∧ resumes s1 = resumes s) as [Hst Hres].
  { unfold s1, complete_flatten. destruct (status s) eqn:E; try done; by rewrite ?bool_decide_eq_true_2, ?bool_decide_eq_false_2 by done. }
  pose proof (co_halt s1 Hc) as Hrec. rewrite Hst in Hrec. destruct (halt_record s1) as [h|] eqn:Eh; [|done].
  do 3 eexists. split; [done|]. unfold resume. rewrite Hst, (proj2 (is_positive_atto _ He) Hpos), Eh. cbn [negb].
  split; [done|]. set (r := resume_record _ _ _).
  split; [done|]. split; [done|]. split; [done|]. split; [done|]. split; [exists r; simpl; by rewrite Hres|].
  intros p Hp Hm. pose proof (evaluate_resumed s1 snap day r p He Hpos Hp Hm) as Hv.
  unfold verdict_of in Hv. by injection Hv as Hact Hscale _ _.
Qed.

Lemma halted_account_can_resume_witness :
  ∃ a s' t, issue_human_approval {| subject := "user_1"; kind := Human |} "reviewed the loss" (Baseline.at_secs 200000) = Ok a ∧
    resume (complete_flatten RiskSample.flattening true).1 a (RiskSample.reading "780" 200000) (date_naive (Baseline.at_secs 200000)) = Ok (s', t) ∧
    status s' = AccountStatus.Active ∧
    rd_action (evaluate_risk s' (RiskSample.reading "780" 200000) RiskSample.risk_policy) = RiskAction.None.
Proof.
  destruct (halted_account_can_resume RiskSample.flattening {| subject := "user_1"; kind := Human |} "reviewed the loss"
    (Baseline.at_secs 200000) (RiskSample.reading "780" 200000) (date_naive (Baseline.at_secs 200000)))
    as (a & s' & t & Ha & Hr & Hs & _ & _ & _ & _ & Hev).
  - apply (auto_coherent _ _ RiskSample.steps_to_flattening), RiskSample.shrunk_coherent.
  - vm_compute. reflexivity.
  - reflexivity.
  - vm_compute. discriminate.
  - vm_compute. discriminate.
  - by apply dec_okb_spec.
  - apply Z.ltb_lt. vm_compute. reflexivity.
  - exists a, s', t. split; [exact Ha|]. split; [exact Hr|]. split; [exact Hs|].
    exact (proj1 (Hev _ RiskSample.policy_valid sample_measurable)).
Defined.
