(* ===== verification/RiskStore.v ===== *)
(** * RiskStore: compare-and-swap persistence of account states

    [store.rs] in [crates/rebalancer-risk/src]: the [StateStore] contract as a class over the contents of a store, the
    in-memory store as its implementation, and what the contract gives to several runs that share an account. The
    generator of [rng.rs] is at the end. *)

From Stdlib Require Import ZArith Lia String.
From stdpp Require Import relations gmap.
From S2P Require Import Prelude Text BTree F64 Externals Decimal DecMath Mandate Policy RiskState Overlay RiskFacts.

Local Open Scope Z_scope.
Local Open Scope rust_scope.

Module StoreError.
Inductive t := VersionConflict (expected actual : Z) | IllegalTransition (why : string) | Unavailable (why : string).

Definition display (e : t) : string :=
  match e with
  | VersionConflict e a =>
      "STORE_VERSION_CONFLICT: expected version " +:+ show_int e +:+ " but the stored version is " +:+ show_int a
  | IllegalTransition w => "STORE_ILLEGAL_TRANSITION: " +:+ w
  | Unavailable w => "STORE_UNAVAILABLE: " +:+ w
  end.

Definition code (e : t) : string :=
  match e with
  | VersionConflict _ _ => "STORE_VERSION_CONFLICT"
  | IllegalTransition _ => "STORE_ILLEGAL_TRANSITION"
  | Unavailable _ => "STORE_UNAVAILABLE"
  end.
End StoreError.
Abbreviation StoreError := StoreError.t.

Section store.
Context `{Chrono}.

(** ** The in-memory store *)

Record Inner := { states : BTreeMap string AccountState; fail_next : Z; saves : Z }.

Definition new_store : Inner := {| states := []; fail_next := 0; saves := 0 |}.
Definition fail_next_calls (g : Inner) (n : Z) : Inner := {| states := states g; fail_next := n; saves := saves g |}.

(** One call of the fault injection: the error of this call, if it has to fail. *)
Definition injected (g : Inner) : option Inner :=
  if 0 <? fail_next g then Some {| states := states g; fail_next := fail_next g - 1; saves := saves g |} else None.

Definition mem_load (g : Inner) (account_id : string) : result StoreError (option AccountState) * Inner :=
  match injected g with
  | Some g' => (Err (StoreError.Unavailable "injected failure"), g')
  | None => (Ok (bt_get (states g) account_id), g)
  end.

Definition version_of (o : option AccountState) : Z := match o with Some s => version s | None => 0 end.

Definition mem_save (g : Inner) (expected_version : Z) (new : AccountState) : result StoreError AccountState * Inner :=
  match injected g with
  | Some g' => (Err (StoreError.Unavailable "injected failure"), g')
  | None =>
      let old := bt_get (states g) (account new) in
      let actual := version_of old in
      if negb (actual =? expected_version) then (Err (StoreError.VersionConflict expected_version actual), g)
      else if match old with Some o => negb (transition_allowed o new) | None => false end then
        (Err (StoreError.IllegalTransition
           (match old with Some o => AccountStatus.as_str (status o) | None => "" end +:+ " to " +:+
            AccountStatus.as_str (status new) +:+ " without a recorded human resume")), g)
      else
        let stored := with_version new (wrap_u64 (expected_version + 1)) in
        (Ok stored, {| states := bt_insert (account new) stored (states g); fail_next := fail_next g;
                       saves := wrap_u64 (saves g + 1) |})
  end.

(** ** The contract *)

Class StateStore (S : Type) := {
  load : S → string → result StoreError (option AccountState) * S;
  save : S → Z → AccountState → result StoreError AccountState * S;
  (** what is stored, for the laws only *)
  view : S → string → option AccountState;
}.

Class StateStoreLaws (S : Type) `{!StateStore S} : Prop := {
  load_view st id r st' : load st id = (r, st') →
    (∀ k, view st' k = view st k) ∧ (∀ o, r = Ok o → o = view st id);
  save_ok st expected new stored st' : save st expected new = (Ok stored, st') →
    version_of (view st (account new)) = expected ∧
    (∀ old, view st (account new) = Some old → transition_allowed old new = true) ∧
    stored = with_version new (wrap_u64 (expected + 1)) ∧
    (∀ k, view st' k = if decide (k = account new) then Some stored else view st k);
  save_err st expected new e st' : save st expected new = (Err e, st') → ∀ k, view st' k = view st k;
}.

#[export] Instance mem_store : StateStore Inner :=
  {| load := mem_load; save := mem_save; view := λ g, bt_get (states g) |}.

#[export] Instance mem_store_laws : StateStoreLaws Inner.
Proof.
  split; simpl.
  - intros g id r g' Hl. unfold mem_load, injected in Hl. destruct (0 <? fail_next g); injection Hl as <- <-; split; try done.
    by intros o [= <-].
  - intros g e n s g' Hs. unfold mem_save, injected in Hs. destruct (0 <? fail_next g); [done|].
    destruct (Z.eqb_spec (version_of (bt_get (states g) (account n))) e) as [He|]; [|done]. cbn [negb] in Hs.
    destruct (match bt_get (states g) (account n) with Some o => _ | None => false end) eqn:Et; [done|].
    injection Hs as <- <-. split; [done|]. split; [|split; [done|]].
    + intros old Hold. rewrite Hold in Et. by apply negb_false_iff.
    + intros k. cbn [states]. destruct (decide (k = account n)) as [->|Hne]; [apply bt_get_insert_eq|by apply bt_get_insert_ne].
  - intros g e n er g' Hs k. unfold mem_save, injected in Hs. destruct (0 <? fail_next g); [by injection Hs as _ <-|].
    destruct (negb _); [by injection Hs as _ <-|].
    destruct (match bt_get (states g) (account n) with Some o => _ | None => false end); [by injection Hs as _ <-|done].
Qed.

(** ** Any sequence of calls *)

Section laws.
Context {S : Type} `{!StateStore S, !StateStoreLaws S}.

Inductive call : S → S → Prop :=
| call_load st id r st' : load st id = (r, st') → call st st'
| call_save st e new r st' : save st e new = (r, st') → call st st'.

Lemma transition_resumes old new : transition_allowed old new = true →
  (length (resumes old) ≤ length (resumes new))%nat ∧ resumes_prefix (resumes old) (resumes new) = true ∧
  (AccountStatus.is_halt (status old) = true → AccountStatus.may_add_risk (status new) = true →
   length (resumes new) = (length (resumes old) + 1)%nat).
Proof.
  unfold transition_allowed. destruct (negb _); [done|].
  destruct (AccountStatus.is_halt (status old)) eqn:E1, (AccountStatus.may_add_risk (status new)) eqn:E2; cbn [andb];
    try (intros [H1%Nat.eqb_eq H2]%andb_true_iff; split; [lia|done]);
    (destruct (bool_decide _ && bool_decide _); [done|]); intros [H1%Nat.leb_le H2]%andb_true_iff; done.
Qed.

(** One call: what happens to a stored state. *)
Lemma call_view st st' id old : call st st' → view st id = Some old →
  ∃ new, view st' id = Some new ∧ (new = old ∨ ∃ n v, transition_allowed old n = true ∧ new = with_version n v).
Proof.
  destruct 1 as [st k r st' Hl|st e n [stored|er] st' Hs]; intros Ho.
  - apply load_view in Hl as [Hv _]. exists old. rewrite Hv. auto.
  - apply save_ok in Hs as (_ & Ht & -> & Hv). rewrite Hv. destruct (decide (id = account n)) as [->|]; [|eauto].
    eexists. split; [done|]. right. eexists _, _. split; [by apply Ht|done].
  - exists old. by rewrite (save_err _ _ _ _ _ Hs); auto.
Qed.

Lemma calls_resumes st st' id old : rtc call st st' → view st id = Some old →
  ∃ new, view st' id = Some new ∧ (length (resumes old) ≤ length (resumes new))%nat ∧
    (AccountStatus.is_halt (status old) = true → AccountStatus.may_add_risk (status new) = true →
     (length (resumes old) < length (resumes new))%nat).
Proof.
  intros Hr. revert old. induction Hr as [st|st1 st2 st3 Hc _ IH]; intros old Ho.
  - exists old. split; [done|]. split; [done|]. rewrite is_halt_adds. by destruct (AccountStatus.may_add_risk _).
  - destruct (call_view _ _ _ _ Hc Ho) as (mid & Hm & Hcase). destruct (IH mid Hm) as (new & Hn & Hle & Hlt).
    exists new. split; [done|]. destruct Hcase as [->|(n & v & Ht%transition_resumes & ->)]; [done|].
    destruct Ht as (Hl & _ & Hh). simpl in Hle, Hlt. split; [lia|]. intros Ho' Hn'. specialize (Hh Ho').
    destruct (AccountStatus.may_add_risk (status n)) eqn:E; [specialize (Hh eq_refl); lia|].
    rewrite is_halt_adds, E in Hlt. specialize (Hlt eq_refl Hn'). lia.
Qed.

(** ** Runs that share an account *)

Variable id : string.

(** What a run holds: the state it loaded and the state it has computed from it. *)
Record system := { sy_store : S; sy_runs : gmap nat (AccountState * AccountState) }.

Definition stored (y : system) : AccountState := default (new_state id) (view (sy_store y) id).

(** A step that computes: any step of the machine or of a person that leaves the version alone. *)
Definition work (s s' : AccountState) : Prop := acct_step s s' ∧ version s' = version s.

Inductive run_step : system → system → Prop :=
| run_loads y w r st' : load (sy_store y) id = (Ok r, st') →
    run_step y {| sy_store := st'; sy_runs := <[w := (default (new_state id) r, default (new_state id) r)]> (sy_runs y) |}
| run_load_fails y e st' : load (sy_store y) id = (Err e, st') → run_step y {| sy_store := st'; sy_runs := sy_runs y |}
| run_works y w base cur cur' : sy_runs y !! w = Some (base, cur) → work cur cur' →
    run_step y {| sy_store := sy_store y; sy_runs := <[w := (base, cur')]> (sy_runs y) |}
| run_saves y w base cur s' st' : sy_runs y !! w = Some (base, cur) → version base < u64_max →
    save (sy_store y) (version base) cur = (Ok s', st') →
    run_step y {| sy_store := st'; sy_runs := <[w := (s', s')]> (sy_runs y) |}
| run_save_fails y w base cur e st' : sy_runs y !! w = Some (base, cur) →
    save (sy_store y) (version base) cur = (Err e, st') →
    run_step y {| sy_store := st'; sy_runs := delete w (sy_runs y) |}.

(** A run's copy is never newer than the store, and if it is not older it is the stored state. *)
Record shared (y : system) : Prop := {
  sh_account : account (stored y) = id;
  sh_version : ∀ s, view (sy_store y) id = Some s → 1 ≤ version s;
  sh_run : ∀ w base cur, sy_runs y !! w = Some (base, cur) →
    account base = id ∧ rtc work base cur ∧ 0 ≤ version base ≤ version (stored y) ∧
    (version base = version (stored y) → base = stored y);
}.

Lemma acct_step_account s s' : acct_step s s' → account s' = account s.
Proof.
  intros [Ha|(pr & tx & now & a & snap & day & t & _ & _ & (_ & _ & h & _ & ->)%resume_ok)]; [|done].
  destruct Ha as [s snap day rule _|s snap day p rule _ _|s r d t|s r d t|s flat|s v].
  - by destruct rule.
  - unfold step_with, apply_decision, with_full_size, with_shrink, begin_flatten.
    destruct rule; simpl; repeat case_match; by simplify_eq/=.
  - unfold halt. by case_match.
  - unfold begin_flatten. by case_match.
  - unfold complete_flatten. by repeat case_match.
  - done.
Qed.

Lemma works_same base cur : rtc work base cur → account cur = account base ∧ version cur = version base.
Proof.
  induction 1 as [|s1 s2 s3 [Hs Hv] _ [IHa IHv]]; [done|]. rewrite IHa, IHv, Hv. by rewrite (acct_step_account _ _ Hs).
Qed.

Lemma stored_same y y' : (∀ k, view (sy_store y') k = view (sy_store y) k) → stored y' = stored y.
Proof. intros Hv. unfold stored. by rewrite Hv. Qed.

Lemma stored_version y : version_of (view (sy_store y) id) = version (stored y).
Proof. unfold stored. by destruct (view _ _). Qed.

(** A change of the stored state is one whole run from the state stored just before. *)
Definition advances (y y' : system) : Prop :=
  stored y' = stored y ∨ ∃ cur, rtc work (stored y) cur ∧ stored y' = with_version cur (version (stored y) + 1).

(** The store is as it was: only the runs matter. *)
Lemma shared_same y y' : shared y → (∀ k, view (sy_store y') k = view (sy_store y) k) →
  (∀ w base cur, sy_runs y' !! w = Some (base, cur) →
    account base = id ∧ rtc work base cur ∧ 0 ≤ version base ≤ version (stored y) ∧ (version base = version (stored y) → base = stored y)) →
  shared y' ∧ advances y y'.
Proof.
  intros [Ha Hv Hr] Hview Hruns. pose proof (stored_same _ _ Hview) as Hst. split; [|by left].
  split; rewrite ?Hst; [done| |done]. intros s. rewrite Hview. apply Hv.
Qed.

Lemma version_nonneg y : shared y → 0 ≤ version (stored y).
Proof. intros Hsh. unfold stored. destruct (view _ _) as [s|] eqn:E; [pose proof (sh_version y Hsh s E)|]; simpl; lia. Qed.

Lemma shared_step y y' : shared y → run_step y y' → shared y' ∧ advances y y'.
Proof.
  intros Hsh Hstep. pose proof (sh_run y Hsh) as Hruns. pose proof (version_nonneg y Hsh) as Hpos.
  destruct Hstep as [y w r st' Hl|y e st' Hl|y w base cur cur' Hw Hwork|y w base cur s' st' Hw Hmax Hs|y w base cur e st' Hw Hs].
  - apply load_view in Hl as [Hview Hr]. specialize (Hr r eq_refl). subst r. apply shared_same; [done|done|].
    intros w' base cur. cbn [sy_runs]. rewrite lookup_insert_Some. intros [[<- [= <- <-]]|[_ Hw']]; [|by eapply Hruns].
    fold (stored y). split; [apply Hsh|]. split; [apply rtc_refl|]. split; [lia|done].
  - apply load_view in Hl as [Hview _]. by apply shared_same.
  - apply shared_same; [done|done|]. intros w' b c. cbn [sy_runs]. rewrite lookup_insert_Some.
    intros [[<- [= <- <-]]|[_ Hw']]; [|by eapply Hruns]. destruct (Hruns _ _ _ Hw) as (? & Hrtc & ? & ?).
    split; [done|]. split; [by eapply rtc_r|done].
  - destruct (Hruns _ _ _ Hw) as (Hacc & Hrtc & Hver & Hbase). destruct (works_same _ _ Hrtc) as [Hca Hcv].
    apply save_ok in Hs as (Hcur & _ & -> & Hview). rewrite Hca, Hacc in Hcur, Hview. rewrite stored_version in Hcur.
    specialize (Hbase (eq_sym Hcur)). subst base.
    assert (wrap_u64 (version (stored y) + 1) = version (stored y) + 1) as Hwrap.
    { unfold wrap_u64, u64_max in *. apply Z.mod_small. lia. }
    rewrite Hwrap in *. set (new := with_version cur (version (stored y) + 1)) in *.
    set (y' := {| sy_store := st'; sy_runs := <[w:=(new, new)]> (sy_runs y) |}).
    assert (stored y' = new) as Hst by (unfold stored, y'; cbn [sy_store]; rewrite Hview; by rewrite decide_True).
    split; [|right; exists cur; by rewrite Hst]. split; rewrite ?Hst.
    + simpl. by rewrite Hca.
    + intros s. unfold y'. cbn [sy_store]. rewrite Hview, decide_True by done. intros [= <-]. simpl. lia.
    + intros w' b c. cbn [sy_runs y']. rewrite lookup_insert_Some. intros [[<- [= <- <-]]|[_ Hw']].
      * split; [simpl; by rewrite Hca|]. split; [apply rtc_refl|]. split; [simpl; lia|done].
      * destruct (Hruns _ _ _ Hw') as (? & ? & ? & ?). split; [done|]. split; [done|]. simpl. split; [lia|intros; lia].
  - apply shared_same; [done|by eapply save_err|]. intros w' b c. cbn [sy_runs].
    rewrite lookup_delete_Some. intros [_ Hw']. by eapply Hruns.
Qed.

Definition empty_system (st : S) : system := {| sy_store := st; sy_runs := ∅ |}.

Lemma shared_empty st : view st id = None → shared (empty_system st).
Proof.
  intros Hv. split; unfold stored; cbn [empty_system sy_store sy_runs]; rewrite Hv; [done|done|].
  intros w base cur. by rewrite lookup_empty.
Qed.

Lemma works_rtc s s' : rtc work s s' → rtc acct_step s s'.
Proof. induction 1 as [|s1 s2 s3 [Hs _] _ IH]; [apply rtc_refl|by eapply rtc_l]. Qed.
End laws.
End store.

(** ** A run of the sample account: loaded, evaluated, saved *)
Module StoreSample.
Import Baseline RiskSample.

Definition loaded : system := {| sy_store := new_store; sy_runs := {[ 0%nat := (fresh, fresh) ]} |}.
Definition worked : system := {| sy_store := new_store; sy_runs := {[ 0%nat := (fresh, at_peak) ]} |}.
Definition after : Inner := (mem_save new_store 0 at_peak).2.
Definition first : AccountState := with_version at_peak 1.
Definition saved : system := {| sy_store := after; sy_runs := {[ 0%nat := (first, first) ]} |}.

Lemma loads : rtc (run_step "acct") (empty_system new_store) worked.
Proof.
  eapply rtc_l; [apply (run_loads "acct" _ 0 None new_store); reflexivity|].
  eapply rtc_l; [apply (run_works "acct" _ 0 fresh fresh at_peak); [done|split; [left; apply steps_to_peak|reflexivity]]|].
  apply rtc_refl.
Qed.

Lemma saves_it : run_step "acct" worked saved.
Proof. apply (run_saves "acct" worked 0 fresh at_peak first after); reflexivity. Qed.

Definition approval : HumanApproval :=
  {| approver := "user_1"; ap_at := at_secs 200000; note := "reviewed" |}.
Definition halted : AccountState := (complete_flatten flattening true).1.
Definition back : AccountState :=
  match resume halted approval (reading "780" 200000) (date_naive (at_secs 200000)) with Ok (s, _) => s | Err _ => halted end.
Definition with_halt : Inner := (mem_save new_store 0 halted).2.
Definition with_back : Inner := (mem_save with_halt 1 back).2.

Lemma first_save s : mem_save new_store 0 s =
  (Ok (with_version s 1), {| states := [(account s, with_version s 1)]; fail_next := 0; saves := 1 |}).
Proof. reflexivity. Qed.

Lemma halted_stored : bt_get (states with_halt) "acct" = Some (with_version halted 1).
Proof.
  unfold with_halt. rewrite first_save. cbn [snd states]. assert (account halted = "acct"%string) as -> by (vm_compute; reflexivity).
  reflexivity.
Qed.
End StoreSample.

(** ** Properties *)

(** C16. However many runs share an account and however their loads, computations and saves interleave (failed calls
    included), every state the store ever holds is one the account can reach by its own steps, and each change of the
    stored state is the whole work of one run from the state stored just before it: no update is lost. *)
Theorem saves_are_serialized `{Chrono} {S} `{!StateStore S, !StateStoreLaws S} id (st : S) y y' :
  view st id = None → rtc (run_step id) (empty_system st) y → run_step id y y' →
  reachable (stored id y') ∧
  (stored id y' = stored id y ∨
   ∃ cur, rtc acct_step (stored id y) cur ∧ stored id y' = with_version cur (version (stored id y) + 1)).
Proof.
  intros Hv Hr Hstep.
  assert (∀ z, rtc (run_step id) (empty_system st) z → shared id z ∧ rtc acct_step (new_state id) (stored id z)) as Hinv.
  { intros z Hz. refine (rtc_ind_r (λ z, shared id z ∧ rtc acct_step (new_state id) (stored id z)) _ _ _ z Hz).
    - split; [by apply shared_empty|]. unfold stored. cbn [empty_system sy_store]. rewrite Hv. apply rtc_refl.
    - intros y1 y2 _ Hs [Hsh Hreach]. destruct (shared_step id _ _ Hsh Hs) as [Hsh' [->|(cur & Hw & ->)]]; [done|].
      split; [done|]. etrans; [exact Hreach|]. eapply rtc_r; [by apply works_rtc|]. left. apply auto_saved. }
  destruct (Hinv y Hr) as [Hsh _]. destruct (Hinv y' (rtc_r _ _ _ Hr Hstep)) as [_ Hreach].
  split; [by exists id|]. destruct (shared_step id _ _ Hsh Hstep) as [_ [?|(cur & Hw & ?)]]; [by left|right].
  exists cur. split; [by apply works_rtc|done].
Qed.

Lemma saves_are_serialized_witness :
  reachable (stored "acct" StoreSample.saved) ∧
  (stored "acct" StoreSample.saved = stored "acct" StoreSample.worked ∨
   ∃ cur, rtc acct_step (stored "acct" StoreSample.worked) cur ∧
     stored "acct" StoreSample.saved = with_version cur (version (stored "acct" StoreSample.worked) + 1)).
Proof.
  exact (saves_are_serialized "acct" new_store StoreSample.worked StoreSample.saved eq_refl StoreSample.loads StoreSample.saves_it).
Defined.

(** C29. A lawful store never lets a halt go unrecorded: after any sequence of loads and saves by anyone, a stored halted
    or flattening account is stored as active or shrunk only if its resume history has grown, and that history never
    shrinks. *)
Theorem stored_halt_needs_resume `{Chrono} {S} `{!StateStore S, !StateStoreLaws S} (st st' : S) id old :
  rtc call st st' → view st id = Some old →
  ∃ new, view st' id = Some new ∧ (length (resumes old) ≤ length (resumes new))%nat ∧
    (AccountStatus.is_halt (status old) = true → AccountStatus.may_add_risk (status new) = true →
     (length (resumes old) < length (resumes new))%nat).
Proof. intros Hr Ho. by apply (calls_resumes st st' id old). Qed.

Lemma stored_halt_needs_resume_witness :
  ∃ new, bt_get (states StoreSample.with_back) "acct" = Some new ∧ status new = AccountStatus.Active ∧ (0 < length (resumes new))%nat.
Proof.
  destruct (stored_halt_needs_resume StoreSample.with_halt StoreSample.with_back "acct" (with_version StoreSample.halted 1))
    as (new & Hn & _ & Hlt).
  - apply rtc_once. eapply (call_save _ 1 StoreSample.back). apply surjective_pairing.
  - exact StoreSample.halted_stored.
  - exists new. split; [exact Hn|].
    assert (status new = AccountStatus.Active) as Ha.
    { assert (AccountStatus.Active = from_option status AccountStatus.Halted (bt_get (states StoreSample.with_back) "acct")) as E
        by (vm_compute; reflexivity). rewrite E. by rewrite (Hn : bt_get _ _ = _). }
    split; [exact Ha|]. apply Hlt; [vm_compute; reflexivity|by rewrite Ha].
Defined.

(** Compare and swap: of two saves of an account with the same expected version, the second fails with a version
    conflict that names the current version, whatever states they carry; in the in-memory store the first succeeds
    exactly when no failure is injected, its expected version is current and the transition is legal. *)
Theorem one_saver_wins `{Chrono} (g g' : Inner) e new1 new2 stored1 :
  0 ≤ e < u64_max → account new2 = account new1 → mem_save g e new1 = (Ok stored1, g') →
  mem_save g' e new2 = (Err (StoreError.VersionConflict e (e + 1)), g') ∧
  (∀ g0 e0 n0, is_ok (mem_save g0 e0 n0).1 = true ↔
    fail_next g0 ≤ 0 ∧ version_of (bt_get (states g0) (account n0)) = e0 ∧
    (∀ old, bt_get (states g0) (account n0) = Some old → transition_allowed old n0 = true)).
Proof.
  intros He Ha Hs. assert (mem_save g' e new2 = (Err (StoreError.VersionConflict e (e + 1)), g')) as Hsecond.
  { unfold mem_save, injected in Hs. destruct (0 <? fail_next g) eqn:Ef; [done|].
    destruct (negb _); [done|]. destruct (match bt_get (states g) (account new1) with Some o => _ | None => false end); [done|].
    injection Hs as _ <-. unfold mem_save, injected. cbn [fail_next states]. rewrite Ef, Ha, bt_get_insert_eq. cbn [version_of with_version version].
    assert (wrap_u64 (e + 1) = e + 1) as -> by (unfold wrap_u64, u64_max in *; apply Z.mod_small; lia).
    destruct (Z.eqb_spec (e + 1) e); [lia|done]. }
  split; [done|]. intros g0 e0 n0. unfold mem_save, injected.
  destruct (Z.ltb_spec 0 (fail_next g0)); [split; [done|intros [? _]; lia]|].
  destruct (Z.eqb_spec (version_of (bt_get (states g0) (account n0))) e0); cbn [negb]; [|split; [done|intros (_ & ? & _); done]].
  destruct (bt_get (states g0) (account n0)) as [old|]; [|split; [intros _; split; [lia|done]|done]].
  destruct (transition_allowed old n0) eqn:Et; cbn [negb].
  - split; [intros _|done]. split; [lia|]. split; [done|]. by intros ? [= <-].
  - split; [done|]. intros (_ & _ & Ho). specialize (Ho old eq_refl). congruence.
Qed.

Lemma one_saver_wins_witness :
  mem_save StoreSample.after 0 RiskSample.shrunk = (Err (StoreError.VersionConflict 0 1), StoreSample.after).
Proof.
  refine (proj1 (one_saver_wins new_store StoreSample.after 0 RiskSample.at_peak RiskSample.shrunk StoreSample.first _ _ _)).
  - split; [lia|reflexivity].
  - vm_compute. reflexivity.
  - unfold StoreSample.after. rewrite StoreSample.first_save. reflexivity.
Defined.

(** ** [SplitMix64], the generator of the drills *)
Module Rng.

Definition next_u64 (s : Z) : Z * Z :=
  let s := wrap_u64 (s + 0x9E3779B97F4A7C15) in
  let z := wrap_u64 (Z.lxor s (Z.shiftr s 30) * 0xBF58476D1CE4E5B9) in
  let z := wrap_u64 (Z.lxor z (Z.shiftr z 27) * 0x94D049BB133111EB) in
  (Z.lxor z (Z.shiftr z 31), s).

(** The panics of [assert!] and of a remainder by zero are [None]; [hi - lo + 1] and the sum wrap. *)
Definition range (s lo hi : Z) : option (Z * Z) :=
  if negb (lo <=? hi) then None
  else
    let n := wrap_u64 (hi - lo + 1) in
    if n =? 0 then None else let '(x, s) := next_u64 s in Some (wrap_u64 (lo + x mod n), s).

Definition chance (s percent : Z) : option (bool * Z) := let* r := range s 0 99 in Some (r.1 <? percent, r.2).

Definition pick {A} (s : Z) (items : list A) : option (A * Z) :=
  let* r := range s 0 (wrap_u64 (Z.of_nat (length items) - 1)) in
  let* x := items !! Z.to_nat r.1 in Some (x, r.2).

Example published : let '(a, s) := next_u64 0 in (a, (next_u64 s).1) = (0xE220A8397B1DCDAF, 0x6E789E6AA1B965F4).
Proof. reflexivity. Qed.

Lemma u64_range s : 0 ≤ (next_u64 s).1.
Proof.
  unfold next_u64. cbn [fst]. set (z := wrap_u64 (_ * 0x94D049BB133111EB)).
  assert (0 ≤ z) by apply wrap_u64_range. apply Z.lxor_nonneg. split; intros; [apply Z.shiftr_nonneg|]; done.
Qed.

(** Every value asked for is in range, and only the whole 64-bit range cannot be asked for. *)
Lemma range_bounds s lo hi : 0 ≤ lo ≤ hi → hi ≤ u64_max → hi - lo < u64_max →
  ∃ x s', range s lo hi = Some (x, s') ∧ lo ≤ x ≤ hi.
Proof.
  intros Hlo Hhi Hw. unfold range. rewrite (proj2 (Z.leb_le lo hi)) by lia. cbn [negb].
  assert (wrap_u64 (hi - lo + 1) = hi - lo + 1) as -> by (unfold wrap_u64, u64_max in *; apply Z.mod_small; lia).
  destruct (Z.eqb_spec (hi - lo + 1) 0); [lia|]. destruct (next_u64 s) as [x s']. eexists _, _. split; [done|].
  pose proof (Z.mod_pos_bound x (hi - lo + 1)). unfold wrap_u64, u64_max in *. rewrite Z.mod_small; lia.
Qed.
End Rng.
