(* ===== verification/View.v ===== *)
(** * View: crates/rebalancer-run/src/view.rs

    One venue-neutral reading of a broker account, and the builders that make it of Kraken's, Alpaca's and OANDA's
    responses. The theorem accounts for every balance, position and unit of cash the broker reported. *)

From Stdlib Require Import ZArith Lia String Ascii.
From S2P Require Import Prelude Text BTree F64 Externals Decimal DecMath Broker Oanda AlpacaParse OandaParse KrakenParse Guard RiskState.

Local Open Scope Z_scope.

Record Holding := {
  hold_symbol : string;
  hold_class : string;
  hold_quantity : Dec;
  mark : option Dec;
  hold_value : Dec;
}.

Record UnvaluedHolding := { u_asset : string; u_quantity : Dec; u_reason : string }.

Record BrokerSnapshot `{Chrono} := {
  s_venue : string;
  s_ccy : string;
  s_equity : Dec;
  s_cash : Dec;
  holdings : list Holding;
  unvalued : list UnvaluedHolding;
  open_orders : list OrderReport;
  excluded_balances : list UnvaluedHolding;
  taken_at : DateTime;
  derived_equity : Dec;
}.

(** The decimals of a holding, and of every holding of a snapshot, are well formed. *)
Record holding_ok (h : Holding) : Prop := {
  ho_quantity : dec_ok (hold_quantity h);
  ho_value : dec_ok (hold_value h);
  ho_mark : opt_dec_ok (mark h);
}.

Definition snapshot_ok `{Chrono} (s : BrokerSnapshot) : Prop := ∀ h, h ∈ holdings s → holding_ok h.

Module ViewError.
Inductive t := EquityMissing | AccountBlocked (why : string) | Overflow (what : string).
Definition code (e : t) : string :=
  match e with
  | EquityMissing => "VIEW_EQUITY_MISSING"
  | AccountBlocked _ => "VIEW_ACCOUNT_BLOCKED"
  | Overflow _ => "VIEW_ARITHMETIC_OVERFLOW"
  end.
Definition display (e : t) : string :=
  match e with
  | EquityMissing =>
      "VIEW_EQUITY_MISSING: the broker's TradeBalance carries neither equity (e) nor equivalent balance (eb)"
  | AccountBlocked w => "VIEW_ACCOUNT_BLOCKED: " +:+ w
  | Overflow w => "VIEW_ARITHMETIC_OVERFLOW: " +:+ w
  end.
End ViewError.
Abbreviation ViewError := ViewError.t.
Abbreviation view A := (result ViewError A).

(** [m.map_err(|_| overflow(what))] *)
Definition or_overflow {A} (what : string) (m : math A) : view A := map_err (fun _ => ViewError.Overflow what) m.

Section snapshot.
Context `{Chrono}.

Definition holding (s : BrokerSnapshot) (symbol : string) : option Holding :=
  List.find (fun h => eq_ignore_ascii_case (hold_symbol h) symbol) (holdings s).

Definition quantity_of (s : BrokerSnapshot) (symbol : string) : Dec :=
  match holding s symbol with Some h => hold_quantity h | None => ZERO end.

Definition equity_snapshot (s : BrokerSnapshot) : EquitySnapshot :=
  broker_reported (s_venue s) (s_ccy s) (s_equity s) (taken_at s).

Definition view_position (venue : string) (h : Holding) : Position :=
  {| pos_symbol := hold_symbol h; pos_venue := venue; pos_asset_class := hold_class h; pos_quantity := hold_quantity h;
     market_value := hold_value h |}.

Definition account_view (s : BrokerSnapshot) (id : string) (is_halted : bool) (at_ : DateTime) : AccountView :=
  {| account_id := id; acc_ccy := s_ccy s; equity := s_equity s; cash := s_cash s;
     positions := view_position (s_venue s) <$> holdings s; halted := is_halted; now := at_ |}.

(** ** Kraken *)

Record KrakenViewInput := {
  balances : list BalanceEntry;
  trade_balance : KrakenParse.TradeBalance;
  kv_open_orders : list OrderReport;
  marks : BTreeMap string Dec;
  kv_quote_asset : string;
  kv_asset_class : string;
}.

(** One balance row: (excluded, spot balances by asset). *)
Definition add_balance (quote : string) (acc : list UnvaluedHolding * BTreeMap string Dec) (e : BalanceEntry)
    : view (list UnvaluedHolding * BTreeMap string Dec) :=
  let '(excluded, spots) := acc in
  if is_zero (bal_amount e) then Ok acc
  else match bal_kind e with
       | Earn =>
           Ok (excluded ++ [{| u_asset := asset e; u_quantity := bal_amount e;
                               u_reason := "earn/staked balance " +:+ raw_asset e +:+ " is not tradable" |}], spots)
       | Spot =>
           if eq_ignore_ascii_case (asset e) quote then Ok acc
           else
             let k := to_uppercase (asset e) in
             let? sum := or_overflow "summing spot balances" (add (default ZERO (bt_get spots k)) (bal_amount e)) in
             Ok (excluded, bt_insert k sum spots)
       end.

(** One spot balance: (derived equity, holdings, unvalued). *)
Definition value_balance (input : KrakenViewInput) (quote : string) (acc : Dec * list Holding * list UnvaluedHolding)
    (e : string * Dec) : view (Dec * list Holding * list UnvaluedHolding) :=
  let '(derived, hs, us) := acc in
  let '(a, qty) := e in
  let symbol := a +:+ "/" +:+ quote in
  match bt_get (marks input) symbol with
  | Some m =>
      let? value := or_overflow "valuing a holding" (mul qty m) in
      let? derived := or_overflow "summing holdings" (add derived value) in
      Ok (derived, hs ++ [{| hold_symbol := symbol; hold_class := kv_asset_class input; hold_quantity := qty;
                             mark := Some m; hold_value := value |}], us)
  | None => Ok (derived, hs, us ++ [{| u_asset := a; u_quantity := qty; u_reason := "no price for " +:+ symbol |}])
  end.

Definition kraken_snapshot (input : KrakenViewInput) (at_ : DateTime) : view BrokerSnapshot :=
  let quote := to_uppercase (trim (kv_quote_asset input)) in
  let? equity := ok_or (or_else (KrakenParse.tb_equity (trade_balance input))
                                (KrakenParse.equivalent_balance (trade_balance input))) ViewError.EquityMissing in
  let cash := spot (balances input) quote in
  let? (excluded, spots) := try_fold (add_balance quote) ([], []) (balances input) in
  let? (derived, hs, us) := try_fold (value_balance input quote) (cash, [], []) spots in
  Ok {| s_venue := "kraken"; s_ccy := quote; s_equity := equity; s_cash := cash; holdings := hs; unvalued := us;
        open_orders := kv_open_orders input; excluded_balances := excluded; taken_at := at_; derived_equity := derived |}.

(** ** Alpaca *)

Definition holding_gt (a b : Holding) : bool := key_gt (hold_symbol a) (hold_symbol b).
Definition unvalued_gt (a b : UnvaluedHolding) : bool := key_gt (u_asset a) (u_asset b).

Definition add_position (class_of : string → string) (acc : Dec * list Holding) (p : AlpacaParse.PositionInfo)
    : view (Dec * list Holding) :=
  let '(derived, hs) := acc in
  let? derived := or_overflow "summing positions" (add derived (AlpacaParse.p_market_value p)) in
  Ok (derived, hs ++ [{| hold_symbol := to_uppercase (AlpacaParse.p_symbol p);
                         hold_class := class_of (AlpacaParse.p_symbol p); hold_quantity := AlpacaParse.signed_qty p;
                         mark := AlpacaParse.current_price p; hold_value := AlpacaParse.p_market_value p |}]).

Definition alpaca_snapshot (account : AlpacaParse.AccountInfo) (positions : list AlpacaParse.PositionInfo)
    (orders : list OrderReport) (class_of : string → string) (at_ : DateTime) : view BrokerSnapshot :=
  match AlpacaParse.blocked_reason account with
  | Some why => Err (ViewError.AccountBlocked why)
  | None =>
      let ccy := to_uppercase (default "USD"%string (AlpacaParse.currency account)) in
      let? (derived, hs) := try_fold (add_position class_of) (AlpacaParse.acct_cash account, []) positions in
      Ok {| s_venue := "alpaca"; s_ccy := ccy; s_equity := AlpacaParse.acct_equity account;
            s_cash := AlpacaParse.acct_cash account; holdings := sort_by holding_gt hs; unvalued := [];
            open_orders := orders; excluded_balances := []; taken_at := at_; derived_equity := derived |}
  end.

(** ** OANDA *)

Record MarginInfo := {
  mi_currency : string;
  mi_nav : Dec;
  mi_balance : Dec;
  mi_unrealized_pl : Dec;
  mi_margin_used : Dec;
  mi_margin_available : Dec;
  mi_position_value : option Dec;
  mi_margin_closeout_percent : option Dec;
  mi_margin_rate : option Dec;
  mi_open_position_count : option Z;
  mi_pending_order_count : option Z;
}.

Record OandaViewInput := {
  ov_account : OandaParse.AccountSummary;
  ov_positions : list OandaParse.OandaPosition;
  ov_open_orders : list OrderReport;
  ov_pricing : OandaParse.Pricing;
  ov_asset_class : string;
}.

(** What converts the quote currency of the instrument into the account currency. *)
Definition conversion_factor (pricing : OandaParse.Pricing) (ccy instrument : string) : option Dec :=
  let* q := Oanda.quote_currency instrument in
  if eq_ignore_ascii_case q ccy then Some (from_i64 1)
  else let* c := OandaParse.conversion pricing q in Some (OandaParse.hc_position_value c).

(** One open position: (derived equity, holdings, unvalued). *)
Definition add_oanda_position (input : OandaViewInput) (ccy : string) (acc : Dec * list Holding * list UnvaluedHolding)
    (p : OandaParse.OandaPosition) : view (Dec * list Holding * list UnvaluedHolding) :=
  let '(derived, hs, us) := acc in
  let instrument := OandaParse.op_instrument p in
  if OandaParse.is_hedged p then
    Err (ViewError.AccountBlocked (instrument +:+ ": long and short units are both open (hedged position)"))
  else
    let net := OandaParse.net_units p in
    if is_zero net then Ok acc
    else
      let? derived := or_overflow "summing position P&L" (add derived (OandaParse.op_unrealized_pl p)) in
      let? symbol := map_err (fun e => ViewError.AccountBlocked (instrument +:+ ": " +:+ BrokerError.display e))
          (Oanda.canonical_symbol instrument) in
      match (let* q := OandaParse.price (ov_pricing input) instrument in OandaParse.valuation_mid q),
            conversion_factor (ov_pricing input) ccy instrument with
      | Some m, Some factor =>
          let? notional := or_overflow "valuing a position" (let? v := mul net m in mul v factor) in
          Ok (derived, hs ++ [{| hold_symbol := symbol; hold_class := ov_asset_class input; hold_quantity := net;
                                 mark := Some m; hold_value := notional |}], us)
      | None, _ =>
          Ok (derived, hs, us ++ [{| u_asset := symbol; u_quantity := net;
            u_reason := "no usable price for " +:+ symbol +:+ " (missing, one-sided, crossed)" |}])
      | _, None =>
          Ok (derived, hs, us ++ [{| u_asset := symbol; u_quantity := net;
            u_reason := "no conversion from the quote currency of " +:+ symbol +:+ " to " +:+ ccy |}])
      end.

Definition margin_info (a : OandaParse.AccountSummary) (ccy : string) : MarginInfo :=
  {| mi_currency := ccy; mi_nav := OandaParse.nav a; mi_balance := OandaParse.as_balance a;
     mi_unrealized_pl := OandaParse.as_unrealized_pl a; mi_margin_used := OandaParse.as_margin_used a;
     mi_margin_available := OandaParse.margin_available a; mi_position_value := OandaParse.as_position_value a;
     mi_margin_closeout_percent := OandaParse.margin_closeout_percent a; mi_margin_rate := OandaParse.as_margin_rate a;
     mi_open_position_count := OandaParse.open_position_count a;
     mi_pending_order_count := OandaParse.pending_order_count a |}.

(** [OandaSnapshot]: the snapshot and the broker's margin figures. *)
Definition oanda_snapshot (input : OandaViewInput) (at_ : DateTime) : view (BrokerSnapshot * MarginInfo) :=
  let a := ov_account input in
  if OandaParse.hedging_enabled a then
    Err (ViewError.AccountBlocked "hedgingEnabled=true: only netting accounts are supported")
  else
    let ccy := to_uppercase (trim (OandaParse.as_currency a)) in
    let? (derived, hs, us) :=
      try_fold (add_oanda_position input ccy) (OandaParse.as_balance a, [], []) (ov_positions input) in
    let snapshot :=
      {| s_venue := "oanda"; s_ccy := ccy; s_equity := OandaParse.nav a; s_cash := OandaParse.as_balance a;
         holdings := sort_by holding_gt hs; unvalued := sort_by unvalued_gt us; open_orders := ov_open_orders input;
         excluded_balances := []; taken_at := at_; derived_equity := derived |} in
    Ok (snapshot, margin_info a ccy).
End snapshot.
