(* ===== verification/ViewFacts.v ===== *)
(** * ViewFacts: a snapshot accounts for everything the broker reported

    No balance is lost or counted twice on its way into a snapshot, and the derived equity is the cash plus the value
    of the holdings. *)

From Stdlib Require Import ZArith Lia String Ascii.
From S2P Require Import Prelude Text BTree F64 Externals Decimal DecMath Policy Broker Oanda AlpacaParse OandaParse KrakenParse View.

Local Open Scope Z_scope.

(** ** Kraken *)

Section kraken.
Context `{Chrono}.

(** The asset a balance row adds to: none for a zero row, an Earn row, or the quote currency itself. *)
Definition spot_asset (quote : string) (e : BalanceEntry) : option string :=
  if is_zero (bal_amount e) then None
  else match bal_kind e with
       | Earn => None
       | Spot => if eq_ignore_ascii_case (asset e) quote then None else Some (to_uppercase (asset e))
       end.

Definition spot_total (quote : string) (l : list BalanceEntry) (a : string) : Z :=
  foldr (λ e s, (if bool_decide (spot_asset quote e = Some a) then atto (bal_amount e) else 0) + s) 0 l.

(** The rows that are reported and left alone. *)
Definition earn_row (e : BalanceEntry) : option UnvaluedHolding :=
  if is_zero (bal_amount e) then None
  else match bal_kind e with
       | Earn => Some {| u_asset := asset e; u_quantity := bal_amount e;
                         u_reason := "earn/staked balance " +:+ raw_asset e +:+ " is not tradable" |}
       | Spot => None
       end.

Definition values_sum (l : list Holding) : Z := foldr (λ h s, atto (hold_value h) + s) 0 l.

Lemma spot_total_snoc quote l e a :
  spot_total quote (l ++ [e]) a = spot_total quote l a + (if bool_decide (spot_asset quote e = Some a) then atto (bal_amount e) else 0).
Proof. induction l as [|x l IH]; simpl; [lia|]. rewrite IH. lia. Qed.

Lemma values_sum_snoc l h : values_sum (l ++ [h]) = values_sum l + atto (hold_value h).
Proof. induction l as [|x l IH]; simpl; [lia|]. rewrite IH. lia. Qed.

(** What the first loop has done of the rows read so far. *)
Record balances_read (quote : string) (pre : list BalanceEntry) (acc : list UnvaluedHolding * BTreeMap string Dec) : Prop := {
  br_excluded : acc.1 = omap earn_row pre;
  br_sorted : bt_sorted acc.2;
  br_ok : ∀ a, dec_ok (default ZERO (bt_get acc.2 a));
  br_total : ∀ a, atto (default ZERO (bt_get acc.2 a)) = spot_total quote pre a;
  br_assets : ∀ a, is_Some (bt_get acc.2 a) ↔ ∃ e, e ∈ pre ∧ spot_asset quote e = Some a;
}.

Lemma read_nothing quote pre acc e : spot_asset quote e = None → earn_row e = None →
  balances_read quote pre acc → balances_read quote (pre ++ [e]) acc.
Proof.
  intros Hs He [Hx Hso Hok Ht Ha]. split; try done.
  - rewrite omap_app. simpl. by rewrite He, app_nil_r.
  - intros a. rewrite spot_total_snoc, Hs, Ht. rewrite bool_decide_false by done. lia.
  - intros a. rewrite Ha. setoid_rewrite elem_of_app. setoid_rewrite list_elem_of_singleton. naive_solver.
Qed.

Lemma add_balance_read quote pre acc e acc' : dec_ok (bal_amount e) → balances_read quote pre acc →
  add_balance quote acc e = Ok acc' → balances_read quote (pre ++ [e]) acc'.
Proof.
  intros He Hr. destruct acc as [ex sp]. unfold add_balance. destruct (is_zero (bal_amount e)) eqn:Ez.
  { intros [= <-]. apply read_nothing; [unfold spot_asset|unfold earn_row|done]; by rewrite Ez. }
  destruct (bal_kind e) eqn:Ek.
  2: { intros [= <-]. destruct Hr as [Hx Hso Hok Ht Ha]. simpl in *.
       assert (spot_asset quote e = None) as Hs by (unfold spot_asset; by rewrite Ez, Ek). split; simpl; try done.
       - rewrite omap_app, Hx. simpl. unfold earn_row at 3. by rewrite Ez, Ek.
       - intros a. rewrite spot_total_snoc, Hs, Ht, bool_decide_false by done. lia.
       - intros a. rewrite Ha. setoid_rewrite elem_of_app. setoid_rewrite list_elem_of_singleton. naive_solver. }
  destruct (eq_ignore_ascii_case (asset e) quote) eqn:Eq.
  { intros [= <-]. apply read_nothing; [unfold spot_asset|unfold earn_row|done]; by rewrite Ez, Ek, ?Eq. }
  assert (spot_asset quote e = Some (to_uppercase (asset e))) as Hs by (unfold spot_asset; by rewrite Ez, Ek, Eq).
  assert (earn_row e = None) as Hn by (unfold earn_row; by rewrite Ez, Ek).
  cbv zeta. set (k := to_uppercase (asset e)) in *. intros (sum & Hsum & [= <-])%bind_ok. unfold or_overflow in Hsum.
  rewrite map_err_ok in Hsum. destruct Hr as [Hx Hso Hok Ht Ha]. simpl in *.
  apply add_atto in Hsum as [Hdo Hda]; [|apply Hok|done]. split; simpl.
  - rewrite omap_app, Hx. simpl. by rewrite Hn, app_nil_r.
  - by apply bt_insert_sorted.
  - intros a. rewrite bt_get_insert. destruct (kcmp a k); [done|apply Hok..].
  - intros a. rewrite spot_total_snoc, Hs. destruct (decide (a = k)) as [->|Hne].
    + rewrite bt_get_insert_eq, bool_decide_true by done. simpl. rewrite Hda, Ht. done.
    + rewrite bt_get_insert_ne, bool_decide_false by congruence. rewrite Ht. lia.
  - intros a. setoid_rewrite elem_of_app. setoid_rewrite list_elem_of_singleton. destruct (decide (a = k)) as [->|Hne].
    + rewrite bt_get_insert_eq. split; [|done]. intros _. exists e. auto.
    + rewrite bt_get_insert_ne, Ha by done. split; [naive_solver|]. intros (x & [Hin| ->] & Hxs); [eauto|congruence].
Qed.

(** What the second loop makes of one asset: a holding at its mark, or an unvalued row. *)
Definition priced (input : KrakenViewInput) (quote : string) (x : string * Dec) : option Holding :=
  let symbol := x.1 +:+ "/" +:+ quote in
  let* m := bt_get (marks input) symbol in
  let* v := ok (mul x.2 m) in
  Some {| hold_symbol := symbol; hold_class := kv_asset_class input; hold_quantity := x.2; mark := Some m; hold_value := v |}.

Definition unpriced (input : KrakenViewInput) (quote : string) (x : string * Dec) : option UnvaluedHolding :=
  let symbol := x.1 +:+ "/" +:+ quote in
  match bt_get (marks input) symbol with
  | None => Some {| u_asset := x.1; u_quantity := x.2; u_reason := "no price for " +:+ symbol |}
  | Some _ => None
  end.

Record assets_valued (input : KrakenViewInput) (quote : string) (cash : Dec) (pre : list (string * Dec))
    (acc : Dec * list Holding * list UnvaluedHolding) : Prop := {
  av_holdings : acc.1.2 = omap (priced input quote) pre;
  av_unvalued : acc.2 = omap (unpriced input quote) pre;
  av_one : ∀ x, x ∈ pre → is_Some (priced input quote x) ↔ unpriced input quote x = None;
  av_ok : dec_ok acc.1.1;
  av_derived : atto acc.1.1 = atto cash + values_sum acc.1.2;
}.

Lemma value_balance_valued input quote cash pre acc x acc' : dec_ok x.2 → Forall dec_ok (marks input).*2 →
  assets_valued input quote cash pre acc → value_balance input quote acc x = Ok acc' →
  assets_valued input quote cash (pre ++ [x]) acc'.
Proof.
  intros Hx Hm [Hh Hu Hone Hok Hd]. destruct acc as [[derived hs] us], x as [a q]. simpl in *. unfold value_balance.
  destruct (bt_get (marks input) (a +:+ "/" +:+ quote)) as [m|] eqn:Em.
  - assert (dec_ok m) as Hmo.
    { rewrite Forall_forall in Hm. apply Hm, list_elem_of_fmap. exists (a +:+ "/" +:+ quote, m). split; [done|]. by apply bt_get_elem. }
    intros (v & Hv & (d & Hd' & [= <-])%bind_ok)%bind_ok. unfold or_overflow in Hv, Hd'. rewrite map_err_ok in Hv. rewrite map_err_ok in Hd'.
    assert (priced input quote (a, q) = Some {| hold_symbol := a +:+ "/" +:+ quote; hold_class := kv_asset_class input;
      hold_quantity := q; mark := Some m; hold_value := v |}) as Hp by (unfold priced; simpl; by rewrite Em, Hv).
    assert (unpriced input quote (a, q) = None) as Hn by (unfold unpriced; simpl; by rewrite Em).
    pose proof Hv as Hv'. apply mul_atto in Hv' as [Hvo _]; [|done|done]. apply add_atto in Hd' as [Hdo Hda]; [|done|done].
    split; simpl.
    + rewrite omap_app, Hh. simpl. by rewrite Hp.
    + rewrite omap_app, Hu. simpl. by rewrite Hn, app_nil_r.
    + intros x [Hin| ->%list_elem_of_singleton]%elem_of_app; [by apply Hone|]. by rewrite Hp, Hn.
    + done.
    + rewrite values_sum_snoc, Hda, Hd. simpl. lia.
  - intros [= <-].
    assert (priced input quote (a, q) = None) as Hp by (unfold priced; simpl; by rewrite Em).
    assert (unpriced input quote (a, q) = Some {| u_asset := a; u_quantity := q; u_reason := "no price for " +:+ a +:+ "/" +:+ quote |}) as Hn
      by (unfold unpriced; simpl; by rewrite Em).
    split; simpl; try done.
    + rewrite omap_app, Hh. simpl. by rewrite Hp, app_nil_r.
    + rewrite omap_app, Hu. simpl. by rewrite Hn.
    + intros x [Hin| ->%list_elem_of_singleton]%elem_of_app; [by apply Hone|]. rewrite Hp, Hn. split; [by intros []|done].
Qed.

Record kraken_input_ok (input : KrakenViewInput) : Prop := {
  ki_balances : Forall (λ e, dec_ok (bal_amount e)) (balances input);
  ki_marks : Forall dec_ok (marks input).*2;
}.

(** ** The cash *)

(** The rows that are cash: spot rows of the quote currency itself. *)
Definition cash_row (quote : string) (e : BalanceEntry) : option Dec :=
  match bal_kind e with
  | Spot => if eq_ignore_ascii_case (asset e) quote then Some (bal_amount e) else None
  | Earn => None
  end.

Definition total (l : list Dec) : Z := foldr (λ d s, atto d + s) 0 l.
Definition size (l : list Dec) : Z := foldr (λ d s, Z.abs (atto d) + s) 0 l.

Lemma size_nonneg l : 0 ≤ size l.
Proof. induction l; simpl; lia. Qed.

(** Sums whose terms fit at the finest scale do not overflow. *)
Lemma small_sum a b : dec_ok a → dec_ok b → Z.abs (atto a) + Z.abs (atto b) ≤ i128_max → checked_add a b ≠ None.
Proof.
  intros Ha Hb Hs. rewrite add_none by done. intros Hn. apply Hn. pose proof Ha as [Hsa _]. pose proof Hb as [Hsb _].
  unfold sum_fits. set (s := Z.max (scale a) (scale b)) in *.
  pose proof (round_fits_atto a s Ha ltac:(lia) ltac:(lia) ltac:(lia)) as Hfa.
  pose proof (round_fits_atto b s Hb ltac:(lia) ltac:(lia) ltac:(lia)) as Hfb. split_and!; [exact Hfa|exact Hfb|].
  pose proof (atto_rescale (units a) (scale a) s ltac:(lia) ltac:(lia)) as Hra.
  pose proof (atto_rescale (units b) (scale b) s ltac:(lia) ltac:(lia)) as Hrb.
  replace (mkDec (units a) (scale a)) with a in Hra by (by destruct a). replace (mkDec (units b) (scale b)) with b in Hrb by (by destruct b).
  rewrite atto_grain in Hra. rewrite atto_grain in Hrb. simpl in *. pose proof (grain_pos s ltac:(lia)).
  unfold in_i128, i128_min, i128_max in *. nia.
Qed.

Definition add_or_skip (acc d : Dec) : Dec := default acc (checked_add acc d).

Lemma spot_rows quote l : spot l quote = fold_left add_or_skip (omap (cash_row quote) l) ZERO.
Proof.
  unfold spot. generalize ZERO. induction l as [|e l IH]; intros acc; simpl; [done|]. unfold cash_row at 1.
  destruct (bal_kind e) eqn:Ek; simpl; [destruct (eq_ignore_ascii_case (asset e) quote); simpl|]; apply IH.
Qed.

Lemma sum_rows rows acc : Forall dec_ok rows → dec_ok acc →
  dec_ok (fold_left add_or_skip rows acc) ∧
  (∃ kept, kept `sublist_of` rows ∧ atto (fold_left add_or_skip rows acc) = atto acc + total kept) ∧
  (Z.abs (atto acc) + size rows ≤ i128_max → atto (fold_left add_or_skip rows acc) = atto acc + total rows).
Proof.
  intros Hr. revert acc. induction Hr as [|d rows Hd Hr IH]; intros acc Ha; simpl.
  { split; [done|]. split; [|lia]. exists []. simpl. split; [done|lia]. }
  destruct (checked_add acc d) as [r|] eqn:E.
  - assert (add_or_skip acc d = r) as -> by (unfold add_or_skip; by rewrite E). apply checked_add_atto in E as (Hok & Hat & _); [|done..]. destruct (IH r Hok) as (Ho & (kept & Hk & Hs) & Hf).
    split; [done|]. split; [exists (d :: kept); simpl; split; [by constructor|lia]|]. intros Hsz. pose proof (size_nonneg rows).
    rewrite Hf; lia.
  - assert (add_or_skip acc d = acc) as -> by (unfold add_or_skip; by rewrite E). destruct (IH acc Ha) as (Ho & (kept & Hk & Hs) & _). split; [done|]. split; [exists kept; split; [by constructor|done]|].
    intros Hsz. pose proof (size_nonneg rows). exfalso. eapply small_sum; [exact Ha|exact Hd| |exact E]. lia.
Qed.

(** The cash is a sum of cash rows, of all of them unless the numbers are near the end of [i128]: a row whose addition
    overflows is left out. *)
Lemma spot_cash quote l : Forall (λ e, dec_ok (bal_amount e)) l →
  let rows := omap (cash_row quote) l in
  dec_ok (spot l quote) ∧ (∃ kept, kept `sublist_of` rows ∧ atto (spot l quote) = total kept) ∧
  (size rows ≤ i128_max → atto (spot l quote) = total rows).
Proof.
  intros Hl rows. rewrite spot_rows. destruct (sum_rows rows ZERO) as (Ho & (kept & Hk & Hs) & Hf); [|apply ZERO_ok|].
  - apply Forall_forall. intros d (e & He & Hd)%list_elem_of_omap. rewrite Forall_forall in Hl. unfold cash_row in Hd. specialize (Hl e He).
    destruct (bal_kind e); [|done]. destruct (eq_ignore_ascii_case _ _); [|done]. by injection Hd as <-.
  - split; [exact Ho|]. split; [exists kept; split; [exact Hk|exact Hs]|exact Hf].
Qed.

(** Every non-zero row is in exactly one place. *)
Lemma rows_split quote e : is_zero (bal_amount e) = false →
  match cash_row quote e, spot_asset quote e, earn_row e with
  | Some _, None, None | None, Some _, None | None, None, Some _ => True
  | _, _, _ => False
  end.
Proof.
  intros Hz. unfold cash_row, spot_asset, earn_row. rewrite Hz. destruct (bal_kind e); [|done].
  by destruct (eq_ignore_ascii_case _ _).
Qed.

(** C24. A Kraken snapshot accounts for every balance. Every non-zero row is exactly one of cash (a spot row of the quote
    currency), a spot asset, and an excluded Earn balance. The cash is the sum of the cash rows whenever their sizes
    together fit an [i128] at 18 digits (beyond that it is a sum of some of them: a row whose addition overflows is left
    out). There is one sorted table of assets whose quantities are the sums of the non-zero spot rows of each asset; each
    asset of it is in exactly one of [holdings] (at its mark, its value the product rounded down) and [unvalued] (no
    price), in order; the non-zero Earn rows are exactly the excluded balances; the equity is the broker's own figure, and
    the derived equity is the cash plus the values of the holdings. *)
Theorem kraken_snapshot_accounts input t s :
  kraken_input_ok input → kraken_snapshot input t = Ok s →
  let quote := to_uppercase (trim (kv_quote_asset input)) in
  (∃ spots : BTreeMap string Dec, bt_sorted spots ∧
     (∀ a, atto (default ZERO (bt_get spots a)) = spot_total quote (balances input) a) ∧
     (∀ a, is_Some (bt_get spots a) ↔ ∃ e, e ∈ balances input ∧ spot_asset quote e = Some a) ∧
     holdings s = omap (priced input quote) spots ∧ unvalued s = omap (unpriced input quote) spots ∧
     (∀ x, x ∈ spots → is_Some (priced input quote x) ↔ unpriced input quote x = None)) ∧
  excluded_balances s = omap earn_row (balances input) ∧
  Some (s_equity s) = or_else (KrakenParse.tb_equity (trade_balance input)) (KrakenParse.equivalent_balance (trade_balance input)) ∧
  (let rows := omap (cash_row quote) (balances input) in
   (∃ kept, kept `sublist_of` rows ∧ atto (s_cash s) = total kept) ∧
   (size rows ≤ i128_max → atto (s_cash s) = total rows)) ∧
  (∀ e, e ∈ balances input → is_zero (bal_amount e) = false →
     match cash_row quote e, spot_asset quote e, earn_row e with
     | Some _, None, None | None, Some _, None | None, None, Some _ => True
     | _, _, _ => False
     end) ∧
  atto (derived_equity s) = atto (s_cash s) + values_sum (holdings s).
Proof.
  intros [Hb Hm] Hs quote. unfold kraken_snapshot in Hs. fold quote in Hs.
  apply bind_ok in Hs as (equity & Heq & Hs). rewrite ok_or_ok in Heq.
  apply bind_ok in Hs as ([ex sp] & Hread & Hs). apply bind_ok in Hs as ([[derived hs] us] & Hval & [= <-]). simpl.
  apply (try_fold_prefix (balances_read quote)) in Hread as [Hx Hso Hok Ht Ha].
  2: { split; simpl; try done; [apply Sorted.SSorted_nil|]. intros a. split; [by intros []|]. by intros (e & []%not_elem_of_nil & _). }
  2: { intros pre e acc acc' Hin. apply add_balance_read. rewrite Forall_forall in Hb. by apply Hb. }
  simpl in *.
  apply (try_fold_prefix (assets_valued input quote (spot (balances input) quote))) in Hval as [Hh Hu Hone _ Hd].
  2: { split; simpl; try done; [by intros x []%not_elem_of_nil|by apply spot_cash|lia]. }
  2: { intros pre [a q] acc acc' Hin. apply value_balance_valued; [|done]. simpl. specialize (Hok a).
       by rewrite (bt_sorted_get sp a q Hso Hin) in Hok. }
  simpl in *. destruct (spot_cash quote (balances input) Hb) as (_ & Hk & Hc).
  split; [by exists sp|]. split_and!; try done. intros e _. apply rows_split.
Qed.
End kraken.

(** ** A concrete Kraken account *)

Module ViewSample.
Import Baseline.

Definition row (raw a amount : string) (kind : BalanceKind) : BalanceEntry :=
  {| raw_asset := raw; asset := a; bal_amount := lit amount; bal_kind := kind |}.

Definition input : KrakenViewInput :=
  {| balances := [row "DOT" "DOT" "3" Spot; row "ETH2.S" "ETH2" "1" Earn; row "XETH" "ETH" "0" Spot;
                  row "XXBT" "BTC" "0.5" Spot; row "ZUSD" "USD" "100" Spot];
     trade_balance := {| KrakenParse.equivalent_balance := Some (lit "610"); KrakenParse.tb_trade_balance := None;
                         KrakenParse.tb_margin := None; KrakenParse.unrealized_pnl := None; KrakenParse.cost_basis := None;
                         KrakenParse.valuation := None; KrakenParse.tb_equity := None; KrakenParse.free_margin := None;
                         KrakenParse.margin_level := None |};
     kv_open_orders := []; marks := bt_of_list [("BTC/USD", lit "1000")]%string; kv_quote_asset := " usd "; kv_asset_class := "crypto_spot" |}.

Lemma input_ok : kraken_input_ok input.
Proof. split; repeat (constructor; [by apply dec_okb_spec; vm_compute|]); constructor. Qed.
End ViewSample.

(** A balance that does not fit beside the others is left out of the cash without an error: the cash of an account with
    twice 1.2e38 dollars is 1.2e38. *)
Example overflowing_cash_row :
  spot [ViewSample.row "ZUSD" "USD" "120000000000000000000000000000000000000" Spot;
        ViewSample.row "USD" "USD" "120000000000000000000000000000000000000" Spot]%string "USD" =
  Baseline.lit "120000000000000000000000000000000000000".
Proof. vm_compute. reflexivity. Qed.

Lemma kraken_snapshot_accounts_witness :
  ∃ s, @kraken_snapshot epoch_chrono ViewSample.input 0 = Ok s ∧ atto (s_cash s) = 100 * ONE ∧ atto (derived_equity s) = 600 * ONE ∧
    (hold_symbol <$> holdings s) = ["BTC/USD"]%string ∧ (u_asset <$> unvalued s) = ["DOT"]%string ∧
    (u_asset <$> excluded_balances s) = ["ETH2"]%string.
Proof.
  assert ((λ s, (hold_symbol <$> holdings s, u_asset <$> unvalued s, values_sum (holdings s)))
    <$> ok (@kraken_snapshot epoch_chrono ViewSample.input 0) = Some (["BTC/USD"]%string, ["DOT"]%string, 500 * ONE)) as Hc
    by (vm_compute; reflexivity).
  destruct (ok (@kraken_snapshot epoch_chrono ViewSample.input 0)) as [s|] eqn:E; [|done]. apply ok_some in E.
  injection Hc as Hh Hu Hd. exists s.
  destruct (@kraken_snapshot_accounts epoch_chrono ViewSample.input 0 s ViewSample.input_ok E) as (_ & Hx & _ & [_ Hcash] & _ & Hde).
  assert (atto (s_cash s) = 100 * ONE) as Hcs by (rewrite Hcash; [reflexivity|vm_compute; discriminate]).
  rewrite Hde, Hx, Hd, Hcs. split_and!; try done.
Defined.
