(* ===== verification/Recon.v ===== *)
(** * Recon: crates/rebalancer-run/src/recon.rs (and [is_own_order] of broker.rs)

    Reconciliation: does the broker's account match what the run expects? Every check gives findings; one finding of
    severity [Halt] makes the verdict [HaltAndAlert]. *)

From Stdlib Require Import ZArith Lia String Ascii.
From S2P Require Import Prelude Text BTree F64 Externals Decimal DecMath Broker Guard RiskState View.

Local Open Scope Z_scope.

(** ** broker.rs *)

Definition OWN_TAG_PREFIX : string := "rb1:".

(** Our tag, or an id we recorded when placing it. *)
Definition is_own_order (o : OrderReport) (known_order_ids : BTreeSet string) : bool :=
  match rep_tag o with Some t => starts_with t OWN_TAG_PREFIX | None => false end ||
  bs_contains known_order_ids (rep_id o).

(** ** Findings *)

Module ReconCode.
Inductive t :=
| ForeignOrder | PositionDrift | BalanceDrift | OrderMissing | DuplicateFill | StaleView | EquityMismatch
| UnvaluedHolding | NegativeCash | NoBaseline | OwnOpenOrder.
Definition as_str (c : t) : string :=
  match c with
  | ForeignOrder => "RECON_FOREIGN_ORDER"
  | PositionDrift => "RECON_POSITION_DRIFT"
  | BalanceDrift => "RECON_BALANCE_DRIFT"
  | OrderMissing => "RECON_ORDER_MISSING"
  | DuplicateFill => "RECON_DUPLICATE_FILL"
  | StaleView => "RECON_STALE_VIEW"
  | EquityMismatch => "RECON_EQUITY_MISMATCH"
  | UnvaluedHolding => "RECON_UNVALUED_HOLDING"
  | NegativeCash => "RECON_NEGATIVE_CASH"
  | NoBaseline => "RECON_NO_BASELINE"
  | OwnOpenOrder => "RECON_OWN_OPEN_ORDER"
  end.
End ReconCode.

#[export] Instance recon_code_eq_dec : EqDecision ReconCode.t.
Proof. solve_decision. Defined.

Module Severity.
Inductive t := Info | Halt.
End Severity.

#[export] Instance severity_eq_dec : EqDecision Severity.t.
Proof. solve_decision. Defined.

Record ReconFinding := {
  f_code : ReconCode.t;
  f_severity : Severity.t;
  f_symbol : option string;
  f_message : string;
}.

Module ReconVerdict.
Inductive t := Ok | HaltAndAlert.
Definition as_str (v : t) : string := match v with Ok => "OK" | HaltAndAlert => "HALT_AND_ALERT" end.
End ReconVerdict.

Record ReconReport `{Chrono} := {
  rr_at : DateTime;
  findings : list ReconFinding;
  verdict : ReconVerdict.t;
}.

Definition is_halt (f : ReconFinding) : bool := bool_decide (f_severity f = Severity.Halt).

Section reports.
Context `{Chrono}.
Definition has_code (r : ReconReport) (c : ReconCode.t) : bool := existsb (fun f => bool_decide (f_code f = c)) (findings r).
Definition report_codes (r : ReconReport) : list string := (fun f => ReconCode.as_str (f_code f)) <$> findings r.
Definition halt_findings (r : ReconReport) : list ReconFinding := List.filter is_halt (findings r).
Definition halt_summary (r : ReconReport) : string :=
  join " | " ((fun f => ReconCode.as_str (f_code f) +:+ ": " +:+ f_message f) <$> halt_findings r).
End reports.

(** ** Tolerances and the baseline *)

Record ReconTolerances := {
  value_abs : Dec;
  equity_pct : Dec;
  derived_equity_pct : Dec;
  max_view_age_secs : Z;
  max_future_skew_secs : Z;
}.

Definition default_tolerances : ReconTolerances :=
  {| value_abs := from_i64 1; equity_pct := default ZERO (ok (dec_new 1 3)); derived_equity_pct := default ZERO (ok (dec_new 1 2));
     max_view_age_secs := 120; max_future_skew_secs := 5 |}.

(** [max(value_abs, pct * equity)] *)
Definition threshold (t : ReconTolerances) (equity pct : Dec) : Dec :=
  match mul pct equity with
  | Ok p => if dec_ltb (value_abs t) p then p else value_abs t
  | Err _ => value_abs t
  end.

Record ReconBaseline := {
  b_cash : Dec;
  b_holdings : BTreeMap string Dec;
  b_marks : BTreeMap string Dec;
}.

Record ExpectedOrder := {
  e_tag : string;
  e_symbol : string;
  e_side : Side;
  planned_quantity : Dec;
  e_broker_order_id : option string;
  e_reports : list OrderReport;
  anomalies : list string;
  expect_exists : bool;
}.

(** The first report of each broker order id. *)
Fixpoint unique_from (seen : BTreeSet string) (l : list OrderReport) : list OrderReport :=
  match l with
  | [] => []
  | r :: l' =>
      if bs_contains seen (rep_id r) then unique_from seen l'
      else r :: unique_from (bs_insert (rep_id r) seen) l'
  end.
Definition unique_reports (o : ExpectedOrder) : list OrderReport := unique_from [] (e_reports o).

Definition add_mark (m : BTreeMap string Dec) (h : Holding) : BTreeMap string Dec :=
  match mark h with Some p => bt_insert (to_uppercase (hold_symbol h)) p m | None => m end.

Definition from_snapshot `{Chrono} (s : BrokerSnapshot) : ReconBaseline :=
  {| b_cash := s_cash s;
     b_holdings := fold_left (fun m h => bt_insert (to_uppercase (hold_symbol h)) (hold_quantity h) m) (holdings s) [];
     b_marks := fold_left add_mark (holdings s) [] |}.

(** What one fill does to the expected account. *)
Definition apply_fill (o : ExpectedOrder) (b : ReconBaseline) (r : OrderReport) : option ReconBaseline :=
  let* cost := match rep_cost r, rep_avg_price r with
               | Some c, _ => Some c
               | None, Some p => ok (mul (rep_executed r) p)
               | None, None => None
               end in
  let fee := default ZERO (rep_fee r) in
  let sym := to_uppercase (e_symbol o) in
  let q := default ZERO (bt_get (b_holdings b) sym) in
  match e_side o with
  | Buy =>
      let* q' := ok (add q (rep_executed r)) in
      let* spent := ok (add cost fee) in
      let* c := ok (sub (b_cash b) spent) in
      Some {| b_cash := c; b_holdings := bt_insert sym q' (b_holdings b); b_marks := b_marks b |}
  | Sell =>
      let* q' := ok (sub q (rep_executed r)) in
      let* got := ok (sub cost fee) in
      let* c := ok (add (b_cash b) got) in
      Some {| b_cash := c; b_holdings := bt_insert sym q' (b_holdings b); b_marks := b_marks b |}
  end.

(** A report of an id already seen, or with nothing executed, is skipped. *)
Fixpoint after_reports (o : ExpectedOrder) (l : list OrderReport) (acc : ReconBaseline * BTreeSet string)
    : option (ReconBaseline * BTreeSet string) :=
  match l with
  | [] => Some acc
  | r :: l' =>
      let '(b, seen) := acc in
      let seen' := bs_insert (rep_id r) seen in
      if bs_contains seen (rep_id r) || negb (is_positive (rep_executed r)) then after_reports o l' (b, seen')
      else let* b' := apply_fill o b r in after_reports o l' (b', seen')
  end.

Fixpoint after_all (orders : list ExpectedOrder) (acc : ReconBaseline * BTreeSet string) : option (ReconBaseline * BTreeSet string) :=
  match orders with
  | [] => Some acc
  | o :: orders' => let* acc' := after_reports o (unique_reports o) acc in after_all orders' acc'
  end.

Definition after_orders (b : ReconBaseline) (orders : list ExpectedOrder) : option ReconBaseline :=
  fst <$> after_all orders (b, []).

(** ** The checks *)

Definition finding (c : ReconCode.t) (s : Severity.t) (symbol : option string) (message : string) : ReconFinding :=
  {| f_code := c; f_severity := s; f_symbol := symbol; f_message := message |}.

Section check.
Context `{Chrono}.

Record ReconInput := {
  ri_view : BrokerSnapshot;
  ri_now : DateTime;
  known_order_ids : BTreeSet string;
  baseline : option ReconBaseline;
  ri_orders : list ExpectedOrder;
  tolerances : ReconTolerances;
}.

Definition check_stale (at_ taken : DateTime) (tol : ReconTolerances) : list ReconFinding :=
  let age := signed_duration_since at_ taken in
  if duration_seconds (max_view_age_secs tol) <? age then
    [finding ReconCode.StaleView Severity.Halt None
       ("the account view is " +:+ show_int (num_seconds age) +:+ " s old (limit " +:+
        show_int (max_view_age_secs tol) +:+ " s)")]
  else if age <? duration_seconds (- max_future_skew_secs tol) then
    [finding ReconCode.StaleView Severity.Halt None
       ("the account view is stamped " +:+ show_int (- num_seconds age) +:+ " s in the future")]
  else [].

Definition check_open_order (known : BTreeSet string) (o : OrderReport) : ReconFinding :=
  if is_own_order o known then
    finding ReconCode.OwnOpenOrder Severity.Info (Some (rep_symbol o))
      ("our order " +:+ rep_id o +:+ " is still open (" +:+ status_debug (rep_status o) +:+ ")")
  else
    finding ReconCode.ForeignOrder Severity.Halt (Some (rep_symbol o))
      ("open order " +:+ rep_id o +:+ " on " +:+ rep_symbol o +:+ " carries no tag of ours (tag " +:+
       debug_option debug_str (rep_tag o) +:+ "): someone else is trading this account").

Definition check_unvalued (u : UnvaluedHolding) : ReconFinding :=
  finding ReconCode.UnvaluedHolding Severity.Halt (Some (u_asset u))
    (to_string (u_quantity u) +:+ " " +:+ u_asset u +:+ " cannot be valued: " +:+ u_reason u).

Definition check_cash (c : Dec) : list ReconFinding :=
  if is_negative c then
    [finding ReconCode.NegativeCash Severity.Halt None ("cash is " +:+ to_string c +:+ ": margin or an unexplained debit")]
  else [].

(** [sub(a, b).and_then(abs)] *)
Definition gap (a b : Dec) : math Dec := let? d := sub a b in abs d.

Definition check_equity (v : BrokerSnapshot) (tol : ReconTolerances) : list ReconFinding :=
  match gap (s_equity v) (derived_equity v) with
  | Ok g =>
      let limit := threshold tol (s_equity v) (derived_equity_pct tol) in
      if dec_ltb limit g then
        [finding ReconCode.EquityMismatch Severity.Halt None
           ("broker equity " +:+ to_string (s_equity v) +:+ " differs from cash plus holdings " +:+
            to_string (derived_equity v) +:+ " by " +:+ to_string g +:+ " (limit " +:+ to_string limit +:+ ")")]
      else []
  | Err e => [finding ReconCode.EquityMismatch Severity.Halt None ("equity cross-check failed: " +:+ MathError.display e)]
  end.

Definition check_cash_drift (v : BrokerSnapshot) (b : ReconBaseline) (limit : Dec) : list ReconFinding :=
  match gap (s_cash v) (b_cash b) with
  | Ok d =>
      if dec_ltb limit d then
        [finding ReconCode.BalanceDrift Severity.Halt None
           ("cash is " +:+ to_string (s_cash v) +:+ " but " +:+ to_string (b_cash b) +:+
            " was expected: unexplained difference " +:+ to_string d +:+ " (limit " +:+ to_string limit +:+ ")")]
      else []
  | Err e => [finding ReconCode.BalanceDrift Severity.Halt None ("cash comparison failed: " +:+ MathError.display e)]
  end.

(** The price a difference in [sym] is judged at: the view's, else the baseline's. *)
Definition drift_mark (v : BrokerSnapshot) (b : ReconBaseline) (sym : string) : option Dec :=
  match (let* h := holding v sym in mark h) with
  | Some m => Some m
  | None => bt_get (b_marks b) sym
  end.

Definition check_symbol (v : BrokerSnapshot) (b : ReconBaseline) (limit : Dec) (sym : string) : list ReconFinding :=
  let actual := quantity_of v sym in
  let expected := default ZERO (bt_get (b_holdings b) sym) in
  let drift msg := [finding ReconCode.PositionDrift Severity.Halt (Some sym) msg] in
  match gap actual expected with
  | Err e => drift ("quantity comparison failed: " +:+ MathError.display e)
  | Ok delta =>
      if is_zero delta then []
      else match drift_mark v b sym with
           | Some m =>
               match mul delta m with
               | Ok value =>
                   if dec_ltb limit value then
                     drift (sym +:+ ": holding " +:+ to_string actual +:+ ", expected " +:+ to_string expected +:+
                       ": unexplained " +:+ to_string delta +:+ " worth " +:+ to_string value +:+ " (limit " +:+
                       to_string limit +:+ ")")
                   else []
               | Err e => drift ("valuation failed: " +:+ MathError.display e)
               end
           | None =>
               drift (sym +:+ ": holding " +:+ to_string actual +:+ ", expected " +:+ to_string expected +:+
                 " and no price to judge the difference")
           end
  end.

Definition drift_symbols (v : BrokerSnapshot) (b : ReconBaseline) : BTreeSet string :=
  fold_left (fun s h => bs_insert (to_uppercase (hold_symbol h)) s) (holdings v) (bs_of_list (bt_keys (b_holdings b))).

Definition check_drift (v : BrokerSnapshot) (b : ReconBaseline) (tol : ReconTolerances) : list ReconFinding :=
  let limit := threshold tol (s_equity v) (equity_pct tol) in
  check_cash_drift v b limit ++ flat_map (check_symbol v b limit) (bs_elements (drift_symbols v b)).

(** An addition that overflows leaves the total as it was. *)
Definition executed_total (reports : list OrderReport) : Dec :=
  fold_left (fun acc r => default acc (ok (add acc (rep_executed r)))) reports ZERO.

Definition check_report (o : ExpectedOrder) (r : OrderReport) : list ReconFinding :=
  if dec_ltb (rep_quantity r) (rep_executed r) then
    [finding ReconCode.DuplicateFill Severity.Halt (Some (e_symbol o))
       ("order " +:+ rep_id r +:+ " executed " +:+ to_string (rep_executed r) +:+ " of " +:+ to_string (rep_quantity r))]
  else [].

Definition filled_orders (reports : list OrderReport) : list OrderReport := List.filter (fun r => is_positive (rep_executed r)) reports.

Definition check_missing (o : ExpectedOrder) : list ReconFinding :=
  match e_broker_order_id o with
  | Some id =>
      [finding ReconCode.OrderMissing Severity.Halt (Some (e_symbol o))
         ("order " +:+ id +:+ " (" +:+ e_tag o +:+ ") was accepted but the broker no longer knows it")]
  | None =>
      match anomalies o with
      | [] => [finding ReconCode.OrderMissing Severity.Info (Some (e_symbol o))
                 (e_tag o +:+ ": placement outcome was unknown and no such order exists at the broker (not placed)")]
      | _ => []
      end
  end.

Definition check_fills (o : ExpectedOrder) (reports : list OrderReport) : list ReconFinding :=
  let executed := executed_total reports in
  let n := length (filled_orders reports) in
  if (1 <? n)%nat then
    [finding ReconCode.DuplicateFill Severity.Halt (Some (e_symbol o))
       (show_int (Z.of_nat n) +:+ " orders carrying " +:+ e_tag o +:+ " executed (double placement)")]
  else if dec_ltb (planned_quantity o) executed then
    [finding ReconCode.DuplicateFill Severity.Halt (Some (e_symbol o))
       (e_tag o +:+ " executed " +:+ to_string executed +:+ ", more than the " +:+ to_string (planned_quantity o) +:+ " planned")]
  else [].

Definition check_order (o : ExpectedOrder) : list ReconFinding :=
  if negb (expect_exists o) then []
  else
    ((fun a => finding ReconCode.DuplicateFill Severity.Halt (Some (e_symbol o)) (e_tag o +:+ ": " +:+ a)) <$> anomalies o) ++
    match unique_reports o with
    | [] => check_missing o
    | reports => flat_map (check_report o) reports ++ check_fills o reports
    end.

Definition check (i : ReconInput) : list ReconFinding :=
  let v := ri_view i in
  check_stale (ri_now i) (taken_at v) (tolerances i) ++
  (check_open_order (known_order_ids i) <$> open_orders v) ++
  (check_unvalued <$> unvalued v) ++
  check_cash (s_cash v) ++
  check_equity v (tolerances i) ++
  match baseline i with
  | None => [finding ReconCode.NoBaseline Severity.Info None "no baseline: drift cannot be judged on the first run"]
  | Some b => check_drift v b (tolerances i)
  end ++
  flat_map check_order (ri_orders i).

Definition reconcile (i : ReconInput) : ReconReport :=
  let fs := check i in
  {| rr_at := ri_now i; findings := fs;
     verdict := if existsb is_halt fs then ReconVerdict.HaltAndAlert else ReconVerdict.Ok |}.
End check.
