(* ===== verification/ReconFacts.v ===== *)
(** * ReconFacts: what reconciliation accepts, and what it expects

    The verdict is [OK] exactly when the account agrees with the records in every declarative sense below; arithmetic
    that does not fit its 128 bits never counts as agreement. The expected account after a run is the baseline plus
    each fill once. *)

From Stdlib Require Import ZArith Lia String Ascii.
From S2P Require Import Prelude Text BTree F64 Externals Decimal DecMath Policy Broker ReportFacts RiskState View Recon.

Local Open Scope Z_scope.

(** ** Lists of findings *)

Lemma existsb_app_false {A} (f : A → bool) l1 l2 : existsb f (l1 ++ l2) = false ↔ existsb f l1 = false ∧ existsb f l2 = false.
Proof. rewrite existsb_app. apply orb_false_iff. Qed.

Lemma existsb_flat {A B} (f : B → bool) (g : A → list B) l :
  existsb f (flat_map g l) = false ↔ ∀ x, x ∈ l → existsb f (g x) = false.
Proof.
  induction l as [|a l IH]; simpl; [split; [intros _ x []%not_elem_of_nil|done]|].
  rewrite existsb_app_false, IH. setoid_rewrite elem_of_cons. naive_solver.
Qed.

Lemma existsb_map {A B} (f : B → bool) (g : A → B) l : existsb f (g <$> l) = false ↔ ∀ x, x ∈ l → f (g x) = false.
Proof.
  induction l as [|a l IH]; simpl; [split; [intros _ x []%not_elem_of_nil|done]|].
  rewrite orb_false_iff, IH. setoid_rewrite elem_of_cons. naive_solver.
Qed.

(** A check that reports one halting finding when [b] holds. *)
Lemma halt_when (b : bool) c s m : existsb is_halt (if b then [finding c Severity.Halt s m] else []) = false ↔ b = false.
Proof. by destruct b. Qed.

(** ** Exact arithmetic *)

Lemma gap_exact a b g : dec_ok a → dec_ok b → gap a b = Ok g → dec_ok g ∧ atto g = Z.abs (atto a - atto b).
Proof.
  intros Ha Hb. unfold gap. rewrite bind_ok. intros (d & Hd & Hg). apply sub_atto in Hd as [Hd Hda]; [|done|done].
  apply abs_atto in Hg as [Hg Hga]; [|done]. split; [done|]. by rewrite Hga, Hda.
Qed.

(** [max(value_abs, pct * equity)]; a product that does not fit leaves the absolute floor. *)
Lemma threshold_exact t equity pct : dec_ok (value_abs t) → dec_ok equity → dec_ok pct →
  dec_ok (threshold t equity pct) ∧
  atto (threshold t equity pct) =
    match mul pct equity with Ok _ => Z.max (atto (value_abs t)) (atto pct * atto equity / ONE) | Err _ => atto (value_abs t) end.
Proof.
  intros Hv He Hp. unfold threshold. destruct (mul pct equity) as [p|e] eqn:Em; [|done].
  apply mul_atto in Em as [Hpo Hpa]; [|done|done]. rewrite dec_ltb_atto by done.
  destruct (Z.ltb_spec (atto (value_abs t)) (atto p)); split; try done; lia.
Qed.

(** ** What agreement means *)

Section agreement.
Context `{Chrono}.

(** The two amounts differ by at most the limit, and their difference fits. *)
Definition within (a b limit : Dec) : Prop := is_ok (gap a b) = true ∧ Z.abs (atto a - atto b) ≤ atto limit.

Definition fresh (i : ReconInput) : Prop :=
  duration_seconds (- max_future_skew_secs (tolerances i))
    ≤ signed_duration_since (ri_now i) (taken_at (ri_view i))
    ≤ duration_seconds (max_view_age_secs (tolerances i)).

(** The quantity of a symbol is the expected one, or the value of the difference at the known price is in the limit. *)
Definition symbol_agrees (v : BrokerSnapshot) (b : ReconBaseline) (limit : Dec) (sym : string) : Prop :=
  let expected := default ZERO (bt_get (b_holdings b) sym) in
  ∃ delta, gap (quantity_of v sym) expected = Ok delta ∧
    (atto (quantity_of v sym) = atto expected ∨
     ∃ m, drift_mark v b sym = Some m ∧ is_ok (mul delta m) = true ∧
       Z.abs (atto (quantity_of v sym) - atto expected) * atto m / ONE ≤ atto limit).

Definition listed_symbol (v : BrokerSnapshot) (b : ReconBaseline) (sym : string) : Prop :=
  sym ∈ bt_keys (b_holdings b) ∨ ∃ h, h ∈ holdings v ∧ sym = to_uppercase (hold_symbol h).

Definition baseline_agrees (i : ReconInput) (b : ReconBaseline) : Prop :=
  let limit := threshold (tolerances i) (s_equity (ri_view i)) (equity_pct (tolerances i)) in
  within (s_cash (ri_view i)) (b_cash b) limit ∧
  ∀ sym, listed_symbol (ri_view i) b sym → symbol_agrees (ri_view i) b limit sym.

(** An order we sent: no anomaly was met while reading it; when the broker has no report of it, it never accepted it;
    no report executed more than its quantity, at most one executed anything, and no more than was planned. *)
Definition order_agrees (o : ExpectedOrder) : Prop :=
  expect_exists o = true →
    anomalies o = [] ∧
    (e_reports o = [] → e_broker_order_id o = None) ∧
    (∀ r, r ∈ unique_reports o → dec_leb (rep_executed r) (rep_quantity r) = true) ∧
    (length (filled_orders (unique_reports o)) ≤ 1)%nat ∧
    (e_reports o ≠ [] → atto (executed_total (unique_reports o)) ≤ atto (planned_quantity o)).

Record agrees (i : ReconInput) : Prop := {
  ag_fresh : fresh i;
  ag_orders_ours : ∀ o, o ∈ open_orders (ri_view i) → is_own_order o (known_order_ids i) = true;
  ag_valued : unvalued (ri_view i) = [];
  ag_no_debit : 0 ≤ atto (s_cash (ri_view i));
  ag_equity : within (s_equity (ri_view i)) (derived_equity (ri_view i))
    (threshold (tolerances i) (s_equity (ri_view i)) (derived_equity_pct (tolerances i)));
  ag_baseline : ∀ b, baseline i = Some b → baseline_agrees i b;
  ag_orders : ∀ o, o ∈ ri_orders i → order_agrees o;
}.

(** The decimals of the input are well formed. *)
Record input_ok (i : ReconInput) : Prop := {
  in_cash : dec_ok (s_cash (ri_view i));
  in_equity : dec_ok (s_equity (ri_view i));
  in_derived : dec_ok (derived_equity (ri_view i));
  in_snapshot : snapshot_ok (ri_view i);
  in_abs : dec_ok (value_abs (tolerances i));
  in_pct : dec_ok (equity_pct (tolerances i));
  in_derived_pct : dec_ok (derived_equity_pct (tolerances i));
  in_baseline : ∀ b, baseline i = Some b → dec_ok (b_cash b) ∧ Forall dec_ok (b_holdings b).*2 ∧ Forall dec_ok (b_marks b).*2;
  in_orders : ∀ o, o ∈ ri_orders i → dec_ok (planned_quantity o) ∧
    ∀ r, r ∈ e_reports o → dec_ok (rep_quantity r) ∧ dec_ok (rep_executed r);
}.
End agreement.

(** ** Each check halts exactly when its condition fails *)

Section checks.
Context `{Chrono}.

Abbreviation quiet l := (existsb is_halt l = false).

Lemma stale_quiet at_ taken tol : quiet (check_stale at_ taken tol) ↔
  duration_seconds (- max_future_skew_secs tol) ≤ signed_duration_since at_ taken ≤ duration_seconds (max_view_age_secs tol).
Proof.
  unfold check_stale. destruct (Z.ltb_spec (duration_seconds (max_view_age_secs tol)) (signed_duration_since at_ taken)); simpl; [lia|].
  rewrite halt_when, Z.ltb_ge. lia.
Qed.

Lemma open_order_quiet known o : is_halt (check_open_order known o) = false ↔ is_own_order o known = true.
Proof. unfold check_open_order. by destruct (is_own_order o known). Qed.

Lemma unvalued_quiet l : quiet (check_unvalued <$> l) ↔ l = [].
Proof. destruct l; by split. Qed.

Lemma cash_quiet c : dec_ok c → quiet (check_cash c) ↔ 0 ≤ atto c.
Proof.
  intros Hc. unfold check_cash. rewrite halt_when. pose proof (is_negative_atto c Hc) as Hn.
  destruct (is_negative c); [|split; [|done]]; [split; [done|]|]; intros; [lia|]. destruct (Z.lt_ge_cases (atto c) 0); [|done].
  assert (false = true) by tauto. done.
Qed.

(** A comparison of two amounts that reports a difference beyond the limit, or arithmetic that does not fit. *)
Lemma within_quiet a b limit c s (msg : Dec → string) s' msg' : dec_ok a → dec_ok b → dec_ok limit →
  quiet (match gap a b with
         | Ok g => if dec_ltb limit g then [finding c Severity.Halt s (msg g)] else []
         | Err e => [finding c Severity.Halt s' (msg' e)]
         end) ↔ within a b limit.
Proof.
  intros Ha Hb Hl. unfold within. destruct (gap a b) as [g|e] eqn:Eg; [|by split; [|intros []]].
  apply gap_exact in Eg as [Hg He]; [|done|done]. rewrite halt_when, dec_ltb_atto, Z.ltb_ge, He by done. by split; [|intros []].
Qed.

Lemma quantity_ok v sym : snapshot_ok v → dec_ok (quantity_of v sym).
Proof.
  intros Hv. unfold quantity_of, holding. destruct (List.find _ _) as [h|] eqn:Ef; [|apply ZERO_ok].
  apply List.find_some in Ef as [Hin _]. apply Hv. by apply list_elem_of_In.
Qed.

Lemma default_ok m k : Forall dec_ok m.*2 → dec_ok (default ZERO (bt_get (m : BTreeMap string Dec) k)).
Proof.
  intros Hm. destruct (bt_get m k) as [d|] eqn:Eg; [|apply ZERO_ok]. apply bt_get_elem in Eg.
  rewrite Forall_forall in Hm. apply Hm, list_elem_of_fmap. by exists (k, d).
Qed.

Lemma drift_mark_ok v b sym m : snapshot_ok v → Forall dec_ok (b_marks b).*2 → drift_mark v b sym = Some m → dec_ok m.
Proof.
  intros Hv Hb. unfold drift_mark. destruct (holding v sym) as [h|] eqn:Eh; simpl.
  - destruct (mark h) as [p|] eqn:Em.
    + intros [= <-]. apply List.find_some in Eh as [Hin _]. by eapply Hv; [apply list_elem_of_In|].
    + intros Hg. pose proof (default_ok _ sym Hb) as Hd. by rewrite Hg in Hd.
  - intros Hg. pose proof (default_ok _ sym Hb) as Hd. by rewrite Hg in Hd.
Qed.

Lemma symbol_quiet v b limit sym : snapshot_ok v → Forall dec_ok (b_holdings b).*2 → Forall dec_ok (b_marks b).*2 → dec_ok limit →
  quiet (check_symbol v b limit sym) ↔ symbol_agrees v b limit sym.
Proof.
  intros Hv Hh Hm Hl. unfold check_symbol, symbol_agrees.
  pose proof (quantity_ok v sym Hv) as Hq. pose proof (default_ok _ sym Hh) as He.
  destruct (gap (quantity_of v sym) _) as [delta|e] eqn:Eg; [|by split; [|intros (? & ? & _)]].
  pose proof Eg as Eg'. apply gap_exact in Eg' as [Hd Hda]; [|done|done].
  destruct (is_zero delta) eqn:Ez.
  { apply is_zero_atto in Ez; [|done]. split; [|done]. intros _. exists delta. split; [done|]. left. lia. }
  assert (atto (quantity_of v sym) ≠ atto (default ZERO (bt_get (b_holdings b) sym))) as Hne.
  { intros Heq. assert (is_zero delta = true); [|congruence]. apply is_zero_atto; [done|]. lia. }
  destruct (drift_mark v b sym) as [m|] eqn:Em.
  2: { split; [done|]. intros (d & _ & [?|(m & ? & _)]); done. }
  pose proof (drift_mark_ok v b sym m Hv Hm Em) as Hmo.
  destruct (mul delta m) as [value|e] eqn:Emul.
  - pose proof Emul as Emul'. apply mul_atto in Emul' as [Hvo Hva]; [|done|done].
    rewrite halt_when, dec_ltb_atto, Z.ltb_ge by done. split.
    + intros Hle. exists delta. split; [done|]. right. exists m. rewrite <-Hda, <-Hva, Emul. done.
    + intros (d & [= <-] & [?|(m' & [= <-] & _ & Hle)]); [done|]. by rewrite Hva, Hda.
  - split; [done|]. intros (d & [= <-] & [?|(m' & [= <-] & Hok & _)]); [done|]. by rewrite Emul in Hok.
Qed.

Lemma drift_symbols_spec v b sym : sym ∈ bs_elements (drift_symbols v b) ↔ listed_symbol v b sym.
Proof.
  rewrite bs_elements_spec. unfold listed_symbol, drift_symbols. rewrite <-bs_contains_of_list.
  generalize (bs_of_list (bt_keys (b_holdings b))) as s. induction (holdings v) as [|h l IH]; intros s; simpl.
  - split; [by left|]. intros [?|(h & []%not_elem_of_nil & _)]; done.
  - rewrite IH, bs_contains_insert. setoid_rewrite elem_of_cons. naive_solver.
Qed.

Lemma drift_quiet v b tol : snapshot_ok v → dec_ok (s_cash v) → dec_ok (b_cash b) → Forall dec_ok (b_holdings b).*2 →
  Forall dec_ok (b_marks b).*2 → dec_ok (threshold tol (s_equity v) (equity_pct tol)) →
  quiet (check_drift v b tol) ↔
    within (s_cash v) (b_cash b) (threshold tol (s_equity v) (equity_pct tol)) ∧
    ∀ sym, listed_symbol v b sym → symbol_agrees v b (threshold tol (s_equity v) (equity_pct tol)) sym.
Proof.
  intros Hv Hc Hb Hh Hm Hl. unfold check_drift. rewrite existsb_app_false, existsb_flat.
  unfold check_cash_drift. rewrite within_quiet by done.
  setoid_rewrite drift_symbols_spec. by setoid_rewrite symbol_quiet.
Qed.

(** ** Orders *)

Lemma unique_from_in seen l r : r ∈ unique_from seen l → r ∈ l.
Proof.
  revert seen. induction l as [|x l IH]; intros seen; simpl; [done|]. rewrite elem_of_cons.
  destruct (bs_contains seen (rep_id x)); [by right; apply (IH seen)|]. rewrite elem_of_cons. intros [->|Hr]; [by left|].
  right. by eapply IH.
Qed.

Lemma unique_nil o : unique_reports o = [] ↔ e_reports o = [].
Proof. unfold unique_reports. destruct (e_reports o); simpl; by split. Qed.

Lemma missing_quiet o : quiet (check_missing o) ↔ e_broker_order_id o = None.
Proof. unfold check_missing. destruct (e_broker_order_id o); [by split|]. by destruct (anomalies o). Qed.

Lemma executed_ok l : Forall (λ r, dec_ok (rep_executed r)) l → dec_ok (executed_total l).
Proof.
  unfold executed_total. generalize ZERO_ok. generalize ZERO as acc. induction l as [|r l IH]; simpl; intros acc Ha Hl; [done|].
  inversion Hl as [|? ? Hr Hl']; subst. apply IH; [|done]. destruct (add acc (rep_executed r)) as [d|e] eqn:E; [|done].
  by apply add_atto in E as [? _].
Qed.

Lemma fills_quiet o l : dec_ok (planned_quantity o) → dec_ok (executed_total l) →
  quiet (check_fills o l) ↔ (length (filled_orders l) ≤ 1)%nat ∧ atto (executed_total l) ≤ atto (planned_quantity o).
Proof.
  intros Hp He. unfold check_fills. destruct (Nat.ltb_spec 1 (length (filled_orders l))); simpl; [split; [done|lia]|].
  rewrite halt_when, dec_ltb_atto, Z.ltb_ge by done. split; [done|by intros []].
Qed.

Lemma order_quiet o : dec_ok (planned_quantity o) → (∀ r, r ∈ e_reports o → dec_ok (rep_quantity r) ∧ dec_ok (rep_executed r)) →
  quiet (check_order o) ↔ order_agrees o.
Proof.
  intros Hp Hr. unfold check_order, order_agrees. destruct (expect_exists o); simpl; [|done].
  assert (Forall (λ r, dec_ok (rep_executed r)) (unique_reports o)) as Hex.
  { apply Forall_forall. intros r Hin. by apply Hr, (unique_from_in []). }
  rewrite existsb_app_false.
  assert (quiet ((λ a, finding ReconCode.DuplicateFill Severity.Halt (Some (e_symbol o)) (e_tag o +:+ ": " +:+ a)) <$> anomalies o)
    ↔ anomalies o = []) as -> by (destruct (anomalies o); by split).
  destruct (unique_reports o) as [|r0 l] eqn:Eu.
  - apply unique_nil in Eu. rewrite missing_quiet, Eu. split.
    + intros [Ha Hm] _. split_and!; try done; [intros r []%not_elem_of_nil|simpl; lia].
    + intros Hag. destruct (Hag eq_refl) as (Ha & Hm & _). auto.
  - assert (e_reports o ≠ []) as Hne by (rewrite <-unique_nil, Eu; done).
    rewrite existsb_app_false. change (check_report o r0 ++ flat_map (check_report o) l) with (flat_map (check_report o) (r0 :: l)).
    rewrite existsb_flat, fills_quiet by (done || by apply executed_ok).
    assert ((∀ r, r ∈ r0 :: l → quiet (check_report o r)) ↔ ∀ r, r ∈ r0 :: l → dec_leb (rep_executed r) (rep_quantity r) = true) as ->.
    { apply forall_proper. intros r. split; intros Hq Hin; specialize (Hq Hin); revert Hq;
        (destruct (Hr r) as [Hrq Hre]; [apply (unique_from_in []); by rewrite <-Eu in Hin|]);
        unfold check_report; rewrite halt_when, dec_ltb_atto, dec_leb_atto by done; destruct (Z.ltb_spec (atto (rep_quantity r)) (atto (rep_executed r))), (Z.leb_spec (atto (rep_executed r)) (atto (rep_quantity r))); try done; lia. }
    split; [naive_solver|]. intros Hag. destruct (Hag eq_refl) as (? & _ & ? & ? & Ht). split_and!; try done. by apply Ht.
Qed.
End checks.

(** C10. Reconciliation is exact and fails closed: on well-formed decimals the verdict is [OK] if and only if the view
    is fresh, every open order is ours, every holding is valued, cash is no debit, the broker's equity is within its
    tolerance of the derived one, cash and every listed symbol are within tolerance of the baseline (a symbol without
    a known price must match exactly), and every order we sent is accounted for once; a difference or a valuation that
    does not fit in 128 bits counts as disagreement. *)
Theorem reconcile_exact `{Chrono} (i : ReconInput) : input_ok i → verdict (reconcile i) = ReconVerdict.Ok ↔ agrees i.
Proof.
  intros Hi. pose proof Hi as [Hc He Hd Hv Ha Hp Hdp Hb Ho].
  destruct (threshold_exact (tolerances i) _ _ Ha He Hp) as [Hl _].
  destruct (threshold_exact (tolerances i) _ _ Ha He Hdp) as [Hld _].
  assert (verdict (reconcile i) = ReconVerdict.Ok ↔ existsb is_halt (check i) = false) as ->.
  { unfold reconcile. simpl. by destruct (existsb is_halt (check i)). }
  unfold check. rewrite !existsb_app_false, stale_quiet, existsb_map, unvalued_quiet, cash_quiet, existsb_flat by done.
  unfold check_equity. rewrite within_quiet by done. setoid_rewrite open_order_quiet.
  assert (existsb is_halt (match baseline i with
      | None => [finding ReconCode.NoBaseline Severity.Info None "no baseline: drift cannot be judged on the first run"]
      | Some b => check_drift (ri_view i) b (tolerances i) end) = false ↔ ∀ b, baseline i = Some b → baseline_agrees i b) as ->.
  { destruct (baseline i) as [b|]; [|done]. destruct (Hb b eq_refl) as (Hbc & Hbh & Hbm).
    rewrite drift_quiet by done. split; [by intros Hq ? [= <-]|]. intros Hq. by apply Hq. }
  assert ((∀ o, o ∈ ri_orders i → existsb is_halt (check_order o) = false) ↔ ∀ o, o ∈ ri_orders i → order_agrees o) as ->.
  { apply forall_proper. intros o. split; intros Hq Hin; destruct (Ho o Hin); by apply order_quiet, Hq. }
  split; [by intros (? & ? & ? & ? & ? & ? & ?)|]. by intros [].
Qed.

(** ** The expected account after a run *)

(** Every report of every order, in order; of each broker order id the first one counts, when it executed anything. *)
Definition all_reports (orders : list ExpectedOrder) : list (ExpectedOrder * OrderReport) :=
  flat_map (λ o, (o,.) <$> e_reports o) orders.

Fixpoint counted_from (seen : list string) (l : list (ExpectedOrder * OrderReport)) : list (ExpectedOrder * OrderReport) :=
  match l with
  | [] => []
  | (o, r) :: l' =>
      if bool_decide (rep_id r ∈ seen) then counted_from seen l'
      else (if is_positive (rep_executed r) then [(o, r)] else []) ++ counted_from (rep_id r :: seen) l'
  end.
Definition counted_fills (orders : list ExpectedOrder) : list (ExpectedOrder * OrderReport) := counted_from [] (all_reports orders).

Fixpoint apply_fills (l : list (ExpectedOrder * OrderReport)) (b : ReconBaseline) : option ReconBaseline :=
  match l with
  | [] => Some b
  | (o, r) :: l' => let* b' := apply_fill o b r in apply_fills l' b'
  end.

Lemma apply_fills_app l1 l2 b : apply_fills (l1 ++ l2) b = let* b' := apply_fills l1 b in apply_fills l2 b'.
Proof. revert b. induction l1 as [|[o r] l1 IH]; intros b; simpl; [done|]. destruct (apply_fill o b r); simpl; [apply IH|done]. Qed.

Definition same_seen (s : BTreeSet string) (l : list string) : Prop := ∀ k, bs_contains s k = true ↔ k ∈ l.

Lemma counted_ext s1 s2 l : (∀ k, k ∈ s1 ↔ k ∈ s2) → counted_from s1 l = counted_from s2 l.
Proof.
  revert s1 s2. induction l as [|[o r] l IH]; intros s1 s2 Hs; simpl; [done|].
  rewrite (bool_decide_ext _ _ (Hs (rep_id r))). destruct (bool_decide _); [by apply IH|]. f_equal. apply IH.
  intros k. rewrite !elem_of_cons, Hs. done.
Qed.

Lemma counted_app s l1 l2 : counted_from s (l1 ++ l2) = counted_from s l1 ++ counted_from ((rep_id ∘ snd <$> l1) ++ s) l2.
Proof.
  revert s. induction l1 as [|[o r] l1 IH]; intros s; cbn [app counted_from]; [done|].
  destruct (bool_decide_reflect (rep_id r ∈ s)) as [Hin|Hni].
  - rewrite IH. f_equal. apply counted_ext. intros k. rewrite fmap_cons, elem_of_app, elem_of_app, elem_of_cons. simpl.
    split; [tauto|]. intros [[->|?]|?]; tauto.
  - rewrite IH, app_assoc. f_equal. apply counted_ext. intros k.
    rewrite fmap_cons, elem_of_app, elem_of_app, !elem_of_cons. simpl. tauto.
Qed.

(** The reports of one order, with the ones its own loop dropped ([s0]) and the ones seen before ([seen]). *)
Lemma after_reports_counted o l s0 seen sl b : same_seen seen sl → (∀ k, bs_contains s0 k = true → k ∈ sl) →
  match after_reports o (unique_from s0 l) (b, seen) with
  | Some (b', seen') => apply_fills (counted_from sl ((o,.) <$> l)) b = Some b' ∧ same_seen seen' ((rep_id <$> l) ++ sl)
  | None => apply_fills (counted_from sl ((o,.) <$> l)) b = None
  end.
Proof.
  revert s0 seen sl b. induction l as [|r l IH]; intros s0 seen sl b Hs H0; [done|].
  rewrite (fmap_cons (o,.)). cbn [unique_from counted_from].
  assert (∀ seen' : BTreeSet string, rep_id r ∈ sl → same_seen seen' ((rep_id <$> l) ++ sl) →
    same_seen seen' ((rep_id <$> r :: l) ++ sl)) as Hsame.
  { intros seen' Hin Hs' k. rewrite (Hs' k), fmap_cons, !elem_of_app, elem_of_cons.
    split; [tauto|]. intros [[->|?]|?]; tauto. }
  destruct (bs_contains s0 (rep_id r)) eqn:E0.
  - rewrite bool_decide_true by auto. specialize (IH s0 seen sl b Hs H0).
    destruct (after_reports o (unique_from s0 l) (b, seen)) as [[b' seen']|]; [|done]. destruct IH. split; [done|]. apply Hsame; auto.
  - cbn [after_reports]. assert (∀ k, bs_contains (bs_insert (rep_id r) s0) k = true → k ∈ rep_id r :: sl) as H0'.
    { intros k. rewrite bs_contains_insert, elem_of_cons. naive_solver. }
    assert (same_seen (bs_insert (rep_id r) seen) (rep_id r :: sl)) as Hs'.
    { intros k. rewrite bs_contains_insert, elem_of_cons, (Hs k). done. }
    assert (∀ seen' : BTreeSet string, same_seen seen' ((rep_id <$> l) ++ rep_id r :: sl) → same_seen seen' ((rep_id <$> r :: l) ++ sl)) as Hmid.
    { intros seen' Hx k. rewrite (Hx k), fmap_cons, !elem_of_app, !elem_of_cons. tauto. }
    destruct (bool_decide_reflect (rep_id r ∈ sl)) as [Hin|Hni].
    + assert (bs_contains seen (rep_id r) = true) as -> by by apply Hs. cbn [orb].
      assert (counted_from sl ((o,.) <$> l) = counted_from (rep_id r :: sl) ((o,.) <$> l)) as ->.
      { apply counted_ext. intros k. rewrite elem_of_cons. naive_solver. }
      specialize (IH _ _ _ b Hs' H0'). destruct (after_reports _ _ _) as [[b' seen']|]; [|done]. destruct IH. auto.
    + assert (bs_contains seen (rep_id r) = false) as ->.
      { destruct (bs_contains seen (rep_id r)) eqn:Ec; [|done]. by apply Hs in Ec. }
      cbn [orb]. destruct (is_positive (rep_executed r)); cbn [negb app].
      * cbn [apply_fills]. destruct (apply_fill o b r) as [b1|]; cbn; [|done].
        specialize (IH _ _ _ b1 Hs' H0'). destruct (after_reports _ _ _) as [[b' seen']|]; [|done]. destruct IH. auto.
      * specialize (IH _ _ _ b Hs' H0'). destruct (after_reports _ _ _) as [[b' seen']|]; [|done]. destruct IH. auto.
Qed.

Lemma after_all_counted orders seen sl b : same_seen seen sl →
  fst <$> after_all orders (b, seen) = apply_fills (counted_from sl (all_reports orders)) b.
Proof.
  revert seen sl b. induction orders as [|o orders IH]; intros seen sl b Hs; simpl; [done|].
  rewrite counted_app, apply_fills_app.
  pose proof (after_reports_counted o (e_reports o) [] seen sl b Hs) as Hr. unfold unique_reports.
  destruct (after_reports o (unique_from [] (e_reports o)) (b, seen)) as [[b' seen']|]; simpl.
  - destruct Hr as [-> Hs']; [done|]. simpl. apply IH. by rewrite <-list_fmap_compose.
  - by rewrite Hr.
Qed.

Lemma after_orders_counted b orders : after_orders b orders = apply_fills (counted_fills orders) b.
Proof. apply after_all_counted. intros k. split; [done|]. by intros []%not_elem_of_nil. Qed.

(** What a fill adds to the quantity of its symbol, and to cash, in units of 10^-18. *)
Definition quantity_effect (sym : string) (x : ExpectedOrder * OrderReport) : Z :=
  let '(o, r) := x in
  if String.eqb (to_uppercase (e_symbol o)) sym then
    match e_side o with Buy => atto (rep_executed r) | Sell => - atto (rep_executed r) end
  else 0.

(** The reported cost, else quantity times average price. *)
Definition fill_cost (r : OrderReport) : Z :=
  match rep_cost r, rep_avg_price r with
  | Some c, _ => atto c
  | None, Some p => atto (rep_executed r) * atto p / ONE
  | None, None => 0
  end.

Definition cash_effect (x : ExpectedOrder * OrderReport) : Z :=
  let '(o, r) := x in
  let fee := atto (default ZERO (rep_fee r)) in
  match e_side o with Buy => - (fill_cost r + fee) | Sell => fill_cost r - fee end.

Definition total {A} (f : A → Z) (l : list A) : Z := foldr (λ x s, f x + s) 0 l.

Lemma total_cons {A} (f : A → Z) x l : total f (x :: l) = f x + total f l.
Proof. done. Qed.

Definition baseline_ok (b : ReconBaseline) : Prop := dec_ok (b_cash b) ∧ ∀ k, dec_ok (default ZERO (bt_get (b_holdings b) k)).
Definition expected_quantity (b : ReconBaseline) (sym : string) : Z := atto (default ZERO (bt_get (b_holdings b) sym)).

Lemma report_fee_ok r : report_decs_ok r → dec_ok (default ZERO (rep_fee r)).
Proof. intros [_ _ _ Hf]. destruct (rep_fee r) as [d|]; [by apply Hf|apply ZERO_ok]. Qed.

Lemma held_insert b sym q k c m : dec_ok q → baseline_ok b → dec_ok c →
  let b' := {| b_cash := c; b_holdings := bt_insert sym q (b_holdings b); b_marks := m |} in
  baseline_ok b' ∧ expected_quantity b' k = if String.eqb sym k then atto q else expected_quantity b k.
Proof.
  intros Hq [Hc Hb] Hc' b'. split.
  - split; [done|]. intros k'. simpl. rewrite bt_get_insert. by destruct (kcmp k' sym).
  - unfold expected_quantity. simpl. destruct (String.eqb_spec sym k) as [->|Hne]; [by rewrite bt_get_insert_eq|]. by rewrite bt_get_insert_ne.
Qed.

Lemma apply_fill_exact o b r b' : baseline_ok b → report_decs_ok r → apply_fill o b r = Some b' →
  baseline_ok b' ∧ (∀ sym, expected_quantity b' sym = expected_quantity b sym + quantity_effect sym (o, r)) ∧
  atto (b_cash b') = atto (b_cash b) + cash_effect (o, r).
Proof.
  intros Hb Hr. pose proof (report_fee_ok r Hr) as Hf. pose proof Hr as [He Hc Hp _]. pose proof Hb as [Hbc Hbh].
  unfold apply_fill, quantity_effect, cash_effect.
  destruct (match rep_cost r, rep_avg_price r with
            | Some c, _ => Some c | None, Some p => ok (mul (rep_executed r) p) | None, None => None end) as [cost|] eqn:Ec; [|done].
  assert (dec_ok cost ∧ atto cost = fill_cost r) as [Hco Hca].
  { unfold fill_cost. destruct (rep_cost r) as [c|]; [injection Ec as <-; split; [by apply Hc|done]|].
    destruct (rep_avg_price r) as [p|]; [|done]. apply ok_some in Ec. by apply mul_atto in Ec; [|done|by apply Hp]. }
  rewrite <-Hca. specialize (Hbh (to_uppercase (e_symbol o))). cbn [option_bind mbind].
  destruct (e_side o).
  - destruct (ok (add _ (rep_executed r))) as [q|] eqn:Eq; [|done]. destruct (ok (add cost _)) as [s|] eqn:Es; [|done].
    destruct (ok (sub (b_cash b) s)) as [c|] eqn:Ecs; [|done]. intros [= <-]. apply ok_some in Eq, Es, Ecs.
    apply add_atto in Eq as [Hq Hqa]; [|done|done]. apply add_atto in Es as [Hs Hsa]; [|done|done].
    apply sub_atto in Ecs as [Hcc Hcca]; [|done|done]. split; [by apply (held_insert b _ q EmptyString c)|]. split; [|simpl; lia].
    intros sym. destruct (held_insert b (to_uppercase (e_symbol o)) q sym c (b_marks b)) as [_ ->]; [done..|].
    destruct (String.eqb_spec (to_uppercase (e_symbol o)) sym) as [<-|]; [rewrite Hqa; done|lia].
  - destruct (ok (sub _ (rep_executed r))) as [q|] eqn:Eq; [|done]. destruct (ok (sub cost _)) as [s|] eqn:Es; [|done].
    destruct (ok (add (b_cash b) s)) as [c|] eqn:Ecs; [|done]. intros [= <-]. apply ok_some in Eq, Es, Ecs.
    apply sub_atto in Eq as [Hq Hqa]; [|done|done]. apply sub_atto in Es as [Hs Hsa]; [|done|done].
    apply add_atto in Ecs as [Hcc Hcca]; [|done|done]. split; [by apply (held_insert b _ q EmptyString c)|]. split; [|simpl; lia].
    intros sym. destruct (held_insert b (to_uppercase (e_symbol o)) q sym c (b_marks b)) as [_ ->]; [done..|].
    destruct (String.eqb_spec (to_uppercase (e_symbol o)) sym) as [<-|]; [rewrite Hqa; unfold expected_quantity; lia|lia].
Qed.

Lemma apply_fills_exact l b b' : baseline_ok b → (∀ x, x ∈ l → report_decs_ok x.2) → apply_fills l b = Some b' →
  baseline_ok b' ∧ (∀ sym, expected_quantity b' sym = expected_quantity b sym + total (quantity_effect sym) l) ∧
  atto (b_cash b') = atto (b_cash b) + total cash_effect l.
Proof.
  revert b. induction l as [|[o r] l IH]; intros b Hb Hl; cbn [apply_fills].
  - intros [= <-]. split; [done|]. simpl. split; [intros; lia|lia].
  - destruct (apply_fill o b r) as [b1|] eqn:E; [|done]. cbn [mbind option_bind]. intros Hrest.
    apply apply_fill_exact in E as (Hb1 & Hq & Hc); [|done|apply (Hl (o, r)); left].
    apply IH in Hrest as (Hb' & Hq' & Hc'); [|done|intros x Hx; apply Hl; by right].
    split; [done|]. split; [intros sym; rewrite Hq', Hq, total_cons; lia|]. rewrite Hc', Hc, total_cons. lia.
Qed.

Lemma counted_from_in seen l x : x ∈ counted_from seen l → x ∈ l.
Proof.
  revert seen. induction l as [|[o r] l IH]; intros seen; simpl; [done|]. rewrite elem_of_cons.
  destruct (bool_decide _); [right; by eapply IH|]. rewrite elem_of_app. destruct (is_positive (rep_executed r)).
  - rewrite list_elem_of_singleton. intros [->|Hx]; [by left|right; by eapply IH].
  - intros [[]%not_elem_of_nil|Hx]. right. by eapply IH.
Qed.

(** C23. The expected account counts every fill once. The baseline after the orders of a run is the baseline plus, for
    each broker order id, the FIRST report that carries it when that report executed something: a buy adds its
    quantity and spends cost plus fee, a sell removes its quantity and receives cost minus fee (the cost it reports,
    else quantity times average price), whatever order the reports came in and however often they repeat an id. *)
Theorem after_orders_accounts b orders b' :
  baseline_ok b → (∀ o r, o ∈ orders → r ∈ e_reports o → report_decs_ok r) → after_orders b orders = Some b' →
  (∀ sym, expected_quantity b' sym = expected_quantity b sym + total (quantity_effect sym) (counted_fills orders)) ∧
  atto (b_cash b') = atto (b_cash b) + total cash_effect (counted_fills orders) ∧
  NoDup ((λ x, rep_id x.2) <$> counted_fills orders).
Proof.
  intros Hb Ho. rewrite after_orders_counted. intros Ha.
  apply apply_fills_exact in Ha as (_ & Hq & Hc); [|done|].
  - split; [done|]. split; [done|]. unfold counted_fills.
    assert (∀ seen l, NoDup ((λ x, rep_id x.2) <$> counted_from seen l) ∧
      ∀ x, x ∈ counted_from seen l → rep_id x.2 ∉ seen) as Hnd; [|apply Hnd].
    intros seen l. revert seen. induction l as [|[o r] l IH]; intros seen; cbn [counted_from].
    { split; [constructor|]. by intros x []%not_elem_of_nil. }
    destruct (bool_decide_reflect (rep_id r ∈ seen)) as [Hin|Hni]; [apply IH|].
    destruct (IH (rep_id r :: seen)) as [Hnd Hnot]. destruct (is_positive (rep_executed r)); cbn [app].
    + split.
      * rewrite fmap_cons. constructor; [|done]. intros (x & Hx & Hxin)%list_elem_of_fmap. apply (Hnot x Hxin). rewrite <-Hx. left.
      * intros x [->|Hx]%elem_of_cons; [done|]. intros Hs. apply (Hnot x Hx). by right.
    + split; [done|]. intros x Hx Hs. apply (Hnot x Hx). by right.
  - intros [o r] Hx%counted_from_in. unfold all_reports in Hx.
    apply list_elem_of_In, in_flat_map in Hx as (o' & Ho' & Hx). apply list_elem_of_In, list_elem_of_fmap in Hx as (r' & [= -> ->] & Hr).
    apply (Ho o'); [by apply list_elem_of_In|done].
Qed.

(** ** A concrete run: 1 BTC bought, its report read twice; 2 ETH sold *)

Module ReconSample.
Import Baseline.
Local Existing Instance epoch_chrono.

Definition report (id : string) (side : Side) (executed price fee : string) : OrderReport :=
  {| rep_id := id; rep_userref := None; rep_tag := Some "rb1:t"; rep_symbol := "BTC/USD"; rep_side := Some side;
     rep_kind := Some Market; rep_status := OrderStatus.Filled; rep_raw_status := "closed"; rep_reason := None;
     rep_quantity := lit executed; rep_executed := lit executed; rep_avg_price := Some (lit price); rep_cost := None;
     rep_fee := Some (lit fee); rep_financing := f64_zero; rep_open_time := None; rep_close_time := None |}.

Definition order (tag symbol : string) (side : Side) (q : string) (reports : list OrderReport) : ExpectedOrder :=
  {| e_tag := tag; e_symbol := symbol; e_side := side; planned_quantity := lit q; e_broker_order_id := Some "O1";
     e_reports := reports; anomalies := []; expect_exists := true |}.

Definition run_orders : list ExpectedOrder :=
  let buy := report "O1" Buy "1" "100" "0.5" in
  [order "rb1:a" "BTC/USD" Buy "1" [buy; buy]; order "rb1:b" "eth/usd" Sell "2" [report "O2" Sell "2" "10" "0.1"]]%string.

Definition before : ReconBaseline :=
  {| b_cash := lit "500"; b_holdings := bt_of_list [("ETH/USD", lit "5")]%string;
     b_marks := bt_of_list [("ETH/USD", lit "10")]%string |}.

Definition after : ReconBaseline := default before (after_orders before run_orders).

Definition hold (s q v m : string) : Holding :=
  {| hold_symbol := s; hold_class := "crypto_spot"; hold_quantity := lit q; mark := Some (lit m); hold_value := lit v |}.

Definition view (cash : string) : BrokerSnapshot :=
  {| s_venue := "kraken"; s_ccy := "USD"; s_equity := lit "549"; s_cash := lit cash;
     holdings := [hold "BTC/USD" "1" "100" "100"; hold "ETH/USD" "3" "30" "10"]; unvalued := []; open_orders := [];
     excluded_balances := []; taken_at := 0; derived_equity := lit "549.4" |}.

Definition input (cash : string) : ReconInput :=
  {| ri_view := view cash; ri_now := 1000000000; known_order_ids := []; baseline := Some after; ri_orders := run_orders;
     tolerances := default_tolerances |}.

Lemma some_ok s : opt_dec_ok (Some (lit s)).
Proof. intros d [= <-]. apply lit_ok. Qed.

Lemma report_ok id side q p f : report_decs_ok (report id side q p f).
Proof. split; simpl; try done; [apply lit_ok|apply some_ok|apply some_ok]. Qed.

Lemma run_reports_ok o r : o ∈ run_orders → r ∈ e_reports o → dec_ok (planned_quantity o) ∧ dec_ok (rep_quantity r) ∧ report_decs_ok r.
Proof.
  intros Ho Hr. repeat (apply elem_of_cons in Ho as [->|Ho]); [..|by apply not_elem_of_nil in Ho];
    simpl in Hr; repeat (apply elem_of_cons in Hr as [->|Hr]); try (by apply not_elem_of_nil in Hr);
    (split; [apply lit_ok|split; [apply lit_ok|apply report_ok]]).
Qed.

Lemma input_is_ok c : input_ok (input c).
Proof.
  split; simpl; try apply lit_ok; try (by apply dec_okb_spec; vm_compute).
  - intros h. repeat (intros [->|Hh]%elem_of_cons; [split; simpl; [apply lit_ok|apply lit_ok|apply some_ok]|revert Hh]).
    by intros []%not_elem_of_nil.
  - intros b [= <-]. split; [by apply dec_okb_spec; vm_compute|].
    split; repeat (constructor; [by apply dec_okb_spec; vm_compute|]); constructor.
  - intros o Ho. assert (dec_ok (planned_quantity o)) as Hp.
    { repeat (apply elem_of_cons in Ho as [->|Ho]); [apply lit_ok..|by apply not_elem_of_nil in Ho]. }
    split; [done|]. intros r Hr. destruct (run_reports_ok o r Ho Hr) as (_ & Hq & [He _ _ _]). done.
Qed.
End ReconSample.

(** The fills explain 419.4 of cash; a deposit of 5 more does not pass. *)
Example recon_sample_verdicts :
  verdict (@reconcile epoch_chrono (ReconSample.input "419.4")) = ReconVerdict.Ok ∧
  report_codes (@reconcile epoch_chrono (ReconSample.input "424.4")) = ["RECON_BALANCE_DRIFT"]%string.
Proof. vm_compute. done. Qed.

Lemma reconcile_exact_witness :
  @input_ok epoch_chrono (ReconSample.input "419.4") ∧ @agrees epoch_chrono (ReconSample.input "419.4") ∧
  ¬ @agrees epoch_chrono (ReconSample.input "424.4").
Proof.
  split; [apply ReconSample.input_is_ok|]. split.
  - apply (@reconcile_exact epoch_chrono _ (ReconSample.input_is_ok "419.4")). by vm_compute.
  - intros Ha. apply (@reconcile_exact epoch_chrono _ (ReconSample.input_is_ok "424.4")) in Ha. revert Ha. by vm_compute.
Defined.

Lemma after_orders_accounts_witness :
  expected_quantity ReconSample.after "BTC/USD" = 1 * ONE ∧ expected_quantity ReconSample.after "ETH/USD" = 3 * ONE ∧
  atto (b_cash ReconSample.after) = atto (Baseline.lit "419.4").
Proof.
  destruct (after_orders_accounts ReconSample.before ReconSample.run_orders ReconSample.after) as (Hq & Hc & _).
  - split; [apply Baseline.lit_ok|]. intros k. unfold ReconSample.before. simpl. destruct (String.compare _ _); apply Baseline.lit_ok || apply ZERO_ok.
  - intros o r Ho Hr. by destruct (ReconSample.run_reports_ok o r Ho Hr) as (_ & _ & ?).
  - by vm_compute.
  - rewrite !Hq, Hc. split_and!; vm_compute; reflexivity.
Defined.
