(* ===== verification/Flatten.v ===== *)
(** * Flatten: crates/rebalancer-run/src/flatten.rs (and the broker interface of broker.rs, clock.rs)

    The kill path: cancel our own open orders, cover every short, sell every long, verify flat. The code is a program
    over the calls it makes of the broker and the clock ([call], a signature for [Calls.prog]), so that a theorem about every path holds for every behaviour of the broker. *)

From Stdlib Require Import ZArith Lia String Ascii.
From S2P Require Import Prelude Text BTree F64 Externals Decimal DecMath Broker Venue Guard RiskState View Recon Calls.

Local Open Scope Z_scope.

Module SnapshotError.
Inductive t := Broker (e : BrokerError) | View (e : ViewError).
Definition code (e : t) : string :=
  match e with Broker _ => "BROKER_READ_FAILED" | View v => ViewError.code v end.
Definition display (e : t) : string :=
  match e with
  | Broker e => "BROKER_UNREACHABLE: " +:+ BrokerError.display e
  | View v => ViewError.display v
  end.
End SnapshotError.
Abbreviation SnapshotError := SnapshotError.t.

(** ** Programs over broker and clock calls *)

(** [trait Broker] and [trait Clock]: a call and the type of its answer. *)
Inductive call `{Chrono} : Type → Type :=
| Now : call DateTime
| SleepSecs (secs : Z) : call unit
| Snapshot (at_ : DateTime) : call (result SnapshotError BrokerSnapshot)
| Place (req : OrderRequest) : call (broker PlaceOutcome.t)
| GetOrder (id : string) : call (broker OrderReport)
| OpenOrders : call (broker (list OrderReport))
| FindByTag (tag : string) : call (broker (list OrderReport))
| CancelAndSettle (id : string) : call (broker (CancelOutcome * OrderReport)).

(** ** Codes and records *)

Module FlattenCode.
Inductive t :=
| ReadFailed | CancelFailed | CancelTargetNotFound | CancelUnsettled | ShortHeld | CannotSize | LookupFailed
| OrderNotSent | OrderRejected | OrderUnsettled | DuplicateFillAnomaly | OpenOrdersRemain | NotFlat.
Definition as_str (c : t) : string :=
  match c with
  | ReadFailed => "FLATTEN_READ_FAILED"
  | CancelFailed => "FLATTEN_CANCEL_FAILED"
  | CancelTargetNotFound => "FLATTEN_CANCEL_TARGET_NOT_FOUND"
  | CancelUnsettled => "FLATTEN_CANCEL_UNSETTLED"
  | ShortHeld => "FLATTEN_SHORT_HELD"
  | CannotSize => "FLATTEN_CANNOT_SIZE"
  | LookupFailed => "FLATTEN_LOOKUP_FAILED"
  | OrderNotSent => "FLATTEN_ORDER_NOT_SENT"
  | OrderRejected => "FLATTEN_ORDER_REJECTED"
  | OrderUnsettled => "FLATTEN_ORDER_UNSETTLED"
  | DuplicateFillAnomaly => "FLATTEN_DUPLICATE_FILL_ANOMALY"
  | OpenOrdersRemain => "FLATTEN_OPEN_ORDERS_REMAIN"
  | NotFlat => "FLATTEN_NOT_FLAT"
  end.
Definition is_blocking (c : t) : bool :=
  match c with CancelUnsettled | OrderUnsettled | DuplicateFillAnomaly | OpenOrdersRemain | NotFlat => true | _ => false end.
End FlattenCode.

#[export] Instance flatten_code_eq_dec : EqDecision FlattenCode.t.
Proof. solve_decision. Defined.

Record FlattenFailure := { ff_code : FlattenCode.t; ff_message : string }.

#[export] Instance flatten_failure_eq_dec : EqDecision FlattenFailure.
Proof. solve_decision. Defined.

Record CancelRecord := {
  cr_broker_order_id : string;
  cr_tag : option string;
  cr_canceled_count : Z;
  final_status : OrderStatus.t;
  cr_executed : Dec;
}.

Module FlattenOutcome.
Inductive t := Filled | PartiallyFilled | NothingExecuted | Rejected | NotSent | UnknownNotFound | Unsettled.
End FlattenOutcome.

#[export] Instance flatten_outcome_eq_dec : EqDecision FlattenOutcome.t.
Proof. solve_decision. Defined.

Record FlattenOrder := {
  fo_tag : string;
  fo_symbol : string;
  fo_side : Side;
  fo_quantity : Dec;
  fo_broker_order_id : option string;
  outcome : FlattenOutcome.t;
  fo_status : option OrderStatus.t;
  fo_executed : Dec;
  fo_avg_price : option Dec;
  fo_cost : option Dec;
  fo_fee : option Dec;
  adopted_by_tag : bool;
}.

Record DustRecord := { dust_symbol : string; dust_quantity : Dec; dust_reason : string }.

Module FlattenVerdict.
Inductive t := Flat | FlatWithDust | HaltAndAlert.
Definition as_str (v : t) : string :=
  match v with Flat => "FLAT" | FlatWithDust => "FLAT_WITH_DUST" | HaltAndAlert => "HALT_AND_ALERT" end.
End FlattenVerdict.

Record FlattenReport `{Chrono} := {
  fr_attempt_key : string;
  started_at : DateTime;
  finished_at : DateTime;
  rounds : Z;
  fr_cancels : list CancelRecord;
  fr_orders : list FlattenOrder;
  fr_dust : list DustRecord;
  fr_unmanaged : list DustRecord;
  foreign_open_orders : list string;
  fr_failures : list FlattenFailure;
  residual : list DustRecord;
  verified_flat : bool;
  fr_verdict : FlattenVerdict.t;
}.

Definition flatten_summary `{Chrono} (r : FlattenReport) : string :=
  "flatten " +:+ FlattenVerdict.as_str (fr_verdict r) +:+ ": " +:+ show_int (Z.of_nat (length (fr_orders r))) +:+
  " order(s), " +:+ show_int (Z.of_nat (length (fr_cancels r))) +:+ " cancel(s), " +:+
  show_int (Z.of_nat (length (fr_dust r))) +:+ " dust, " +:+ show_int (Z.of_nat (length (fr_failures r))) +:+
  " failure(s): " +:+ join " | " ((fun f => FlattenCode.as_str (ff_code f) +:+ ": " +:+ ff_message f) <$> fr_failures r).

Record FlattenSpec := {
  fs_account_id : string;
  attempt_key : string;
  universe : BTreeSet string;
  venue_rules : VenueRuleBook;
  fs_known_order_ids : BTreeSet string;
  max_rounds : Z;
  max_polls : Z;
  poll_secs : Z;
  max_tag_index : Z;
}.

Definition spec_new (account attempt : string) (universe : BTreeSet string) (rules : VenueRuleBook)
    (known : BTreeSet string) : FlattenSpec :=
  {| fs_account_id := account; attempt_key := attempt; universe := universe; venue_rules := rules;
     fs_known_order_ids := known; max_rounds := 4; max_polls := 3; poll_secs := 1; max_tag_index := 25 |}.

(** ** Tags *)

Definition FLATTEN_TAG_PREFIX : string := "rb1:fl:".

Section tags.
Context `{Sha256}.

Definition leg_tag (account attempt_key symbol leg : string) (k : Z) : string :=
  let identity := "flatten:" +:+ account +:+ ":" +:+ attempt_key +:+ ":" +:+ symbol +:+ ":" +:+ leg +:+ ":" +:+ show_int k in
  let attempt := stake 20 (sfilter is_ascii_alphanumeric attempt_key) in
  let readable := to_uppercase (stake 10 (sfilter is_ascii_alphanumeric symbol)) in
  FLATTEN_TAG_PREFIX +:+ attempt +:+ ":" +:+ readable +:+ ":" +:+ show_int k +:+ ":" +:+ stake 16 (sha256_hex identity).

Definition flatten_tag (account attempt_key symbol : string) (k : Z) : string := leg_tag account attempt_key symbol "sell" k.
Definition flatten_cover_tag (account attempt_key symbol : string) (k : Z) : string := leg_tag account attempt_key symbol "cover" k.
End tags.

(** ** The state *)

Record Flattener := {
  cancels : list CancelRecord;
  orders : list FlattenOrder;
  failures : list FlattenFailure;
  foreign : BTreeSet string;
  first_short : BTreeMap string Dec;
}.

Definition flattener_new : Flattener := {| cancels := []; orders := []; failures := []; foreign := []; first_short := [] |}.

Definition push_failure (code : FlattenCode.t) (message : string) (f : Flattener) : Flattener :=
  {| cancels := cancels f; orders := orders f; failures := failures f ++ [{| ff_code := code; ff_message := message |}];
     foreign := foreign f; first_short := first_short f |}.
Definition push_cancel (c : CancelRecord) (f : Flattener) : Flattener :=
  {| cancels := cancels f ++ [c]; orders := orders f; failures := failures f; foreign := foreign f; first_short := first_short f |}.
Definition push_order (o : FlattenOrder) (f : Flattener) : Flattener :=
  {| cancels := cancels f; orders := orders f ++ [o]; failures := failures f; foreign := foreign f; first_short := first_short f |}.
Definition add_foreign (id : string) (f : Flattener) : Flattener :=
  {| cancels := cancels f; orders := orders f; failures := failures f; foreign := bs_insert id (foreign f); first_short := first_short f |}.
Definition set_first_short (m : BTreeMap string Dec) (f : Flattener) : Flattener :=
  {| cancels := cancels f; orders := orders f; failures := failures f; foreign := foreign f; first_short := m |}.

(** [cancels.last_mut()]: the last record gets the settled state. *)
Definition settle_last (status : OrderStatus.t) (executed : Dec) (l : list CancelRecord) : list CancelRecord :=
  match rev l with
  | [] => []
  | c :: l' =>
      rev l' ++ [{| cr_broker_order_id := cr_broker_order_id c; cr_tag := cr_tag c; cr_canceled_count := cr_canceled_count c;
                    final_status := status; cr_executed := executed |}]
  end.
Definition update_last_cancel (status : OrderStatus.t) (executed : Dec) (f : Flattener) : Flattener :=
  {| cancels := settle_last status executed (cancels f); orders := orders f; failures := failures f; foreign := foreign f;
     first_short := first_short f |}.

(** ** The steps: programs that thread the state *)

Abbreviation step A := (program call Flattener A).

Section flattener.
Context `{Chrono} `{Sha256}.
Variable spec : FlattenSpec.
(** [broker.venue()] *)
Variable venue : string.

Definition fail (code : FlattenCode.t) (message : string) : step unit := modify (push_failure code message).
Definition fail_when (b : bool) (code : FlattenCode.t) (message : string) : step unit :=
  if b then fail code message else ret tt.

Definition is_anomaly (e : BrokerError) : bool :=
  match e with BrokerError.Malformed m => contains_str m "overfill anomaly" | _ => false end.

(** The polls that are left; [None]: the order is still live after them. *)
Fixpoint poll (n : nat) (id : string) : step (option (broker OrderReport)) :=
  match n with
  | O => ret None
  | S n' =>
      let# r := ask (GetOrder id) in
      match r with
      | Err e => ret (Some (Err e))
      | Ok r =>
          if is_terminal (rep_status r) then ret (Some (Ok r))
          else
            let# _ := match n' with O => ret tt | S _ => ask (SleepSecs (poll_secs spec)) end in
            poll n' id
      end
  end.

Definition settle (id : string) : step (broker OrderReport) :=
  let# polled := poll (Z.to_nat (max_polls spec)) id in
  match polled with
  | Some r => ret r
  | None =>
      let# c := ask (CancelAndSettle id) in
      match c with
      | Err e => ret (Err e)
      | Ok (_, report) =>
          let# _ := fail_when (negb (is_terminal (rep_status report))) FlattenCode.OrderUnsettled
            ("order " +:+ id +:+ " is still " +:+ status_debug (rep_status report) +:+ " after polling and a cancel") in
          ret (Ok report)
      end
  end.

(** The cancel is pending: look again. *)
Definition confirm_cancel (id : string) : step unit :=
  let# s := settle id in
  match s with
  | Ok r =>
      if is_terminal (rep_status r) then modify (update_last_cancel (rep_status r) (rep_executed r))
      else fail FlattenCode.CancelUnsettled
        ("order " +:+ id +:+ " is still " +:+ status_debug (rep_status r) +:+ " after the cancel")
  | Err e => fail FlattenCode.CancelUnsettled
      ("order " +:+ id +:+ ": could not confirm the cancel: " +:+ BrokerError.display e)
  end.

Definition cancel_one (o : OrderReport) : step unit :=
  if negb (is_own_order o (fs_known_order_ids spec)) then modify (add_foreign (rep_id o))
  else
    let# c := ask (CancelAndSettle (rep_id o)) in
    match c with
    | Ok (outcome, report) =>
        let# _ := modify (push_cancel
          {| cr_broker_order_id := rep_id o; cr_tag := rep_tag o; cr_canceled_count := canceled_count outcome;
             final_status := rep_status report; cr_executed := rep_executed report |}) in
        if is_terminal (rep_status report) then ret tt else confirm_cancel (rep_id o)
    | Err (BrokerError.CancelTargetNotFound id) =>
        fail FlattenCode.CancelTargetNotFound
          ("cancel target " +:+ id +:+ " was refused as unknown and not found: the next read decides")
    | Err e =>
        if is_anomaly e then
          fail FlattenCode.DuplicateFillAnomaly ("order " +:+ rep_id o +:+ ": " +:+ BrokerError.display e)
        else fail FlattenCode.CancelFailed ("cancelling " +:+ rep_id o +:+ ": " +:+ BrokerError.display e)
    end.

Definition cancel_own_open_orders : step bool :=
  let# open := ask OpenOrders in
  match open with
  | Err e =>
      let# _ := fail FlattenCode.ReadFailed ("could not list open orders: " +:+ BrokerError.display e) in
      ret false
  | Ok l => let# _ := for_each cancel_one l in ret true
  end.

Definition tag_of (symbol : string) (side : Side) (k : Z) : string :=
  match side with
  | Buy => flatten_cover_tag (fs_account_id spec) (attempt_key spec) symbol k
  | Sell => flatten_tag (fs_account_id spec) (attempt_key spec) symbol k
  end.

(** [n] indexes are left to try, starting at [k]. *)
Fixpoint free_tag_from (n : nat) (k : Z) (symbol : string) (side : Side) : step (option string) :=
  match n with
  | O =>
      let# _ := fail FlattenCode.LookupFailed
        ("every flatten tag index up to " +:+ show_int (max_tag_index spec) +:+ " is used for " +:+ symbol) in
      ret None
  | S n' =>
      let tag := tag_of symbol side k in
      let# found := ask (FindByTag tag) in
      match found with
      | Ok [] => ret (Some tag)
      | Ok _ => free_tag_from n' (k + 1) symbol side
      | Err e =>
          let# _ := fail FlattenCode.LookupFailed
            ("cannot verify that tag " +:+ tag +:+ " is unused (" +:+ BrokerError.display e +:+ "); not sending") in
          ret None
      end
  end.
Definition free_tag : string → Side → step (option string) := free_tag_from (Z.to_nat (max_tag_index spec)) 1.

Definition report_outcome (r : OrderReport) : FlattenOutcome.t :=
  if bool_decide (rep_status r = OrderStatus.Filled) then FlattenOutcome.Filled
  else if is_positive (rep_executed r) then FlattenOutcome.PartiallyFilled
  else if is_terminal (rep_status r) then FlattenOutcome.NothingExecuted
  else FlattenOutcome.Unsettled.

Definition record_report (tag symbol : string) (side : Side) (qty : Dec) (r : OrderReport) (adopted : bool) : step unit :=
  modify (push_order
    {| fo_tag := tag; fo_symbol := symbol; fo_side := side; fo_quantity := qty; fo_broker_order_id := Some (rep_id r);
       outcome := report_outcome r; fo_status := Some (rep_status r); fo_executed := rep_executed r;
       fo_avg_price := rep_avg_price r; fo_cost := rep_cost r; fo_fee := rep_fee r; adopted_by_tag := adopted |}).

Definition record_unsent (tag symbol : string) (side : Side) (qty : Dec) (o : FlattenOutcome.t) : step unit :=
  modify (push_order
    {| fo_tag := tag; fo_symbol := symbol; fo_side := side; fo_quantity := qty; fo_broker_order_id := None; outcome := o;
       fo_status := None; fo_executed := ZERO; fo_avg_price := None; fo_cost := None; fo_fee := None;
       adopted_by_tag := false |}).

Definition settle_and_record (tag symbol : string) (side : Side) (qty : Dec) (id : string) (adopted : bool) : step unit :=
  let# s := settle id in
  match s with
  | Ok report => record_report tag symbol side qty report adopted
  | Err e =>
      let# _ :=
        if is_anomaly e then
          fail FlattenCode.DuplicateFillAnomaly ("order " +:+ id +:+ ": " +:+ BrokerError.display e)
        else
          fail FlattenCode.OrderUnsettled ("order " +:+ id +:+ ": could not read its final state: " +:+ BrokerError.display e) in
      record_unsent tag symbol side qty FlattenOutcome.Unsettled
  end.

(** What a recorded cover may have bought. *)
Definition counted (o : FlattenOrder) : Dec :=
  if bool_decide (outcome o = FlattenOutcome.Unsettled) then fo_quantity o else fo_executed o.

Definition cover_of (symbol : string) (o : FlattenOrder) : bool :=
  bool_decide (fo_side o = Buy) && eq_ignore_ascii_case (fo_symbol o) symbol.

Definition cover_quantity_used (f : Flattener) (symbol : string) : Dec :=
  fold_left (fun total o => default total (ok (add total (counted o)))) (List.filter (cover_of symbol) (orders f)) ZERO.

Definition verb (side : Side) : string := match side with Buy => "cover" | Sell => "sell" end.

(** [OrderRequest::market(..)] with the price it was sized at. *)
Definition leg_request (tag symbol : string) (side : Side) (qty price : Dec) : OrderRequest :=
  req_with_reference (req_market tag symbol side qty) price.

(** One placement attempt; [true]: verified not placed on the first attempt, try again. *)
Definition place_once (attempt : Z) (tag symbol : string) (side : Side) (qty price : Dec) : step bool :=
  let failed code msg o :=
    let# _ := fail code msg in
    let# _ := record_unsent tag symbol side qty o in
    ret false in
  let# placed := ask (Place (leg_request tag symbol side qty price)) in
  match placed with
  | Ok (PlaceOutcome.Accepted id _ _ _) =>
      let# _ := settle_and_record tag symbol side qty id false in ret false
  | Ok (PlaceOutcome.ValidatedOnly _ _ _) =>
      failed FlattenCode.OrderNotSent (symbol +:+ ": the broker only validated the order") FlattenOutcome.NotSent
  | Ok (PlaceOutcome.Rejected errors _) =>
      failed FlattenCode.OrderRejected
        (symbol +:+ ": the broker rejected the " +:+ verb side +:+ ": " +:+ join ", " (err_code <$> errors))
        FlattenOutcome.Rejected
  | Ok (PlaceOutcome.UnknownOutcome reason _) =>
      let# found := ask (FindByTag tag) in
      match found with
      | Ok (o :: _) => let# _ := settle_and_record tag symbol side qty (rep_id o) true in ret false
      | Ok [] =>
          if attempt =? 1 then ret true
          else failed FlattenCode.OrderNotSent
            (symbol +:+ ": outcome unknown (" +:+ reason +:+ ") and no order exists after " +:+ show_int attempt +:+ " attempts")
            FlattenOutcome.UnknownNotFound
      | Err e =>
          failed FlattenCode.LookupFailed
            (symbol +:+ ": outcome unknown (" +:+ reason +:+ ") and the lookup failed (" +:+ BrokerError.display e +:+
             "); not retrying") FlattenOutcome.UnknownNotFound
      end
  | Err e =>
      failed FlattenCode.OrderNotSent
        (symbol +:+ ": the " +:+ verb side +:+ " was not sent: " +:+ BrokerError.display e) FlattenOutcome.NotSent
  end.

Definition place_leg (symbol : string) (side : Side) (qty price : Dec) : step unit :=
  let# tag := free_tag symbol side in
  match tag with
  | None => ret tt
  | Some tag =>
      let# again := place_once 1 tag symbol side qty price in
      if again then let# _ := place_once 2 tag symbol side qty price in ret tt else ret tt
  end.

(** The quantity a cover may still buy of what it wishes: the wish, a smaller size, or a refusal. *)
Definition bounded_cover (symbol : string) (qty price allowance : Dec) : option Dec :=
  if dec_ltb allowance qty then
    match book_get (venue_rules spec) venue with
    | Some r =>
        match round_quantity r symbol Buy allowance price with
        | Ok q => if dec_leb q allowance then Some q else None
        | Err _ => None
        end
    | None => None
    end
  else Some qty.

Definition cover (symbol : string) (qty price : Dec) : step unit :=
  let key := to_uppercase symbol in
  let# f := get in
  let first := default qty (bt_get (first_short f) key) in
  let# _ := modify (set_first_short (bt_insert key first (first_short f))) in
  let used := cover_quantity_used f symbol in
  let allowance := default ZERO (ok (sub first used)) in
  if negb (is_positive allowance) then
    fail FlattenCode.ShortHeld (key +:+ ": a short is still reported after " +:+ to_string used +:+
      " was bought to cover " +:+ to_string first +:+ "; not buying more")
  else match bounded_cover symbol qty price allowance with
       | Some q => place_leg symbol Buy q price
       | None => fail FlattenCode.ShortHeld
           (key +:+ ": the remaining cover allowance " +:+ to_string allowance +:+ " cannot be sized; not buying more")
       end.

Definition sell (symbol : string) (qty price : Dec) : step unit := place_leg symbol Sell qty price.

(** ** What a fresh snapshot says to trade *)

Record SellPlan := {
  covers : list (string * Dec * Dec);
  sells : list (string * Dec * Dec);
  dust : list DustRecord;
  unmanaged : list DustRecord;
  blockers : list FlattenFailure;
}.

(** The broker's mark, else the value per unit, of magnitudes. *)
Definition price_of (h : Holding) : option Dec :=
  let by_value :=
    let* (value, qty) :=
      if is_negative (hold_quantity h) then
        let* v := ok (neg (hold_value h)) in let* q := ok (neg (hold_quantity h)) in Some (v, q)
      else Some (hold_value h, hold_quantity h) in
    if is_positive qty && is_positive value then
      let* p := ok (div_floor value qty 8) in
      if is_positive p then Some p else None
    else None in
  match mark h with
  | Some m => if is_positive m then Some m else by_value
  | None => by_value
  end.

Definition with_cover (x : string * Dec * Dec) (p : SellPlan) : SellPlan :=
  {| covers := covers p ++ [x]; sells := sells p; dust := dust p; unmanaged := unmanaged p; blockers := blockers p |}.
Definition with_sell (x : string * Dec * Dec) (p : SellPlan) : SellPlan :=
  {| covers := covers p; sells := sells p ++ [x]; dust := dust p; unmanaged := unmanaged p; blockers := blockers p |}.
Definition with_dust (d : DustRecord) (p : SellPlan) : SellPlan :=
  {| covers := covers p; sells := sells p; dust := dust p ++ [d]; unmanaged := unmanaged p; blockers := blockers p |}.
Definition with_unmanaged (d : DustRecord) (p : SellPlan) : SellPlan :=
  {| covers := covers p; sells := sells p; dust := dust p; unmanaged := unmanaged p ++ [d]; blockers := blockers p |}.
Definition with_blocker (message : string) (p : SellPlan) : SellPlan :=
  {| covers := covers p; sells := sells p; dust := dust p; unmanaged := unmanaged p;
     blockers := blockers p ++ [{| ff_code := FlattenCode.CannotSize; ff_message := message |}] |}.

Definition is_dust_refusal (r : SizeRefusal) : bool :=
  match r with SizeRefusal.RoundsToZero | SizeRefusal.BelowMinQuantity _ | SizeRefusal.BelowMinCost _ => true | _ => false end.

(** The order that closes a position of magnitude [held]. *)
Definition plan_leg (h : Holding) (short : bool) (held : Dec) (p : SellPlan) : SellPlan :=
  let sym := to_uppercase (hold_symbol h) in
  let side := if short then Buy else Sell in
  match book_get (venue_rules spec) venue, price_of h with
  | Some rules, Some price =>
      match round_quantity rules (hold_symbol h) side held price with
      | Ok q =>
          if dec_ltb held q then
            with_blocker (sym +:+ ": venue rounding produced " +:+ to_string q +:+ ", more than the " +:+ to_string held +:+ " held") p
          else
            let p :=
              if dec_ltb q held then
                let rest := default held (ok (sub held q)) in
                let rest := if short then default rest (ok (neg rest)) else rest in
                with_dust {| dust_symbol := sym; dust_quantity := rest;
                             dust_reason := "below the venue's lot precision after rounding down" |} p
              else p in
            if short then with_cover (hold_symbol h, q, price) p else with_sell (hold_symbol h, q, price) p
      | Err refusal =>
          if is_dust_refusal refusal then
            with_dust {| dust_symbol := sym; dust_quantity := hold_quantity h;
                         dust_reason := "below the venue's minimum order: reported, not sent" |} p
          else with_blocker (sym +:+ ": " +:+ SizeRefusal.display refusal) p
      end
  | _, _ =>
      with_blocker (sym +:+ ": no venue rules or no price to size a " +:+ verb side +:+ " of " +:+ to_string held) p
  end.

Definition plan_holding (p : SellPlan) (h : Holding) : SellPlan :=
  let sym := to_uppercase (hold_symbol h) in
  if is_zero (hold_quantity h) then p
  else if negb (bs_contains (universe spec) sym) then
    with_unmanaged {| dust_symbol := sym; dust_quantity := hold_quantity h;
                      dust_reason := "not in the mandate's universe: left alone" |} p
  else if is_negative (hold_quantity h) then
    match neg (hold_quantity h) with
    | Ok m => plan_leg h true m p
    | Err _ => with_blocker (sym +:+ ": the short of " +:+ to_string (hold_quantity h) +:+ " cannot be sized") p
    end
  else plan_leg h false (hold_quantity h) p.

Definition empty_plan : SellPlan := {| covers := []; sells := []; dust := []; unmanaged := []; blockers := [] |}.

Definition plan_sells (snap : BrokerSnapshot) : SellPlan :=
  fold_left plan_holding (sort_by holding_gt (holdings snap)) empty_plan.

(** ** The flatten *)

(** [rounds], [dust] and [unmanaged] after the rounds. *)
Definition Progress : Type := Z * list DustRecord * list DustRecord.

Definition run_legs (p : SellPlan) : step unit :=
  let# _ := for_each (fun x => let '(s, q, pr) := x in cover s q pr) (covers p) in
  for_each (fun x => let '(s, q, pr) := x in sell s q pr) (sells p).

(** One round; [true]: go on with the next. *)
Definition one_round (round : Z) (acc : Progress) : step (bool * Progress) :=
  let '(_, d, u) := acc in
  let# listed := cancel_own_open_orders in
  if negb listed then ret (false, (round, d, u))
  else
    let# at_ := ask Now in
    let# s := ask (Snapshot at_) in
    match s with
    | Err e =>
        let# _ := fail FlattenCode.ReadFailed ("could not read the account: " +:+ SnapshotError.display e) in
        ret (false, (round, d, u))
    | Ok snap =>
        let p := plan_sells snap in
        let acc := (round, dust p, unmanaged p) in
        match covers p, sells p with
        | [], [] => ret (false, acc)
        | _, _ => let# _ := run_legs p in ret (true, acc)
        end
    end.

Fixpoint run_rounds (n : nat) (round : Z) (acc : Progress) : step Progress :=
  match n with
  | O => ret acc
  | S n' =>
      let# (go_on, acc) := one_round round acc in
      if go_on : bool then run_rounds n' (round + 1) acc else ret acc
  end.

Definition residual_of (p : SellPlan) : list DustRecord :=
  ((fun x => let '(s, q, _) := x in
     {| dust_symbol := to_uppercase s; dust_quantity := default q (ok (neg q));
        dust_reason := "short still open after flatten" |}) <$> covers p) ++
  ((fun x => let '(s, q, _) := x in
     {| dust_symbol := to_uppercase s; dust_quantity := q; dust_reason := "still held after flatten" |}) <$> sells p).

Definition add_blocker (b : FlattenFailure) : step unit :=
  modify (fun f => if bool_decide (b ∈ failures f) then f else push_failure (ff_code b) (ff_message b) f).

Definition note_foreign (o : OrderReport) : step unit :=
  if negb (is_own_order o (fs_known_order_ids spec)) then modify (add_foreign (rep_id o)) else ret tt.

Definition has_failure (p : FlattenCode.t → bool) (f : Flattener) : bool := existsb (fun x => p (ff_code x)) (failures f).
Definition unsizable (c : FlattenCode.t) : bool := match c with FlattenCode.ShortHeld | FlattenCode.CannotSize => true | _ => false end.

(** The final read: (dust, unmanaged, residual, verified flat). *)
Definition verify (acc : Progress) : step (list DustRecord * list DustRecord * list DustRecord * bool) :=
  let '(_, d, u) := acc in
  let# at_ := ask Now in
  let# s := ask (Snapshot at_) in
  match s with
  | Err e =>
      let# _ := fail FlattenCode.ReadFailed ("could not verify flat: " +:+ SnapshotError.display e) in
      ret (d, u, [], false)
  | Ok snap =>
      let p := plan_sells snap in
      let rest := residual_of p in
      let# _ := for_each add_blocker (blockers p) in
      let# _ := for_each note_foreign (open_orders snap) in
      let# _ := fail_when (negb (match rest with [] => true | _ => false end)) FlattenCode.NotFlat
        ("still holding: " +:+ join ", " ((fun r => to_string (dust_quantity r) +:+ " " +:+ dust_symbol r) <$> rest)) in
      let# _ := fail_when (existsb (fun o => is_own_order o (fs_known_order_ids spec)) (open_orders snap))
        FlattenCode.OpenOrdersRemain "one of our orders is still open after the flatten" in
      let# f := get in
      ret (dust p, unmanaged p, rest, match rest with [] => negb (has_failure unsizable f) | _ => false end)
  end.

Definition verdict_of (flat : bool) (d : list DustRecord) (f : Flattener) : FlattenVerdict.t :=
  if negb flat || has_failure FlattenCode.is_blocking f then FlattenVerdict.HaltAndAlert
  else match d with [] => FlattenVerdict.Flat | _ => FlattenVerdict.FlatWithDust end.

Definition flatten_step : step FlattenReport :=
  let# started := ask Now in
  let# acc := run_rounds (Z.to_nat (max_rounds spec)) 1 (0, [], []) in
  let# (d, u, rest, flat) := verify acc in
  let# f := get in
  let# finished := ask Now in
  ret {| fr_attempt_key := attempt_key spec; started_at := started; finished_at := finished; rounds := acc.1.1;
         fr_cancels := cancels f; fr_orders := orders f; fr_dust := d; fr_unmanaged := u;
         foreign_open_orders := bs_elements (foreign f); fr_failures := failures f; residual := rest;
         verified_flat := flat; fr_verdict := verdict_of flat d f |}.

Definition flatten : prog call FlattenReport := prog_bind (flatten_step flattener_new) (fun rf => Ret rf.1).
End flattener.

(** The pre-run clean-up: (cancel records, failures, ids of foreign open orders). *)
Definition cleanup `{Chrono, Sha256} (known : BTreeSet string) (polls secs : Z)
    : prog call (list CancelRecord * list FlattenFailure * list string) :=
  let s := spec_new "cleanup" "cleanup" [] empty_book known in
  let spec := {| fs_account_id := fs_account_id s; attempt_key := attempt_key s; universe := universe s;
                 venue_rules := venue_rules s; fs_known_order_ids := known; max_rounds := max_rounds s;
                 max_polls := polls; poll_secs := secs; max_tag_index := max_tag_index s |} in
  prog_bind (cancel_own_open_orders spec flattener_new)
    (fun bf => Ret (cancels bf.2, failures bf.2, bs_elements (foreign bf.2))).
