(* ===== verification/FlattenFacts.v ===== *)
(** * FlattenFacts: what the flatten never does

    Whatever the broker answers: every order is a market order that reduces a position of the last snapshot and is no
    larger than it, no short is covered after a long was sold in the same round, and only our own orders are polled
    and cancelled. *)

From Stdlib Require Import ZArith Lia String Ascii.
From S2P Require Import Prelude Text BTree Externals Decimal DecMath Broker Venue Guard RiskState View Recon Flatten Calls.

Local Open Scope Z_scope.

(** ** What a plan may hold *)

Section plans.
Context `{Chrono}.
Variable spec : FlattenSpec.
Variable venue : string.
Hypothesis rules_ok : book_ok (venue_rules spec).

(** The order ([side] of [q]) reduces a managed holding of the snapshot and is no larger than it. *)
Definition reduces (s : BrokerSnapshot) (side : Side) (symbol : string) (q : Dec) : Prop :=
  ∃ h, h ∈ holdings s ∧ hold_symbol h = symbol ∧ bs_contains (universe spec) (to_uppercase symbol) = true ∧
    0 < atto q ≤ Z.abs (atto (hold_quantity h)) ∧
    match side with Sell => 0 < atto (hold_quantity h) | Buy => atto (hold_quantity h) < 0 end.

Definition leg_ok (s : BrokerSnapshot) (side : Side) (x : string * Dec * Dec) : Prop :=
  let '(symbol, q, price) := x in reduces s side symbol q ∧ dec_ok q ∧ dec_ok price.

Definition plan_ok (s : BrokerSnapshot) (p : SellPlan) : Prop :=
  Forall (leg_ok s Buy) (covers p) ∧ Forall (leg_ok s Sell) (sells p).

Lemma value_price v q p : dec_ok v → dec_ok q →
  (if is_positive q && is_positive v then let* p := ok (div_floor v q 8) in if is_positive p then Some p else None else None)
    = Some p → dec_ok p.
Proof.
  intros Hv Hq. destruct (is_positive q && is_positive v); [|done]. destruct (ok (div_floor v q 8)) as [r|] eqn:E; [|done].
  apply ok_some in E. apply div_floor_atto in E as [Hr _]; [|done|done|lia]. destruct (is_positive r); [|done].
  by intros [= <-].
Qed.

Lemma price_of_ok h p : holding_ok h → price_of h = Some p → dec_ok p.
Proof.
  intros [Hq Hv Hm]. unfold price_of.
  assert (∀ x, (let* (value, qty) :=
      if is_negative (hold_quantity h) then
        let* v := ok (neg (hold_value h)) in let* q := ok (neg (hold_quantity h)) in Some (v, q)
      else Some (hold_value h, hold_quantity h) in
    if is_positive qty && is_positive value then
      let* p := ok (div_floor value qty 8) in if is_positive p then Some p else None
    else None) = Some x → dec_ok x) as Hby.
  { intros x. destruct (is_negative (hold_quantity h)).
    - destruct (ok (neg (hold_value h))) as [v|] eqn:Ev; [|done]. destruct (ok (neg (hold_quantity h))) as [q|] eqn:Eq; [|done].
      apply ok_some in Ev, Eq. apply neg_atto in Ev as [Hv' _]; [|done]. apply neg_atto in Eq as [Hq' _]; [|done].
      by apply value_price.
    - by apply value_price. }
  destruct (mark h) as [m|] eqn:Em; [|apply Hby]. destruct (is_positive m); [|apply Hby].
  intros [= <-]. by apply Hm.
Qed.

Lemma plan_leg_ok s h short held p : snapshot_ok s → h ∈ holdings s → bs_contains (universe spec) (to_uppercase (hold_symbol h)) = true →
  dec_ok held → atto held = Z.abs (atto (hold_quantity h)) →
  (if short : bool then atto (hold_quantity h) < 0 else 0 < atto (hold_quantity h)) →
  plan_ok s p → plan_ok s (plan_leg spec venue h short held p).
Proof.
  intros Hs Hh Hu Hheld Ha Hsign [Hc Hse]. unfold plan_leg.
  destruct (book_get (venue_rules spec) venue) as [rules|] eqn:Eb; [|done].
  destruct (price_of h) as [price|] eqn:Ep; [|done]. pose proof (price_of_ok h price (Hs h Hh) Ep) as Hp.
  destruct (round_quantity rules (hold_symbol h) (if short then Buy else Sell) held price) as [q|e] eqn:Er.
  2: { by destruct (is_dust_refusal e). }
  destruct (rules_ok venue rules Eb _ _ _ _ _ Hheld Hp Er) as [Hq Hqa].
  destruct (dec_ltb held q); [done|].
  assert (∀ side, side = (if short then Buy else Sell) → leg_ok s side (hold_symbol h, q, price)) as Hleg.
  { intros side ->. split; [|done]. exists h. split_and!; try done; [lia|lia|by destruct short]. }
  destruct (dec_ltb q held), short; split; simpl; try done; (apply Forall_app; split; [done|]);
    (constructor; [by apply Hleg|constructor]).
Qed.

Lemma plan_sells_ok s : snapshot_ok s → plan_ok s (plan_sells spec venue s).
Proof.
  intros Hs. unfold plan_sells.
  assert (∀ l p, (∀ h, h ∈ l → h ∈ holdings s) → plan_ok s p → plan_ok s (fold_left (plan_holding spec venue) l p)) as Hfold.
  { induction l as [|h l IH]; intros p Hin Hp; simpl; [done|]. apply IH; [intros; apply Hin; by right|].
    assert (h ∈ holdings s) as Hh by (apply Hin; left). destruct (Hs h Hh) as [Hq _ _]. unfold plan_holding.
    destruct (is_zero (hold_quantity h)) eqn:Ez; [done|].
    destruct (bs_contains (universe spec) (to_uppercase (hold_symbol h))) eqn:Eu; [simpl|by destruct Hp].
    destruct (is_negative (hold_quantity h)) eqn:En.
    - apply is_negative_atto in En; [|done]. destruct (neg (hold_quantity h)) as [m|e] eqn:Em; [|by destruct Hp].
      apply neg_atto in Em as (Hm & Hma & _); [|done]. apply plan_leg_ok; try done. lia.
    - assert (0 < atto (hold_quantity h)) as Hpos.
      { pose proof (is_negative_atto _ Hq) as [_ Hn]. pose proof (is_zero_atto _ Hq) as [_ Hz].
        destruct (Z.lt_trichotomy (atto (hold_quantity h)) 0) as [Hlt|[He|Hgt]]; [|rewrite Hz in Ez by done; done|done].
        rewrite Hn in En by done. done. }
      apply plan_leg_ok; try done. lia. }
  apply Hfold; [|split; constructor]. intros h. by rewrite sort_by_perm.
Qed.
End plans.

(** ** The protocol *)

Section protocol.
Context `{Chrono} `{Sha256}.
Variable spec : FlattenSpec.
Variable venue : string.

(** What a watcher of the calls knows: the last snapshot, the ids that are ours, and whether a sell was accepted since
    the snapshot. *)
Record Watch := { last_snap : option BrokerSnapshot; ours : list string; selling : bool }.

Definition watch_start : Watch := {| last_snap := None; ours := []; selling := false |}.

Definition add_ours (ids : list string) (g : Watch) : Watch :=
  {| last_snap := last_snap g; ours := ids ++ ours g; selling := selling g |}.

(** An id becomes ours when the open-order list marks it so, when our placement is accepted, or when it is listed
    under a tag of ours. *)
Definition watch (g : Watch) (B : Type) (c : call B) : B → Watch :=
  match c in call B' return B' → Watch with
  | Snapshot _ => fun r => {| last_snap := ok r; ours := ours g; selling := false |}
  | OpenOrders => fun r =>
      match r with
      | Ok l => add_ours (rep_id <$> List.filter (fun o => is_own_order o (fs_known_order_ids spec)) l) g
      | Err _ => g
      end
  | FindByTag _ => fun r => match r with Ok l => add_ours (rep_id <$> l) g | Err _ => g end
  | Place req => fun r =>
      let g := match r with Ok (PlaceOutcome.Accepted id _ _ _) => add_ours [id] g | _ => g end in
      {| last_snap := last_snap g; ours := ours g; selling := selling g || bool_decide (req_side req = Sell) |}
  | _ => fun _ => g
  end.

Definition order_allowed (g : Watch) (req : OrderRequest) : Prop :=
  ∃ s, last_snap g = Some s ∧ reduces spec s (req_side req) (req_symbol req) (req_quantity req) ∧
    req_kind req = Market ∧ starts_with (req_tag req) FLATTEN_TAG_PREFIX = true ∧
    (req_side req = Buy → selling g = false).

Definition call_allowed (g : Watch) (B : Type) (c : call B) : Prop :=
  match c with
  | Place req => order_allowed g req
  | GetOrder id | CancelAndSettle id => id ∈ ours g
  | FindByTag tag => starts_with tag FLATTEN_TAG_PREFIX = true
  | _ => True
  end.

(** Answers are values of their types: the decimals in them are well formed. *)
Definition well_typed (B : Type) (c : call B) : B → Prop :=
  match c in call B' return B' → Prop with
  | Snapshot _ => fun r => ∀ s, r = Ok s → snapshot_ok s
  | GetOrder _ => fun r => ∀ o, r = Ok o → dec_ok (rep_executed o)
  | CancelAndSettle _ => fun r => ∀ co, r = Ok co → dec_ok (rep_executed co.2)
  | _ => fun _ => True
  end.

Definition reducing_only : protocol call :=
  {| ghost := Watch; allowed := call_allowed; observe := watch; plausible := well_typed |}.

Hypothesis rules_ok : book_ok (venue_rules spec).

Record state_ok (f : Flattener) : Prop := {
  st_orders : ∀ o, o ∈ orders f → dec_ok (fo_quantity o) ∧ dec_ok (fo_executed o);
  st_short : ∀ k d, bt_get (first_short f) k = Some d → dec_ok d;
}.

(** Between two snapshots: the state is well formed, the last snapshot is [s], nothing was sold while covering. *)
Definition during (s : BrokerSnapshot) (covering : bool) (f : Flattener) (g : Watch) : Prop :=
  state_ok f ∧ last_snap g = Some s ∧ (covering = true → selling g = false).

Abbreviation spec_of := (triple reducing_only).

(** Steps that only append to the records. *)
Lemma fail_spec (I : Watch → Prop) code msg :
  spec_of (λ f g, state_ok f ∧ I g) (fail code msg) (λ _ f g, state_ok f ∧ I g).
Proof. apply triple_modify. intros f g [[? ?] ?]. done. Qed.

Lemma fail_when_spec (I : Watch → Prop) b code msg :
  spec_of (λ f g, state_ok f ∧ I g) (fail_when b code msg) (λ _ f g, state_ok f ∧ I g).
Proof. destruct b; [apply fail_spec|]. by intros f g Hp. Qed.

Lemma push_order_ok o f : dec_ok (fo_quantity o) → dec_ok (fo_executed o) → state_ok f → state_ok (push_order o f).
Proof.
  intros ? ? [Ho Hs]. split; [|done]. intros x Hx. simpl in Hx. apply elem_of_app in Hx as [Hx|Hx]; [by apply Ho|].
  apply list_elem_of_singleton in Hx as ->. done.
Qed.

Lemma record_unsent_spec (I : Watch → Prop) tag sym side q o : dec_ok q →
  spec_of (λ f g, state_ok f ∧ I g) (record_unsent tag sym side q o) (λ _ f g, state_ok f ∧ I g).
Proof.
  intros Hq. apply triple_modify. intros f g [Hf HI]. split; [|done]. apply push_order_ok; [done|apply ZERO_ok|done].
Qed.

Lemma poll_spec (I : Watch → Prop) n id : (∀ g, I g → id ∈ ours g) →
  spec_of (λ f g, state_ok f ∧ I g) (poll spec n id)
    (λ r f g, (state_ok f ∧ I g) ∧ ∀ o, r = Some (Ok o) → dec_ok (rep_executed o)).
Proof.
  intros Hid. induction n as [|n IH]; simpl.
  { intros f g Hp. simpl. by split. }
  eapply triple_bind.
  { apply (triple_ask reducing_only _ _ (λ r f g, (state_ok f ∧ I g) ∧ ∀ o, r = Ok o → dec_ok (rep_executed o))).
    - intros f g [_ HI]. simpl. by apply Hid.
    - intros f g b Hp Hb. by split. }
  intros [r|e].
  - destruct (is_terminal (rep_status r)).
    + intros f g [Hp Hr]. simpl. split; [done|]. intros o [= <-]. by apply Hr.
    + apply (triple_bind reducing_only _ _ _ (λ _ f g, state_ok f ∧ I g)); [|intros []; apply IH]. destruct n.
      * intros f g [Hp _]. exact Hp.
      * apply triple_ask; [done|]. intros f g b [Hp _] _. exact Hp.
  - intros f g [Hp _]. simpl. by split.
Qed.

Lemma settle_spec (I : Watch → Prop) id : (∀ g, I g → id ∈ ours g) →
  spec_of (λ f g, state_ok f ∧ I g) (settle spec id)
    (λ r f g, (state_ok f ∧ I g) ∧ ∀ o, r = Ok o → dec_ok (rep_executed o)).
Proof.
  intros Hid. eapply triple_bind; [by apply poll_spec|]. intros [r|].
  - intros f g [Hp Hr]. simpl. split; [done|]. intros o ->. by apply Hr.
  - eapply triple_bind.
    { apply (triple_ask reducing_only _ _ (λ r f g, (state_ok f ∧ I g) ∧ ∀ co, r = Ok co → dec_ok (rep_executed co.2))).
      - intros f g [[_ HI] _]. by apply Hid.
      - intros f g b [Hp _] Hb. by split. }
    intros [[co report]|e].
    + apply (triple_pure reducing_only (dec_ok (rep_executed report))).
      { intros f g [_ Hr]. by apply (Hr _ eq_refl). }
      intros Hd. apply (triple_pre reducing_only _ _ (λ f g, state_ok f ∧ I g)); [|by intros f g []].
      eapply triple_bind; [apply (fail_when_spec I)|]. intros [] f g Hp. split; [exact Hp|]. by intros o [= <-].
    + intros f g [Hp _]. simpl. by split.
Qed.
Lemma settle_and_record_spec (I : Watch → Prop) tag sym side q id adopted : (∀ g, I g → id ∈ ours g) → dec_ok q →
  spec_of (λ f g, state_ok f ∧ I g) (settle_and_record spec tag sym side q id adopted) (λ _ f g, state_ok f ∧ I g).
Proof.
  intros Hid Hq. eapply triple_bind; [by apply settle_spec|]. intros [r|e].
  - apply triple_modify. intros f g [[Hf HI] Hr]. split; [|done]. apply push_order_ok; [done| |done]. by apply Hr.
  - apply (triple_bind reducing_only _ _ _ (λ _ f g, state_ok f ∧ I g)); [|intros []; by apply record_unsent_spec].
    apply (triple_pre reducing_only _ _ (λ f g, state_ok f ∧ I g)); [|by intros f g [Hp _]].
    destruct (is_anomaly e); apply fail_spec.
Qed.

Lemma during_fail s b code msg : spec_of (during s b) (fail code msg) (λ _, during s b).
Proof. apply (fail_spec (λ g, last_snap g = Some s ∧ (b = true → selling g = false))). Qed.

(** ** Placing *)

Lemma leg_tag_prefix account attempt symbol leg k : starts_with (leg_tag account attempt symbol leg k) FLATTEN_TAG_PREFIX = true.
Proof. apply starts_with_app. Qed.

Lemma tag_of_prefix symbol side k : starts_with (tag_of spec symbol side k) FLATTEN_TAG_PREFIX = true.
Proof. destruct side; apply leg_tag_prefix. Qed.

Lemma free_tag_spec s b n k symbol side :
  spec_of (during s b) (free_tag_from spec n k symbol side)
    (λ t f g, during s b f g ∧ ∀ tag, t = Some tag → starts_with tag FLATTEN_TAG_PREFIX = true).
Proof.
  revert k. induction n as [|n IH]; intros k; simpl.
  { eapply triple_bind; [apply during_fail|]. intros [] f g Hd. by split. }
  apply (triple_bind reducing_only _ _ _ (λ _, during s b)).
  { apply triple_ask.
    - intros f g _. apply tag_of_prefix.
    - intros f g r (Hf & Hs & Hb) _. by destruct r. }
  intros [[|o l]|e].
  - intros f g Hd. split; [done|]. intros tag [= <-]. apply tag_of_prefix.
  - apply IH.
  - eapply triple_bind; [apply during_fail|]. intros [] f g Hd. by split.
Qed.

(** The leg may be sent: it reduces a holding of [s], and a cover comes before every sell. *)
Lemma place_once_spec s b attempt tag symbol side q price :
  starts_with tag FLATTEN_TAG_PREFIX = true → reduces spec s side symbol q → dec_ok q →
  (side = Buy → b = true) → (b = true → side = Buy) →
  spec_of (during s b) (place_once spec attempt tag symbol side q price) (λ _, during s b).
Proof.
  intros Htag Hred Hq Hbuy Hsell.
  set (I := λ (ids : list string) (g : Watch), (last_snap g = Some s ∧ (b = true → selling g = false)) ∧ ∀ id : string, id ∈ ids → id ∈ ours g).
  assert (∀ id adopted A (m : step A) Post, spec_of (during s b) m Post →
    spec_of (λ f g, state_ok f ∧ I [id] g) (let# _ := settle_and_record spec tag symbol side q id adopted in m) Post) as Hsettle.
  { intros id adopted A m Post Hm. eapply triple_bind.
    - apply (settle_and_record_spec (I [id])); [|done]. intros g [_ Hin]. apply Hin. left.
    - intros []. eapply triple_pre; [exact Hm|]. intros f g (Hf & Hl & _). by split. }
  assert (∀ code msg o, spec_of (during s b)
    (let# _ := fail code msg in let# _ := record_unsent tag symbol side q o in ret false) (λ _, during s b)) as Hfailed.
  { intros code msg o. eapply triple_bind; [apply during_fail|]. intros []. eapply triple_bind.
    - by apply (record_unsent_spec (λ g, last_snap g = Some s ∧ (b = true → selling g = false))).
    - by intros [] f g Hd. }
  apply (triple_bind reducing_only _ _ _ (λ r f g, during s b f g ∧
    match r with Ok (PlaceOutcome.Accepted id _ _ _) => id ∈ ours g | _ => True end)).
  { apply triple_ask.
    - intros f g (_ & Hs & Hb). exists s. split_and!; try done. simpl. intros ->. by apply Hb, Hbuy.
    - intros f g r (Hf & Hs & Hb) _. simpl. split.
      + split; [done|]. split; [by destruct r as [[]|]|]. intros Eb. rewrite (Hsell Eb) in *.
        rewrite bool_decide_false by done. rewrite orb_false_r.
        destruct r as [[]|]; simpl; by apply Hb.
      + destruct r as [[]|]; simpl; try done. left. }
  intros [[id d sent w|d sent w|es sent|reason sent]|e].
  - eapply triple_pre; [apply (Hsettle id)|].
    + by intros f g Hd.
    + intros f g ((Hf & Hs) & Hin). split; [done|]. split; [done|]. intros x Hx. by apply list_elem_of_singleton in Hx as ->.
  - eapply triple_pre; [apply Hfailed|]. by intros f g [].
  - eapply triple_pre; [apply Hfailed|]. by intros f g [].
  - apply (triple_bind reducing_only _ _ _ (λ r f g, during s b f g ∧
      match r with Ok l => ∀ o, o ∈ l → rep_id o ∈ ours g | Err _ => True end)).
    { apply triple_ask; [by intros|]. intros f g r [(Hf & Hs & Hb) _] _. simpl. destruct r as [l|e]; [|done].
      split; [done|]. intros o Ho. simpl. apply elem_of_app. left. by apply list_elem_of_fmap_2. }
    intros [[|o l]|e].
    + destruct (attempt =? 1).
      * by intros f g [Hd _].
      * eapply triple_pre; [apply Hfailed|]. by intros f g [].
    + eapply triple_pre; [apply (Hsettle (rep_id o))|].
      * by intros f g Hd.
      * intros f g ((Hf & Hs) & Hin). split; [done|]. split; [done|]. intros x Hx. apply list_elem_of_singleton in Hx as ->.
        apply Hin. left.
    + eapply triple_pre; [apply Hfailed|]. by intros f g [].
  - eapply triple_pre; [apply Hfailed|]. by intros f g [].
Qed.

Lemma place_leg_spec s b symbol side q price : reduces spec s side symbol q → dec_ok q →
  (side = Buy → b = true) → (b = true → side = Buy) →
  spec_of (during s b) (place_leg spec symbol side q price) (λ _, during s b).
Proof.
  intros Hred Hq Hbuy Hsell. eapply triple_bind; [apply free_tag_spec|]. intros [tag|]; [|by intros f g []].
  apply (triple_pure reducing_only (starts_with tag FLATTEN_TAG_PREFIX = true)); [intros f g [_ Ht]; by apply Ht|].
  intros Htag. apply (triple_pre reducing_only _ _ (during s b)); [|by intros f g []].
  eapply triple_bind; [by apply place_once_spec|]. intros []; [|by intros f g Hd].
  eapply triple_bind; [by apply place_once_spec|]. by intros [] f g Hd.
Qed.

(** ** Covers *)

Lemma used_ok f symbol : state_ok f → dec_ok (cover_quantity_used f symbol).
Proof.
  intros [Ho _]. unfold cover_quantity_used.
  assert (∀ l z, (∀ o, o ∈ l → o ∈ orders f) → dec_ok z →
    dec_ok (fold_left (λ total o, default total (ok (add total (counted o)))) l z)) as Hfold.
  { induction l as [|o l IH]; intros z Hin Hz; simpl; [done|]. apply IH; [intros; apply Hin; by right|].
    destruct (add z (counted o)) as [r|] eqn:E; simpl; [|done]. apply add_atto in E as [? _]; [done|done|].
    destruct (Ho o) as [? ?]; [apply Hin; left|]. unfold counted. by case_bool_decide. }
  apply Hfold; [|apply ZERO_ok]. intros o Hin. apply list_elem_of_In, List.filter_In in Hin as [Hin _].
  by apply list_elem_of_In.
Qed.

(** What is still bought is no more than the wish. *)
Lemma bounded_cover_ok symbol q price allowance r : dec_ok q → dec_ok price → dec_ok allowance → 0 < atto q →
  bounded_cover spec venue symbol q price allowance = Some r → dec_ok r ∧ 0 < atto r ≤ atto q.
Proof.
  intros Hq Hp Ha Hpos. unfold bounded_cover. rewrite dec_ltb_atto by done.
  destruct (Z.ltb_spec (atto allowance) (atto q)) as [Hlt|Hge]; [|intros [= <-]; split; [done|lia]].
  destruct (book_get (venue_rules spec) venue) as [rules|] eqn:Eb; [|done].
  destruct (round_quantity rules symbol Buy allowance price) as [x|] eqn:Er; [|done].
  destruct (rules_ok venue rules Eb _ _ _ _ _ Ha Hp Er) as [Hx Hxa].
  destruct (dec_leb x allowance); [|done]. intros [= <-]. split; [done|lia].
Qed.

Lemma cover_spec s x : leg_ok spec s Buy x →
  spec_of (during s true) (let '(sym, q, p) := x in cover spec venue sym q p) (λ _, during s true).
Proof.
  destruct x as [[symbol q] price]. intros ((h & Hh & Hsym & Hu & Hqa & Hneg) & Hq & Hp). unfold cover.
  apply (triple_bind reducing_only _ _ _ (λ fl f g, f = fl ∧ during s true f g)); [by apply triple_get|]. intros fl.
  set (first := default q (bt_get (first_short fl) (to_uppercase symbol))).
  apply (triple_bind reducing_only _ _ _ (λ _ f g, (dec_ok first ∧ state_ok fl) ∧ during s true f g)).
  { apply triple_modify. intros f g (-> & Hf & Hl). assert (dec_ok first) as Hfirst.
    { unfold first. destruct (bt_get (first_short fl) (to_uppercase symbol)) as [d|] eqn:E; [|done]. by eapply st_short. }
    split; [done|]. split; [|done]. destruct Hf as [Ho Hs]. split; [done|]. intros k d. simpl. rewrite bt_get_insert.
    destruct (kcmp k (to_uppercase symbol)); [by intros [= <-]|apply Hs|apply Hs]. }
  intros []. apply (triple_pure reducing_only (dec_ok first ∧ state_ok fl)); [by intros f g []|].
  intros [Hfirst Hfl]. apply (triple_pre reducing_only _ _ (during s true)); [|by intros f g []].
  set (allowance := default ZERO (ok (sub first (cover_quantity_used fl symbol)))).
  assert (dec_ok allowance) as Ha.
  { unfold allowance. destruct (sub first (cover_quantity_used fl symbol)) as [r|] eqn:E; simpl; [|apply ZERO_ok].
    apply sub_atto in E as [? _]; [done|done|by apply used_ok]. }
  destruct (negb (is_positive allowance)); [apply during_fail|].
  destruct (bounded_cover spec venue symbol q price allowance) as [r|] eqn:Eb; [|apply during_fail].
  apply bounded_cover_ok in Eb as [Hr Hra]; [|done..|lia].
  apply place_leg_spec; try done. exists h. split_and!; try done; lia.
Qed.

Lemma run_legs_spec s : snapshot_ok s →
  spec_of (during s true) (run_legs spec venue (plan_sells spec venue s)) (λ _, during s false).
Proof.
  intros Hs. destruct (plan_sells_ok spec venue rules_ok s Hs) as [Hc Hse]. rewrite Forall_forall in Hc, Hse.
  apply (triple_bind reducing_only _ _ _ (λ _, during s true)).
  - apply triple_for_each. intros x Hx. by apply cover_spec, Hc.
  - intros []. apply (triple_pre reducing_only _ _ (during s false)); [|by intros f g (? & ? & _)].
    apply triple_for_each. intros [[symbol q] price] Hx. destruct (Hse _ Hx) as (Hred & Hq & _).
    by apply place_leg_spec.
Qed.

(** ** Rounds *)

Definition calm (f : Flattener) (g : Watch) : Prop := state_ok f.

Lemma calm_fail code msg : spec_of calm (fail code msg) (λ _, calm).
Proof.
  eapply triple_pre; [eapply triple_post; [apply (fail_spec (λ _, True))|]|]; [by intros [] f g []|by intros f g Hf].
Qed.

Lemma calm_modify h : (∀ f, state_ok f → state_ok (h f)) → spec_of calm (modify h) (λ _, calm).
Proof. intros Hh. apply triple_modify. intros f g. apply Hh. Qed.

Lemma cancel_one_spec (I : Watch → Prop) (o : OrderReport) :
  (∀ g, I g → is_own_order o (fs_known_order_ids spec) = true → rep_id o ∈ ours g) →
  spec_of (λ f g, state_ok f ∧ I g) (cancel_one spec o) (λ _ f g, state_ok f ∧ I g).
Proof.
  intros HI. unfold cancel_one. destruct (is_own_order o (fs_known_order_ids spec)) eqn:Eo; simpl.
  2: { apply triple_modify. intros f g [[? ?] ?]. done. }
  eapply triple_bind.
  { apply (triple_ask reducing_only _ _ (λ _ f g, state_ok f ∧ I g)).
    - intros f g [_ Hg]. by apply HI.
    - intros f g r Hp _. exact Hp. }
  intros [[co r]|e].
  - apply (triple_bind reducing_only _ _ _ (λ _ f g, state_ok f ∧ I g)).
    { apply triple_modify. intros f g [[? ?] ?]. done. }
    intros []. destruct (is_terminal (rep_status r)); [by intros f g Hp|]. unfold confirm_cancel.
    eapply triple_bind; [apply (settle_spec I); intros g Hg; by apply HI|]. intros [x|e].
    + apply (triple_pre reducing_only _ _ (λ f g, state_ok f ∧ I g)); [|by intros f g [? _]].
      destruct (is_terminal (rep_status x)); [|apply (fail_spec I)].
      apply triple_modify. intros f g [[? ?] ?]. done.
    + apply (triple_pre reducing_only _ _ (λ f g, state_ok f ∧ I g)); [|by intros f g [? _]]. apply (fail_spec I).
  - destruct e; try apply (fail_spec I); destruct (is_anomaly _); apply (fail_spec I).
Qed.

Lemma cancel_own_spec : spec_of calm (cancel_own_open_orders spec) (λ _, calm).
Proof.
  apply (triple_bind reducing_only _ _ _ (λ r f g, state_ok f ∧
    ∀ l, r = Ok l → ∀ o, o ∈ l → is_own_order o (fs_known_order_ids spec) = true → rep_id o ∈ ours g)).
  { apply triple_ask; [done|]. intros f g r Hf _. split; [done|]. intros l -> o Ho Hown. simpl. apply elem_of_app. left.
    apply list_elem_of_fmap_2. apply list_elem_of_In, List.filter_In. by rewrite <-list_elem_of_In. }
  intros [l|e].
  - set (I := λ g : Watch, ∀ o, o ∈ l → is_own_order o (fs_known_order_ids spec) = true → rep_id o ∈ ours g).
    apply (triple_bind reducing_only _ _ _ (λ _, calm)); [|by intros [] f g Hf].
    eapply triple_pre; [eapply triple_post|].
    + apply (triple_for_each reducing_only _ _ (λ f g, state_ok f ∧ I g)). intros o Ho. apply cancel_one_spec.
      intros g Hg. by apply Hg.
    + by intros [] f g [? _].
    + intros f g [Hf Hl]. split; [done|]. exact (Hl l eq_refl).
  - apply (triple_bind reducing_only _ _ _ (λ _, calm)); [|by intros [] f g Hf].
    eapply triple_pre; [apply calm_fail|]. by intros f g [? _].
Qed.

Lemma one_round_spec round acc : spec_of calm (one_round spec venue round acc) (λ _, calm).
Proof.
  destruct acc as [[r0 d] u]. eapply triple_bind; [apply cancel_own_spec|]. intros [|]; simpl; [|by intros f g Hf].
  apply (triple_bind reducing_only _ _ _ (λ _, calm)); [by apply triple_ask|]. intros at_.
  apply (triple_bind reducing_only _ _ _ (λ r f g, match r with Ok s => snapshot_ok s ∧ during s true f g | Err _ => state_ok f end)).
  { apply triple_ask; [done|]. intros f g [s|e] Hf Hb; [|done]. split; [by apply Hb|]. split; [done|]. by split. }
  intros [s|e].
  2: { eapply triple_bind; [apply calm_fail|]. by intros [] f g Hf. }
  apply (triple_pure reducing_only (snapshot_ok s)); [by intros f g []|]. intros Hs.
  assert (spec_of (during s true) (let# _ := run_legs spec venue (plan_sells spec venue s) in
    ret (true, (round, dust (plan_sells spec venue s), unmanaged (plan_sells spec venue s)))) (λ _, calm)) as Hgo.
  { eapply triple_bind; [by apply run_legs_spec|]. by intros [] f g (Hf & _). }
  apply (triple_pre reducing_only _ _ (during s true)); [|by intros f g []].
  destruct (covers (plan_sells spec venue s)), (sells (plan_sells spec venue s)); try exact Hgo.
  by intros f g (Hf & _).
Qed.

Lemma run_rounds_spec n round acc : spec_of calm (run_rounds spec venue n round acc) (λ _, calm).
Proof.
  revert round acc. induction n as [|n IH]; intros round acc; simpl; [by intros f g Hf|].
  eapply triple_bind; [apply one_round_spec|]. intros [[|] acc']; [apply IH|by intros f g Hf].
Qed.

Lemma verify_spec acc : spec_of calm (verify spec venue acc) (λ _, calm).
Proof.
  destruct acc as [[r d] u]. apply (triple_bind reducing_only _ _ _ (λ _, calm)); [by apply triple_ask|]. intros at_.
  apply (triple_bind reducing_only _ _ _ (λ _, calm)); [by apply triple_ask|]. intros [s|e].
  2: { eapply triple_bind; [apply calm_fail|]. by intros [] f g Hf. }
  eapply triple_bind.
  { apply triple_for_each. intros b _. apply calm_modify. intros f Hf. destruct (bool_decide _); [done|]. by destruct Hf. }
  intros []. eapply triple_bind.
  { apply triple_for_each. intros o _. unfold note_foreign. destruct (negb _); [|by intros f g Hf].
    apply calm_modify. by intros f []. }
  intros []. eapply triple_bind.
  { destruct (negb _); [apply calm_fail|by intros f g Hf]. }
  intros []. eapply triple_bind.
  { destruct (existsb _ _); [apply calm_fail|by intros f g Hf]. }
  intros []. apply (triple_bind reducing_only _ _ _ (λ _, calm)); [by apply triple_get|]. by intros fl f g Hf.
Qed.

Lemma flatten_always : always reducing_only (flatten spec venue) watch_start (λ _ _, True).
Proof.
  unfold flatten. apply always_bind. eapply always_mono; [|by intros [rep f] g _].
  refine ((_ : spec_of calm (flatten_step spec venue) (λ _, calm)) flattener_new watch_start _).
  2: { split; [intros o Ho; by apply elem_of_nil in Ho|done]. }
  apply (triple_bind reducing_only _ _ _ (λ _, calm)); [by apply triple_ask|]. intros started.
  eapply triple_bind; [apply run_rounds_spec|]. intros acc.
  eapply triple_bind; [apply verify_spec|]. intros [[[d u] rest] flat].
  apply (triple_bind reducing_only _ _ _ (λ _, calm)); [by apply triple_get|]. intros fl.
  apply (triple_bind reducing_only _ _ _ (λ _, calm)); [by apply triple_ask|]. by intros finished f g Hf.
Qed.
End protocol.

(** C4. The flatten only ever reduces. Whatever the broker answers (any sequence of outcomes, refusals, unknown
    results and snapshots whose decimals are well formed), at every call of the run: an order sent is a market order
    under a flatten tag for a holding of the LAST snapshot read, inside the mandate's universe, a sell of a long or a
    buy of a short, positive and no larger than the position; no cover is sent after a sell of the same round; and
    only ids that are ours are polled or cancelled. *)
Theorem flatten_only_reduces `{Chrono, Sha256} spec venue tr rep tr1 B (c : call B) b tr2 :
  book_ok (venue_rules spec) → runs (flatten spec venue) tr rep → Forall (believable (reducing_only spec)) tr →
  tr = tr1 ++ Ev c b :: tr2 →
  call_allowed spec (fold_left (see (reducing_only spec)) tr1 watch_start) B c.
Proof.
  intros Hr Hrun Hb ->. pose proof (flatten_always spec venue Hr) as Ha.
  destruct (always_runs _ _ _ _ _ _ Ha Hrun Hb) as [Ho _]. by eapply (obeys_split (reducing_only spec)) in Ho.
Qed.
