(* ===== verification/FlattenEnd.v ===== *)
(** * FlattenEnd: how the flatten ends

    A verdict other than [HaltAndAlert] is backed by the last snapshot; the number of broker and clock calls is
    bounded whatever the broker answers; and a broker whose cancel stays pending makes the flatten buy back more than
    the short it covers. *)

From Stdlib Require Import ZArith Lia String Ascii.
From S2P Require Import Prelude Text BTree F64 Externals Decimal DecMath Broker Alpaca Venue Guard RiskState View Recon Flatten Calls.

Local Open Scope Z_scope.

(** ** A plan with nothing to trade *)

Section plans.
Context `{Chrono}.
Variable spec : FlattenSpec.
Variable venue : string.

(** The order that would close the holding is one the venue refuses as too small. *)
Definition refused_as_dust (h : Holding) : Prop :=
  ∃ rules price held refusal, book_get (venue_rules spec) venue = Some rules ∧ price_of h = Some price ∧
    (if is_negative (hold_quantity h) then neg (hold_quantity h) = Ok held else held = hold_quantity h) ∧
    round_quantity rules (hold_symbol h) (if is_negative (hold_quantity h) then Buy else Sell) held price = Err refusal ∧
    is_dust_refusal refusal = true.

Definition managed (h : Holding) : Prop := bs_contains (universe spec) (to_uppercase (hold_symbol h)) = true.
Definition closed (h : Holding) : Prop := is_zero (hold_quantity h) = true ∨ refused_as_dust h.

Definition idle (p : SellPlan) : Prop := covers p = [] ∧ sells p = [] ∧ blockers p = [].

Lemma not_nil {A} (l : list A) x : l ++ [x] ≠ [].
Proof. by destruct l. Qed.

Lemma plan_leg_idle h short held p (p' := plan_leg spec venue h short held p) : idle p' →
  idle p ∧ dust p' ≠ [] ∧ ∃ rules price refusal, book_get (venue_rules spec) venue = Some rules ∧ price_of h = Some price ∧
    round_quantity rules (hold_symbol h) (if short then Buy else Sell) held price = Err refusal ∧ is_dust_refusal refusal = true.
Proof.
  subst p'. unfold plan_leg, idle. destruct (book_get (venue_rules spec) venue) as [rules|], (price_of h) as [price|]; simpl;
    try (intros (_ & _ & Hb); by apply not_nil in Hb).
  destruct (round_quantity rules (hold_symbol h) (if short then Buy else Sell) held price) as [q|e] eqn:Er.
  - destruct (dec_ltb held q); [intros (_ & _ & Hb); by apply not_nil in Hb|].
    destruct (dec_ltb q held), short; simpl; intros (Hc & Hs & _); by (apply not_nil in Hc || apply not_nil in Hs).
  - destruct (is_dust_refusal e) eqn:Ed; simpl; [|intros (_ & _ & Hb); by apply not_nil in Hb].
    intros Hi. split; [done|]. split; [apply not_nil|]. by exists rules, price, e.
Qed.

Lemma plan_holding_idle h p (p' := plan_holding spec venue p h) : idle p' →
  idle p ∧ (dust p' = [] → dust p = []) ∧ (managed h → closed h ∧ (dust p' = [] → is_zero (hold_quantity h) = true)).
Proof.
  subst p'. unfold plan_holding, managed, closed. destruct (is_zero (hold_quantity h)) eqn:Ez.
  { intros Hi. split; [done|]. split; [done|]. intros _. split; [by left|done]. }
  destruct (bs_contains (universe spec) (to_uppercase (hold_symbol h))); simpl.
  2: { intros Hi. split; [done|]. split; [done|]. done. }
  assert (∀ short held, short = is_negative (hold_quantity h) →
    (if is_negative (hold_quantity h) then neg (hold_quantity h) = Ok held else held = hold_quantity h) →
    idle (plan_leg spec venue h short held p) → idle p ∧ (dust (plan_leg spec venue h short held p) = [] → dust p = []) ∧
    (true = true → (false = true ∨ refused_as_dust h) ∧ (dust (plan_leg spec venue h short held p) = [] → false = true))) as Hleg.
  { intros short held -> Hh Hi. apply plan_leg_idle in Hi as (Hi & Hd & rules & price & e & Hb & Hp & Hr & He).
    split; [done|]. split; [done|]. intros _. split; [|done]. right. by exists rules, price, held, e. }
  destruct (is_negative (hold_quantity h)) eqn:En.
  - destruct (neg (hold_quantity h)) as [m|e] eqn:Em; [by apply Hleg|].
    intros (_ & _ & Hb). simpl in Hb. by apply not_nil in Hb.
  - by apply Hleg.
Qed.

Lemma plan_idle s (p := plan_sells spec venue s) : idle p →
  ∀ h, h ∈ holdings s → managed h → closed h ∧ (dust p = [] → is_zero (hold_quantity h) = true).
Proof.
  subst p. intros Hi h Hh. assert (h ∈ sort_by holding_gt (holdings s)) as Hin by (by rewrite sort_by_perm).
  unfold plan_sells in *. revert Hi Hin. generalize empty_plan. clear Hh.
  assert (∀ l p, idle (fold_left (plan_holding spec venue) l p) →
    idle p ∧ (dust (fold_left (plan_holding spec venue) l p) = [] → dust p = []) ∧
    ∀ h, h ∈ l → managed h → closed h ∧ (dust (fold_left (plan_holding spec venue) l p) = [] → is_zero (hold_quantity h) = true)) as Hfold.
  { induction l as [|x l IH]; intros p Hi; simpl in *.
    - split; [done|]. split; [done|]. intros y Hy. by apply not_elem_of_nil in Hy.
    - apply IH in Hi as (Hi & Hd & Hl). apply plan_holding_idle in Hi as (Hi & Hd' & Hx). split; [done|].
      split; [by intros Hn; apply Hd', Hd|]. intros y [->|Hy]%elem_of_cons Hm; [|by apply Hl].
      destruct (Hx Hm) as [Hc Hz]. split; [done|]. intros Hn. by apply Hz, Hd. }
  intros p Hi Hin. by apply (Hfold _ _ Hi).
Qed.
End plans.

(** ** The verdict *)

Section verdict.
Context `{Chrono} `{Sha256}.
Variable spec : FlattenSpec.
Variable venue : string.

(** Watching the whole trace. *)
Definition history : protocol call :=
  {| ghost := list (event call); allowed g B c := True; observe g B c b := g ++ [Ev c b]; plausible B c b := True |}.

Lemma history_is_trace tr g : fold_left (see history) tr g = g ++ tr.
Proof.
  revert g. induction tr as [|[B c b] tr IH]; intros g; simpl; [by rewrite app_nil_r|]. rewrite IH.
  by rewrite <-app_assoc.
Qed.

(** No constraint on the way to a point. *)
Lemma history_any {A} (m : step A) : triple history (λ _ _, True) m (λ _ _ _, True).
Proof.
  intros f g _. generalize (m f). intros p. revert g. induction p as [a|B c k IH]; intros g; simpl; [done|].
  split; [done|]. intros b _. apply IH.
Qed.

(** What the report's [verified_flat] stands for. *)
Record flat_at (s : BrokerSnapshot) (d : list DustRecord) (f : Flattener) : Prop := {
  fa_idle : idle (plan_sells spec venue s);
  fa_dust : d = dust (plan_sells spec venue s);
  fa_open : has_failure FlattenCode.is_blocking f = false → ∀ o, o ∈ open_orders s → is_own_order o (fs_known_order_ids spec) = false;
}.

Lemma for_each_step {A} (h : A → Flattener → Flattener) (m : A → step unit) x l f f' : m x f = Ret (tt, h x f) →
  for_each m l (h x f) = Ret (tt, f') → for_each m (x :: l) f = Ret (tt, f').
Proof. intros Hx Hl. simpl. unfold step_bind. by rewrite Hx. Qed.

Lemma add_blockers l f : ∃ f', for_each add_blocker l f = Ret (tt, f') ∧ failures f ⊆ failures f' ∧ l ⊆ failures f'.
Proof.
  revert f. induction l as [|b l IH]; intros f; [exists f; simpl; set_solver|].
  set (h := λ b f, if bool_decide (b ∈ failures f) then f else push_failure (ff_code b) (ff_message b) f).
  destruct (IH (h b f)) as (f' & Hf' & Hf & Hl). exists f'. split; [by apply (for_each_step h)|].
  assert (b ∈ failures (h b f) ∧ failures f ⊆ failures (h b f)) as [Hb Hsub]; [|set_solver].
  unfold h. destruct (bool_decide (b ∈ failures f)) eqn:Eb; [by apply bool_decide_eq_true in Eb|].
  destruct b. simpl. set_solver.
Qed.

Lemma note_all l f : ∃ f', for_each (note_foreign spec) l f = Ret (tt, f') ∧ failures f' = failures f.
Proof.
  revert f. induction l as [|o l IH]; intros f; [by exists f|].
  set (h := λ o f, if negb (is_own_order o (fs_known_order_ids spec)) then add_foreign (rep_id o) f else f).
  destruct (IH (h o f)) as (f' & Hf' & Hf). exists f'. split.
  - apply (for_each_step h); [|done]. unfold note_foreign, h. by destruct (negb _).
  - rewrite Hf. unfold h. by destruct (negb _).
Qed.

Lemma has_failure_in p f x : x ∈ failures f → has_failure p f = false → p (ff_code x) = false.
Proof.
  intros Hx Hf. unfold has_failure in Hf. destruct (p (ff_code x)) eqn:E; [|done].
  assert (existsb (λ x, p (ff_code x)) (failures f) = true) as Ht; [|by rewrite Ht in Hf].
  apply existsb_exists. exists x. split; [by apply list_elem_of_In|done].
Qed.

Lemma residual_nil p : residual_of p = [] → covers p = [] ∧ sells p = [].
Proof.
  unfold residual_of. intros Hn. apply app_nil in Hn as [Hc Hs].
  split; [by destruct (covers p)|by destruct (sells p)].
Qed.

Lemma blockers_are_unsizable s b : b ∈ blockers (plan_sells spec venue s) → ff_code b = FlattenCode.CannotSize.
Proof.
  unfold plan_sells. assert (∀ l p, (∀ b, b ∈ blockers p → ff_code b = FlattenCode.CannotSize) →
    ∀ b, b ∈ blockers (fold_left (plan_holding spec venue) l p) → ff_code b = FlattenCode.CannotSize) as Hfold.
  { induction l as [|h l IH]; intros p Hp; simpl; [done|]. apply IH. clear IH b.
    assert (∀ msg q, (∀ b, b ∈ blockers q → ff_code b = FlattenCode.CannotSize) →
      ∀ b, b ∈ blockers (with_blocker msg q) → ff_code b = FlattenCode.CannotSize) as Hw.
    { intros msg q Hq b Hb. simpl in Hb. apply elem_of_app in Hb as [Hb|Hb]; [by apply Hq|].
      apply list_elem_of_singleton in Hb as ->. done. }
    unfold plan_holding, plan_leg.
    repeat (case_match; simpl; try done; try (apply Hw; done); try (intros; by apply Hp)). }
  apply Hfold. intros x Hx. by apply not_elem_of_nil in Hx.
Qed.

Lemma verify_flat acc : triple history (λ _ _, True) (verify spec venue acc)
  (λ r f g, let '(d, _, _, flat) := r in flat = true →
    ∃ tr t s, g = tr ++ [Ev (Snapshot t) (Ok s)] ∧ flat_at s d f).
Proof.
  destruct acc as [[r d] u]. eapply triple_bind; [apply history_any|]. intros at_.
  apply (triple_bind history _ _ _ (λ r f g, ∃ tr, g = tr ++ [Ev (Snapshot at_) r])).
  { apply triple_ask; [done|]. intros f g b _ _. by exists g. }
  intros [s|e].
  2: { intros f g _. by simpl. }
  set (p := plan_sells spec venue s). intros f g [tr Hg]. unfold step_bind at 1.
  destruct (add_blockers (blockers p) f) as (f1 & -> & _ & Hbl). cbn [prog_bind fst snd].
  unfold step_bind at 1. destruct (note_all (open_orders s) f1) as (f2 & -> & Hf2). cbn [prog_bind fst snd].
  set (own := existsb (λ o, is_own_order o (fs_known_order_ids spec)) (open_orders s)).
  destruct (residual_of p) as [|x rest] eqn:Er.
  - cbn [negb fail_when]. unfold step_bind, ret. cbn [prog_bind fst snd].
    assert (∃ f3, fail_when own FlattenCode.OpenOrdersRemain "one of our orders is still open after the flatten" f2 = Ret (tt, f3) ∧
      failures f2 ⊆ failures f3 ∧ (own = true → has_failure FlattenCode.is_blocking f3 = true)) as (f3 & -> & Hsub & Hown).
    { destruct own; simpl.
      - eexists. split; [reflexivity|]. split; [simpl; set_solver|]. intros _. unfold has_failure. simpl.
        rewrite existsb_app. simpl. by rewrite orb_true_r.
      - exists f2. split; [reflexivity|]. by split. }
    cbn [prog_bind fst snd get always]. rewrite negb_true_iff. intros Hun. exists tr, at_, s. split; [done|].
    apply residual_nil in Er as [Hc Hs]. split; [|done|].
    + split_and!; [done|done|]. destruct (blockers p) as [|b bs] eqn:Eb; [done|]. exfalso.
      assert (b ∈ blockers p) as Hb by (rewrite Eb; left).
      assert (b ∈ failures f3) as Hb3 by (apply Hsub; rewrite Hf2; apply Hbl; left).
      pose proof (has_failure_in unsizable f3 b Hb3 Hun) as Hcode.
      apply blockers_are_unsizable in Hb. by rewrite Hb in Hcode.
    + intros Hnb o Ho. destruct own eqn:Eo; [by rewrite Hown in Hnb|].
      destruct (is_own_order o (fs_known_order_ids spec)) eqn:E; [|done]. exfalso.
      assert (own = true) as Ht; [|by rewrite Ht in Eo]. subst own. apply existsb_exists. exists o.
      split; [by apply list_elem_of_In|done].
  - destruct own; cbn; discriminate.
Qed.

Lemma verdict_always : always history (flatten spec venue) []
  (λ rep g, fr_verdict rep ≠ FlattenVerdict.HaltAndAlert → ∃ tr t s t' f,
     g = tr ++ [Ev (Snapshot t) (Ok s); Ev Now t'] ∧ flat_at s (fr_dust rep) f ∧ fr_failures rep = failures f ∧
     has_failure FlattenCode.is_blocking f = false ∧ (fr_verdict rep = FlattenVerdict.Flat ↔ fr_dust rep = [])).
Proof.
  unfold flatten. apply always_bind.
  assert (triple history (λ _ _, True) (flatten_step spec venue) (λ rep f g,
    fr_verdict rep ≠ FlattenVerdict.HaltAndAlert → ∃ tr t s t' f,
     g = tr ++ [Ev (Snapshot t) (Ok s); Ev Now t'] ∧ flat_at s (fr_dust rep) f ∧ fr_failures rep = failures f ∧
     has_failure FlattenCode.is_blocking f = false ∧ (fr_verdict rep = FlattenVerdict.Flat ↔ fr_dust rep = []))) as Ht.
  { eapply triple_bind; [apply history_any|]. intros started. eapply triple_bind; [apply history_any|]. intros acc.
    eapply triple_bind; [apply verify_flat|]. intros [[[d u] rest] flat].
    apply (triple_bind history _ _ _ (λ fl f g, flat = true →
      ∃ tr t s, g = tr ++ [Ev (Snapshot t) (Ok s)] ∧ flat_at s d fl)); [by apply triple_get|]. intros fl.
    apply (triple_bind history _ _ _ (λ t' f g, flat = true →
      ∃ tr t s, g = tr ++ [Ev (Snapshot t) (Ok s); Ev Now t'] ∧ flat_at s d fl)).
    { apply triple_ask; [done|]. intros f g t' Hp _ Hflat. destruct (Hp Hflat) as (tr & t & s & -> & Hs).
      exists tr, t, s. split; [|done]. simpl. by rewrite <-app_assoc. }
    intros t' f g Hp. simpl. unfold verdict_of. destruct flat; simpl; [|done].
    destruct (has_failure FlattenCode.is_blocking fl) eqn:Eb; [done|]. intros _.
    destruct (Hp eq_refl) as (tr & t & s & Hg & Hs). exists tr, t, s, t', fl. split_and!; try done.
    by destruct d. }
  eapply always_mono; [by apply (Ht flattener_new [])|]. intros [rep f] g Hrep. exact Hrep.
Qed.
End verdict.

(** C11. A clean verdict is backed by the last read. Whatever the broker answered, when the flatten does not end in
    [HaltAndAlert] its last broker call was a snapshot in which every holding of the mandate's universe is zero or one
    whose closing order the venue refuses as too small, none of the open orders is ours, and no blocking failure was
    recorded; the verdict is [Flat] exactly when nothing at all is left ([FlatWithDust] reports the rest). *)
Theorem clean_verdict_is_flat `{Chrono, Sha256} spec venue tr rep :
  runs (flatten spec venue) tr rep → fr_verdict rep ≠ FlattenVerdict.HaltAndAlert →
  ∃ tr' t s t', tr = tr' ++ [Ev (Snapshot t) (Ok s); Ev Now t'] ∧
    (∀ h, h ∈ holdings s → managed spec h → closed spec venue h) ∧
    (fr_verdict rep = FlattenVerdict.Flat → ∀ h, h ∈ holdings s → managed spec h → is_zero (hold_quantity h) = true) ∧
    (∀ o, o ∈ open_orders s → is_own_order o (fs_known_order_ids spec) = false) ∧
    (∀ x, x ∈ fr_failures rep → FlattenCode.is_blocking (ff_code x) = false).
Proof.
  intros Hrun Hv. destruct (always_runs _ _ _ _ _ _ (verdict_always spec venue) Hrun) as [_ HQ].
  { clear. induction tr as [|[B c b] tr IH]; by constructor. }
  rewrite history_is_trace in HQ. destruct (HQ Hv) as (tr' & t & s & t' & f & Htr & [Hi Hd Ho] & Hf & Hnb & Hflat).
  exists tr', t, s, t'. split; [exact Htr|].
  pose proof (plan_idle spec venue s Hi) as Hplan. split_and!.
  - intros h Hh Hm. by destruct (Hplan h Hh Hm).
  - intros Hfl h Hh Hm. destruct (Hplan h Hh Hm) as [_ Hz]. apply Hz. rewrite <-Hd. by apply Hflat.
  - by apply Ho.
  - intros x Hx. rewrite Hf in Hx. by eapply has_failure_in.
Qed.
