(* ===== verification/FlattenBound.v ===== *)
(** * FlattenBound: the flatten ends after a bounded number of calls

    Programs over calls are finite trees, so every run ends; here the depth is bounded: by the spec's rounds, polls
    and tag indexes, the positions of a snapshot and the length of an open-order list, whatever the answers are. *)

From Stdlib Require Import ZArith Lia String Ascii.
From S2P Require Import Prelude Text BTree Externals Decimal Broker Venue Guard RiskState View Recon Flatten Calls.

Section bound.
Context `{Chrono} `{Sha256}.
Variable spec : FlattenSpec.
Variable venue : string.
(** The most positions in a snapshot, and the most open orders in a list. *)
Variables (H_max O_max : nat).

Definition counting : protocol call :=
  {| ghost := nat; allowed g B c := True; observe g B c b := S g;
     plausible B c := match c in call B' return B' → Prop with
       | Snapshot _ => fun r => ∀ s, r = Ok s → (length (holdings s) ≤ H_max)%nat
       | OpenOrders => fun r => ∀ l, r = Ok l → (length l ≤ O_max)%nat
       | _ => fun _ => True
       end |}.

(** [m] makes at most [n] calls. *)
Definition costs {A} (m : step A) (n : nat) : Prop :=
  ∀ f g, always counting (m f) g (λ _ g', (g' ≤ g + n)%nat).

Lemma costs_weaken {A} (m : step A) n n' : (n ≤ n')%nat → costs m n → costs m n'.
Proof. intros Hn Hm f g. eapply always_mono; [apply Hm|]. simpl. intros _ g' Hg. lia. Qed.

Lemma costs_ret {A} (a : A) n : costs (ret a) n.
Proof. intros f g. simpl. lia. Qed.

Lemma costs_modify h n : costs (modify h) n.
Proof. intros f g. simpl. lia. Qed.

Lemma costs_get n : costs get n.
Proof. intros f g. simpl. lia. Qed.

Lemma costs_bind {A B} (m : step A) (k : A → step B) n n' :
  costs m n → (∀ a, costs (k a) n') → costs (step_bind m k) (n + n').
Proof.
  intros Hm Hk f g. apply always_bind. eapply always_mono; [apply Hm|]. intros [a f'] g' Hg.
  eapply always_mono; [apply Hk|]. simpl. intros _ g'' Hg''. lia.
Qed.

Lemma costs_ask {B A} (c : call B) (k : B → step A) n :
  (∀ b, plausible counting _ c b → costs (k b) n) → costs (step_bind (ask c) k) (S n).
Proof.
  intros Hk f g. simpl. split; [done|]. intros b Hb. eapply always_mono; [by apply Hk|]. simpl. intros _ g' Hg. lia.
Qed.

Lemma costs_for_each {A} (m : A → step unit) l n : (∀ x, x ∈ l → costs (m x) n) → costs (for_each m l) (length l * n).
Proof.
  induction l as [|x l IH]; intros Hm; simpl; [apply costs_ret|]. apply costs_bind; [apply Hm; left|].
  intros _. apply IH. intros y Hy. apply Hm. by right.
Qed.

Lemma costs_fail code msg n : costs (fail code msg) n.
Proof. apply costs_modify. Qed.

Lemma costs_fail_when b code msg n : costs (fail_when b code msg) n.
Proof. destruct b; [apply costs_fail|apply costs_ret]. Qed.

(** A step that makes no call. *)
Ltac free := intros; solve [apply costs_ret | apply costs_modify | apply costs_get | apply costs_fail | apply costs_fail_when].

(** A sequence whose first step makes no call. *)
Lemma costs_then {A B} (m : step A) (k : A → step B) n : costs m 0 → (∀ a, costs (k a) n) → costs (step_bind m k) n.
Proof. intros Hm Hk. by apply (costs_bind m k 0 n). Qed.

Let polls : nat := Z.to_nat (max_polls spec).
Let indexes : nat := Z.to_nat (max_tag_index spec).

Definition settle_calls : nat := 2 * polls + 1.
Definition cancel_calls : nat := 2 * polls + 2.
Definition place_calls : nat := 2 * polls + 3.
Definition leg_calls : nat := indexes + 2 * place_calls.
Definition round_calls : nat := 3 + O_max * cancel_calls + H_max * leg_calls.
Definition flatten_calls : nat := 4 + Z.to_nat (max_rounds spec) * round_calls.

Lemma costs_poll n id : costs (poll spec n id) (2 * n).
Proof.
  induction n as [|n IH]; [free|]. replace (2 * S n)%nat with (S (1 + 2 * n)) by lia. cbn [poll].
  apply costs_ask. intros [r|e] _; [|free]. destruct (is_terminal (rep_status r)); [free|].
  apply (costs_bind _ _ 1 (2 * n)); [|intros _; exact IH]. destruct n; [free|]. intros f g. simpl. split; [done|]. intros _ _. lia.
Qed.

Lemma costs_settle id : costs (settle spec id) settle_calls.
Proof.
  apply (costs_bind _ _ (2 * polls) 1); [apply costs_poll|]. intros [r|]; [free|]. apply costs_ask.
  intros [[o r]|e] _; [|free]. apply costs_then; free.
Qed.

Lemma costs_cancel_one o : costs (cancel_one spec o) cancel_calls.
Proof.
  unfold cancel_one, cancel_calls. destruct (negb _); [free|]. replace (2 * polls + 2)%nat with (S settle_calls) by (unfold settle_calls; lia).
  apply costs_ask. intros [[c r]|e] _.
  - apply costs_then; [free|]. intros _. destruct (is_terminal _); [free|]. rewrite <-(Nat.add_0_r settle_calls).
    apply costs_bind; [apply costs_settle|]. intros [x|e]; [|free]. destruct (is_terminal _); free.
  - destruct e; try free; case_match; free.
Qed.

Lemma costs_cancel_own : costs (cancel_own_open_orders spec) (1 + O_max * cancel_calls).
Proof.
  apply costs_ask. intros [l|e] Hl.
  - rewrite <-(Nat.add_0_r (O_max * cancel_calls)). apply costs_bind; [|free].
    eapply costs_weaken; [|apply costs_for_each; intros x _; apply costs_cancel_one].
    apply Nat.mul_le_mono_r. by apply Hl.
  - apply costs_then; free.
Qed.

Lemma costs_free_tag n k symbol side : costs (free_tag_from spec n k symbol side) n.
Proof.
  revert k. induction n as [|n IH]; intros k; [apply costs_then; free|]. apply costs_ask.
  intros [[|o l]|e] _; [free|apply IH|apply costs_then; free].
Qed.

Lemma costs_settle_and_record tag symbol side q id b : costs (settle_and_record spec tag symbol side q id b) settle_calls.
Proof.
  rewrite <-(Nat.add_0_r settle_calls). apply costs_bind; [apply costs_settle|]. intros [r|e]; [free|].
  apply costs_then; [destruct (is_anomaly e); free|free].
Qed.

Lemma costs_place_once attempt tag symbol side q p : costs (place_once spec attempt tag symbol side q p) place_calls.
Proof.
  assert (∀ id b, costs (let# _ := settle_and_record spec tag symbol side q id b in ret false) settle_calls) as Hs.
  { intros id b. rewrite <-(Nat.add_0_r settle_calls). apply costs_bind; [apply costs_settle_and_record|free]. }
  assert (∀ code msg o n, costs (let# _ := fail code msg in let# _ := record_unsent tag symbol side q o in ret false) n) as Hf.
  { intros. apply costs_then; [free|]. intros _. apply costs_then; free. }
  replace place_calls with (S (S settle_calls)) by (unfold place_calls, settle_calls; lia).
  apply costs_ask. intros [[id d s w|d s w|es s|r s]|e] _; try apply Hf.
  - eapply costs_weaken; [|apply Hs]. lia.
  - apply costs_ask. intros [[|o l]|e] _; [|apply Hs|apply Hf]. destruct (attempt =? 1)%Z; [free|apply Hf].
Qed.

Lemma costs_place_leg symbol side q p : costs (place_leg spec symbol side q p) leg_calls.
Proof.
  apply (costs_bind _ _ indexes (2 * place_calls)); [apply costs_free_tag|]. intros [tag|]; [|free].
  replace (2 * place_calls)%nat with (place_calls + (place_calls + 0))%nat by lia.
  apply (costs_bind _ _ place_calls (place_calls + 0)); [apply costs_place_once|]. intros [|]; [|free].
  apply (costs_bind _ _ place_calls 0); [apply costs_place_once|free].
Qed.

Lemma costs_cover symbol q p : costs (cover spec venue symbol q p) leg_calls.
Proof.
  apply costs_then; [free|]. intros f. apply costs_then; [free|]. intros _. cbv beta zeta. case_match; [free|].
  case_match; [apply costs_place_leg|free].
Qed.

(** At most one order per position. *)
Lemma plan_count s :
  (length (covers (plan_sells spec venue s)) + length (sells (plan_sells spec venue s)) ≤ length (holdings s))%nat.
Proof.
  unfold plan_sells.
  assert (∀ l p, (length (covers (fold_left (plan_holding spec venue) l p)) + length (sells (fold_left (plan_holding spec venue) l p))
    ≤ length (covers p) + length (sells p) + length l)%nat) as Hfold.
  { induction l as [|h l IH]; intros p; simpl; [lia|]. etransitivity; [apply IH|].
    assert (length (covers (plan_holding spec venue p h)) + length (sells (plan_holding spec venue p h)) ≤
      length (covers p) + length (sells p) + 1)%nat; [|lia].
    unfold plan_holding, plan_leg. repeat case_match; simpl; rewrite ?length_app; simpl; lia. }
  etransitivity; [apply Hfold|]. rewrite (Permutation_length (sort_by_perm holding_gt (holdings s))). simpl. lia.
Qed.

Lemma costs_run_legs s : (length (holdings s) ≤ H_max)%nat → costs (run_legs spec venue (plan_sells spec venue s)) (H_max * leg_calls).
Proof.
  intros Hs. pose proof (plan_count s) as Hc.
  eapply (costs_weaken _ (length (covers (plan_sells spec venue s)) * leg_calls + length (sells (plan_sells spec venue s)) * leg_calls)).
  { rewrite <-Nat.mul_add_distr_r. apply Nat.mul_le_mono_r. lia. }
  apply costs_bind; [|intros _]; apply costs_for_each; intros [[sym q] p] _; [apply costs_cover|apply costs_place_leg].
Qed.

Lemma costs_one_round round acc : costs (one_round spec venue round acc) round_calls.
Proof.
  destruct acc as [[r d] u].
  replace round_calls with ((1 + O_max * cancel_calls) + S (S (H_max * leg_calls)))%nat by (unfold round_calls; lia).
  apply (costs_bind _ _ (1 + O_max * cancel_calls) (S (S (H_max * leg_calls)))); [apply costs_cancel_own|]. intros [|]; [|free]. cbn [negb].
  apply costs_ask. intros at_ _. apply costs_ask. intros [s|e] Hs; [|apply costs_then; free].
  assert (costs (let# _ := run_legs spec venue (plan_sells spec venue s) in
    ret (true, (round, dust (plan_sells spec venue s), unmanaged (plan_sells spec venue s)))) (H_max * leg_calls)) as Hgo.
  { rewrite <-(Nat.add_0_r (H_max * leg_calls)). apply costs_bind; [|free]. apply costs_run_legs. by apply Hs. }
  cbv beta zeta. destruct (covers (plan_sells spec venue s)) eqn:Ec, (sells (plan_sells spec venue s)) eqn:Es; [free|..];
    exact Hgo.
Qed.

Lemma costs_run_rounds n round acc : costs (run_rounds spec venue n round acc) (n * round_calls).
Proof.
  revert round acc. induction n as [|n IH]; intros round acc; [free|].
  apply (costs_bind _ _ round_calls (n * round_calls)); [apply costs_one_round|]. intros [[|] acc']; [apply IH|free].
Qed.

Lemma costs_verify acc : costs (verify spec venue acc) 2.
Proof.
  destruct acc as [[r d] u]. apply costs_ask. intros at_ _. apply costs_ask. intros [s|e] _; [|apply costs_then; free].
  apply costs_then; [rewrite <-(Nat.mul_0_r (length (blockers (plan_sells spec venue s)))); apply costs_for_each; free|]. intros _.
  apply costs_then.
  { rewrite <-(Nat.mul_0_r (length (open_orders s))). apply costs_for_each. intros o _. unfold note_foreign. destruct (negb _); free. }
  intros _. apply costs_then; [free|]. intros _. apply costs_then; [free|]. intros _. apply costs_then; free.
Qed.

Lemma flatten_bounded : always counting (flatten spec venue) 0%nat (λ _ g, (g ≤ flatten_calls)%nat).
Proof.
  unfold flatten. apply always_bind.
  assert (costs (flatten_step spec venue) flatten_calls) as Hc; [|eapply always_mono; [apply (Hc flattener_new 0%nat)|done]].
  replace flatten_calls with (S (Z.to_nat (max_rounds spec) * round_calls + (2 + 1)))%nat by (unfold flatten_calls; lia).
  apply costs_ask. intros started _. apply (costs_bind _ _ _ (2 + 1)); [apply costs_run_rounds|]. intros acc.
  apply (costs_bind _ _ 2 1); [apply costs_verify|]. intros [[[d u] rest] flat]. apply costs_then; [apply costs_get|]. intros f.
  apply costs_ask. intros finished _. apply costs_ret.
Qed.
End bound.

(** C22. The flatten ends within a bounded number of calls, whatever the broker and the clock answer: with at most
    [h] positions in every snapshot and [o] orders in every open-order list, a run makes at most
    [4 + rounds * (3 + o * (2 * polls + 2) + h * (indexes + 2 * (2 * polls + 3)))] calls of the broker and the clock. *)
Theorem flatten_call_bound `{Chrono, Sha256} spec venue h o tr rep :
  runs (flatten spec venue) tr rep → Forall (believable (counting h o)) tr →
  (length tr ≤ 4 + Z.to_nat (max_rounds spec) * (3 + o * (2 * Z.to_nat (max_polls spec) + 2) +
     h * (Z.to_nat (max_tag_index spec) + 2 * (2 * Z.to_nat (max_polls spec) + 3))))%nat.
Proof.
  intros Hrun Hb. destruct (always_runs _ _ _ _ _ _ (flatten_bounded spec venue h o) Hrun Hb) as [_ Hg].
  assert (∀ tr g, fold_left (see (counting h o)) tr g = (g + length tr)%nat) as Hlen.
  { clear. induction tr as [|[B c b] tr IH]; intros g; simpl; [lia|]. rewrite IH. simpl. lia. }
  rewrite Hlen in Hg. exact Hg.
Qed.
