(* ===== verification/FlattenScenario.v ===== *)
(** * FlattenScenario: the flatten against a concrete broker

    A broker with a state of its own answers the calls of the flatten: the theorems of FlattenFacts, FlattenEnd and
    FlattenBound are applied to its run, and a cancel that stays pending shows how the cover bound is exceeded. *)

From Stdlib Require Import ZArith Lia String Ascii.
From S2P Require Import Prelude Text BTree F64 Externals Decimal DecMath Policy Broker Kraken Alpaca Venue Guard PlanFacts RiskState View Recon.
From S2P Require Import Flatten Calls FlattenFacts FlattenEnd FlattenBound.

Local Open Scope Z_scope.

(** ** A broker is believed when all its answers are *)

Lemma exec_believable `{Chrono} (P : protocol call) {W A} (h : ∀ B, call B → W → B * W) (p : prog call A) w :
  (∀ B c w, plausible P B c (h B c w).1) → Forall (believable P) (exec h p w).1.
Proof.
  intros Hh. revert w. induction p as [a|B c k IH]; intros w; simpl; [constructor|].
  pose proof (Hh B c w) as Hb. destruct (h B c w) as [b w']. specialize (IH b w').
  destruct (exec h (k b) w') as [tr a]. by constructor.
Qed.

(** The orders a run sent. *)
Definition sent_of `{Chrono} (e : event call) : list OrderRequest :=
  match e with Ev c _ => match c with Place r => [r] | _ => [] end end.
Fixpoint sent_orders `{Chrono} (tr : list (event call)) : list OrderRequest :=
  match tr with [] => [] | e :: tr' => sent_of e ++ sent_orders tr' end.

Lemma sent_first `{Chrono} tr r l : sent_orders tr = r :: l → ∃ tr1 b tr2, tr = tr1 ++ Ev (Place r) b :: tr2.
Proof.
  induction tr as [|[B c b] tr IH]; [done|]. simpl.
  destruct c; simpl; try (intros (tr1 & b' & tr2 & ->)%IH; by eexists (_ :: tr1), b', tr2).
  intros [= -> _]. by exists [], b, tr.
Qed.

Module Scenario.
Import Baseline.
Local Existing Instance epoch_chrono.
Local Existing Instance plain_digest.

(** One position, valued at 100 a unit, of an ETF that Alpaca's built-in table knows. *)
Definition spec : FlattenSpec := spec_new "acct" "20260101T000000Z" (bs_of_list ["SPY"]%string) Rebalance.book [].

Definition position (q : string) : Holding :=
  {| hold_symbol := "SPY"; hold_class := "us_etf"; hold_quantity := lit q; mark := Some (lit "100"); hold_value := lit "0" |}.

Definition account (at_ : DateTime) (q : string) : BrokerSnapshot :=
  {| s_venue := "alpaca"; s_ccy := "USD"; s_equity := lit "1000"; s_cash := lit "1000"; holdings := [position q];
     unvalued := []; open_orders := []; excluded_balances := []; taken_at := at_; derived_equity := lit "1000" |}.

Definition report (id : string) (side : Side) (status : OrderStatus.t) (q executed : string) : OrderReport :=
  {| rep_id := id; rep_userref := None; rep_tag := Some "rb1:fl:x"; rep_symbol := "SPY"; rep_side := Some side;
     rep_kind := Some Market; rep_status := status; rep_raw_status := ""; rep_reason := None; rep_quantity := lit q;
     rep_executed := lit executed; rep_avg_price := None; rep_cost := None; rep_fee := None; rep_financing := f64_zero;
     rep_open_time := None; rep_close_time := None |}.

(** A book of answers by the number of orders accepted so far: the position, and the reports of orders by id. *)
Record Market := {
  held : nat → string;
  reported : nat → string → OrderReport;
  listed : nat → list OrderReport;
}.

Definition sent (r : OrderRequest) : SentOrder :=
  {| sent_broker_pair := req_symbol r; sent_side := req_side r; sent_quantity := req_quantity r; sent_price := None;
     sent_userref := 0; sent_validate_only := false |}.

(** The state is the tags of the orders accepted so far; an order's id is its number. *)
Definition answer (m : Market) (B : Type) (c : call B) (tags : list string) : B * list string :=
  match c in call B' return B' * list string with
  | Now => (0, tags)
  | SleepSecs _ => (tt, tags)
  | Snapshot t => (Ok (account t (held m (length tags))), tags)
  | Place req => (Ok (PlaceOutcome.Accepted (show_int (Z.of_nat (length tags))) None (sent req) []), tags ++ [req_tag req])
  | GetOrder id => (Ok (reported m (length tags) id), tags)
  | OpenOrders => (Ok (listed m (length tags)), tags)
  | FindByTag tag =>
      (Ok (if bool_decide (tag ∈ tags) then [report "0" Buy OrderStatus.Filled "1" "1"] else []), tags)
  | CancelAndSettle id => (Ok ({| canceled_count := 1; cancel_pending := true |}, reported m (length tags) id), tags)
  end.

Definition simulate (m : Market) : list (event call) * FlattenReport := exec (answer m) (flatten spec "alpaca") [].

(** A short of 10 that one order buys back. *)
Definition steady : Market :=
  {| held n := if (n =? 0)%nat then "-10" else "0"; reported _ id := report id Buy OrderStatus.Filled "10" "10";
     listed _ := [] |}.

(** A short of 10; the first order has bought 4 of its 10 when it is cancelled, the cancel stays pending, and the
    order fills its other 6 while the second round buys 6 more. *)
Definition first_order (n : nat) : OrderReport :=
  if (n <=? 1)%nat then report "0" Buy OrderStatus.PartiallyFilled "10" "4" else report "0" Buy OrderStatus.Filled "10" "10".
Definition pending_cancel : Market :=
  {| held n := match n with 0 => "-10" | 1 => "-6" | 2 => "6" | _ => "0" end%nat;
     reported n id := if bool_decide (id = "0"%string) then first_order n else report id Buy OrderStatus.Filled "6" "6";
     listed n := if (n =? 1)%nat then [first_order n] else [] |}.

Definition traded (m : Market) : list (bool * Z) :=
  (λ r, (bool_decide (req_side r = Buy), atto (req_quantity r) / 1000000000000000000)) <$> sent_orders (simulate m).1.
Definition verdict (m : Market) : Z :=
  match fr_verdict (simulate m).2 with FlattenVerdict.Flat => 0 | FlattenVerdict.FlatWithDust => 1 | FlattenVerdict.HaltAndAlert => 2 end.
End Scenario.

Example steady_traded : Scenario.traded Scenario.steady = [(true, 10)] ∧ Scenario.verdict Scenario.steady = 0.
Proof. vm_compute. done. Qed.

(** The code buys 16 to cover a short of 10: [record_report] files the first order, still live with 4 executed, as
    [PartiallyFilled], so that [cover_quantity_used] counts 4 of it and not the 10 it may still fill. *)
Example pending_cancel_overbuys : Scenario.traded Scenario.pending_cancel = [(true, 10); (true, 6); (false, 6)].
Proof. vm_compute. done. Qed.

(** ** The theorems applied to the concrete runs *)

Module Applied.
Import Scenario.
Local Existing Instance epoch_chrono.
Local Existing Instance plain_digest.

Lemma runs_simulate m : runs (flatten spec "alpaca") (simulate m).1 (simulate m).2.
Proof. apply exec_runs. Qed.

Lemma account_ok t q : snapshot_ok (account t q).
Proof. intros h ->%list_elem_of_singleton. split; simpl; [apply Baseline.lit_ok..|]. intros d [= <-]. apply Baseline.lit_ok. Qed.

Lemma reducing_believable m : (∀ n id, dec_ok (rep_executed (reported m n id))) → Forall (believable (reducing_only spec)) (simulate m).1.
Proof.
  intros Hm. apply exec_believable. intros B c w. destruct c; simpl; try done.
  - intros s [= <-]. apply account_ok.
  - intros o [= <-]. apply Hm.
  - intros co [= <-]. apply Hm.
Qed.

Lemma counting_believable m k : (∀ n, (length (listed m n) ≤ k)%nat) → Forall (believable (counting 1 k)) (simulate m).1.
Proof.
  intros Hm. apply exec_believable. intros B c w. destruct c; simpl; try done.
  - intros s [= <-]. simpl. lia.
  - intros l [= <-]. apply Hm.
Qed.

Definition not_halted (v : FlattenVerdict.t) : bool := match v with FlattenVerdict.HaltAndAlert => false | _ => true end.
End Applied.

Lemma flatten_only_reduces_witness :
  ∃ tr1 r b tr2, (Scenario.simulate Scenario.pending_cancel).1 = tr1 ++ @Ev (@call epoch_chrono) _ (Place r) b :: tr2 ∧
    @call_allowed epoch_chrono Scenario.spec (fold_left (see (@reducing_only epoch_chrono Scenario.spec)) tr1 watch_start) _ (Place r).
Proof.
  assert (∃ r l, @sent_orders epoch_chrono (Scenario.simulate Scenario.pending_cancel).1 = r :: l) as (r & l & Hr).
  { destruct (sent_orders _) as [|r l] eqn:E; [|by exists r, l].
    pose proof pending_cancel_overbuys as Ho. unfold Scenario.traded in Ho. rewrite E in Ho. done. }
  apply (@sent_first epoch_chrono) in Hr as (tr1 & b & tr2 & Htr). exists tr1, r, b, tr2. split; [done|].
  apply (@flatten_only_reduces epoch_chrono plain_digest Scenario.spec "alpaca" _ _ tr1 _ (Place r) b tr2 Rebalance.book_is_ok
    (Applied.runs_simulate Scenario.pending_cancel)); [|exact Htr].
  apply Applied.reducing_believable. intros n id. simpl. destruct (bool_decide _); [|apply Baseline.lit_ok].
  unfold Scenario.first_order. destruct (_ <=? _)%nat; apply Baseline.lit_ok.
Defined.

Lemma flatten_call_bound_witness :
  (length (Scenario.simulate Scenario.pending_cancel).1 ≤ 4 + 4 * (3 + 1 * (2 * 3 + 2) + 1 * (25 + 2 * (2 * 3 + 3))))%nat.
Proof.
  apply (@flatten_call_bound epoch_chrono plain_digest Scenario.spec "alpaca" 1 1 _ _ (Applied.runs_simulate Scenario.pending_cancel)).
  apply Applied.counting_believable. intros n. simpl. destruct (n =? 1)%nat; simpl; lia.
Defined.

Lemma clean_verdict_is_flat_witness :
  ∃ tr' t s t', (Scenario.simulate Scenario.steady).1 = tr' ++ [@Ev (@call epoch_chrono) _ (Snapshot t) (Ok s); Ev Now t'] ∧
    ∀ h, h ∈ holdings s → managed Scenario.spec h → is_zero (hold_quantity h) = true.
Proof.
  assert (fr_verdict (Scenario.simulate Scenario.steady).2 = FlattenVerdict.Flat) as Hv.
  { destruct steady_traded as [_ Hv]. unfold Scenario.verdict in Hv.
    by destruct (fr_verdict (Scenario.simulate Scenario.steady).2). }
  destruct (@clean_verdict_is_flat epoch_chrono plain_digest Scenario.spec "alpaca" _ _ (Applied.runs_simulate Scenario.steady))
    as (tr' & t & s & t' & Htr & _ & Hz & _); [by rewrite Hv|].
  exists tr', t, s, t'. split; [exact Htr|]. by apply Hz.
Defined.
