(* ===== verification/Record.v ===== *)
(** * Record: crates/rebalancer-run/src/record.rs

    The immutable record of a run and the small vocabulary around it: keys, outcomes, alerts, placed orders. *)

From Stdlib Require Import ZArith Lia String Ascii.
From S2P Require Import Prelude Assoc Text BTree F64 Externals Decimal DecMath Broker Venue RiskState Overlay View Recon Flatten Guard Planner Data Decision.

Local Open Scope Z_scope.

(** ** Modes, keys, outcomes *)

Module ExecutionMode.
Inductive t := Assisted | Paper | Live.
Definition as_str (m : t) : string := match m with Assisted => "assisted" | Paper => "paper" | Live => "live" end.
End ExecutionMode.
Abbreviation ExecutionMode := ExecutionMode.t.

#[export] Instance execution_mode_eq_dec : EqDecision ExecutionMode.
Proof. solve_decision. Defined.

Record RunKey `{Chrono} := { rk_account : string; rk_scheduled_for : DateTime; sleeve_set : string }.

#[export] Instance run_key_eq_dec `{Chrono} : EqDecision RunKey.
Proof. solve_decision. Defined.

(** [dedup()] of a sorted list *)
Fixpoint dedup (l : list string) : list string :=
  match l with
  | x :: (y :: _) as rest => if String.eqb x y then dedup rest else x :: dedup rest
  | _ => l
  end.

Definition run_key_new `{Chrono} (account : string) (at_ : DateTime) (sleeve_ids : list string) : RunKey :=
  {| rk_account := account; rk_scheduled_for := at_; sleeve_set := join "+" (dedup (sort_by key_gt sleeve_ids)) |}.

Definition canonical `{Chrono} (k : RunKey) : string :=
  rk_account k +:+ "|" +:+ dt_to_rfc3339 (rk_scheduled_for k) +:+ "|" +:+ sleeve_set k.

Module OutcomeKind.
Inductive t := Completed | Refused | FailedClosed | Halted.
Definition as_str (k : t) : string :=
  match k with
  | Completed => "COMPLETED"
  | Refused => "REFUSED"
  | FailedClosed => "FAILED_CLOSED"
  | Halted => "HALTED"
  end.
End OutcomeKind.
Abbreviation OutcomeKind := OutcomeKind.t.

#[export] Instance outcome_kind_eq_dec : EqDecision OutcomeKind.
Proof. solve_decision. Defined.

Record RunOutcome := { oc_kind : OutcomeKind; oc_code : string; oc_message : string }.

(** ** Alerts *)

Module AlertSeverity.
Inductive t := Info | Warning | Critical.
Definition as_str (s : t) : string := match s with Info => "info" | Warning => "warning" | Critical => "critical" end.
End AlertSeverity.

#[export] Instance alert_severity_eq_dec : EqDecision AlertSeverity.t.
Proof. solve_decision. Defined.

Module AlertCode.
Inductive t :=
| Halt | FlattenIncomplete | RunFailed | StillHalted | MandateUnusable | DecisionNotActed | LatencyRecorderFailed
| HeartbeatFailed | DataGateShadowRefuse | AccountExcludedWithPositions.

Definition ALL : list t :=
  [Halt; FlattenIncomplete; RunFailed; StillHalted; MandateUnusable; DecisionNotActed; LatencyRecorderFailed;
   HeartbeatFailed; DataGateShadowRefuse; AccountExcludedWithPositions].

Definition as_str (c : t) : string :=
  match c with
  | Halt => "ALERT_HALT"
  | FlattenIncomplete => "ALERT_FLATTEN_INCOMPLETE"
  | RunFailed => "ALERT_RUN_FAILED"
  | StillHalted => "ALERT_STILL_HALTED"
  | MandateUnusable => "ALERT_MANDATE_UNUSABLE"
  | DecisionNotActed => "ALERT_DECISION_NOT_ACTED"
  | LatencyRecorderFailed => "ALERT_LATENCY_RECORDER_FAILED"
  | HeartbeatFailed => "ALERT_HEARTBEAT_FAILED"
  | DataGateShadowRefuse => "ALERT_DATA_GATE_SHADOW_REFUSE"
  | AccountExcludedWithPositions => "ACCOUNT_EXCLUDED_WITH_POSITIONS"
  end.
End AlertCode.

#[export] Instance alert_code_eq_dec : EqDecision AlertCode.t.
Proof. solve_decision. Defined.

Record Alert `{Chrono} := {
  al_code : AlertCode.t;
  al_severity : AlertSeverity.t;
  al_account : string;
  al_run_key : string;
  al_message : string;
  dedupe_key : string;
  al_at : DateTime;
}.

(** ** Snapshots, targets, decisions *)

Record SnapshotSummary `{Chrono} := {
  ss_taken_at : DateTime;
  ss_equity : Dec;
  ss_cash : Dec;
  ss_derived_equity : Dec;
  ss_holdings : BTreeMap string Dec;
  ss_marks : BTreeMap string Dec;
  open_order_ids : list string;
}.

Definition summary_baseline `{Chrono} (s : SnapshotSummary) : ReconBaseline :=
  {| b_cash := ss_cash s; b_holdings := ss_holdings s; b_marks := ss_marks s |}.

Record TargetSummary `{Chrono} := {
  ts_sleeve : string;
  ts_decision_date : NaiveDate;
  ts_fingerprint : string;
  ts_weights : list (string * Dec);
}.

Record SleeveDecision `{Chrono} := {
  sd_sleeve : string;
  sd_kind : SleeveKind;
  sd_cadence : Cadence;
  sd_decision_date : NaiveDate;
  computable_decision_date : NaiveDate;
  sd_newest_bar_date : NaiveDate;
  sd_lag_sessions : Z;
  last_acted : option NaiveDate;
  sd_pending : bool;
  entry : bool;
  planned : bool;
  acted : bool;
  sd_instruments : list InstrumentEvidence;
  sd_data_gate : option DataGateReport;
}.

#[export] Instance sleeve_decision_eta `{Chrono} : Eta SleeveDecision := fun d =>
  {| sd_sleeve := sd_sleeve d; sd_kind := sd_kind d; sd_cadence := sd_cadence d; sd_decision_date := sd_decision_date d;
     computable_decision_date := computable_decision_date d; sd_newest_bar_date := sd_newest_bar_date d;
     sd_lag_sessions := sd_lag_sessions d; last_acted := last_acted d; sd_pending := sd_pending d; entry := entry d;
     planned := planned d; acted := acted d; sd_instruments := sd_instruments d; sd_data_gate := sd_data_gate d |}.

(** ** Plans and placed orders *)

Record DeniedSummary := { ds_order : PlannedOrder; ds_codes : list string; ds_reasons : list Denial }.

Record PlanSummary := {
  ps_digest : string;
  ps_equity : Dec;
  ps_capital_base : Dec;
  ps_risk_scale : Dec;
  ps_orders : list PlannedOrder;
  ps_denied : list DeniedSummary;
  ps_skipped : list SkippedTrade;
  ps_lines : list InstrumentLine;
}.

Module Phase.
Inductive t := Sells | Buys | Rehearsal.
End Phase.
Abbreviation Phase := Phase.t.

#[export] Instance phase_eq_dec : EqDecision Phase.
Proof. solve_decision. Defined.

Module PlacedOutcome.
Inductive t :=
| Filled | PartiallyFilled | NothingExecuted | Validated | Rejected | NotSent | AdoptedExisting | UnknownNotFound | Unsettled.
(** The derived [Debug] *)
Definition debug (o : t) : string :=
  match o with
  | Filled => "Filled"
  | PartiallyFilled => "PartiallyFilled"
  | NothingExecuted => "NothingExecuted"
  | Validated => "Validated"
  | Rejected => "Rejected"
  | NotSent => "NotSent"
  | AdoptedExisting => "AdoptedExisting"
  | UnknownNotFound => "UnknownNotFound"
  | Unsettled => "Unsettled"
  end.
End PlacedOutcome.
Abbreviation PlacedOutcome := PlacedOutcome.t.

#[export] Instance placed_outcome_eq_dec : EqDecision PlacedOutcome.
Proof. solve_decision. Defined.

Record PlacedOrder := {
  pd_phase : Phase;
  pd_tag : string;
  pd_symbol : string;
  pd_side : Side;
  pd_planned : Dec;
  pd_price : Dec;
  pd_outcome : PlacedOutcome;
  pd_id : option string;
  pd_status : option OrderStatus.t;
  pd_executed : Dec;
  pd_reports : list OrderReport;
  pd_anomalies : list string;
  pd_detail : string;
}.

#[export] Instance placed_order_eta : Eta PlacedOrder := fun p =>
  {| pd_phase := pd_phase p; pd_tag := pd_tag p; pd_symbol := pd_symbol p; pd_side := pd_side p;
     pd_planned := pd_planned p; pd_price := pd_price p; pd_outcome := pd_outcome p; pd_id := pd_id p;
     pd_status := pd_status p; pd_executed := pd_executed p; pd_reports := pd_reports p; pd_anomalies := pd_anomalies p;
     pd_detail := pd_detail p |}.

Definition MARKET_CLOSED_MARKER : string := "MARKET_CLOSED".

Definition carried (p : PlacedOrder) : bool :=
  match pd_outcome p with
  | PlacedOutcome.Filled | PlacedOutcome.PartiallyFilled | PlacedOutcome.Validated => true
  | PlacedOutcome.AdoptedExisting => is_positive (pd_executed p)
  | PlacedOutcome.UnknownNotFound => existsb (fun r => is_positive (rep_executed r)) (pd_reports p)
  | PlacedOutcome.NothingExecuted | PlacedOutcome.Rejected | PlacedOutcome.NotSent | PlacedOutcome.Unsettled => false
  end.

Definition refused_market_closed (p : PlacedOrder) : bool :=
  bool_decide (pd_outcome p = PlacedOutcome.NotSent) && contains_str (pd_detail p) MARKET_CLOSED_MARKER.

(** ** The record *)

Record StepNote `{Chrono} := { sn_step : string; sn_at : DateTime; sn_note : string }.

Record StageRecon `{Chrono} := { stage : string; stage_report : ReconReport }.

Section record.
Context `{Chrono}.

Record RunRecord := {
  run_key : RunKey;
  run_mode : ExecutionMode;
  attempt : Z;
  run_day : NaiveDate;
  run_scheduled_for : DateTime;
  run_started_at : DateTime;
  run_finished_at : DateTime;
  run_outcome : RunOutcome;
  mandate_hash : string;
  mandate_version : option Z;
  mandate_standing : string;
  run_deployment_digest : option string;
  data_fingerprints : list (string * string);
  pre_snapshot : option SnapshotSummary;
  post_snapshot : option SnapshotSummary;
  run_recon : list StageRecon;
  state_before : option AccountStatus;
  state_after : option AccountStatus;
  transitions : list Transition;
  run_risk : option RiskDecision;
  decisions : list SleeveDecision;
  run_targets : list TargetSummary;
  run_plan : option PlanSummary;
  replan : option PlanSummary;
  tickets : list PlannedOrder;
  placed : list PlacedOrder;
  run_cleanup : list CancelRecord;
  run_flatten : option FlattenReport;
  alerts : list Alert;
  alert_delivery_failures : list string;
  steps : list StepNote;
}.

#[export] Instance run_record_eta : Eta RunRecord := fun r =>
  {| run_key := run_key r; run_mode := run_mode r; attempt := attempt r; run_day := run_day r;
     run_scheduled_for := run_scheduled_for r; run_started_at := run_started_at r; run_finished_at := run_finished_at r;
     run_outcome := run_outcome r; mandate_hash := mandate_hash r; mandate_version := mandate_version r;
     mandate_standing := mandate_standing r; run_deployment_digest := run_deployment_digest r;
     data_fingerprints := data_fingerprints r; pre_snapshot := pre_snapshot r; post_snapshot := post_snapshot r;
     run_recon := run_recon r; state_before := state_before r; state_after := state_after r; transitions := transitions r;
     run_risk := run_risk r; decisions := decisions r; run_targets := run_targets r; run_plan := run_plan r;
     replan := replan r; tickets := tickets r; placed := placed r; run_cleanup := run_cleanup r;
     run_flatten := run_flatten r; alerts := alerts r; alert_delivery_failures := alert_delivery_failures r; steps := steps r |}.

Definition step_names (r : RunRecord) : list string := sn_step <$> steps r.

Definition live_phase (p : PlacedOrder) : bool := negb (bool_decide (pd_phase p = Phase.Rehearsal)).
Definition placed_live (r : RunRecord) : list PlacedOrder := List.filter live_phase (placed r).

Definition denial_codes (r : RunRecord) : list string :=
  concat ((fun p => concat (ds_codes <$> ps_denied p)) <$> (option_list (run_plan r) ++ option_list (replan r))).
End record.
