(* ===== verification/RunStore.v ===== *)
(** * RunStore: crates/rebalancer-run/src/stores.rs

    The run store: run keys with leases, the order journal, immutable records and the ledger of acted decisions; the
    missed-run test; the equity log. The in-memory store is modelled as a value that every call maps to its successor. *)

From Stdlib Require Import ZArith Lia String Ascii.
From S2P Require Import Prelude Assoc Text BTree F64 Externals Decimal Broker RiskState View Recon Flatten Guard Planner Data Decision Record.

Local Open Scope Z_scope.

Module RunStoreError.
Inductive t :=
| Unavailable (why : string)
| AlreadyFinished (key : string)
| NotStarted (key : string)
| DecisionLedgerUnavailable (why : string).

Definition display (e : t) : string :=
  match e with
  | Unavailable w => "RUNSTORE_UNAVAILABLE: " +:+ w
  | AlreadyFinished k => "RUNSTORE_ALREADY_FINISHED: the record for " +:+ k +:+ " was already written and is immutable"
  | NotStarted k => "RUNSTORE_NOT_STARTED: no run in progress for " +:+ k
  | DecisionLedgerUnavailable w => "RUNSTORE_DECISION_LEDGER_UNAVAILABLE: " +:+ w
  end.

Definition code (e : t) : string :=
  match e with
  | Unavailable _ => "RUNSTORE_UNAVAILABLE"
  | AlreadyFinished _ => "RUNSTORE_ALREADY_FINISHED"
  | NotStarted _ => "RUNSTORE_NOT_STARTED"
  | DecisionLedgerUnavailable _ => "RUNSTORE_DECISION_LEDGER_UNAVAILABLE"
  end.
End RunStoreError.
Abbreviation RunStoreError := RunStoreError.t.

Record JournalEntry := { j_tag : string; j_broker_order_id : option string; j_notional : Dec }.

Section store.
Context `{Chrono}.

Inductive Begin := Started (attempt : Z) | AlreadyDone (r : RunRecord) | Busy (started_at : DateTime).

Record RunSummary := {
  sum_key : RunKey;
  sum_attempt : Z;
  sum_scheduled_for : DateTime;
  sum_started_at : DateTime;
  sum_finished_at : option DateTime;
  sum_outcome : option (OutcomeKind * string);
}.

Definition lateness_secs (s : RunSummary) : Z := num_seconds (signed_duration_since (sum_started_at s) (sum_scheduled_for s)).

(** ** The in-memory store *)

Inductive Entry :=
| InProgress (attempt : Z) (day : NaiveDate) (started_at lease_until : DateTime) (journal : list JournalEntry)
| Done (r : RunRecord).

(** [order] lists the keys oldest first; [acted] is [D_acted] per (account, sleeve). *)
Record RunStore := {
  entries : Assoc RunKey Entry;
  order : list RunKey;
  fails : Z;
  ledger : BTreeMap (string * string) NaiveDate;
}.

Definition empty_store : RunStore := {| entries := []; order := []; fails := 0; ledger := [] |}.

#[export] Instance run_store_eta : Eta RunStore := fun g =>
  {| entries := entries g; order := order g; fails := fails g; ledger := ledger g |}.

(** A call of the store: its answer and the store after it. *)
Definition answer (A : Type) : Type := result RunStoreError A * RunStore.

(** [check]: the injected failure comes first. *)
Definition guarded {A} (g : RunStore) (k : answer A) : answer A :=
  if 0 <? fails g then (Err (RunStoreError.Unavailable "injected failure"), g <| fails := fails g - 1 |>) else k.

Definition put (k : RunKey) (e : Entry) (g : RunStore) : RunStore := g <| entries := as_insert k e (entries g) |>.

Definition begin (g : RunStore) (key : RunKey) (day : NaiveDate) (started_at : DateTime) (lease_secs : Z) : answer Begin :=
  guarded g
    (let lease_until := dt_add started_at (duration_seconds lease_secs) in
     match as_get (entries g) key with
     | None => (Ok (Started 1), (put key (InProgress 1 day started_at lease_until []) g) <| order := order g ++ [key] |>)
     | Some (Done r) => (Ok (AlreadyDone r), g)
     | Some (InProgress attempt _ prev_start prev_lease journal) =>
         if dt_ltb started_at prev_lease then (Ok (Busy prev_start), g)
         else
           let attempt := wrap_u32 (attempt + 1) in
           (Ok (Started attempt), put key (InProgress attempt day started_at lease_until journal) g)
     end).

(** An entry with the same tag is replaced in place, else appended. *)
Fixpoint journal_put (e : JournalEntry) (l : list JournalEntry) : list JournalEntry :=
  match l with
  | [] => [e]
  | x :: l' => if String.eqb (j_tag x) (j_tag e) then e :: l' else x :: journal_put e l'
  end.

Definition journal_order (g : RunStore) (key : RunKey) (e : JournalEntry) : answer unit :=
  guarded g
    (match as_get (entries g) key with
     | Some (InProgress n day start lease journal) => (Ok tt, put key (InProgress n day start lease (journal_put e journal)) g)
     | _ => (Err (RunStoreError.NotStarted (canonical key)), g)
     end).

(** The entries of an account's keys, oldest first. *)
Definition keys_of (g : RunStore) (account : string) : list RunKey :=
  List.filter (fun k => String.eqb (rk_account k) account) (order g).
Definition account_entries (g : RunStore) (account : string) : list (RunKey * option Entry) :=
  (fun k => (k, as_get (entries g) k)) <$> keys_of g account.

Definition journal_of (x : RunKey * option Entry) : list JournalEntry :=
  match x.2 with Some (InProgress _ _ _ _ j) => j | _ => [] end.

Definition in_flight (g : RunStore) (account : string) : answer (list JournalEntry) :=
  guarded g (Ok (concat (journal_of <$> account_entries g account)), g).

(** [acted.entry(key).or_insert(date)], moved forward only *)
Definition advance (account : string) (m : BTreeMap (string * string) NaiveDate) (d : SleeveDecision)
    : BTreeMap (string * string) NaiveDate :=
  let key := (account, sd_sleeve d) in
  let slot := default (sd_decision_date d) (bt_get m key) in
  bt_insert key (if date_gtb (sd_decision_date d) slot then sd_decision_date d else slot) m.

Definition finish (g : RunStore) (record : RunRecord) : answer unit :=
  guarded g
    (let key := run_key record in
     match as_get (entries g) key with
     | Some (InProgress _ _ _ _ _) =>
         let m := fold_left (advance (rk_account key)) (List.filter acted (decisions record)) (ledger g) in
         (Ok tt, (put key (Done record) g) <| ledger := m |>)
     | Some (Done _) => (Err (RunStoreError.AlreadyFinished (canonical key)), g)
     | None => (Err (RunStoreError.NotStarted (canonical key)), g)
     end).

Definition newest_snapshot (best : option (DateTime * SnapshotSummary)) (x : RunKey * option Entry)
    : option (DateTime * SnapshotSummary) :=
  match x.2 with
  | Some (Done r) =>
      match (match post_snapshot r with Some s => Some s | None => pre_snapshot r end) with
      | Some s =>
          match best with
          | Some (t, _) => if dt_leb t (run_finished_at r) then Some (run_finished_at r, s) else best
          | None => Some (run_finished_at r, s)
          end
      | None => best
      end
  | _ => best
  end.

Definition last_snapshot (g : RunStore) (account : string) : answer (option SnapshotSummary) :=
  guarded g (Ok (snd <$> fold_left newest_snapshot (account_entries g account) None), g).

Definition ids_of (x : RunKey * option Entry) : list string :=
  match x.2 with
  | Some (Done r) => omap pd_id (placed r)
  | Some (InProgress _ _ _ _ j) => omap j_broker_order_id j
  | None => []
  end.

Definition known_order_ids (g : RunStore) (account : string) : answer (BTreeSet string) :=
  guarded g (Ok (bs_of_list (concat (ids_of <$> account_entries g account))), g).

Definition count_order (c : DayCounters) (value : Dec) : DayCounters :=
  {| orders_today := u32_saturating_add (orders_today c) 1;
     turnover_today := default (turnover_today c) (checked_add (turnover_today c) value) |}.

Definition counts_today (p : PlacedOrder) : bool :=
  live_phase p && is_some (pd_id p) && negb (bool_decide (pd_outcome p = PlacedOutcome.AdoptedExisting)).

Definition count_entry (day : NaiveDate) (c : DayCounters) (x : RunKey * option Entry) : DayCounters :=
  match x.2 with
  | Some (Done r) =>
      if bool_decide (run_day r = day) && bool_decide (run_mode r = ExecutionMode.Live) then
        fold_left (fun c p => count_order c (default ZERO (checked_mul (pd_executed p) (pd_price p))))
          (List.filter counts_today (placed r)) c
      else c
  | Some (InProgress _ d _ _ j) =>
      if bool_decide (d = day) then fold_left (fun c e => count_order c (j_notional e)) j c else c
  | None => c
  end.

Definition day_counters (g : RunStore) (account : string) (day : NaiveDate) : answer DayCounters :=
  guarded g (Ok (fold_left (count_entry day) (account_entries g account) no_orders_today), g).

Definition summary_of (x : RunKey * option Entry) : option RunSummary :=
  match x.2 with
  | Some (Done r) =>
      Some {| sum_key := x.1; sum_attempt := attempt r; sum_scheduled_for := run_scheduled_for r;
              sum_started_at := run_started_at r; sum_finished_at := Some (run_finished_at r);
              sum_outcome := Some (oc_kind (run_outcome r), oc_code (run_outcome r)) |}
  | Some (InProgress n _ start _ _) =>
      Some {| sum_key := x.1; sum_attempt := n; sum_scheduled_for := rk_scheduled_for x.1; sum_started_at := start;
              sum_finished_at := None; sum_outcome := None |}
  | None => None
  end.

Definition summaries (g : RunStore) (account : string) : answer (list RunSummary) :=
  guarded g (Ok (omap summary_of (account_entries g account)), g).

Definition get_record (g : RunStore) (key : RunKey) : answer (option RunRecord) :=
  guarded g (Ok (match as_get (entries g) key with Some (Done r) => Some r | _ => None end), g).

Definition last_acted_decision (g : RunStore) (account sleeve_id : string) : answer (option NaiveDate) :=
  guarded g (Ok (bt_get (ledger g) (account, sleeve_id)), g).

(** ** Missed runs *)

Inductive MissedKind := NeverStarted | StuckInProgress.

Record MissedRun := { missed_slot : DateTime; missed_kind : MissedKind; overdue_secs : Z }.

(** The process of this summary died: not finished, and its lease is over. *)
Definition stuck (now : DateTime) (lease_secs : Z) (s : RunSummary) : bool :=
  negb (is_some (sum_finished_at s)) && dt_leb (dt_add (sum_started_at s) (duration_seconds lease_secs)) now.

Definition missed_slot_of (sums : list RunSummary) (now : DateTime) (grace_secs lease_secs : Z) (slot : DateTime) : option MissedRun :=
  let due := dt_add slot (duration_seconds grace_secs) in
  if dt_ltb now due then None
  else
    let overdue := num_seconds (signed_duration_since now due) in
    match List.filter (fun s => bool_decide (sum_scheduled_for s = slot)) sums with
    | [] => Some {| missed_slot := slot; missed_kind := NeverStarted; overdue_secs := overdue |}
    | mine =>
        if forallb (stuck now lease_secs) mine then
          Some {| missed_slot := slot; missed_kind := StuckInProgress; overdue_secs := overdue |}
        else None
    end.

Definition find_missed (expected : list DateTime) (sums : list RunSummary) (now : DateTime) (grace_secs lease_secs : Z) : list MissedRun :=
  omap (missed_slot_of sums now grace_secs lease_secs) expected.

(** ** The equity log *)

Definition MONITOR_SNAPSHOT_SOURCE : string := "monitor".

Record EquityReading := {
  er_account : string;
  er_taken_at : DateTime;
  er_equity : Dec;
  er_cash : Dec;
  er_derived_equity : Dec;
  er_source : string;
}.

Record EquityLog := { readings : list EquityReading; log_failing : bool }.

Definition log_append (l : EquityLog) (r : EquityReading) : result string unit * EquityLog :=
  if log_failing l then (Err "EQUITY_LOG_UNAVAILABLE: injected failure", l)
  else (Ok tt, {| readings := readings l ++ [r]; log_failing := log_failing l |}).
End store.
