(* ===== verification/RunStoreFacts.v ===== *)
(** * RunStoreFacts: what any sequence of calls leaves in the run store *)

From Stdlib Require Import ZArith Lia String Ascii.
From S2P Require Import Prelude Assoc Text BTree F64 Externals Decimal Broker RiskState View Recon Flatten Guard Planner Data Decision Record RunStore.

Local Open Scope Z_scope.

Section facts.
Context `{Chrono}.

(** One call of the store, by anyone; the reads change nothing but the count of injected failures. *)
Inductive op :=
| OpBegin (k : RunKey) (day : NaiveDate) (t : DateTime) (lease : Z)
| OpJournal (k : RunKey) (e : JournalEntry)
| OpFinish (r : RunRecord)
| OpRead.

Definition apply_op (g : RunStore) (o : op) : RunStore :=
  match o with
  | OpBegin k day t lease => (begin g k day t lease).2
  | OpJournal k e => (journal_order g k e).2
  | OpFinish r => (finish g r).2
  | OpRead => (guarded g (Ok tt, g)).2
  end.

Lemma guarded_cases {A} g (k : answer A) :
  guarded g k = k ∧ fails g ≤ 0 ∨
  0 < fails g ∧ (guarded g k).1 = Err (RunStoreError.Unavailable "injected failure") ∧
  entries (guarded g k).2 = entries g ∧ ledger (guarded g k).2 = ledger g ∧ order (guarded g k).2 = order g.
Proof. unfold guarded. destruct (Z.ltb_spec 0 (fails g)); [by right|by left]. Qed.

Lemma put_get k e g k' : as_get (entries (put k e g)) k' = if bool_decide (k' = k) then Some e else as_get (entries g) k'.
Proof. apply as_get_insert. Qed.

(** What one call does to the entry of one key: nothing, or start it, or journal to it, or finish it. *)
Inductive entry_step (k : RunKey) : op → option Entry → option Entry → Prop :=
| es_same o e : entry_step k o e e
| es_start day t lease : entry_step k (OpBegin k day t lease) None
    (Some (InProgress 1 day t (dt_add t (duration_seconds lease)) []))
| es_resume n d s l j day t lease : dt_ltb t l = false →
    entry_step k (OpBegin k day t lease) (Some (InProgress n d s l j))
      (Some (InProgress (wrap_u32 (n + 1)) day t (dt_add t (duration_seconds lease)) j))
| es_journal n d s l j e : entry_step k (OpJournal k e) (Some (InProgress n d s l j)) (Some (InProgress n d s l (journal_put e j)))
| es_finish n d s l j r : run_key r = k → entry_step k (OpFinish r) (Some (InProgress n d s l j)) (Some (Done r)).

(** The injected failure leaves the entries. *)
Ltac not_injected :=
  match goal with |- context [guarded ?g ?x] => destruct (guarded_cases g x) as [[-> _]|(_ & _ & -> & _)] end; [|constructor].

Lemma op_entry g o k : entry_step k o (as_get (entries g) k) (as_get (entries (apply_op g o)) k).
Proof.
  destruct o as [k1 day t lease|k1 e|r|]; simpl; unfold begin, journal_order, finish; not_injected; [..|constructor].
  - destruct (as_get (entries g) k1) as [[n d s l j|r]|] eqn:E; [|constructor|].
    + destruct (dt_ltb t l) eqn:El; [constructor|]. cbn [snd]. rewrite put_get. case_bool_decide as Hk; [|constructor].
      subst. rewrite E. by constructor.
    + cbn [snd]. change (entries (setter order _ ?x)) with (entries x). rewrite put_get. case_bool_decide as Hk; [|constructor].
      subst. rewrite E. constructor.
  - destruct (as_get (entries g) k1) as [[n d s l j|r]|] eqn:E; [|constructor|constructor].
    cbn [snd]. rewrite put_get. case_bool_decide as Hk; [|constructor]. subst. rewrite E. constructor.
  - destruct (as_get (entries g) (run_key r)) as [[n d s l j|r']|] eqn:E; [|constructor|constructor].
    cbn [snd]. change (entries (setter ledger _ ?x)) with (entries x). rewrite put_get. case_bool_decide as Hk; [|constructor].
    subst. rewrite E. by constructor.
Qed.

(** ** Records are written once *)

Lemma done_stays ops g k r : as_get (entries g) k = Some (Done r) → as_get (entries (fold_left apply_op ops g)) k = Some (Done r).
Proof.
  revert g. induction ops as [|o ops IH]; intros g Hd; simpl; [done|]. apply IH.
  pose proof (op_entry g o k) as Hs. rewrite Hd in Hs. by inversion Hs.
Qed.

(** ** Leases *)

(** The key is in progress under a lease that runs at least until [t], or finished. *)
Definition held_until (g : RunStore) (k : RunKey) (t : DateTime) : Prop :=
  match as_get (entries g) k with
  | Some (InProgress _ _ _ lease _) => dt_ltb lease t = false
  | Some (Done _) => True
  | None => False
  end.

Definition lease_nonneg (o : op) : Prop := match o with OpBegin _ _ _ lease => 0 ≤ lease | _ => True end.

Lemma later `{!ChronoLaws} t lease x : 0 ≤ lease → dt_ltb t x = false → dt_ltb (dt_add t (duration_seconds lease)) x = false.
Proof.
  unfold dt_ltb, duration_seconds. intros Hl Hx%Z.ltb_ge. apply Z.ltb_ge.
  rewrite (duration_add _ t), duration_dt_add. lia.
Qed.

Lemma held_step `{!ChronoLaws} g o k x : lease_nonneg o → held_until g k x → held_until (apply_op g o) k x.
Proof.
  unfold held_until. intros Hl. destruct (op_entry g o k) as [o' e|day t lease|n d s l j day t lease Ht|n d s l j e|n d s l j r Hr];
    [done|done| |done|done].
  intros Hx. apply later; [done|]. revert Ht Hx. unfold dt_ltb. intros Ht%Z.ltb_ge Hx%Z.ltb_ge. apply Z.ltb_ge.
  rewrite (duration_add t l x). lia.
Qed.

Lemma held_ops `{!ChronoLaws} ops g k x : Forall lease_nonneg ops → held_until g k x → held_until (fold_left apply_op ops g) k x.
Proof.
  revert g. induction ops as [|o ops IH]; intros g Hl Hx; simpl; [done|]. inversion Hl; subst. apply IH; [done|]. by apply held_step.
Qed.

Lemma started_inv `{!ChronoLaws} g k day t lease n : (begin g k day t lease).1 = Ok (Started n) →
  as_get (entries (begin g k day t lease).2) k = Some (InProgress n day t (dt_add t (duration_seconds lease))
    (match as_get (entries g) k with Some (InProgress _ _ _ _ j) => j | _ => [] end)) ∧
  match as_get (entries g) k with
  | Some (InProgress n' _ _ l _) => dt_ltb t l = false ∧ n = wrap_u32 (n' + 1)
  | Some (Done _) => False
  | None => n = 1
  end.
Proof.
  unfold begin. match goal with |- context [guarded g ?x] => destruct (guarded_cases g x) as [[-> _]|(_ & -> & _)] end; [|done].
  destruct (as_get (entries g) k) as [[n' d s l j|r]|] eqn:E; [destruct (dt_ltb t l) eqn:El; [done|]|done|]; cbn [fst snd].
  - intros [= <-]. by rewrite put_get, bool_decide_true.
  - intros [= <-]. change (entries (setter order _ ?x)) with (entries x). by rewrite put_get, bool_decide_true.
Qed.

(** ** The ledger of acted decisions *)

(** [d] is the date of an acted decision of [sleeve] in a finished record of [account]. *)
Definition acted_in (g : RunStore) (account sleeve : string) (d : NaiveDate) : Prop :=
  ∃ k r x, as_get (entries g) k = Some (Done r) ∧ rk_account k = account ∧ x ∈ decisions r ∧ acted x = true ∧
    sd_sleeve x = sleeve ∧ sd_decision_date x = d.

(** The newest of a set of dates. *)
Definition newest (o : option NaiveDate) (P : NaiveDate → Prop) : Prop :=
  (∀ d, o = Some d → P d) ∧ ∀ d, P d → ∃ m, o = Some m ∧ date_gtb d m = false.

Definition ledger_exact (g : RunStore) : Prop := ∀ account sleeve,
  newest (bt_get (ledger g) (account, sleeve)) (acted_in g account sleeve).

(** One acted decision: the ledger keeps the newer date. *)
Lemma advance_newest `{!ChronoLaws} account m x a s (P : NaiveDate → Prop) :
  newest (bt_get m (a, s)) P →
  newest (bt_get (advance account m x) (a, s)) (λ d, P d ∨ a = account ∧ s = sd_sleeve x ∧ d = sd_decision_date x).
Proof.
  intros [H1 H2]. unfold advance. destruct (decide ((a, s) = (account, sd_sleeve x))) as [E|E].
  - injection E as -> ->. rewrite bt_get_insert_eq. destruct (bt_get m (account, sd_sleeve x)) as [m0|] eqn:Em; simpl.
    + destruct (date_gtb (sd_decision_date x) m0) eqn:Eg; split; intros d.
      * intros [= <-]. by right.
      * intros [Hd|(_ & _ & ->)]; eexists; (split; [done|]); [|apply date_gtb_irrefl].
        destruct (H2 d Hd) as (m' & [= <-] & Hm). destruct (date_gtb d (sd_decision_date x)) eqn:E; [|done].
        by rewrite (date_gtb_trans _ _ _ E Eg) in Hm.
      * intros [= <-]. left. by apply H1.
      * intros [Hd|(_ & _ & ->)]; [by apply H2|]. by exists m0.
    + rewrite date_gtb_irrefl. split; intros d.
      * intros [= <-]. by right.
      * intros [Hd|(_ & _ & ->)]; [by destruct (H2 d Hd) as (? & ? & _)|]. eexists. split; [done|]. apply date_gtb_irrefl.
  - rewrite bt_get_insert_ne by done. split; intros d.
    + intros Hd. left. by apply H1.
    + intros [Hd|(-> & -> & _)]; [by apply H2|done].
Qed.

Lemma newest_iff o (P Q : NaiveDate → Prop) : (∀ d, P d ↔ Q d) → newest o P → newest o Q.
Proof. intros Hpq [H1 H2]. split; intros d Hd; [by apply Hpq, H1|by apply H2, Hpq]. Qed.

Lemma advance_all `{!ChronoLaws} account l m a s (P : NaiveDate → Prop) :
  newest (bt_get m (a, s)) P →
  newest (bt_get (fold_left (advance account) l m) (a, s))
    (λ d, P d ∨ ∃ x, x ∈ l ∧ a = account ∧ s = sd_sleeve x ∧ d = sd_decision_date x).
Proof.
  revert m P. induction l as [|x l IH]; intros m P Hm; simpl.
  - eapply newest_iff; [|exact Hm]. intros d. set_solver.
  - eapply newest_iff; [|apply IH, (advance_newest account m x a s P Hm)]. intros d. set_solver.
Qed.

Lemma ledger_step `{!ChronoLaws} g o : ledger_exact g → ledger_exact (apply_op g o).
Proof.
  intros Hg a s.
  (* a call that finishes nothing keeps the ledger and the finished records *)
  assert (ledger (apply_op g o) = ledger g → (∀ k r, as_get (entries (apply_op g o)) k = Some (Done r) ↔ as_get (entries g) k = Some (Done r)) →
    newest (bt_get (ledger (apply_op g o)) (a, s)) (acted_in (apply_op g o) a s)) as Hkeep.
  { intros -> He. eapply newest_iff; [|apply Hg]. intros d. unfold acted_in. setoid_rewrite He. done. }
  assert ((∀ r, o ≠ OpFinish r) → ledger (apply_op g o) = ledger g →
    newest (bt_get (ledger (apply_op g o)) (a, s)) (acted_in (apply_op g o) a s)) as Hother.
  { intros Hno Hl. apply Hkeep; [done|]. intros k r. pose proof (op_entry g o k) as He.
    revert Hno. by destruct He as [| | | |? ? ? ? ? r0]; [..|intros Hno; destruct (Hno r0)]. }
  destruct o as [k day t lease|k e|r|].
  - apply Hother; [done|]. simpl. unfold begin. match goal with |- context [guarded g ?x] => destruct (guarded_cases g x) as [[-> _]|(_ & _ & _ & -> & _)] end; [|done].
    destruct (as_get (entries g) k) as [[]|]; [|done|done]. by destruct (dt_ltb t _).
  - apply Hother; [done|]. simpl. unfold journal_order. match goal with |- context [guarded g ?x] => destruct (guarded_cases g x) as [[-> _]|(_ & _ & _ & -> & _)] end; [|done].
    by destruct (as_get (entries g) k) as [[]|].
  - simpl in *. unfold finish in *. match goal with |- context [guarded g ?x] => destruct (guarded_cases g x) as [[Hq _]|(_ & _ & He & Hl & _)] end.
    2: { apply Hkeep; [done|]. intros k r'. by rewrite He. }
    rewrite Hq in *. destruct (as_get (entries g) (run_key r)) as [[n d0 s0 l j|r']|] eqn:E; [|by apply Hkeep|by apply Hkeep].
    cbn [snd]. change (ledger (setter ledger ?v ?x)) with v.
    eapply newest_iff; [|apply advance_all, Hg]. intros d. unfold acted_in.
    change (entries (setter ledger _ ?x)) with (entries x). split.
    + intros [(k & r0 & x & Hk & Hr)|(x & [Hx Ha]%list_elem_of_In%filter_In & -> & -> & ->)].
      * exists k, r0, x. rewrite put_get, bool_decide_false; [done|]. intros ->. by rewrite E in Hk.
      * exists (run_key r), r, x. rewrite put_get, bool_decide_true by done. apply list_elem_of_In in Hx. done.
    + intros (k & r0 & x & Hk & Hacc & Hx & Ha & Hs & Hd). rewrite put_get in Hk. case_bool_decide as Ek.
      * injection Hk as <-. subst. right. exists x. split; [|done]. apply list_elem_of_In, filter_In. split; [by apply list_elem_of_In|done].
      * left. by exists k, r0, x.
  - apply Hother; [done|]. simpl. match goal with |- context [guarded g ?x] => destruct (guarded_cases g x) as [[-> _]|(_ & _ & _ & -> & _)] end; done.
Qed.

Lemma ledger_ops `{!ChronoLaws} ops g : ledger_exact g → ledger_exact (fold_left apply_op ops g).
Proof. revert g. induction ops as [|o ops IH]; intros g Hg; simpl; [done|]. by apply IH, ledger_step. Qed.

Lemma ledger_empty : ledger_exact empty_store.
Proof. intros a s. split; [done|]. by intros d (k & r & x & Hk & _). Qed.
End facts.

(** C14. A run key is one run. After an attempt of a key was started at [t], another attempt of that key is started
    only when its lease has run out, whatever calls anyone made of the store in between; once a record of the key is
    written it is what every later [begin] returns, and no second record can be written. *)
Theorem run_key_is_one_run `{ChronoLaws} g k day t lease n ops day' t' lease' :
  (begin g k day t lease).1 = Ok (Started n) → 0 ≤ lease → Forall lease_nonneg ops →
  let g' := fold_left apply_op ops (begin g k day t lease).2 in
  (∀ n', (begin g' k day' t' lease').1 = Ok (Started n') → dt_ltb t' (dt_add t (duration_seconds lease)) = false) ∧
  (∀ r, as_get (entries g') k = Some (Done r) → ∀ ops', let g'' := fold_left apply_op ops' g' in fails g'' ≤ 0 →
     (begin g'' k day' t' lease').1 = Ok (AlreadyDone r) ∧
     ∀ r', run_key r' = k → (finish g'' r').1 = Err (RunStoreError.AlreadyFinished (canonical k))).
Proof.
  intros Hs Hl Hops g'. split.
  - intros n' Hn. apply started_inv in Hs as [Hs _].
    assert (held_until g' k (dt_add t (duration_seconds lease))) as Hheld.
    { apply held_ops; [done|]. unfold held_until. rewrite Hs. unfold dt_ltb. by rewrite duration_self. }
    apply started_inv in Hn as [_ Hn]. unfold held_until in Hheld.
    destruct (as_get (entries g') k) as [[n0 d0 s0 l j|r]|]; [|done|done]. destruct Hn as [Hn _].
    revert Hn Hheld. unfold dt_ltb. intros Hn%Z.ltb_ge Hx%Z.ltb_ge. apply Z.ltb_ge. rewrite (duration_add t' l). lia.
  - intros r Hr ops' g'' Hf. apply (done_stays ops') in Hr. fold g'' in Hr. unfold begin, finish, guarded.
    rewrite (proj2 (Z.ltb_ge 0 (fails g'')) Hf), Hr. split; [done|]. intros r' ->. by rewrite Hr.
Qed.

(** C19. [D_acted] is exact. After any calls of a new store, the acted decision on record for an account and a sleeve
    is the newest decision date of that sleeve that a finished run of that account acted on, and there is none when no
    finished run acted on the sleeve; in particular it never moves backwards. *)
Theorem acted_ledger_exact `{ChronoLaws} ops account sleeve :
  let g := fold_left apply_op ops empty_store in
  newest (bt_get (ledger g) (account, sleeve)) (acted_in g account sleeve).
Proof. apply ledger_ops, ledger_empty. Qed.
