(* ===== verification/RunCalls.v ===== *)
(** * RunCalls: the vocabulary of crates/rebalancer-run/src/pipeline.rs

    Codes, configuration and context of a run, the calls it makes (broker, clock, data, stores, notifier, kill flag), the
    state its steps thread, and the steps' monad: a step either goes on with a value or stops the run with its outcome
    already on the record. *)

From Stdlib Require Import ZArith Lia String Ascii.
From S2P Require Import Prelude Assoc Calls Text BTree F64 Externals Decimal DecMath Mandate Policy Broker Venue RiskState Overlay RiskStore View Recon Flatten Guard Planner Data Decision Record RunStore.

Local Open Scope Z_scope.

(** ** Codes *)

Module RunCode.
Inductive t :=
| Completed | KillFlagSet | NoActiveMandate | MandateNotActive | MandateInvalid | AccountHalted | Busy | StoreUnavailable
| KillFlagUnreadable | RiskPolicyInvalid | BrokerUnreachable | StateStoreError | CleanupFailed | DataError | RuleError
| PlanError | NothingPending | DecisionLedgerUnavailable | DecisionNotActed | VenueNotPaper.

Definition ALL : list t :=
  [Completed; KillFlagSet; NoActiveMandate; MandateNotActive; MandateInvalid; AccountHalted; Busy; StoreUnavailable;
   KillFlagUnreadable; RiskPolicyInvalid; BrokerUnreachable; StateStoreError; CleanupFailed; DataError; RuleError; PlanError;
   NothingPending; DecisionLedgerUnavailable; DecisionNotActed; VenueNotPaper].

Definition as_str (c : t) : string :=
  match c with
  | Completed => "RUN_COMPLETED"
  | KillFlagSet => "RUN_KILL_FLAG_SET"
  | NoActiveMandate => "RUN_NO_ACTIVE_MANDATE"
  | MandateNotActive => "RUN_MANDATE_NOT_ACTIVE"
  | MandateInvalid => "RUN_MANDATE_INVALID"
  | AccountHalted => "RUN_ACCOUNT_HALTED"
  | Busy => "RUN_BUSY"
  | StoreUnavailable => "RUN_STORE_UNAVAILABLE"
  | KillFlagUnreadable => "RUN_KILL_FLAG_UNREADABLE"
  | RiskPolicyInvalid => "RUN_RISK_POLICY_INVALID"
  | BrokerUnreachable => "RUN_BROKER_UNREACHABLE"
  | StateStoreError => "RUN_STATE_STORE_ERROR"
  | CleanupFailed => "RUN_CLEANUP_FAILED"
  | DataError => "RUN_DATA_ERROR"
  | RuleError => "RUN_RULE_ERROR"
  | PlanError => "RUN_PLAN_ERROR"
  | NothingPending => "RUN_NOTHING_PENDING"
  | DecisionLedgerUnavailable => "RUN_DECISION_LEDGER_UNAVAILABLE"
  | DecisionNotActed => "RUN_DECISION_NOT_ACTED"
  | VenueNotPaper => "RUN_VENUE_NOT_PAPER"
  end.
End RunCode.

Inductive VenuePolicy := Unrestricted | PaperOnly.

#[export] Instance venue_policy_eq_dec : EqDecision VenuePolicy.
Proof. solve_decision. Defined.

Module VenueEnvironment.
Inductive t := Paper | Live | Unspecified.
Definition as_str (e : t) : string := match e with Paper => "paper" | Live => "live" | Unspecified => "unspecified" end.
End VenueEnvironment.

#[export] Instance venue_environment_eq_dec : EqDecision VenueEnvironment.t.
Proof. solve_decision. Defined.

Definition DAY_START_MISSING : string := "DAY_START_MISSING".

Definition day_start_missing_message `{Chrono} (day : NaiveDate) (max_lag_secs : Z) (first_at : option DateTime) : string :=
  let first := match first_at with
    | Some t => " (the first reading of the day was at " +:+ dt_to_rfc3339 t +:+ ")"
    | None => EmptyString
    end in
  DAY_START_MISSING +:+ ": no reading of " +:+ date_display day +:+ " was taken within " +:+ show_int max_lag_secs +:+
  "s of 00:00 UTC" +:+ first +:+
  ", so the day has no 00:00 UTC value: the one-day loss limit cannot fire today and new buys are paused until the next anchored day; sells and the drawdown ladder still apply".

(** ** Configuration and context *)

Record RunConfig := {
  cf_min_trade_abs : Dec;
  cf_min_trade_pct : Dec;
  cf_fee_rate : Dec;
  cf_tolerances : ReconTolerances;
  cf_recovery_fraction : Dec;
  cf_max_price_age_secs : Z;
  lease_secs : Z;
  cf_max_polls : Z;
  cf_poll_secs : Z;
  flatten_max_rounds : Z;
  deployment : option DeploymentLimits;
  venue_policy : VenuePolicy;
  day_start : DayStartRule;
}.

Definition default_config : RunConfig :=
  let d s := default ZERO (ok (parse s)) in
  {| cf_min_trade_abs := d "10"; cf_min_trade_pct := d "0.02"; cf_fee_rate := d "0.0026"; cf_tolerances := default_tolerances;
     cf_recovery_fraction := d "0.5"; cf_max_price_age_secs := 300; lease_secs := 900; cf_max_polls := 3; cf_poll_secs := 1;
     flatten_max_rounds := 4; deployment := None; venue_policy := Unrestricted; day_start := FirstObservation |}.

(** The context without its trait objects, whose methods are calls; [cx_venue] and [cx_environment] are the broker's
    constants. *)
Record RunContext `{Chrono} := {
  cx_account : string;
  cx_scheduled_for : DateTime;
  cx_day : NaiveDate;
  cx_mode : ExecutionMode;
  cx_sleeves : list SleeveSpec;
  cx_mandate : option MandateBody;
  cx_envelope : option MandateEnvelope;
  cx_venue : string;
  cx_environment : VenueEnvironment.t;
  cx_rules : VenueRuleBook;
  cx_config : RunConfig;
}.

(** ** Calls *)

Section calls.
Context `{ReferenceRules}.

Inductive run_call : Type → Type :=
| BrokerCall {B : Type} (c : Flatten.call B) : run_call B
| DataCall {B : Type} (c : data_call B) : run_call B
| PricesOf (symbols : list string) (at_ : DateTime) : run_call (result DataError (BTreeMap string PricePoint))
| LoadState (account : string) : run_call (result StoreError (option AccountState))
| SaveState (expected_version : Z) (next : AccountState) : run_call (result StoreError AccountState)
| BeginRun (key : RunKey) (day : NaiveDate) (started_at : DateTime) (lease : Z) : run_call (result RunStoreError Begin)
| JournalOrder (key : RunKey) (e : JournalEntry) : run_call (result RunStoreError unit)
| InFlight (account : string) : run_call (result RunStoreError (list JournalEntry))
| FinishRun (record : RunRecord) : run_call (result RunStoreError unit)
| LastSnapshot (account : string) : run_call (result RunStoreError (option SnapshotSummary))
| KnownOrderIds (account : string) : run_call (result RunStoreError (BTreeSet string))
| DayCountersOf (account : string) (day : NaiveDate) : run_call (result RunStoreError DayCounters)
| LastActedDecision (account sleeve_id : string) : run_call (result RunStoreError (option NaiveDate))
| NotifyOf (a : Alert) : run_call (result string unit)
| KillFlagIsSet : run_call (result string bool).

(** ** The state of a run *)

(** [pending]: (index of the sleeve, evaluation); [cache] is the memo of the driver's tick. *)
Record Run := {
  rec : RunRecord;
  st : AccountState;
  snapshot : option BrokerSnapshot;
  policy : option Policy;
  risk_policy : option RiskPolicy;
  known_ids : BTreeSet string;
  pre_baseline : option ReconBaseline;
  applied_ids : BTreeSet string;
  pending : list (nat * Evaluation);
  all_carried : bool;
  buys_paused : option string;
  paused_tickets : list string;
  cache : option EvalCache;
}.

#[export] Instance run_eta : Eta Run := fun r =>
  {| rec := rec r; st := st r; snapshot := snapshot r; policy := policy r; risk_policy := risk_policy r;
     known_ids := known_ids r; pre_baseline := pre_baseline r; applied_ids := applied_ids r; pending := pending r;
     all_carried := all_carried r; buys_paused := buys_paused r; paused_tickets := paused_tickets r; cache := cache r |}.

(** [self.rec.f = v] and [self.rec.f.push(x)], as updates of the record *)
Definition edit (g : RunRecord → RunRecord) : program run_call Run unit := modify (fun r => r <| rec := g (rec r) |>).
End calls.

Abbreviation rstep A := (program run_call Run A).

(** A step that may stop the run ([Result<A, Stop>]). *)
Abbreviation may_stop A := (program run_call Run (option A)).

Notation "'let#?' x ':=' m 'in' k" := (step_bind m (fun o => match o with Some x => k | None => ret None end))
  (at level 10, x pattern, m at level 200, k at level 200,
   format "'[v' 'let#?'  x  ':='  m  'in' '/' k ']'") : rust_scope.

(** ** Equality of account states (derived, so decimals compare by value) *)

Section equality.
Context `{Chrono}.

Definition opt_eqb {A} (eqb : A → A → bool) (a b : option A) : bool :=
  match a, b with Some x, Some y => eqb x y | None, None => true | _, _ => false end.

Definition halt_eqb (a b : HaltRecord) : bool :=
  bool_decide (h_reason a = h_reason b) && bool_decide (h_at a = h_at b) && String.eqb (h_detail a) (h_detail b) &&
  opt_dec_eqb (equity_at_halt a) (equity_at_halt b) && opt_dec_eqb (hwm_at_halt a) (hwm_at_halt b) &&
  (failed_flatten_attempts a =? failed_flatten_attempts b).

Definition state_eqb (a b : AccountState) : bool :=
  String.eqb (account a) (account b) && (version a =? version b) && bool_decide (status a = status b) &&
  dec_eqb (scale_now a) (scale_now b) && bool_decide (shrink_rung a = shrink_rung b) && opt_dec_eqb (hwm a) (hwm b) &&
  opt_dec_eqb (day_start_equity a) (day_start_equity b) && bool_decide (trading_day a = trading_day b) &&
  opt_dec_eqb (last_equity a) (last_equity b) && bool_decide (last_equity_at a = last_equity_at b) &&
  opt_eqb halt_eqb (halt_record a) (halt_record b) &&
  bool_decide (length (resumes a) = length (resumes b)) && resumes_prefix (resumes a) (resumes b).
End equality.

(** ** Notes, alerts and stopping *)

Section run.
Context `{ReferenceRules}.
Variable ctx : RunContext.

Definition now_ : rstep DateTime := ask (BrokerCall Now).

Definition note (step text : string) : rstep unit :=
  let# at_ := now_ in
  edit (fun r => r <| steps := steps r ++ [{| sn_step := step; sn_at := at_; sn_note := text |}] |>).

Definition alert (code : AlertCode.t) (severity : AlertSeverity.t) (message dedupe : string) : rstep unit :=
  let# run := get in
  let# at_ := now_ in
  let a := {| al_code := code; al_severity := severity; al_account := cx_account ctx; al_run_key := canonical (run_key (rec run));
              al_message := message; dedupe_key := cx_account ctx +:+ ":" +:+ dedupe; al_at := at_ |} in
  let# sent := ask (NotifyOf a) in
  let# _ := match sent with
    | Err e => edit (fun r => r <| alert_delivery_failures := alert_delivery_failures r ++ [AlertCode.as_str code +:+ ": " +:+ e] |>)
    | Ok _ => ret tt
    end in
  edit (fun r => r <| alerts := alerts r ++ [a] |>).

(** The outcome is set and the run stops. *)
Definition stop {A} (kind : OutcomeKind) (code message : string) : may_stop A :=
  let# _ := edit (fun r => r <| run_outcome := {| oc_kind := kind; oc_code := code; oc_message := message |} |>) in
  ret None.

Definition go_on {A} (a : A) : may_stop A := ret (Some a).

Definition fail_closed {A} (code : RunCode.t) (message : string) : may_stop A :=
  let# _ := alert AlertCode.RunFailed AlertSeverity.Critical
    (RunCode.as_str code +:+ ": " +:+ message +:+ "; nothing was traded") ("failed:" +:+ RunCode.as_str code) in
  stop OutcomeKind.FailedClosed (RunCode.as_str code) message.

(** [self.snapshot.clone().ok_or(Stop)?] *)
Definition have {A} (f : Run → option A) : may_stop A := let# r := get in ret (f r).

Definition add_holding (acc : BTreeMap string Dec * BTreeMap string Dec) (h : Holding) : BTreeMap string Dec * BTreeMap string Dec :=
  let key := to_uppercase (hold_symbol h) in
  (bt_insert key (hold_quantity h) acc.1, match mark h with Some m => bt_insert key m acc.2 | None => acc.2 end).

Definition summarize (s : BrokerSnapshot) : SnapshotSummary :=
  let '(hs, ms) := fold_left add_holding (holdings s) ([], []) in
  {| ss_taken_at := taken_at s; ss_equity := s_equity s; ss_cash := s_cash s; ss_derived_equity := derived_equity s;
     ss_holdings := hs; ss_marks := ms; open_order_ids := rep_id <$> open_orders s |}.

(** Read the account at the clock's time; unreachable fails closed. *)
Definition read_snapshot (step : string) : may_stop BrokerSnapshot :=
  let# at_ := now_ in
  let# s := ask (BrokerCall (Snapshot at_)) in
  match s with
  | Ok s => go_on s
  | Err e =>
      let# _ := note step ("broker read failed: " +:+ SnapshotError.display e) in
      fail_closed RunCode.BrokerUnreachable ("the broker account could not be read: " +:+ SnapshotError.display e)
  end.

(** [save_state]: nothing to do when nothing changed; else compare-and-swap. *)
Definition save_state (next : AccountState) : may_stop unit :=
  let# run := get in
  if state_eqb next (st run) then go_on tt
  else
    let# saved := ask (SaveState (version (st run)) next) in
    match saved with
    | Ok saved => let# _ := modify (fun r => r <| st := saved |>) in go_on tt
    | Err (StoreError.VersionConflict _ _ as e) =>
        fail_closed RunCode.StateStoreError ("another run changed the account state: " +:+ StoreError.display e)
    | Err e => fail_closed RunCode.StateStoreError ("the account state could not be saved: " +:+ StoreError.display e)
    end.

Definition push_transition (t : option Transition) : rstep unit :=
  match t with
  | Some t => edit (fun r => r <| transitions := transitions r ++ [t] |>)
  | None => ret tt
  end.

(** Halt without a flatten, alert, and stop. *)
Definition halt_reconciliation {A} (detail : string) : may_stop A :=
  let# at_ := now_ in
  let# run := get in
  let '(next, tr) := halt (st run) HaltReason.Reconciliation detail at_ in
  let# _ := push_transition tr in
  let#? _ := save_state next in
  let# _ := alert AlertCode.Halt AlertSeverity.Critical ("HALT_RECONCILIATION: " +:+ detail) "halt" in
  stop OutcomeKind.Halted (HaltReason.code HaltReason.Reconciliation) detail.
End run.
