(* ===== verification/RunSteps.v ===== *)
(** * RunSteps: crates/rebalancer-run/src/pipeline.rs, steps 1b to 5

    The first steps of a run: venue policy, kill flag, mandate, decisions, the account and its state, the flatten of a
    halting account, cleanup of our stale orders. *)

From Stdlib Require Import ZArith Lia String Ascii.
From S2P Require Import Prelude Assoc Calls Text BTree F64 Externals Decimal DecMath Mandate Policy Broker Venue RiskState Overlay RiskStore View Recon Flatten Guard Planner Data Decision Record RunStore RunCalls.

Local Open Scope Z_scope.

Section steps.
Context `{ReferenceRules} `{RustDecimal, !MandateSerde, Sha256}.
Variable ctx : RunContext.

Abbreviation cfg := (cx_config ctx).
Abbreviation alert := (alert ctx).
Abbreviation fail_closed := (fail_closed ctx).
Abbreviation halt_reconciliation := (halt_reconciliation ctx).
Abbreviation save_state := (save_state ctx).
Abbreviation read_snapshot := (read_snapshot ctx).

Definition live : bool := bool_decide (cx_mode ctx = ExecutionMode.Live).

(** ** 1b, 2, 3: venue policy, kill flag, mandate *)

Definition step_venue_policy : may_stop unit :=
  match venue_policy cfg with
  | Unrestricted => go_on tt
  | PaperOnly =>
      if bool_decide (cx_environment ctx = VenueEnvironment.Paper) then
        let# _ := note "venue_policy" ("paper-only: " +:+ cx_venue ctx +:+ " is a paper connection") in go_on tt
      else
        let env := VenueEnvironment.as_str (cx_environment ctx) in
        let# _ := note "venue_policy" ("paper-only policy: the " +:+ cx_venue ctx +:+ " broker reports " +:+ env +:+ ": refused") in
        fail_closed RunCode.VenueNotPaper
          ("the paper-only policy is in force and the " +:+ cx_venue ctx +:+
           " broker connection is not a verified paper connection (it reports " +:+ env +:+ ")")
  end.

Definition step_kill_flag : may_stop unit :=
  let# flag := ask KillFlagIsSet in
  match flag with
  | Ok false => let# _ := note "kill_flag" "not set" in go_on tt
  | Ok true =>
      let# _ := note "kill_flag" "SET" in
      stop OutcomeKind.Refused (RunCode.as_str RunCode.KillFlagSet) "the kill flag is set: no run"
  | Err e =>
      let# _ := note "kill_flag" ("unreadable: " +:+ e) in
      fail_closed RunCode.KillFlagUnreadable ("the kill flag could not be read: " +:+ e)
  end.

Definition active_copy (e : MandateEnvelope) : MandateEnvelope :=
  {| env_version := env_version e; env_status := MandateStatus.Active; effective_from := effective_from e;
     review_by := review_by e |}.

(** The policy the run is planned under, its standing on the record. *)
Definition admit_standing (p : Policy) (s : Standing.t) : may_stop Policy :=
  match s with
  | Standing.Invalid =>
      let# _ := edit (fun r => r <| mandate_standing := "invalid" |>) in
      let# _ := note "mandate" "invalid" in
      let# _ := alert AlertCode.MandateUnusable AlertSeverity.Critical "the mandate is invalid: no run" "mandate" in
      stop OutcomeKind.Refused (RunCode.as_str RunCode.MandateInvalid) "the mandate did not validate"
  | Standing.NotActive why =>
      match cx_envelope ctx with
      | Some env =>
          if negb live && bool_decide (env_status env = MandateStatus.Draft) then
            let# _ := edit (fun r => r <| mandate_standing := "draft (rehearsal)" |>) in
            let# _ := note "mandate" "draft mandate, rehearsal only" in
            go_on (with_envelope p (active_copy env))
          else
            let# _ := edit (fun r => r <| mandate_standing := "not active: " +:+ why |>) in
            let# _ := note "mandate" ("not active: " +:+ why) in
            let# _ := alert AlertCode.MandateUnusable AlertSeverity.Warning
              ("the mandate is not active (" +:+ why +:+ "): no run") "mandate" in
            stop OutcomeKind.Refused (RunCode.as_str RunCode.MandateNotActive) why
      | None =>
          let# _ := edit (fun r => r <| mandate_standing := "not active: " +:+ why |>) in
          let# _ := note "mandate" ("not active: " +:+ why) in
          let# _ := alert AlertCode.MandateUnusable AlertSeverity.Warning
            ("the mandate is not active (" +:+ why +:+ "): no run") "mandate" in
          stop OutcomeKind.Refused (RunCode.as_str RunCode.MandateNotActive) why
      end
  | Standing.Expired =>
      let# _ := edit (fun r => r <| mandate_standing := "expired" |>) in
      let# _ := note "mandate" "expired: only reducing orders may pass the guard" in
      go_on p
  | Standing.Active =>
      let# _ := edit (fun r => r <| mandate_standing := "active" |>) in
      let# _ := note "mandate" "active" in
      go_on p
  end.

Definition step_mandate : may_stop unit :=
  match cx_mandate ctx with
  | None =>
      let# _ := note "mandate" "no mandate" in
      let# _ := alert AlertCode.MandateUnusable AlertSeverity.Warning "the account has no mandate: no run" "mandate" in
      stop OutcomeKind.Refused (RunCode.as_str RunCode.NoActiveMandate) "no active mandate: no order of any kind"
  | Some b =>
      let# _ := edit (fun r => r <| mandate_hash := canonical_hash b |>) in
      let p := with_max_price_age_secs (compile b) (cf_max_price_age_secs cfg) in
      let# p :=
        match cx_envelope ctx with
        | Some env => let# _ := edit (fun r => r <| mandate_version := Some (env_version env) |>) in ret (with_envelope p env)
        | None => ret p
        end in
      let# p :=
        match deployment cfg with
        | Some dep =>
            let# _ := edit (fun r => r <| run_deployment_digest := Some (deployment_digest dep) |>) in
            ret (with_deployment p dep)
        | None => ret p
        end in
      let# at_ := now_ in
      let#? p := admit_standing p (standing p at_) in
      match from_mandate_with_recovery b (cf_recovery_fraction cfg) with
      | Ok r => let# _ := modify (fun run => run <| risk_policy := Some r |> <| policy := Some p |>) in go_on tt
      | Err e => fail_closed RunCode.RiskPolicyInvalid e
      end
  end.

(** ** 3b: decisions *)

Definition evaluate_sleeve (s : SleeveSpec) (as_of : NaiveDate) : rstep (result EvalError Evaluation) :=
  fun r => prog_bind (embed (fun B c => DataCall c) (evaluate s as_of (cache r))) (fun x => Ret (x.1, r <| cache := x.2 |>)).

(** [D_acted] of a sleeve; not consulted for a daily one. *)
Definition acted_on (s : SleeveSpec) : may_stop (option NaiveDate) :=
  match cadence_of (sp_kind s) with
  | Daily => go_on None
  | OnDecision =>
      let# a := ask (LastActedDecision (cx_account ctx) (sp_id s)) in
      match a with
      | Ok v => go_on v
      | Err (RunStoreError.DecisionLedgerUnavailable _ as e) =>
          let# _ := note "decisions" ("no decision ledger for " +:+ sp_id s +:+ ": " +:+ RunStoreError.display e) in
          fail_closed RunCode.DecisionLedgerUnavailable
            ("sleeve " +:+ sp_id s +:+ ": " +:+ RunStoreError.display e +:+
             "; it cannot be known whether this decision was already acted on, so nothing is planned")
      | Err e => fail_closed RunCode.StoreUnavailable ("the run store failed: " +:+ RunStoreError.display e)
      end
  end.

(** Is the decision newer than the one acted on, and has the sleeve's tranche elapsed? *)
Definition decision_is_new (s : SleeveSpec) (e : Evaluation) (last : option NaiveDate) : bool :=
  match cadence_of (sp_kind s), last with
  | OnDecision, Some acted => date_gtb (decision_date e) acted
  | _, _ => true
  end.
Definition tranche_elapsed (s : SleeveSpec) (e : Evaluation) : bool :=
  match cadence_of (sp_kind s) with Daily => true | OnDecision => sp_tranche_sessions s <=? sessions_past_action e end.

Definition where_text (r : GateReason) : string :=
  match g_symbol r, g_date r with
  | Some s, Some d => s +:+ "@" +:+ date_display d
  | Some s, None => s
  | None, Some d => "@" +:+ date_display d
  | None, None => "sleeve"
  end.

Definition alert_refusal (s : SleeveSpec) (g : DataGateReport) (r : GateReason) : rstep unit :=
  alert AlertCode.DataGateShadowRefuse AlertSeverity.Warning
    ("data gate (shadow) would have REFUSED sleeve " +:+ sp_id s +:+ " (" +:+ primary_source g +:+ " vs " +:+
     secondary_source g +:+ "): " +:+ g_code r +:+ " " +:+ where_text r +:+ ": " +:+ g_detail r +:+
     "; the run proceeded on the primary panel")
    ("data_gate_shadow_refuse:" +:+ sp_id s +:+ ":" +:+ where_text r).

Definition note_gate (s : SleeveSpec) (e : Evaluation) : rstep unit :=
  match data_gate e with
  | Some g =>
      let# _ := note "decisions" ("sleeve " +:+ sp_id s +:+ ": " +:+ gate_summary g) in
      for_each (alert_refusal s g) (refusals g)
  | None => ret tt
  end.

Definition decision_of (s : SleeveSpec) (e : Evaluation) (last : option NaiveDate) (is_pending : bool) : SleeveDecision :=
  {| sd_sleeve := sp_id s; sd_kind := sp_kind s; sd_cadence := cadence_of (sp_kind s); sd_decision_date := decision_date e;
     computable_decision_date := decision_date e; sd_newest_bar_date := newest_bar_date e; sd_lag_sessions := lag_sessions e;
     last_acted := last; sd_pending := is_pending;
     entry := bool_decide (cadence_of (sp_kind s) = OnDecision) && negb (is_some last);
     planned := false; acted := false; sd_instruments := e_instruments e; sd_data_gate := data_gate e |}.

Definition evaluated (s : SleeveSpec) : may_stop Evaluation :=
  let# e := evaluate_sleeve s (date_naive (cx_scheduled_for ctx)) in
  match e with
  | Ok e => go_on e
  | Err (EvalData e) =>
      let# _ := note "decisions" ("data error for " +:+ sp_id s +:+ ": " +:+ data_error_display e) in
      fail_closed RunCode.DataError ("sleeve " +:+ sp_id s +:+ ": " +:+ data_error_display e)
  | Err (EvalRule e) =>
      let# _ := note "decisions" ("rule refused for " +:+ sp_id s +:+ ": " +:+ rule_error_display e) in
      fail_closed RunCode.RuleError ("sleeve " +:+ sp_id s +:+ ": the reference rule refused: " +:+ rule_error_display e)
  end.

Definition decide_one (idx : nat) (s : SleeveSpec) : may_stop unit :=
  let#? e := evaluated s in
  let# _ := edit (fun r => r <| data_fingerprints := data_fingerprints r ++ [(sp_id s, fingerprint e)] |>) in
  let#? last := acted_on s in
  let is_new := decision_is_new s e last in
  let elapsed := tranche_elapsed s e in
  let is_pending := is_new && elapsed in
  let# _ :=
    if is_new && negb elapsed then
      note "decisions" ("sleeve " +:+ sp_id s +:+ ": decision " +:+ date_display (decision_date e) +:+
        " is waiting for its tranche (" +:+ show_int (sessions_past_action e) +:+ " of " +:+
        show_int (sp_tranche_sessions s) +:+ " session(s) past the published action session)")
    else ret tt in
  let# _ := note_gate s e in
  let# _ := edit (fun r => r <| decisions := decisions r ++ [decision_of s e last is_pending] |>) in
  let# _ := modify (fun run => if is_pending then run <| pending := pending run ++ [(idx, e)] |> else run) in
  go_on tt.

Fixpoint decide_all (idx : nat) (l : list SleeveSpec) : may_stop unit :=
  match l with
  | [] => go_on tt
  | s :: l' => let#? _ := decide_one idx s in decide_all (S idx) l'
  end.

(** The id of the sleeve an index names ([ctx.sleeves[i]]: every pending index is one of the sleeves). *)
Definition sleeve_id (i : nat) : string := match cx_sleeves ctx !! i with Some s => sp_id s | None => EmptyString end.

Definition step_decisions : may_stop unit :=
  let#? _ := decide_all 0 (cx_sleeves ctx) in
  let# run := get in
  let ids := ((fun x => sleeve_id x.1) <$> pending run : list string) in
  let summary := show_int (Z.of_nat (length ids)) +:+ " of " +:+ show_int (Z.of_nat (length (cx_sleeves ctx))) +:+
    " sleeve(s) pending: [" +:+ join "," ids +:+ "]" in
  match cx_sleeves ctx, pending run with
  | _ :: _, [] =>
      let nothing : may_stop unit :=
        let# _ := note "decisions" (summary +:+ "; nothing pending: the broker is not read") in
        stop OutcomeKind.Completed (RunCode.as_str RunCode.NothingPending)
          "no sleeve has a pending decision: nothing planned, broker not read" in
      let normal_steps : may_stop unit :=
        let# _ := note "decisions" (summary +:+
          "; the account is not in good standing (or its state is unreadable): continuing through the normal steps") in
        go_on tt in
      let# loaded := ask (LoadState (cx_account ctx)) in
      match loaded with
      | Ok (Some s) =>
          if AccountStatus.may_add_risk (status s) then
            let# _ := edit (fun r => r <| state_before := Some (status s) |>) in
            let# _ := modify (fun run => run <| st := s |>) in
            nothing
          else normal_steps
      | Ok None =>
          let# _ := edit (fun r => r <| state_before := Some (status (st run)) |>) in
          nothing
      | Err _ => normal_steps
      end
  | _, _ => let# _ := note "decisions" summary in go_on tt
  end.

(** ** 4: the account and its state *)

Definition take_snapshot (s : BrokerSnapshot) : rstep unit := modify (fun run => run <| snapshot := Some s |>).
Definition record_pre (s : BrokerSnapshot) : rstep unit := edit (fun r => r <| pre_snapshot := Some (summarize s) |>).

Definition store_failed {A} (e : RunStoreError) : may_stop A :=
  fail_closed RunCode.StoreUnavailable ("the run store failed: " +:+ RunStoreError.display e).

Definition step_read_account : may_stop unit :=
  let#? s := read_snapshot "read_account" in
  let# _ := record_pre s in
  let# _ := note "read_account" ("equity " +:+ to_string (s_equity s) +:+ " cash " +:+ to_string (s_cash s) +:+
    " holdings " +:+ show_int (Z.of_nat (length (holdings s)))) in
  let# _ := take_snapshot s in
  let# loaded := ask (LoadState (cx_account ctx)) in
  match loaded with
  | Err e => fail_closed RunCode.StateStoreError ("the account state could not be loaded: " +:+ StoreError.display e)
  | Ok o =>
      let s := default (new_state (cx_account ctx)) o in
      let# _ := modify (fun run => run <| st := s |>) in
      let# _ := edit (fun r => r <| state_before := Some (status s) |>) in
      let# ids := ask (KnownOrderIds (cx_account ctx)) in
      match ids with
      | Ok ids => let# _ := modify (fun run => run <| known_ids := ids |>) in go_on tt
      | Err e => store_failed e
      end
  end.

(** ** The flatten of a halt *)

Definition flatten_spec (run : Run) (h : HaltRecord) : FlattenSpec :=
  let universe := match (let* p := policy run in limits p) with Some l => l_instrument_allow l | None => [] end in
  let s := spec_new (cx_account ctx) (dt_compact (h_at h)) universe (cx_rules ctx) (known_ids run) in
  {| fs_account_id := fs_account_id s; attempt_key := attempt_key s; Flatten.universe := Flatten.universe s;
     venue_rules := venue_rules s; fs_known_order_ids := fs_known_order_ids s; max_rounds := flatten_max_rounds cfg;
     max_polls := cf_max_polls cfg; poll_secs := cf_poll_secs cfg; max_tag_index := max_tag_index s |}.

Definition know_ids (ids : list string) : rstep unit :=
  modify (fun run => run <| known_ids := fold_left (fun s i => bs_insert i s) ids (known_ids run) |>).

Definition finish_flatten (why : string) : rstep unit :=
  let# run := get in
  match halt_record (st run) with
  | None => ret tt
  | Some h =>
      let# report := call_out (fun B c => BrokerCall c) (flatten (flatten_spec run h) (cx_venue ctx)) in
      let# _ := note "flatten" (flatten_summary report) in
      let flat := match fr_verdict report with FlattenVerdict.HaltAndAlert => false | _ => true end in
      let# _ := know_ids (omap fo_broker_order_id (fr_orders report)) in
      let# _ := edit (fun r => r <| run_flatten := Some report |>) in
      let '(next, tr) := complete_flatten (st run) flat in
      let# _ := push_transition tr in
      let# saved := save_state next in
      match saved with
      | None => ret tt
      | Some _ =>
          if flat then ret tt
          else alert AlertCode.FlattenIncomplete AlertSeverity.Critical
            ("halt (" +:+ why +:+ "): the flatten did not verify flat: " +:+ flatten_summary report) "flatten"
      end
  end.

(** A halted account is refused; a flattening one resumes its flatten (live) and stops. *)
Definition step_halted_check : may_stop unit :=
  let# run := get in
  match status (st run) with
  | AccountStatus.Halted =>
      let why := match halt_record (st run) with
        | Some h => HaltReason.code (h_reason h) +:+ " at " +:+ dt_display (h_at h)
        | None => "unknown"
        end in
      let# _ := note "halted_check" ("halted (" +:+ why +:+ ")") in
      let# _ := alert AlertCode.StillHalted AlertSeverity.Warning
        ("the account is halted (" +:+ why +:+ "); no run until a person resumes it") "halted" in
      stop OutcomeKind.Refused (RunCode.as_str RunCode.AccountHalted) ("the account is halted (" +:+ why +:+ ")")
  | AccountStatus.Flattening =>
      let# _ := note "halted_check" "flattening: resuming the flatten" in
      if live then
        let# _ := finish_flatten "a flatten was in progress" in
        let# run := get in
        let code := HaltReason.code match halt_record (st run) with Some h => h_reason h | None => HaltReason.Manual end in
        stop OutcomeKind.Halted code "the account is halting: flatten resumed"
      else
        let# _ := alert AlertCode.StillHalted AlertSeverity.Warning
          "the account is flattening and this run may not send orders" "halted" in
        stop OutcomeKind.Refused (RunCode.as_str RunCode.AccountHalted) "the account is flattening; only a Live run can finish it"
  | AccountStatus.Active | AccountStatus.Shrunk => go_on tt
  end.

(** ** 5: cleanup of our own stale orders *)

Definition blocks_cleanup (f : FlattenFailure) : bool :=
  FlattenCode.is_blocking (ff_code f) || bool_decide (ff_code f = FlattenCode.ReadFailed).

Definition step_cleanup : may_stop unit :=
  let# run := get in
  if negb live then
    let# _ := note "cleanup" "skipped: this mode sends no orders and cancels nothing" in go_on tt
  else if negb (match snapshot run with
                | Some s => existsb (fun o => is_own_order o (known_ids run)) (open_orders s)
                | None => false
                end) then
    let# _ := note "cleanup" "no stale orders of ours" in go_on tt
  else
    let# (cancels, failures, _) :=
      call_out (fun B c => BrokerCall c) (cleanup (known_ids run) (cf_max_polls cfg) (cf_poll_secs cfg)) in
    let# _ := edit (fun r => r <| run_cleanup := cancels |>) in
    let# _ := note "cleanup" ("cancelled " +:+ show_int (Z.of_nat (length cancels)) +:+ " stale order(s), " +:+
      show_int (Z.of_nat (length failures)) +:+ " failure(s)") in
    if existsb blocks_cleanup failures then
      fail_closed RunCode.CleanupFailed ("our stale open orders could not be cancelled: " +:+
        join " | " ((fun f => FlattenCode.as_str (ff_code f) +:+ ": " +:+ ff_message f) <$> failures))
    else
      let#? s := read_snapshot "cleanup" in
      let# _ := record_pre s in
      let# _ := take_snapshot s in
      go_on tt.
End steps.
