(* ===== verification/RunOrders.v ===== *)
(** * RunOrders: crates/rebalancer-run/src/pipeline.rs, steps 6 to 10

    The first reconciliation, risk, targets, plan, and the orders of the run: how each one is sent, settled, adopted. *)

From Stdlib Require Import ZArith Lia String Ascii.
From S2P Require Import Prelude Assoc Calls Text BTree F64 Externals Decimal DecMath Mandate Policy Broker Venue RiskState Overlay RiskStore View Recon Flatten Guard Planner Data Decision Record RunStore RunCalls RunSteps.

Local Open Scope Z_scope.

Section orders.
Context `{ReferenceRules} `{RustDecimal, !MandateSerde, Sha256}.
Variable ctx : RunContext.

Abbreviation cfg := (cx_config ctx).
Abbreviation alert := (alert ctx).
Abbreviation fail_closed := (fail_closed ctx).
Abbreviation halt_reconciliation := (halt_reconciliation ctx).
Abbreviation save_state := (save_state ctx).
Abbreviation read_snapshot := (read_snapshot ctx).
Abbreviation store_failed := (store_failed ctx).
Abbreviation live := (live ctx).

(** ** 6: reconcile before trading *)

(** An order of a crashed attempt, as the broker knows it. *)
Definition expected_of (e : JournalEntry) (reports : list OrderReport) : ExpectedOrder :=
  let first := head reports in
  {| e_tag := j_tag e; e_symbol := match first with Some r => rep_symbol r | None => EmptyString end;
     e_side := match first with Some r => default Buy (rep_side r) | None => Buy end;
     planned_quantity := match first with Some r => rep_quantity r | None => ZERO end;
     e_broker_order_id := match j_broker_order_id e with Some i => Some i | None => rep_id <$> first end;
     e_reports := reports; anomalies := []; expect_exists := true |}.

Fixpoint in_flight_from (l : list JournalEntry) : may_stop (list ExpectedOrder) :=
  match l with
  | [] => go_on []
  | e :: l' =>
      let# found := ask (BrokerCall (FindByTag (j_tag e))) in
      match found with
      | Err err => fail_closed RunCode.BrokerUnreachable
          ("could not look up " +:+ j_tag e +:+ " from an earlier attempt: " +:+ BrokerError.display err)
      | Ok reports =>
          let# _ := know_ids (option_list (j_broker_order_id e) ++ (rep_id <$> reports)) in
          let#? rest := in_flight_from l' in
          go_on (expected_of e reports :: rest)
      end
  end.

Definition in_flight_orders : may_stop (list ExpectedOrder) :=
  let# entries := ask (InFlight (cx_account ctx)) in
  match entries with
  | Ok l => in_flight_from l
  | Err e => store_failed e
  end.

Definition person_may_trade (c : ReconCode.t) : bool :=
  match c with ReconCode.ForeignOrder | ReconCode.PositionDrift | ReconCode.BalanceDrift => true | _ => false end.

Definition downgrade (f : ReconFinding) : ReconFinding :=
  if person_may_trade (f_code f) then
    {| f_code := f_code f; f_severity := Severity.Info; f_symbol := f_symbol f; f_message := f_message f |}
  else f.

Definition downgrade_for_mode (r : ReconReport) : ReconReport :=
  match cx_mode ctx with
  | ExecutionMode.Assisted =>
      let fs := downgrade <$> findings r in
      {| rr_at := rr_at r; findings := fs;
         verdict := if existsb Recon.is_halt fs then ReconVerdict.HaltAndAlert else ReconVerdict.Ok |}
  | _ => r
  end.

Definition record_recon (stage : string) (r : ReconReport) : rstep unit :=
  edit (fun rec => rec <| run_recon := run_recon rec ++ [{| stage := stage; stage_report := r |}] |>).

Definition is_bad (r : ReconReport) : bool := match verdict r with ReconVerdict.HaltAndAlert => true | ReconVerdict.Ok => false end.

Definition recon_note (step : string) (r : ReconReport) : rstep unit :=
  note step (ReconVerdict.as_str (verdict r) +:+ ": " +:+ join "," (report_codes r)).

Definition add_ids (ids : list string) (s : BTreeSet string) : BTreeSet string := fold_left (fun s i => bs_insert i s) ids s.

Definition step_recon_pre : may_stop unit :=
  let# last := ask (LastSnapshot (cx_account ctx)) in
  match last with
  | Err e => store_failed e
  | Ok last =>
      let#? flying := in_flight_orders in
      let base := summary_baseline <$> last in
      let# _ := modify (fun run => run <| applied_ids :=
        add_ids (concat ((fun e => rep_id <$> e_reports e) <$> flying)) (applied_ids run) |>) in
      let#? base :=
        match base with
        | None => go_on None
        | Some b =>
            match after_orders b flying with
            | Some next => go_on (Some next)
            | None => halt_reconciliation "the fills of an earlier attempt could not be applied to the baseline"
            end
        end in
      let#? snap := have snapshot in
      let# at_ := now_ in
      let# run := get in
      let report := downgrade_for_mode (reconcile
        {| ri_view := snap; ri_now := at_; Recon.known_order_ids := known_ids run; baseline := base; ri_orders := flying;
           tolerances := cf_tolerances cfg |}) in
      let# _ := recon_note "reconcile_pre" report in
      let# _ := record_recon "pre" report in
      if is_bad report then halt_reconciliation (halt_summary report)
      else
        let# _ := modify (fun run => run <| pre_baseline := Some (default (from_snapshot snap) base) |>) in
        go_on tt
  end.

(** ** 7: risk *)

(** The day has no anchored start: new buys are paused. *)
Definition pause_buys (snap : BrokerSnapshot) (prior_day : option NaiveDate) : rstep unit :=
  match day_start cfg with
  | FirstObservation => ret tt
  | UtcMidnight max_lag_secs =>
      let# run := get in
      let day := date_naive (taken_at snap) in
      if day_start_missing (st run) day then
        let found_now := negb (bool_decide (prior_day = Some day)) in
        let message := day_start_missing_message day max_lag_secs (if found_now then Some (taken_at snap) else None) in
        let# _ := note "risk" (message +:+ "; new buys are paused in this run") in
        let# _ :=
          if found_now then alert AlertCode.RunFailed AlertSeverity.Warning message ("day_start_missing:" +:+ date_display day)
          else ret tt in
        modify (fun run => run <| buys_paused := Some message |>)
      else ret tt
  end.

Definition reasons_text (d : RiskDecision) : string :=
  join " | " ((fun r => RiskCode.as_str (rr_code r) +:+ ": " +:+ rr_message r) <$> rd_reasons d).

Definition is_halting (d : RiskDecision) : bool := match rd_action d with RiskAction.HaltFlatten => true | _ => false end.

Definition step_risk : may_stop unit :=
  let#? snap := have snapshot in
  let#? p := have risk_policy in
  let# run := get in
  let prior_day := trading_day (st run) in
  let '(next, d, tr) := step_with (st run) (equity_snapshot snap) (cx_day ctx) p (day_start cfg) in
  let# _ := note "risk" (join "," (risk_codes d) +:+ " scale " +:+ to_string (rd_scale d)) in
  let# _ := edit (fun r => r <| run_risk := Some d |>) in
  let# _ := push_transition tr in
  let#? _ := save_state next in
  if negb (is_halting d) then let# _ := pause_buys snap prior_day in go_on tt
  else
    let reason := default HaltReason.EquityInvalid (rd_halt_reason d) in
    let# _ := alert AlertCode.Halt AlertSeverity.Critical (HaltReason.code reason +:+ ": " +:+ reasons_text d) "halt" in
    let#? _ :=
      if live then let# _ := finish_flatten ctx (reasons_text d) in go_on tt
      else
        let# run := get in
        let '(halted, tr) := complete_flatten (st run) true in
        let# _ := push_transition tr in
        let#? _ := save_state halted in
        let# _ := alert AlertCode.FlattenIncomplete AlertSeverity.Critical
          (ExecutionMode.as_str (cx_mode ctx) +:+
           " mode: no orders were sent, so nothing was flattened; flatten the account by hand") "flatten" in
        go_on tt in
    stop OutcomeKind.Halted (HaltReason.code reason) (reasons_text d).

(** ** 8: targets *)

Definition mark_planned (i : nat) (r : RunRecord) : RunRecord :=
  r <| decisions := alter (fun d => d <| planned := true |>) i (decisions r) |>.

Definition target_one (x : nat * Evaluation) : may_stop SleeveTarget :=
  let '(i, e) := x in
  let#? s := have (fun _ => cx_sleeves ctx !! i) in
  match eval_target e s with
  | Err err => fail_closed RunCode.RuleError ("sleeve " +:+ sp_id s +:+ ": weight conversion failed: " +:+ MathError.display err)
  | Ok t =>
      let# _ := edit (fun r => r <| run_targets := run_targets r ++
        [{| ts_sleeve := sp_id s; ts_decision_date := decision_date e; ts_fingerprint := fingerprint e;
            ts_weights := (fun w => (tw_symbol w, weight w)) <$> weights t |}] |>) in
      let# _ := edit (mark_planned i) in
      go_on t
  end.

Fixpoint collect {A B} (f : A → may_stop B) (l : list A) : may_stop (list B) :=
  match l with
  | [] => go_on []
  | x :: l' => let#? y := f x in let#? ys := collect f l' in go_on (y :: ys)
  end.

Definition step_targets : may_stop (list SleeveTarget) :=
  let# run := get in
  let#? targets := collect target_one (pending run) in
  let# _ := note "targets" (show_int (Z.of_nat (length targets)) +:+ " of " +:+
    show_int (Z.of_nat (length (cx_sleeves ctx))) +:+ " sleeve(s) planned") in
  go_on targets.

(** ** 9: plan *)

Definition price_symbols (targets : list SleeveTarget) (snap : BrokerSnapshot) : list string :=
  bs_elements (add_ids ((fun h => to_uppercase (hold_symbol h)) <$> holdings snap)
    (bs_of_list (concat ((fun t => (fun w => to_uppercase (tw_symbol w)) <$> weights t) <$> targets)))).

Definition prices_for (targets : list SleeveTarget) (snap : BrokerSnapshot) : may_stop (BTreeMap string PricePoint) :=
  let# at_ := now_ in
  let# p := ask (PricesOf (price_symbols targets snap) at_) in
  match p with
  | Ok p => go_on p
  | Err e => fail_closed RunCode.DataError ("prices: " +:+ data_error_display e)
  end.

Definition plan_config (scale : Dec) (day : DayCounters) (credit_sells : bool) : PlanConfig :=
  let c := config_new (cx_scheduled_for ctx) scale (cf_min_trade_abs cfg) (cf_min_trade_pct cfg) (cf_fee_rate cfg) in
  {| scheduled_for := scheduled_for c; Planner.risk_scale := Planner.risk_scale c; min_trade_abs := min_trade_abs c;
     min_trade_pct := min_trade_pct c; fee_rate := fee_rate c; credit_sell_proceeds := credit_sells; Planner.day := day;
     signed_sleeves := signed_sleeves c; buying_power := buying_power c |}.

Definition plan_with (targets : list SleeveTarget) (snap : BrokerSnapshot) (day : DayCounters) (credit_sells : bool)
    : may_stop OrderPlan :=
  let#? prices := prices_for targets snap in
  let#? p := have policy in
  let# run := get in
  let# at_ := now_ in
  let view := account_view snap (cx_account ctx) (AccountStatus.is_halt (status (st run))) at_ in
  match Planner.plan targets view prices (cx_rules ctx) p (plan_config (RiskState.risk_scale (st run)) day credit_sells) with
  | Ok p => go_on p
  | Err e => fail_closed RunCode.PlanError ("planning failed: " +:+ PlanError.display e)
  end.

Definition denied_summary (d : DeniedOrder) : DeniedSummary :=
  {| ds_order := denied_order d; ds_codes := (fun r => code_str (d_code r)) <$> denial_reasons d; ds_reasons := denial_reasons d |}.

Definition summarize_plan (p : OrderPlan) : PlanSummary :=
  {| ps_digest := inputs_digest p; ps_equity := pl_equity p; ps_capital_base := pl_capital_base p;
     ps_risk_scale := pl_risk_scale p; ps_orders := Planner.orders p; ps_denied := denied_summary <$> denied p;
     ps_skipped := skipped p; ps_lines := lines p |}.

Definition counters : may_stop DayCounters :=
  let# c := ask (DayCountersOf (cx_account ctx) (cx_day ctx)) in
  match c with
  | Ok c => go_on c
  | Err e => store_failed e
  end.

Definition step_plan (targets : list SleeveTarget) : may_stop OrderPlan :=
  let#? snap := have snapshot in
  let#? day := counters in
  let#? p := plan_with targets snap day true in
  let# _ := edit (fun r => r <| run_plan := Some (summarize_plan p) |>) in
  let# _ := note "plan" (show_int (Z.of_nat (length (Planner.orders p))) +:+ " order(s), " +:+
    show_int (Z.of_nat (length (denied p))) +:+ " denied, " +:+ show_int (Z.of_nat (length (skipped p))) +:+
    " skipped, scale " +:+ to_string (pl_risk_scale p)) in
  go_on p.

(** ** 10: one order *)

Definition buy_is_paused (run : Run) (o : PlannedOrder) : bool :=
  is_some (buys_paused run) && bool_decide (p_side o = Buy) &&
  negb match (let* s := snapshot run in holding s (p_symbol o)) with Some h => is_negative (hold_quantity h) | None => false end.

Definition final_outcome (r : OrderReport) : PlacedOutcome :=
  if bool_decide (rep_status r = OrderStatus.Filled) then PlacedOutcome.Filled
  else if is_positive (rep_executed r) && is_terminal (rep_status r) then PlacedOutcome.PartiallyFilled
  else if is_terminal (rep_status r) then PlacedOutcome.NothingExecuted
  else PlacedOutcome.Unsettled.

Definition finalize (p : PlacedOrder) (r : OrderReport) : PlacedOrder :=
  let p := p <| pd_status := Some (rep_status r) |> <| pd_executed := rep_executed r |> in
  let p := if bool_decide (pd_outcome p = PlacedOutcome.AdoptedExisting) then p else p <| pd_outcome := final_outcome r |> in
  p <| pd_reports := pd_reports p ++ [r] |>.

Definition note_anomaly (text : string) (p : PlacedOrder) : PlacedOrder := p <| pd_anomalies := pd_anomalies p ++ [text] |>.

(** The polls that are left; [inr]: the order has not ended. *)
Fixpoint poll_order (n : nat) (id : string) (p : PlacedOrder) : rstep (PlacedOrder + PlacedOrder) :=
  match n with
  | O => ret (inr p)
  | S n' =>
      let# r := ask (BrokerCall (GetOrder id)) in
      match r with
      | Ok r =>
          if is_terminal (rep_status r) then ret (inl (finalize p r))
          else
            let# _ := match n' with O => ret tt | S _ => ask (BrokerCall (SleepSecs (cf_poll_secs cfg))) end in
            poll_order n' id (p <| pd_status := Some (rep_status r) |>)
      | Err e =>
          let p := note_anomaly (BrokerError.display e) p in
          ret (inl (if is_anomaly e then p <| pd_outcome := PlacedOutcome.Unsettled |> else p))
      end
  end.

Definition settle_into (p : PlacedOrder) (id : string) : rstep PlacedOrder :=
  let p := p <| pd_id := Some id |> in
  let# _ := know_ids [id] in
  let# polled := poll_order (Z.to_nat (cf_max_polls cfg)) id p in
  match polled with
  | inl p => ret p
  | inr p =>
      let# c := ask (BrokerCall (CancelAndSettle id)) in
      match c with
      | Ok (_, r) => ret (finalize p r)
      | Err e => ret ((note_anomaly (BrokerError.display e) p) <| pd_outcome := PlacedOutcome.Unsettled |>)
      end
  end.

Definition journal (e : JournalEntry) : rstep (result RunStoreError unit) :=
  let# run := get in ask (JournalOrder (run_key (rec run)) e).

Definition journal_anomaly (e : RunStoreError) : string := "journal: " +:+ RunStoreError.display e.

(** The order exists: follow it, do not send another ([found] is not empty). *)
Definition adopt (p : PlacedOrder) (first : OrderReport) : rstep PlacedOrder :=
  let id := rep_id first in
  let detail := "an order with this tag already existed at the broker (" +:+ id +:+ ", quantity " +:+
    to_string (rep_quantity first) +:+ "): adopted, not re-sent; this attempt planned " +:+ to_string (pd_planned p) in
  let p := p <| pd_outcome := PlacedOutcome.AdoptedExisting |> <| pd_detail := detail |> <| pd_planned := rep_quantity first |> in
  let# j := journal {| j_tag := pd_tag p; j_broker_order_id := Some id; j_notional := ZERO |} in
  let p := match j with Ok _ => p | Err e => note_anomaly (journal_anomaly e) p end in
  settle_into p id.

Definition not_yet_sent (o : PlannedOrder) (phase : Phase) : PlacedOrder :=
  {| pd_phase := phase; pd_tag := tag o; pd_symbol := p_symbol o; pd_side := p_side o; pd_planned := p_quantity o;
     pd_price := p_price o; pd_outcome := PlacedOutcome.NotSent; pd_id := None; pd_status := None; pd_executed := ZERO;
     pd_reports := []; pd_anomalies := []; pd_detail := EmptyString |}.

Definition order_request (o : PlannedOrder) (rehearsal : bool) : OrderRequest :=
  let r := req_with_reference (req_market (tag o) (p_symbol o) (p_side o) (p_quantity o)) (p_price o) in
  {| req_tag := req_tag r; req_symbol := req_symbol r; req_side := req_side r; req_kind := req_kind r;
     req_quantity := req_quantity r; req_time_in_force := req_time_in_force r; req_post_only := req_post_only r;
     req_reduce_only := req_reduce_only r; req_validate_only := rehearsal; req_reference_price := req_reference_price r |}.

Definition is_market_closed (e : BrokerError) : bool := match e with BrokerError.MarketClosed _ _ => true | _ => false end.

(** What came back of the request that was sent. *)
Definition after_place (o : PlannedOrder) (rehearsal : bool) (p : PlacedOrder) (r : broker PlaceOutcome.t) : rstep PlacedOrder :=
  match r with
  | Ok (PlaceOutcome.Accepted id _ _ _) =>
      let p := if rehearsal then
          note_anomaly ("PAPER_ORDER_EXISTS: a validate-only order came back as accepted (" +:+ id +:+ ")") p else p in
      let# p :=
        if rehearsal then ret p
        else
          let# j := journal {| j_tag := tag o; j_broker_order_id := Some id; j_notional := p_notional o |} in
          ret match j with Ok _ => p | Err e => note_anomaly (journal_anomaly e) p end in
      settle_into p id
  | Ok (PlaceOutcome.ValidatedOnly _ _ _) => ret (p <| pd_outcome := PlacedOutcome.Validated |>)
  | Ok (PlaceOutcome.Rejected errors _) =>
      ret (p <| pd_outcome := PlacedOutcome.Rejected |> <| pd_detail := join ", " (err_code <$> errors) |>)
  | Ok (PlaceOutcome.UnknownOutcome reason _) =>
      let# found := ask (BrokerCall (FindByTag (tag o))) in
      match found with
      | Ok (first :: _) =>
          let p := if rehearsal then note_anomaly "PAPER_ORDER_EXISTS: a validate-only request created an order" p else p in
          let# p := adopt p first in
          ret (p <| pd_detail := "outcome was unknown (" +:+ reason +:+ "); found by tag" |>)
      | Ok [] =>
          ret (p <| pd_outcome := PlacedOutcome.UnknownNotFound |> <| pd_detail := "outcome was unknown (" +:+ reason +:+
            ") and no order carries the tag: treated as not placed, not retried" |>)
      | Err e =>
          ret (p <| pd_outcome := PlacedOutcome.UnknownNotFound |> <| pd_detail := "outcome was unknown (" +:+ reason +:+
            ") and the look-up failed (" +:+ BrokerError.display e +:+ "): not retried" |>)
      end
  | Err e =>
      ret (p <| pd_outcome := PlacedOutcome.NotSent |> <| pd_detail :=
        if is_market_closed e then "not sent: " +:+ MARKET_CLOSED_MARKER +:+ ": " +:+ BrokerError.display e
        else "not sent: " +:+ BrokerError.display e |>)
  end.

Definition send_order (o : PlannedOrder) (rehearsal : bool) (p : PlacedOrder) : rstep PlacedOrder :=
  let# r := ask (BrokerCall (Place (order_request o rehearsal))) in
  after_place o rehearsal p r.

Definition execute_order (o : PlannedOrder) (phase : Phase) : rstep PlacedOrder :=
  let rehearsal := bool_decide (phase = Phase.Rehearsal) in
  let p := not_yet_sent o phase in
  let# run := get in
  if negb (AccountStatus.may_add_risk (status (st run))) then
    ret (p <| pd_detail := "refused: the account is " +:+ AccountStatus.as_str (status (st run)) |>)
  else if buy_is_paused run o then
    ret (p <| pd_detail := "not sent: " +:+ default DAY_START_MISSING (buys_paused run) |>)
  else
    let# found := ask (BrokerCall (FindByTag (tag o))) in
    match found with
    | Err e =>
        ret (p <| pd_detail := "not sent: the tag look-up failed (" +:+ BrokerError.display e +:+
          "), so it cannot be known whether the order exists" |>)
    | Ok ((first :: _) as l) =>
        let p := if rehearsal then
            note_anomaly ("PAPER_ORDER_EXISTS: " +:+ show_int (Z.of_nat (length l)) +:+
              " order(s) already carry this tag in a paper run") p else p in
        adopt p first
    | Ok [] =>
        if rehearsal then send_order o rehearsal p
        else
          let# j := journal {| j_tag := tag o; j_broker_order_id := None; j_notional := p_notional o |} in
          match j with
          | Err e => ret (p <| pd_detail := "not sent: the intent could not be journaled (" +:+ RunStoreError.display e +:+ ")" |>)
          | Ok _ => send_order o rehearsal p
          end
    end.

(** ** 10: the plan's orders *)

Definition execute_and_record (phase : Phase) (o : PlannedOrder) : rstep unit :=
  let# p := execute_order o phase in
  edit (fun r => r <| placed := placed r ++ [p] |>).

Definition is_side (s : Side) (o : PlannedOrder) : bool := bool_decide (p_side o = s).

Definition write_tickets (p : OrderPlan) : rstep unit :=
  let# run := get in
  let paused := List.filter (buy_is_paused run) (Planner.orders p) in
  let allowed := List.filter (fun o => negb (buy_is_paused run o)) (Planner.orders p) in
  let# _ := match buys_paused run with
    | Some why => modify (fun run => run <| paused_tickets :=
        (fun o => "buy " +:+ p_symbol o +:+ " not ticketed: " +:+ why) <$> paused |>)
    | None => ret tt
    end in
  let# _ := edit (fun r => r <| tickets := allowed |>) in
  note "execute" ("assisted: " +:+ show_int (Z.of_nat (length allowed)) +:+ " ticket(s) written, nothing placed").

Definition buy_after_sells (targets : list SleeveTarget) : may_stop unit :=
  let#? snap := read_snapshot "execute" in
  let#? day := counters in
  let#? again := plan_with targets snap day false in
  let# _ := edit (fun r => r <| replan := Some (summarize_plan again) |>) in
  let buys := List.filter (is_side Buy) (Planner.orders again) in
  let# _ := note "execute" ("live: re-read cash " +:+ to_string (s_cash snap) +:+ ", " +:+
    show_int (Z.of_nat (length buys)) +:+ " buy(s) after the sells") in
  let# _ := for_each (execute_and_record Phase.Buys) buys in
  go_on tt.

Definition step_execute (targets : list SleeveTarget) (p : OrderPlan) : may_stop unit :=
  match cx_mode ctx with
  | ExecutionMode.Assisted => let# _ := write_tickets p in go_on tt
  | ExecutionMode.Paper =>
      let# _ := for_each (execute_and_record Phase.Rehearsal) (Planner.orders p) in
      let# _ := note "execute" ("paper: " +:+ show_int (Z.of_nat (length (Planner.orders p))) +:+ " order(s) sent validate-only") in
      go_on tt
  | ExecutionMode.Live =>
      let# _ := for_each (execute_and_record Phase.Sells) (List.filter (is_side Sell) (Planner.orders p)) in
      if negb (existsb (is_side Buy) (Planner.orders p)) then let# _ := note "execute" "live: sells only" in go_on tt
      else buy_after_sells targets
  end.
End orders.
