(* ===== verification/Pipeline.v ===== *)
(** * Pipeline: crates/rebalancer-run/src/pipeline.rs, steps 11 and 12 and the whole run

    The reconciliation after the orders, the verdict on whether the run acted on its decisions, and [run_once]. *)

From Stdlib Require Import ZArith Lia String Ascii.
From S2P Require Import Prelude Assoc Calls Text BTree F64 Externals Decimal DecMath Mandate Policy Broker Venue RiskState Overlay RiskStore View Recon Flatten Guard Planner Data Decision Record RunStore RunCalls RunSteps RunOrders.

Local Open Scope Z_scope.

(** ** Printed forms (derived [Debug]) *)

Definition dec_debug (d : Dec) : string := "Dec(" +:+ to_string d +:+ ")".

Definition refusal_debug (r : SizeRefusal) : string :=
  match r with
  | SizeRefusal.UnknownInstrument s => "UnknownInstrument(" +:+ debug_str s +:+ ")"
  | SizeRefusal.NotTradable s => "NotTradable(" +:+ debug_str s +:+ ")"
  | SizeRefusal.RoundsToZero => "RoundsToZero"
  | SizeRefusal.BelowMinQuantity m => "BelowMinQuantity { min: " +:+ dec_debug m +:+ " }"
  | SizeRefusal.BelowMinCost m => "BelowMinCost { min: " +:+ dec_debug m +:+ " }"
  | SizeRefusal.Other s => "Other(" +:+ debug_str s +:+ ")"
  end.

Definition skip_debug (r : SkipReason.t) : string :=
  match r with
  | SkipReason.NoPrice => "NoPrice"
  | SkipReason.NoVenueRules => "NoVenueRules"
  | SkipReason.ShortPositionHeld => "ShortPositionHeld"
  | SkipReason.BelowMinTradeAbs d m => "BelowMinTradeAbs { delta: " +:+ dec_debug d +:+ ", min: " +:+ dec_debug m +:+ " }"
  | SkipReason.BelowMinTradePct d m => "BelowMinTradePct { delta: " +:+ dec_debug d +:+ ", min: " +:+ dec_debug m +:+ " }"
  | SkipReason.VenueRefused r => "VenueRefused(" +:+ refusal_debug r +:+ ")"
  | SkipReason.CutBelowVenueMinimum => "CutBelowVenueMinimum"
  | SkipReason.NoCashAvailable => "NoCashAvailable"
  | SkipReason.FlipCloseLegNotPlaced => "FlipCloseLegNotPlaced"
  end.

(** ** Shortfalls: every way the plan's orders were not carried out *)

(** A skip that is not sizing dust. *)
Definition material (r : SkipReason.t) : bool :=
  match r with
  | SkipReason.BelowMinTradeAbs _ _ | SkipReason.BelowMinTradePct _ _ | SkipReason.CutBelowVenueMinimum
  | SkipReason.NoCashAvailable => false
  | SkipReason.VenueRefused refusal => negb (is_dust_refusal refusal)
  | SkipReason.NoPrice | SkipReason.NoVenueRules | SkipReason.ShortPositionHeld | SkipReason.FlipCloseLegNotPlaced => true
  end.

(** The first plan sells the symbol. *)
Definition plan_sells_symbol (p : PlanSummary) (symbol : string) : bool :=
  existsb (fun l => eq_ignore_ascii_case (i_symbol l) symbol && dec_ltb (target_notional l) (current_notional l)) (ps_lines p).

Definition denied_text (d : DeniedSummary) : string :=
  "guard denied " +:+ side_str (p_side (ds_order d)) +:+ " " +:+ p_symbol (ds_order d) +:+ " (" +:+ join "," (ds_codes d) +:+ ")".
Definition skipped_text (s : SkippedTrade) : string :=
  "planner skipped " +:+ s_symbol s +:+ " (" +:+ skip_debug (s_reason s) +:+ ")".
Definition placed_text (p : PlacedOrder) : string :=
  side_str (pd_side p) +:+ " " +:+ pd_symbol p +:+ " " +:+ PlacedOutcome.debug (pd_outcome p) +:+ ": " +:+ pd_detail p.

Definition denied_side (s : Side) (d : DeniedSummary) : bool := bool_decide (p_side (ds_order d) = s).

Section run.
Context `{ReferenceRules} `{RustDecimal, !MandateSerde, Sha256}.

(** (description, refused because the market was closed). Sells are the first plan's, buys the re-plan's when there is
    one. *)
Definition shortfalls (r : RunRecord) (paused : list string) : list (string * bool) :=
  match run_plan r with
  | None => []
  | Some p =>
      let open_gap (t : string) := (t, false) in
      let no_replan := negb (is_some (replan r)) in
      (open_gap ∘ denied_text <$> List.filter (fun d => no_replan || denied_side Sell d) (ps_denied p)) ++
      match replan r with
      | Some q => open_gap ∘ denied_text <$> List.filter (denied_side Buy) (ps_denied q)
      | None => []
      end ++
      (open_gap ∘ skipped_text <$>
        List.filter (fun s => material (s_reason s) && (no_replan || plan_sells_symbol p (s_symbol s))) (ps_skipped p)) ++
      match replan r with
      | Some q => open_gap ∘ skipped_text <$>
          List.filter (fun s => material (s_reason s) && negb (plan_sells_symbol p (s_symbol s))) (ps_skipped q)
      | None => []
      end ++
      (open_gap <$> paused) ++
      ((fun x => (placed_text x, refused_market_closed x)) <$> List.filter (fun x => negb (carried x)) (placed r))
  end.

Variable ctx : RunContext.

Abbreviation cfg := (cx_config ctx).
Abbreviation halt_reconciliation := (halt_reconciliation ctx).
Abbreviation live := (live ctx).

Definition step_assess : rstep unit :=
  let# run := get in
  match shortfalls (rec run) (paused_tickets run) with
  | [] =>
      let# _ := modify (fun run => run <| all_carried := true |>) in
      let# _ := stop (A := unit) OutcomeKind.Completed (RunCode.as_str RunCode.Completed)
        (ExecutionMode.as_str (cx_mode ctx) +:+ " run completed") in
      ret tt
  | gaps =>
      let list := join " | " gaps.*1 in
      let message := show_int (Z.of_nat (length gaps)) +:+ " of the plan's orders were not carried out" +:+
        (if existsb carried (placed (rec run))
         then " (other orders of this run WERE carried out, so the account is part-way to its target)" else EmptyString) +:+
        ": the decision is NOT counted as acted and is planned again on the next run: " +:+ list in
      let# _ := note "assess" message in
      let severity := if forallb snd gaps then AlertSeverity.Warning else AlertSeverity.Critical in
      let# _ := alert ctx AlertCode.DecisionNotActed severity message "decision_not_acted" in
      let# _ := stop (A := unit) OutcomeKind.Completed (RunCode.as_str RunCode.DecisionNotActed) message in
      ret tt
  end.

(** ** 11: reconcile after trading *)

(** A last look-up for an order whose outcome was unknown. *)
Definition look_again (p : PlacedOrder) : rstep PlacedOrder :=
  if bool_decide (pd_outcome p = PlacedOutcome.UnknownNotFound) then
    let# found := ask (BrokerCall (FindByTag (pd_tag p))) in
    match found with
    | Ok ((first :: _) as l) =>
        ret (p <| pd_id := Some (rep_id first) |> <| pd_reports := l |>
               <| pd_detail := pd_detail p +:+ " | the order appeared after the run's own look-up" |>)
    | _ => ret p
    end
  else ret p.

Fixpoint map_step {A B} (f : A → rstep B) (l : list A) : rstep (list B) :=
  match l with
  | [] => ret []
  | x :: l' => let# y := f x in let# ys := map_step f l' in ret (y :: ys)
  end.

Definition was_sent (p : PlacedOrder) : bool :=
  match pd_outcome p with PlacedOutcome.NotSent | PlacedOutcome.Rejected | PlacedOutcome.Validated => false | _ => true end.

Definition expectation (p : PlacedOrder) : ExpectedOrder :=
  {| e_tag := pd_tag p; e_symbol := pd_symbol p; e_side := pd_side p; planned_quantity := pd_planned p;
     e_broker_order_id := pd_id p; e_reports := pd_reports p; anomalies := pd_anomalies p;
     expect_exists := (live && was_sent p) || negb (match pd_anomalies p with [] => true | _ => false end) |}.

(** Its fills are not yet inside the baseline. *)
Definition fresh_order (applied : BTreeSet string) (e : ExpectedOrder) : bool :=
  expect_exists e && forallb (fun r => negb (bs_contains applied (rep_id r))) (e_reports e).

Definition step_recon_post : may_stop unit :=
  if bool_decide (cx_mode ctx = ExecutionMode.Assisted) then
    let# _ := note "reconcile_post" "skipped: nothing was placed" in go_on tt
  else
    let# run := get in
    let# ps := map_step look_again (placed (rec run)) in
    let expected := expectation <$> ps in
    let unsettled := pd_tag <$> List.filter (fun p => bool_decide (pd_outcome p = PlacedOutcome.Unsettled)) ps in
    let# _ := edit (fun r => r <| placed := ps |>) in
    match unsettled with
    | _ :: _ =>
        let msg := "orders still live or unreadable after the run: " +:+ join ", " unsettled in
        let# _ := note "reconcile_post" msg in
        halt_reconciliation msg
    | [] =>
        let# at_ := now_ in
        let# s := ask (BrokerCall (Snapshot at_)) in
        match s with
        | Err e =>
            let# _ := note "reconcile_post" ("re-read failed: " +:+ SnapshotError.display e) in
            halt_reconciliation ("the account could not be re-read after trading: " +:+ SnapshotError.display e)
        | Ok snap =>
            let# _ := edit (fun r => r <| post_snapshot := Some (summarize snap) |>) in
            let# run := get in
            let fresh := List.filter (fresh_order (applied_ids run)) expected in
            let#? base := have pre_baseline in
            let#? after :=
              if live then
                match after_orders base fresh with
                | Some b => go_on b
                | None => halt_reconciliation "the fills of this run could not be applied to the baseline"
                end
              else go_on base in
            let# at_ := now_ in
            let report := reconcile
              {| ri_view := snap; ri_now := at_; Recon.known_order_ids := known_ids run; baseline := Some after;
                 ri_orders := expected; tolerances := cf_tolerances cfg |} in
            let# _ := recon_note "reconcile_post" report in
            let# _ := record_recon "post" report in
            if is_bad report then halt_reconciliation (halt_summary report)
            else let# _ := modify (fun run => run <| snapshot := Some snap |>) in go_on tt
        end
    end.

(** ** 12: the record *)

Definition settle_decisions (completed carried : bool) (l : list SleeveDecision) : list SleeveDecision :=
  (fun d => d <| acted := planned d && completed && carried |>) <$> l.

Definition finish_run : rstep RunRecord :=
  let# run := get in
  let# _ := edit (fun r => r <| state_after := Some (status (st run)) |>) in
  let# at_ := now_ in
  let completed := bool_decide (oc_kind (run_outcome (rec run)) = OutcomeKind.Completed) in
  let# _ := edit (fun r => r <| run_finished_at := at_ |>
                             <| decisions := settle_decisions completed (all_carried run) (decisions r) |>) in
  let# run := get in
  let# written := ask (FinishRun (rec run)) in
  let# _ := match written with
    | Ok _ => ret tt
    | Err e =>
        let msg := "the run record could not be written: " +:+ RunStoreError.display e in
        let# _ := edit (fun r => r <| steps := steps r ++
          [{| sn_step := "finish"; sn_at := run_finished_at r; sn_note := msg |}] |>) in
        alert ctx AlertCode.RunFailed AlertSeverity.Critical msg "failed:record"
    end in
  let# run := get in
  ret (rec run).

(** ** The run *)

Definition execute : may_stop unit :=
  let#? _ := step_venue_policy ctx in
  let#? _ := step_kill_flag ctx in
  let#? _ := step_mandate ctx in
  let#? _ := step_decisions ctx in
  let#? _ := step_read_account ctx in
  let#? _ := step_halted_check ctx in
  let#? _ := step_cleanup ctx in
  let#? _ := step_recon_pre ctx in
  let#? _ := step_risk ctx in
  let#? targets := step_targets ctx in
  let#? p := step_plan ctx targets in
  let#? _ := step_execute ctx targets p in
  let#? _ := step_recon_post in
  let# _ := step_assess in
  go_on tt.

Definition key_of_run : RunKey := run_key_new (cx_account ctx) (cx_scheduled_for ctx) (sp_id <$> cx_sleeves ctx).

Definition new_record (started : DateTime) : RunRecord :=
  {| run_key := key_of_run; run_mode := cx_mode ctx; attempt := 1; run_day := cx_day ctx;
     run_scheduled_for := cx_scheduled_for ctx; run_started_at := started; run_finished_at := started;
     run_outcome := {| oc_kind := OutcomeKind.Completed; oc_code := RunCode.as_str RunCode.Completed; oc_message := EmptyString |};
     mandate_hash := EmptyString; mandate_version := None; mandate_standing := "none"; run_deployment_digest := None;
     data_fingerprints := []; pre_snapshot := None; post_snapshot := None; run_recon := []; state_before := None;
     state_after := None; transitions := []; run_risk := None; decisions := []; run_targets := []; run_plan := None;
     replan := None; tickets := []; placed := []; run_cleanup := []; run_flatten := None; alerts := [];
     alert_delivery_failures := []; steps := [] |}.

Definition new_run (started : DateTime) (c : option EvalCache) : Run :=
  {| rec := new_record started; st := new_state (cx_account ctx); snapshot := None; policy := None; risk_policy := None;
     known_ids := []; pre_baseline := None; applied_ids := []; pending := []; all_carried := false; buys_paused := None;
     paused_tickets := []; cache := c |}.

(** The record as it stands, finished but not persisted. *)
Definition leave : rstep RunRecord :=
  let# at_ := now_ in
  let# _ := edit (fun r => r <| run_finished_at := at_ |>) in
  let# run := get in
  ret (rec run).

Definition set_outcome (kind : OutcomeKind) (code : RunCode.t) (message : string) : rstep unit :=
  edit (fun r => r <| run_outcome := {| oc_kind := kind; oc_code := RunCode.as_str code; oc_message := message |} |>).

Definition run_steps (started : DateTime) : rstep RunRecord :=
  let# begun := ask (BeginRun key_of_run (cx_day ctx) started (lease_secs cfg)) in
  match begun with
  | Ok (Started n) =>
      let# _ := edit (fun r => r <| attempt := n |>) in
      let# _ := note "acquire_run_key" ("attempt " +:+ show_int n) in
      let# _ := execute in
      finish_run
  | Ok (AlreadyDone first) => ret first
  | Ok (Busy at_) =>
      let# _ := note "acquire_run_key" ("another attempt started at " +:+ dt_display at_ +:+ " still holds the lease") in
      let# _ := set_outcome OutcomeKind.Refused RunCode.Busy "the run key is in progress" in
      leave
  | Err e =>
      let# _ := note "acquire_run_key" ("run store failed: " +:+ RunStoreError.display e) in
      let# _ := set_outcome OutcomeKind.FailedClosed RunCode.StoreUnavailable (RunStoreError.display e) in
      let# _ := alert ctx AlertCode.RunFailed AlertSeverity.Critical
        ("the run store is unavailable: " +:+ RunStoreError.display e +:+ "; nothing was traded") "failed:store" in
      leave
  end.

(** The record of the run, and the memo of the tick after it. *)
Definition run_once (c : option EvalCache) : prog run_call (RunRecord * option EvalCache) :=
  Do (BrokerCall Now) (fun started =>
    prog_bind (run_steps started (new_run started c)) (fun x => Ret (x.1, cache x.2))).
End run.
