(* ===== verification/RunRules.v ===== *)
(** * RunRules: what a run may do, and when

    A watcher of the calls of a run, the discipline they keep whatever the broker, the stores and the data answer, and
    the program logic in which the steps of a run are proved to keep it. *)

From Stdlib Require Import ZArith Lia String Ascii.
From stdpp Require Import relations.
From S2P Require Import Prelude Assoc Calls Text BTree F64 Externals Decimal DecMath Mandate Policy Broker Venue RiskState Overlay RiskStore View Recon Flatten FlattenFacts RiskFacts Guard Planner Data Decision Record RunStore RunCalls RunSteps RunOrders Pipeline.

Local Open Scope Z_scope.

Section discipline.
Context `{ReferenceRules} `{RustDecimal, !MandateSerde, Sha256}.
Variable ctx : RunContext.

(** ** The policy a run may plan under *)

Definition enveloped (p : Policy) : Policy := match cx_envelope ctx with Some e => with_envelope p e | None => p end.
Definition deployed (p : Policy) : Policy := match deployment (cx_config ctx) with Some d => with_deployment p d | None => p end.

(** The mandate's compiled policy with its envelope and the deployment's limits; a draft counts as active in a
    rehearsal, never in live mode. *)
Definition admitted (p : Policy) : Prop :=
  ∃ b, cx_mandate ctx = Some b ∧
    let q := deployed (enveloped (with_max_price_age_secs (compile b) (cf_max_price_age_secs (cx_config ctx)))) in
    (p = q ∧ ∃ at_, standing q at_ = Standing.Active ∨ standing q at_ = Standing.Expired) ∨
    (live ctx = false ∧ ∃ e, cx_envelope ctx = Some e ∧ env_status e = MandateStatus.Draft ∧ p = with_envelope q (active_copy e)).

(** ** The watcher *)

(** What the calls so far say: the kill flag was read unset; the account state on record; the last tag found unused and
    the intent journaled for it since; the last snapshot and prices; whether a sell was sent since the snapshot. *)
Record Watcher := {
  armed : bool;
  acct : AccountState;
  cleared : option string;
  intent : option string;
  seen : option BrokerSnapshot;
  quoted : option (BTreeMap string PricePoint);
  sold : bool;
}.

#[export] Instance watcher_eta : Eta Watcher := fun w =>
  {| armed := armed w; acct := acct w; cleared := cleared w; intent := intent w; seen := seen w; quoted := quoted w;
     sold := sold w |}.

Definition watcher_start : Watcher :=
  {| armed := false; acct := new_state (cx_account ctx); cleared := None; intent := None; seen := None; quoted := None;
     sold := false |}.

Definition watch_broker (w : Watcher) {B} (c : Flatten.call B) : B → Watcher :=
  match c in Flatten.call B' return B' → Watcher with
  | Snapshot _ => fun r => w <| seen := ok r |> <| sold := false |>
  | FindByTag t => fun r => w <| cleared := match r with Ok [] => Some t | _ => None end |> <| intent := None |>
  | Place req => fun _ =>
      w <| cleared := None |> <| intent := None |> <| sold := sold w || bool_decide (req_side req = Sell) |>
  | _ => fun _ => w
  end.

Definition watch_run (w : Watcher) (B : Type) (c : run_call B) : B → Watcher :=
  match c in run_call B' return B' → Watcher with
  | BrokerCall c => watch_broker w c
  | PricesOf _ _ => fun r => w <| quoted := ok r |>
  | LoadState _ => fun r => match r with Ok o => w <| acct := default (new_state (cx_account ctx)) o |> | Err _ => w end
  | SaveState _ _ => fun r => match r with Ok s => w <| acct := s |> | Err _ => w end
  | JournalOrder k e => fun r =>
      match r, j_broker_order_id e with
      | Ok _, None => w <| intent := if bool_decide (k = key_of_run ctx) then Some (j_tag e) else None |>
      | _, _ => w
      end
  | KillFlagIsSet => fun r => w <| armed := match r with Ok false => true | _ => false end |>
  | _ => fun _ => w
  end.

(** ** The discipline *)

(** [p] was planned on the last snapshot and prices, under an admitted policy, at the account's risk scale. *)
Definition planned_on (w : Watcher) (credit : bool) (p : OrderPlan) : Prop :=
  ∃ snap prices targets at_ day pol, seen w = Some snap ∧ quoted w = Some prices ∧ admitted pol ∧
    Planner.plan targets (account_view snap (cx_account ctx) (AccountStatus.is_halt (status (acct w))) at_) prices
      (cx_rules ctx) pol (plan_config ctx (RiskState.risk_scale (acct w)) day credit) = Ok p.

(** An order of the run: its tag is known to be unused and, when real, its intent is journaled; it is an order of a
    plan on the last snapshot; real buys come from a plan on an account read after the sells. *)
Definition run_order (w : Watcher) (req : OrderRequest) : Prop :=
  AccountStatus.may_add_risk (status (acct w)) = true ∧ cleared w = Some (req_tag req) ∧
  ∃ p o credit, planned_on w credit p ∧ o ∈ Planner.orders p ∧ req = order_request o (negb (live ctx)) ∧
    match cx_mode ctx with
    | ExecutionMode.Assisted => False
    | ExecutionMode.Paper => req_validate_only req = true
    | ExecutionMode.Live => intent w = Some (req_tag req) ∧ (p_side o = Buy → sold w = false ∧ credit = false)
    end.

(** The instruments of the mandate, which is all a flatten may touch. *)
Definition mandate_universe (b : MandateBody) : BTreeSet string := match limits (compile b) with Some l => l_instrument_allow l | None => [] end.

(** An order of a flatten over the instruments [u]: a market order under a flatten tag that reduces a position of the
    last snapshot and is no larger than it; no cover after a sell. *)
Definition reducing_order (u : BTreeSet string) (seen : option BrokerSnapshot) (sold : bool) (req : OrderRequest) : Prop :=
  (∃ fs s, Flatten.universe fs = u ∧ seen = Some s ∧ reduces fs s (req_side req) (req_symbol req) (req_quantity req)) ∧
  req_kind req = Market ∧ starts_with (req_tag req) FLATTEN_TAG_PREFIX = true ∧ (req_side req = Buy → sold = false).

(** An order of the flatten: only in live mode, of an account that is halting, inside the mandate's instruments. *)
Definition flatten_order (w : Watcher) (req : OrderRequest) : Prop :=
  live ctx = true ∧ AccountStatus.is_halt (status (acct w)) = true ∧
  ∃ b, cx_mandate ctx = Some b ∧ reducing_order (mandate_universe b) (seen w) (sold w) req.

Definition broker_allowed (w : Watcher) {B} (c : Flatten.call B) : Prop :=
  match c with
  | Now | SleepSecs _ => True
  | Snapshot _ | OpenOrders | FindByTag _ => armed w = true
  | GetOrder _ | CancelAndSettle _ => armed w = true ∧ cx_mode ctx ≠ ExecutionMode.Assisted
  | Place req => armed w = true ∧ (run_order w req ∨ flatten_order w req)
  end.

(** A record that counts a decision as acted is of a run that completed and carried out all it planned. *)
Definition honest_record (r : RunRecord) : Prop :=
  run_key r = key_of_run ctx ∧
  ((∃ d, d ∈ decisions r ∧ acted d = true) →
     run_outcome r = {| oc_kind := OutcomeKind.Completed; oc_code := RunCode.as_str RunCode.Completed;
                        oc_message := ExecutionMode.as_str (cx_mode ctx) +:+ " run completed" |} ∧
     is_some (run_plan r) = true ∧ (∃ paused, shortfalls r paused = []) ∧
     ∀ d, d ∈ decisions r → acted d = true → planned d = true).

Definition run_allowed (w : Watcher) (B : Type) (c : run_call B) : Prop :=
  match c with
  | BrokerCall c => broker_allowed w c
  | FinishRun r => honest_record r
  | SaveState v next => v = version (acct w) ∧ rtc auto_step (acct w) next
  | _ => True
  end.

(** Answers: decimals are well formed, and a store that saved a state stored that state. *)
Definition well_formed_answer {B} (c : Flatten.call B) : B → Prop :=
  match c in Flatten.call B' return B' → Prop with
  | Snapshot _ => fun r => ∀ s, r = Ok s → snapshot_ok s ∧ dec_ok (s_equity s)
  | GetOrder id => well_typed _ (GetOrder id)
  | CancelAndSettle id => well_typed _ (CancelAndSettle id)
  | _ => fun _ => True
  end.

Lemma well_formed_typed {B} (c : Flatten.call B) b : well_formed_answer c b → well_typed B c b.
Proof. destruct c; simpl; try done. intros Hs s E. by destruct (Hs s E). Qed.

Definition run_plausible (B : Type) (c : run_call B) : B → Prop :=
  match c in run_call B' return B' → Prop with
  | BrokerCall c => well_formed_answer c
  | SaveState _ next => fun r => ∀ s, r = Ok s → ∃ v, s = with_version next v
  | _ => fun _ => True
  end.

Definition run_discipline : protocol run_call :=
  {| Calls.ghost := Watcher; Calls.allowed := run_allowed; Calls.observe := watch_run; Calls.plausible := run_plausible |}.
End discipline.


(** ** Compiled risk policies are well formed *)

Lemma ratio_down_ok v d : ratio_down v = Ok d → dec_ok d.
Proof. unfold ratio_down. rewrite map_err_ok. apply ratio_to_dec_ok. Qed.

Lemma policy_new_eq d rs rec p : policy_new d rs rec = Ok p → daily_limit p = d ∧ rungs p = rs ∧ recovery_fraction p = rec.
Proof.
  unfold policy_new. destruct (negb _); [done|]. destruct (negb _); [done|]. destruct rs; [done|].
  rewrite bind_ok. by intros (u & _ & [= <-]).
Qed.

(** A compiled risk policy is well formed. *)
Lemma from_mandate_ok `{Chrono, RustDecimal} b rec p : dec_ok rec → from_mandate_with_recovery b rec = Ok p → risk_policy_ok p.
Proof.
  intros Hrec. unfold from_mandate_with_recovery. destruct (Mandate.validate b); [|done]. rewrite bind_ok. intros (rs & Hrs & Hp).
  rewrite bind_ok in Hp. destruct Hp as (d & Hd & Hp). apply ratio_down_ok in Hd.
  pose proof (policy_new_eq _ _ _ _ Hp) as (E1 & E2 & E3).
  assert (∀ r, r ∈ rs → dec_ok (r_at_ r) ∧ ∀ s, r_action r = RungAction.Shrink s → dec_ok s) as Hr.
  { rewrite try_map_ok in Hrs. intros r Hin. apply list_elem_of_lookup in Hin as [i Hi].
    destruct (Forall2_lookup_r _ _ _ _ _ Hrs Hi) as (x & _ & Hx). unfold rung_from in Hx. rewrite bind_ok in Hx.
    destruct Hx as (a & Ha & Hx). rewrite bind_ok in Hx. destruct Hx as (t & Ht & [= <-]). apply ratio_down_ok in Ht.
    split; [done|]. simpl. intros s ->. destruct (rung_action x); [|done]. rewrite bind_ok in Ha. destruct Ha as (f & _ & Ha).
    rewrite bind_ok in Ha. destruct Ha as (d' & Hd' & [= <-]). by apply ratio_down_ok in Hd'. }
  constructor; rewrite ?E1, ?E2, ?E3; [exact Hd|exact Hrec| | |exact Hp].
  - intros r Hin. exact (proj1 (Hr r Hin)).
  - intros r s Hin. exact (proj2 (Hr r Hin) s).
Qed.

(** ** The parts of a run the discipline depends on *)

Section logic.
Context `{ReferenceRules} `{RustDecimal, !MandateSerde, Sha256}.
Variable ctx : RunContext.

Record Core := {
  c_key : RunKey;
  c_st : AccountState;
  c_policy : option Policy;
  c_risk : option RiskPolicy;
  c_snapshot : option BrokerSnapshot;
  c_carried : bool;
  c_planned : bool;
}.

Definition core (r : Run) : Core :=
  {| c_key := run_key (rec r); c_st := st r; c_policy := policy r; c_risk := risk_policy r; c_snapshot := snapshot r; c_carried := all_carried r;
     c_planned := is_some (run_plan (rec r)) |}.

Abbreviation rules := (run_discipline ctx).
Definition assertion : Type := Core → Watcher → Prop.

(** [spec J m Q]: from [J], [m] keeps the discipline and ends in [Q]. *)
Definition spec {A} (J : assertion) (m : rstep A) (Q : A → assertion) : Prop :=
  triple rules (λ r g, J (core r) g) m (λ a r g, Q a (core r) g).

(** True all along a run: the key is the run's, nothing counts as carried out, the policies are well formed and the
    mandate's. *)
Definition base : assertion := λ c _,
  c_key c = key_of_run ctx ∧ c_carried c = false ∧
  (∀ p, c_policy c = Some p → admitted ctx p) ∧ (∀ p, c_risk c = Some p → risk_policy_ok p).

(** The end of a step that may stop. *)
Definition goes {A} (Q : A → assertion) (o : option A) : assertion :=
  match o with Some a => Q a | None => base end.

Class Sound (J : assertion) : Prop := sound : ∀ c g, J c g → base c g.

#[export] Instance base_sound : Sound base.
Proof. by intros c g Hb. Qed.

Definition both (J X : assertion) : assertion := λ c g, J c g ∧ X c g.

#[export] Instance both_sound J X `{!Sound J} : Sound (both J X).
Proof. intros c g [HJ _]. by apply sound. Qed.

Lemma spec_conseq {A} (m : rstep A) (J J' : assertion) (Q Q' : A → assertion) : spec J' m Q' →
  (∀ c g, J c g → J' c g) → (∀ a c g, Q' a c g → Q a c g) → spec J m Q.
Proof. intros Hm HJ HQ. eapply triple_conseq; [exact Hm|intros r g; apply HJ|intros a r g; apply HQ]. Qed.

Lemma spec_pre {A} (m : rstep A) (J J' : assertion) (Q : A → assertion) : spec J' m Q → (∀ c g, J c g → J' c g) → spec J m Q.
Proof. intros Hm HJ. by eapply spec_conseq. Qed.

Lemma spec_bind {A B} (m : rstep A) (k : A → rstep B) J (M : A → assertion) Q :
  spec J m M → (∀ a, spec (M a) (k a) Q) → spec J (step_bind m k) Q.
Proof. apply triple_bind. Qed.

Lemma spec_then {A B} (m : rstep A) (k : A → rstep B) J J' Q :
  spec J m (λ _, J') → (∀ a, spec J' (k a) Q) → spec J (step_bind m k) Q.
Proof. apply spec_bind. Qed.

Lemma spec_ret {A} (a : A) (J : assertion) (Q : A → assertion) : (∀ c g, J c g → Q a c g) → spec J (ret a) Q.
Proof. intros HQ r g HJ. by apply HQ. Qed.

Lemma spec_go_on {A} (a : A) (J : assertion) (Q : A → assertion) : (∀ c g, J c g → Q a c g) → spec J (go_on a) (goes Q).
Proof. intros HQ r g HJ. by apply HQ. Qed.

Lemma spec_bind_may {A B} (m : may_stop A) (k : A → may_stop B) J (M : A → assertion) Q :
  spec J m (goes M) → (∀ a, spec (M a) (k a) (goes Q)) →
  spec J (step_bind m (fun o => match o with Some x => k x | None => ret None end)) (goes Q).
Proof. intros Hm Hk. eapply spec_bind; [done|]. intros [a|]; [apply Hk|]. by apply spec_ret. Qed.

(** What a precondition says of values alone is a hypothesis. *)
Lemma spec_pure {A} (F : Prop) (m : rstep A) J Q : (∀ c g, J c g → F) → (F → spec J m Q) → spec J m Q.
Proof. intros HF Hm r g HJ. apply Hm; [by eapply HF|done]. Qed.

Lemma spec_get J : spec J get (λ r, both J (λ c _, c = core r)).
Proof. by intros r g HJ. Qed.

Lemma spec_have {A} (f : Run → option A) J Q : (∀ r g a, f r = Some a → J (core r) g → Q a (core r) g) →
  Sound J → spec J (have f) (goes Q).
Proof.
  intros Hf Hs r g HJ. change (goes Q (f r) (core r) g). destruct (f r) as [a|] eqn:E; [by apply Hf|by apply (sound (J := J))].
Qed.

Lemma spec_modify h J Q : (∀ r g, J (core r) g → Q tt (core (h r)) g) → spec J (modify h) Q.
Proof. intros Hh r g HJ. by apply Hh. Qed.

(** Changes that leave the core alone keep every assertion. *)
Lemma spec_modify_same h J : (∀ r, core (h r) = core r) → spec J (modify h) (λ _, J).
Proof. intros Hh r g HJ. change (J (core (h r)) g). by rewrite Hh. Qed.

Lemma spec_edit f J : (∀ r, run_key (f r) = run_key r) → (∀ r, is_some (run_plan (f r)) = is_some (run_plan r)) →
  spec J (edit f) (λ _, J).
Proof. intros Hk Hp. apply spec_modify_same. intros r. unfold core. simpl. by rewrite Hk, Hp. Qed.

Lemma spec_ask {B} (c : run_call B) J Q : (∀ k g, J k g → run_allowed ctx g B c) →
  (∀ k g b, J k g → run_plausible B c b → Q b k (watch_run ctx g B c b)) → spec J (ask c) Q.
Proof.
  intros Ha Hq. apply triple_ask.
  - intros r g HJ. by apply (Ha (core r)).
  - intros r g b HJ Hb. by apply Hq.
Qed.

Lemma spec_for_each {A} (m : A → rstep unit) l J : (∀ x, x ∈ l → spec J (m x) (λ _, J)) → spec J (for_each m l) (λ _, J).
Proof. intros Hm. by apply (triple_for_each rules m l (λ r g, J (core r) g)). Qed.

(** Calls that are always allowed and tell the watcher nothing. *)
Lemma spec_ask_quiet {B} (c : run_call B) J : (∀ g, run_allowed ctx g B c) → (∀ g b, watch_run ctx g B c b = g) →
  spec J (ask c) (λ _, J).
Proof. intros Ha Hw. apply spec_ask; [intros; apply Ha|]. intros k g b HJ _. by rewrite Hw. Qed.

(** ** The small steps *)

Lemma spec_now J : spec J now_ (λ _, J).
Proof. by apply spec_ask_quiet. Qed.

Lemma spec_note step text J : spec J (note step text) (λ _, J).
Proof. eapply spec_bind; [apply spec_now|]. intros at_. by apply spec_edit. Qed.

Lemma spec_alert code severity message dedupe J : spec J (alert ctx code severity message dedupe) (λ _, J).
Proof.
  unfold alert. eapply spec_bind; [apply spec_get|]. intros run. eapply spec_pre; [|by intros c g [HJ _]].
  eapply spec_bind; [apply spec_now|]. intros at_. eapply spec_bind; [by apply spec_ask_quiet|]. intros sent.
  eapply spec_then; [|intros []; by apply (spec_edit _ J)]. destruct sent; [by apply spec_ret|by apply spec_edit].
Qed.

Lemma spec_stop {A} kind code message J (Q : A → assertion) `{!Sound J} : spec J (stop kind code message) (goes Q).
Proof. eapply spec_bind; [by apply (spec_edit _ J)|]. intros []. apply spec_ret. apply sound. Qed.

Lemma spec_fail_closed {A} code message J (Q : A → assertion) `{!Sound J} : spec J (fail_closed ctx code message) (goes Q).
Proof. eapply spec_bind; [apply spec_alert|]. intros []. by apply spec_stop. Qed.

Lemma spec_push_transition t J : spec J (push_transition t) (λ _, J).
Proof. destruct t; [by apply spec_edit|by apply spec_ret]. Qed.

Lemma spec_know_ids ids J : spec J (know_ids ids) (λ _, J).
Proof. by apply spec_modify_same. Qed.
End logic.
