(* ===== verification/RunFacts.v ===== *)
(** * RunFacts: the steps that read

    The steps of crates/rebalancer-run/src/pipeline.rs before the first reconciliation, in the logic of RunRules. *)

From Stdlib Require Import ZArith Lia String Ascii.
From stdpp Require Import relations.
From S2P Require Import Prelude Assoc Calls Text BTree F64 Externals Decimal DecMath Mandate Policy Broker Venue RiskState Overlay RiskStore View Recon Flatten FlattenFacts RiskFacts Guard Planner Data Decision Record RunStore RunCalls RunSteps RunOrders Pipeline RunRules.

Local Open Scope Z_scope.

(** One small step of a sequence, which keeps the assertion. *)
Ltac quiet :=
  lazymatch goal with
  | |- spec _ _ (step_bind (note _ _) _) _ => eapply spec_then; [apply spec_note|intros []]
  | |- spec _ _ (step_bind (alert _ _ _ _ _) _) _ => eapply spec_then; [apply spec_alert|intros []]
  | |- spec _ _ (step_bind (push_transition _) _) _ => eapply spec_then; [apply spec_push_transition|intros []]
  | |- spec _ _ (step_bind (know_ids _) _) _ => eapply spec_then; [apply spec_know_ids|intros []]
  | |- spec _ _ (step_bind now_ _) _ => eapply spec_then; [apply spec_now|intros ?at_]
  | |- spec _ ?J (step_bind (edit _) _) _ => eapply spec_then; [by apply (spec_edit _ _ J)|intros []]
  | |- spec _ ?J (step_bind (modify _) _) _ => eapply spec_then; [by apply (spec_modify_same _ _ J)|intros []]
  | |- spec _ ?J (step_bind (ask _) _) _ => eapply spec_then; [by apply (spec_ask_quiet _ _ J)|intros ?b]
  | |- spec _ ?J (step_bind (go_on _) _) _ => eapply spec_bind_may; [by apply spec_go_on|intros ?a]
  | |- spec _ _ (stop _ _ _) (goes _ _) => apply spec_stop; apply _
  | |- spec _ _ (fail_closed _ _ _) (goes _ _) => apply spec_fail_closed; apply _
  end.

Section facts.
Context `{ReferenceRules} `{RustDecimal, !MandateSerde, Sha256}.
Variable ctx : RunContext.

Abbreviation spec := (spec ctx).
Abbreviation goes := (goes ctx).
Abbreviation base := (base ctx).

(** ** The assertions of the stages *)

(** The kill flag was read unset. *)
Definition started : assertion := both base (λ _ g, armed g = true).

(** The state at hand is the account's. *)
Definition ready : assertion := both started (λ c g, acct g = c_st c).

(** The snapshot at hand is the last one read. *)
Definition seeing : assertion := both ready (λ c g, c_snapshot c = seen g ∧ ∀ s, seen g = Some s → dec_ok (s_equity s)).

Lemma ready_started c g : ready c g → started c g.
Proof. by intros []. Qed.
Lemma seeing_ready c g : seeing c g → ready c g.
Proof. by intros []. Qed.

(** ** Up to the account *)

Lemma venue_policy_spec : spec base (step_venue_policy ctx) (goes (λ _, base)).
Proof.
  unfold step_venue_policy. destruct (venue_policy _); [by apply spec_go_on|].
  destruct (bool_decide _); repeat quiet. by apply spec_go_on.
Qed.

Lemma kill_flag_spec : spec base (step_kill_flag ctx) (goes (λ _, started)).
Proof.
  eapply (spec_bind _ _ _ _ (λ f, both base (λ _ g, f = Ok false → armed g = true))).
  { apply spec_ask; [done|]. intros k g b Hb _. split; [done|]. by intros ->. }
  intros [[]|e]; repeat quiet. apply spec_go_on. intros c g [Hb Ha]. split; [done|by apply Ha].
Qed.

Lemma admit_standing_spec p at_ b : cx_mandate ctx = Some b →
  p = deployed ctx (enveloped ctx (with_max_price_age_secs (compile b) (cf_max_price_age_secs (cx_config ctx)))) →
  spec started (admit_standing ctx p (standing p at_)) (goes (λ q, both started (λ _ _, admitted ctx q))).
Proof.
  intros Hm Hp. unfold admit_standing. destruct (standing p at_) as [| |why|] eqn:Es; repeat quiet.
  1, 2: apply spec_go_on; intros c g Hs; split; [done|]; exists b; split; [done|]; left; split; [done|]; exists at_; rewrite <- Hp; auto.
  destruct (cx_envelope ctx) as [env|] eqn:Ee; [|by repeat quiet]. destruct (negb _ && _) eqn:Ed; repeat quiet.
  apply andb_true_iff in Ed as [Hl Hd]. apply bool_decide_eq_true in Hd. apply negb_true_iff in Hl.
  apply spec_go_on. intros c g Hs. split; [done|]. exists b. split; [done|]. right. split; [done|]. exists env. by rewrite Hp.
Qed.

(** The policy the run goes on with is an admitted one. *)
Lemma mandate_spec : dec_ok (cf_recovery_fraction (cx_config ctx)) → spec started (step_mandate ctx) (goes (λ _, started)).
Proof.
  intros Hrec. unfold step_mandate. destruct (cx_mandate ctx) as [b|] eqn:Em; repeat quiet.
  set (p := with_max_price_age_secs _ _). apply (spec_bind _ _ _ _ (λ q, both started (λ _ _, q = enveloped ctx p))).
  { unfold enveloped. destruct (cx_envelope ctx); repeat quiet; by apply spec_ret. }
  intros q. apply spec_pure with (F := q = enveloped ctx p); [by intros c g []|]. intros ->.
  eapply spec_pre; [|intros c g [Hs _]; exact Hs].
  apply (spec_bind _ _ _ _ (λ q, both started (λ _ _, q = deployed ctx (enveloped ctx p)))).
  { unfold deployed. destruct (deployment _); repeat quiet; by apply spec_ret. }
  intros q. apply spec_pure with (F := q = deployed ctx (enveloped ctx p)); [by intros c g []|]. intros Hq.
  eapply spec_pre; [|intros c g [Hs _]; exact Hs]. quiet.
  eapply spec_bind_may; [by eapply admit_standing_spec|]. intros r. destruct (from_mandate_with_recovery _ _) as [rp|] eqn:Erp; repeat quiet.
  apply (spec_then _ _ _ _ started); [|intros []; by apply spec_go_on]. apply spec_modify. intros run g [[(Hk & Hc & _) Ha] Hr].
  split; [|done]. split_and!; [done|done| |]; intros p' [= <-]; [done|]. by apply (from_mandate_ok b (cf_recovery_fraction (cx_config ctx))).
Qed.

(** ** Decisions: the data calls tell the watcher nothing *)

Lemma data_calls {A} (p : prog data_call A) g : always (run_discipline ctx) (embed (fun B c => DataCall c) p) g (λ _ g', g' = g).
Proof. revert g. induction p as [a|B c k IH]; intros g; simpl; [done|]. split; [done|]. intros b _. apply IH. Qed.

Lemma evaluate_spec s day J : spec J (evaluate_sleeve s day) (λ _, J).
Proof. intros r g HJ. apply always_bind. eapply always_mono; [apply data_calls|]. by intros a g' ->. Qed.

Lemma acted_on_spec s J `{!Sound ctx J} : spec J (acted_on ctx s) (goes (λ _, J)).
Proof.
  unfold acted_on. destruct (cadence_of _); [by apply spec_go_on|]. quiet. destruct b as [v|[]]; repeat quiet; by apply spec_go_on.
Qed.

Lemma note_gate_spec s e J : spec J (note_gate ctx s e) (λ _, J).
Proof.
  unfold note_gate. destruct (data_gate e); [|by apply spec_ret]. quiet. apply spec_for_each. intros x _. apply spec_alert.
Qed.

Lemma decide_one_spec i s J `{!Sound ctx J} : spec J (decide_one ctx i s) (goes (λ _, J)).
Proof.
  unfold decide_one. apply (spec_bind_may _ _ _ _ (λ _, J)).
  { unfold evaluated. eapply spec_then; [apply evaluate_spec|]. intros [e|[]]; repeat quiet; by apply spec_go_on. }
  intros e. quiet. eapply spec_bind_may; [by apply acted_on_spec|]. intros last. simpl.
  eapply spec_then; [|intros []].
  { destruct (_ && _); [apply spec_note|by apply spec_ret]. }
  eapply spec_then; [apply note_gate_spec|intros []]. quiet.
  eapply spec_then; [|intros []; by apply spec_go_on]. apply (spec_modify_same _ _ J). intros r. by destruct (_ && _).
Qed.

Lemma decide_all_spec i l J `{!Sound ctx J} : spec J (decide_all ctx i l) (goes (λ _, J)).
Proof.
  revert i. induction l as [|s l IH]; intros i; [by apply spec_go_on|]. simpl.
  eapply spec_bind_may; [by apply decide_one_spec|]. intros []. apply IH.
Qed.

(** A loaded state is the account's for the watcher; nothing else changes. *)
Lemma load_spec : spec started (ask (LoadState (cx_account ctx)))
  (λ r, both started (λ _ g, ∀ o, r = Ok o → acct g = default (new_state (cx_account ctx)) o)).
Proof. apply spec_ask; [done|]. intros k g [o|e] [[Hk Hp] Ha] _; (split; [done|]); by intros ? [= <-]. Qed.

Lemma set_state_spec s : spec (both started (λ _ g, acct g = s)) (modify (fun run => run <| st := s |>)) (λ _, ready).
Proof. by apply spec_modify. Qed.

Lemma decisions_spec : spec started (step_decisions ctx) (goes (λ _, started)).
Proof.
  unfold step_decisions. eapply spec_bind_may; [apply decide_all_spec; apply _|]. intros [].
  eapply spec_bind; [apply spec_get|]. intros run. eapply spec_pre; [|intros c g [Hs _]; exact Hs].
  destruct (cx_sleeves ctx), (pending run); repeat quiet; try by apply spec_go_on.
  eapply spec_bind; [apply load_spec|]. intros [[s'|]|e]; try (eapply spec_pre; [|intros c g [Hs _]; exact Hs]; repeat quiet; by apply spec_go_on).
  destruct (AccountStatus.may_add_risk _).
  2: { eapply spec_pre; [|intros c g [Hs _]; exact Hs]; repeat quiet; by apply spec_go_on. }
  quiet. eapply spec_then.
  { eapply spec_pre; [apply set_state_spec|]. intros c g [Hs Ha]. split; [done|]. by apply (Ha (Some s')). }
  intros []. repeat quiet.
Qed.

(** ** The account *)

(** A snapshot that was read is the last one the watcher saw, with nothing sold since. *)
Lemma read_snapshot_spec step J `{!Sound ctx J} : (∀ c g, J c g → armed g = true) →
  (∀ c g o, J c g → J c (g <| seen := o |> <| sold := false |>)) →
  spec J (read_snapshot ctx step) (goes (λ s, both J (λ _ g, seen g = Some s ∧ sold g = false ∧ dec_ok (s_equity s)))).
Proof.
  intros Harm Hstable. unfold read_snapshot. quiet.
  apply (spec_bind _ _ _ _ (λ r, both J (λ _ g, ∀ s, r = Ok s → seen g = Some s ∧ sold g = false ∧ dec_ok (s_equity s)))).
  { apply spec_ask; [intros k g; apply Harm|]. intros k g r HJ Hr. split; [by apply Hstable|]. intros s ->.
    split_and!; [done|done|]. by destruct (Hr s eq_refl). }
  intros [s|e]; repeat quiet. apply spec_go_on. intros c g [HJ Hs]. split; [done|by apply Hs].
Qed.

Lemma record_pre_spec s J : spec J (record_pre s) (λ _, J).
Proof. by apply spec_edit. Qed.

Lemma know_spec ids J : spec J (modify (fun run => run <| known_ids := ids |>)) (λ _, J).
Proof. by apply spec_modify_same. Qed.

Lemma store_failed_spec {A} e J (Q : A → assertion) `{!Sound ctx J} : spec J (store_failed ctx e) (goes Q).
Proof. unfold store_failed. by quiet. Qed.

Lemma read_account_spec : spec started (step_read_account ctx) (goes (λ _, seeing)).
Proof.
  unfold step_read_account. eapply spec_bind_may; [apply read_snapshot_spec; [apply _|by intros c g []|by intros c g o []]|].
  intros s. eapply spec_then; [apply record_pre_spec|intros []]. quiet.
  set (saw := (λ c g, c_snapshot c = Some s ∧ seen g = Some s ∧ dec_ok (s_equity s)) : assertion).
  apply (spec_then _ _ _ _ (both started saw)); [apply spec_modify; by intros r g (Hs & Hg & _ & He)|intros []].
  apply (spec_bind _ _ _ _ (λ r, both (both started saw) (λ _ g, ∀ o, r = Ok o → acct g = default (new_state (cx_account ctx)) o))).
  { apply spec_ask; [intros k g Hs; exact I|]. intros k g [o|e] [Hs Hw] _; (split; [done|]); by intros ? [= <-]. }
  intros [o|e]; [|by repeat quiet]. apply (spec_then _ _ _ _ seeing); [|intros []].
  { apply spec_modify. intros r g ((Hs & Hc & Hg & He) & Ha). split; [split; [done|]|split].
    - by apply (Ha o).
    - simpl in *. by rewrite Hc, Hg.
    - intros s' Hs'. rewrite Hg in Hs'. by injection Hs' as <-. }
  repeat quiet. destruct b as [ids|e]; [|by apply store_failed_spec; apply _].
  eapply spec_then; [apply know_spec|intros []]. by apply spec_go_on.
Qed.

(** The state that is saved is the account's, with the status that was asked for. *)
Lemma state_eqb_status a b : state_eqb a b = true → status a = status b.
Proof. unfold state_eqb. rewrite !andb_true_iff, !bool_decide_eq_true. tauto. Qed.

Lemma save_state_spec next J `{!Sound ctx J} : (∀ c g, J c g → ready c g) →
  (∀ r s g, J (core r) g → J (core (r <| st := s |>)) (g <| acct := s |>)) →
  spec (both J (λ c _, rtc auto_step (c_st c) next)) (save_state ctx next) (goes (λ _, both J (λ c _, status (c_st c) = status next))).
Proof.
  intros Hready Hstable. unfold save_state. eapply spec_bind; [apply spec_get|]. intros run. destruct (state_eqb _ _) eqn:Eq.
  { apply state_eqb_status in Eq. apply spec_go_on. intros c g [[HJ _] ->]. by split. }
  apply (spec_bind _ _ _ _ (λ a c g, ∃ g0 r0, c = core r0 ∧ J c g0 ∧ match a with
    | Ok s => g = g0 <| acct := s |> ∧ status s = status next | Err _ => g = g0 end)).
  { apply spec_ask.
    { intros c g [[HJ Hst] ->]. destruct (Hready _ _ HJ) as [_ Ha]. simpl. by rewrite Ha. }
    intros c g a [[HJ _] Hc] Ha. exists g, run. split_and!; try done. destruct a as [s|e]; [|done].
    split; [done|]. by destruct (Ha s eq_refl) as [v ->]. }
  intros [s|e].
  - apply (spec_then _ _ _ _ (both J (λ c _, status (c_st c) = status next))); [|intros []; by apply spec_go_on].
    apply spec_modify. intros r g (g0 & r0 & Hc & HJ & -> & Hs). split; [by apply Hstable|done].
  - apply spec_pre with (J' := J); [|by intros c g (g0 & r0 & _ & HJ & ->)]. destruct e; by quiet.
Qed.

Lemma ready_saves r s g : ready (core r) g → ready (core (r <| st := s |>)) (g <| acct := s |>).
Proof. by intros [Hs _]. Qed.

Lemma halt_reconciliation_spec {A} detail J (Q : A → assertion) : (∀ c g, J c g → ready c g) →
  spec J (halt_reconciliation ctx detail) (goes Q).
Proof.
  intros Hready. eapply spec_pre; [|exact Hready]. unfold halt_reconciliation. quiet. eapply spec_bind; [apply spec_get|]. intros run.
  destruct (halt _ _ _ _) as [next tr] eqn:Eh. quiet. eapply spec_bind_may.
  { eapply spec_pre; [apply (save_state_spec next ready); [done|apply ready_saves]|].
    intros c g [HJ ->]. split; [exact HJ|]. simpl. apply rtc_once. pose proof (auto_halt (st run) HaltReason.Reconciliation detail at_) as Ha.
    by rewrite Eh in Ha. }
  intros []. repeat quiet.
Qed.

(** ** The flatten and the cleanup *)

(** The account is halting. *)
Definition halting : assertion := both ready (λ c g, AccountStatus.is_halt (status (c_st c)) = true).

(** Envelopes, ages and deployment limits leave the instruments of a mandate alone. *)
Lemma deployed_universe p l : limits (deployed ctx p) = Some l → ∃ l0, limits p = Some l0 ∧ l_instrument_allow l = l_instrument_allow l0.
Proof.
  unfold deployed, with_deployment, limits. destruct (deployment _) as [dl|]; [|intros Hl; by exists l].
  destruct (body p) as [l0|e] eqn:Eb; simpl; [|by rewrite Eb]. intros [= <-]. by exists l0.
Qed.

Lemma enveloped_limits p : limits (enveloped ctx p) = limits p.
Proof. unfold enveloped. by destruct (cx_envelope ctx). Qed.

Lemma admitted_universe p l : admitted ctx p → limits p = Some l → ∃ b, cx_mandate ctx = Some b ∧ l_instrument_allow l = mandate_universe b.
Proof.
  intros (b & Hb & Hp) Hl. exists b. split; [done|]. set (p0 := with_max_price_age_secs _ _) in Hp.
  assert (limits (deployed ctx (enveloped ctx p0)) = Some l) as Hq by by destruct Hp as [[-> _]|(_ & e & _ & _ & ->)].
  apply deployed_universe in Hq as (l0 & Hl0 & ->). rewrite enveloped_limits in Hl0. unfold mandate_universe.
  change (limits p0) with (limits (compile b)) in Hl0. by rewrite Hl0.
Qed.

(** What the flatten may ask for, the run may ask for on its behalf; it leaves the account state alone. *)
Lemma flatten_spec_ok fs venue (X : Core → Prop) : book_ok (venue_rules fs) → live ctx = true →
  (∀ x, bs_contains (Flatten.universe fs) x = true → ∃ b, cx_mandate ctx = Some b ∧ Flatten.universe fs = mandate_universe b) →
  spec (both halting (λ c _, X c)) (call_out (fun B c => BrokerCall c) (flatten fs venue)) (λ _, both halting (λ c _, X c)).
Proof.
  intros Hrules Hlive Hu r g [Hg HX].
  assert (triple (run_discipline ctx) (λ r' g', r' = r ∧ g' = g) (call_out (fun B c => BrokerCall c) (flatten fs venue))
    (λ _ r' g', r' = r ∧ armed g' = true ∧ acct g' = acct g)) as Ht.
  2: { eapply always_mono; [by apply Ht|]. intros [a r'] g' (-> & Ha & Hacct). destruct Hg as [[[Hb _] Hc] Hh].
       split; [|exact HX]. split; [split; [split; [exact Hb|done]|]|exact Hh]. simpl. by rewrite Hacct. }
  destruct Hg as [[[_ Harm] Hacct] Hhalt].
  apply triple_call_out with (P := reducing_only fs) (g0 := watch_start) (Q := λ _ _, True)
    (R := λ g0 g', armed g' = true ∧ acct g' = acct g ∧ (last_snap g0 = None ∨ last_snap g0 = seen g' ∧ selling g0 = sold g')).
  - intros g0 g' B c (Ha & Hac & Hw) Hc. assert (cx_mode ctx ≠ ExecutionMode.Assisted) as Hm.
    { intros E. unfold live in Hlive. apply bool_decide_eq_true in Hlive. congruence. }
    destruct c; try done. split; [done|]. right. destruct Hc as (s & Hs & Hr & Hk & Ht & Hsell). split; [done|].
    split; [by rewrite Hac, Hacct|].
    destruct Hw as [Hn|[Hw1 Hw2]]; [by rewrite Hs in Hn|]. pose proof Hr as (h & _ & _ & Hin & _). destruct (Hu _ Hin) as (b & Hb & Hub).
    exists b. split; [done|]. split; [exists fs, s; by rewrite <- Hw1|]. split; [done|]. split; [done|]. by rewrite <- Hw2.
  - intros g0 g' B c b (Ha & Hac & Hw) _ Hb. split; [by apply well_formed_typed|]. destruct c; try done; simpl.
    + split; [done|]. split; [done|]. by right.
    + split; [done|]. split; [done|]. destruct Hw as [Hn|[Hw1 Hw2]]; [left; by destruct b as [[]|]|right].
      rewrite <- Hw2. by destruct b as [[]|].
    + split; [done|]. split; [done|]. by destruct b.
    + split; [done|]. split; [done|]. by destruct b.
  - by apply flatten_always.
  - intros r' g' [-> ->]. split; [done|]. split; [done|]. by left.
  - intros r' g' rep g1 g'' [-> ->] (Ha & Hac & _) _. done.
Qed.

Lemma flatten_universe run h x : (∀ p, policy run = Some p → admitted ctx p) →
  bs_contains (Flatten.universe (RunSteps.flatten_spec ctx run h)) x = true →
  ∃ b, cx_mandate ctx = Some b ∧ Flatten.universe (RunSteps.flatten_spec ctx run h) = mandate_universe b.
Proof.
  intros Hp Hx. unfold RunSteps.flatten_spec in *. simpl in *. destruct (policy run) as [p|]; [|done]. simpl in *.
  destruct (limits p) as [l|] eqn:El; [|done]. destruct (admitted_universe p l (Hp p eq_refl) El) as (b & Hb & Hu). by exists b.
Qed.

Lemma finish_flatten_spec why : book_ok (cx_rules ctx) → live ctx = true → spec halting (finish_flatten ctx why) (λ _, base).
Proof.
  intros Hrules Hlive. unfold finish_flatten. eapply spec_bind; [apply spec_get|]. intros run.
  apply spec_pure with (F := ∀ p, policy run = Some p → admitted ctx p); [by intros c g [[[[(_ & _ & Hp & _) _] _] _] ->]|].
  intros Hp. apply spec_pre with (J' := both halting (λ c _, c_st c = st run)); [|by intros c g [HJ ->]].
  destruct (halt_record _) as [h|].
  2: { apply spec_ret. by intros c g [[[[Hb _] _] _] _]. }
  eapply spec_bind; [apply (flatten_spec_ok _ _ (λ c, c_st c = st run)); [done|done|by intros x; apply flatten_universe]|]. intros report.
  repeat quiet.
  destruct (complete_flatten _ _) as [next tr] eqn:Ec.
  quiet. eapply spec_bind.
  { eapply spec_pre; [apply (save_state_spec next ready); [done|apply ready_saves]|].
    intros c g [[HJ _] Hs]. split; [exact HJ|]. rewrite Hs. apply rtc_once.
    match type of Ec with complete_flatten ?s ?flat = _ => pose proof (auto_complete_flatten s flat) as Ha end. by rewrite Ec in Ha. }
  intros [[]|]; [|by apply spec_ret].
  destruct (fr_verdict report); try (by apply spec_ret; intros c g [[[]]]).
  eapply spec_pre; [apply spec_alert|by intros c g [[[]]]].
Qed.

Lemma halted_check_spec : book_ok (cx_rules ctx) → spec seeing (step_halted_check ctx) (goes (λ _, seeing)).
Proof.
  intros Hrules. unfold step_halted_check. eapply spec_bind; [apply spec_get|]. intros run.
  destruct (status (st run)) eqn:Es; repeat quiet; try by apply spec_go_on; intros c g [].
  destruct (live ctx) eqn:El; repeat quiet. apply (spec_then _ _ _ _ base).
  { eapply spec_pre; [by apply finish_flatten_spec|]. intros c g [[Hr _] ->]. split; [done|]. simpl. by rewrite Es. }
  intros []. eapply spec_bind; [apply spec_get|]. intros run'. repeat quiet.
Qed.

(** The cleanup only lists, cancels and polls. *)
Definition cancelling : protocol Flatten.call :=
  {| Calls.ghost := unit; Calls.observe := λ _ _ _ _, tt; Calls.plausible := λ _ _ _, True;
     Calls.allowed := λ _ _ c, match c with OpenOrders | CancelAndSettle _ | GetOrder _ | SleepSecs _ => True | _ => False end |}.

Abbreviation cancels_only m := (triple cancelling (λ _ _, True) m (λ _ _ _, True)).

Lemma cancelling_bind {S A B} (m : program Flatten.call S A) (k : A → program Flatten.call S B) :
  cancels_only m → (∀ a, cancels_only (k a)) → cancels_only (step_bind m k).
Proof. apply triple_bind. Qed.

Lemma poll_cancelling fs n id : cancels_only (poll fs n id).
Proof.
  induction n as [|n IH]; [by intros ???|]. apply cancelling_bind; [by intros ???|]. intros [r|e]; [|by intros ???].
  destruct (is_terminal _); [by intros ???|]. apply cancelling_bind; [|by intros []]. destruct n; [by intros ???|by intros ???].
Qed.

Lemma settle_cancelling fs id : cancels_only (Flatten.settle fs id).
Proof.
  apply cancelling_bind; [apply poll_cancelling|]. intros [r|]; [by intros ???|].
  apply cancelling_bind; [by intros ???|]. intros [[co r]|e]; [|by intros ???].
  apply cancelling_bind; [|intros []; by intros ???]. unfold fail_when. destruct (negb _); [by intros ???|by intros ???].
Qed.

Lemma cancel_one_cancelling fs o : cancels_only (cancel_one fs o).
Proof.
  unfold cancel_one. destruct (negb _); [by intros ???|]. apply cancelling_bind; [by intros ???|].
  intros [[co r]|e].
  - apply cancelling_bind; [by intros ???|]. intros []. destruct (is_terminal _); [by intros ???|].
    apply cancelling_bind; [apply settle_cancelling|]. intros [s|e]; [|by intros ???].
    destruct (is_terminal _); by intros ???.
  - destruct e; try by intros ???. all: destruct (is_anomaly _); by intros ???.
Qed.

Lemma cleanup_cancelling known polls secs : always cancelling (cleanup known polls secs) tt (λ _ _, True).
Proof.
  unfold cleanup. apply always_bind. set (fs := Build_FlattenSpec _ _ _ _ _ _ _ _ _).
  assert (cancels_only (cancel_own_open_orders fs)) as Hc; [|by eapply always_mono; [by apply Hc|]].
  apply cancelling_bind; [by intros ???|]. intros [l|e].
  - apply cancelling_bind; [|intros []; by intros ???]. apply (triple_for_each cancelling _ _ (λ _ _, True)).
    intros o _. apply cancel_one_cancelling.
  - apply cancelling_bind; [by intros ???|]. intros []. by intros ???.
Qed.

Lemma cleanup_spec_quiet known polls secs J : live ctx = true → (∀ c g, J c g → armed g = true) →
  spec J (call_out (fun B c => BrokerCall c) (cleanup known polls secs)) (λ _, J).
Proof.
  intros Hlive Harm r g HJ.
  assert (cx_mode ctx ≠ ExecutionMode.Assisted) as Hm.
  { intros E. unfold live in Hlive. apply bool_decide_eq_true in Hlive. congruence. }
  assert (triple (run_discipline ctx) (λ r' g', r' = r ∧ g' = g) (call_out (fun B c => BrokerCall c) (cleanup known polls secs))
    (λ _ r' g', r' = r ∧ g' = g)) as Ht; [|eapply always_mono; [by apply Ht|]; simpl; by intros [a r'] g' [-> ->]].
  apply triple_call_out with (P := cancelling) (g0 := tt) (Q := λ _ _, True) (R := λ _ g', g' = g).
  - intros g0 g' B c -> Hc. specialize (Harm _ _ HJ). by destruct c.
  - intros g0 g' B c b -> Hc _. split; [done|]. by destruct c.
  - apply cleanup_cancelling.
  - by intros r' g' [_ ->].
  - by intros r' g' a g1 g'' [-> ->] ->.
Qed.

Lemma cleanup_spec : spec seeing (step_cleanup ctx) (goes (λ _, seeing)).
Proof.
  unfold step_cleanup. eapply spec_bind; [apply spec_get|]. intros run. eapply spec_pre; [|intros c g [HJ _]; exact HJ].
  destruct (live ctx) eqn:El; simpl; [|repeat quiet; by apply spec_go_on].
  destruct (negb _); [repeat quiet; by apply spec_go_on|].
  eapply spec_then; [apply cleanup_spec_quiet; [done|by intros c g [[[_ Ha] _] _]]|]. intros [[cancels failures] u]. repeat quiet.
  destruct (existsb _ _); repeat quiet. eapply spec_pre; [|apply seeing_ready].
  eapply spec_bind_may; [apply read_snapshot_spec; [apply _|by intros c g [[_ Ha] _]|by intros c g o []]|]. intros s.
  eapply spec_then; [apply record_pre_spec|intros []]. apply (spec_then _ _ _ _ seeing); [|intros []; by apply spec_go_on].
  apply spec_modify. intros r g (Hr & Hs & _ & He). split; [exact Hr|]. simpl. rewrite Hs. split; [done|]. by intros s' [= <-].
Qed.
End facts.
