(* ===== verification/RunTrade.v ===== *)
(** * RunTrade: the steps that decide and trade

    The reconciliation before trading, risk, targets, plan and orders of crates/rebalancer-run/src/pipeline.rs keep the
    discipline of RunRules: what is sent is on a plan made of the last snapshot, after its own look-up. *)

From Stdlib Require Import ZArith Lia String Ascii.
From stdpp Require Import relations.
From S2P Require Import Prelude Assoc Calls Text BTree F64 Externals Decimal DecMath Mandate Policy Broker Venue RiskState Overlay RiskStore View Recon Flatten FlattenFacts RiskFacts Guard Planner Data Decision Record RunStore RunCalls RunSteps RunOrders Pipeline RunRules RunFacts.

Local Open Scope Z_scope.

Section facts.
Context `{ReferenceRules} `{RustDecimal, !MandateSerde, Sha256}.
Variable ctx : RunContext.

Abbreviation spec := (spec ctx).
Abbreviation goes := (goes ctx).
Abbreviation base := (base ctx).
Abbreviation started := (started ctx).
Abbreviation ready := (ready ctx).
Abbreviation seeing := (seeing ctx).

(** Goes on with what is left of an assertion. *)
Ltac drop := eapply spec_pre; [|intros ?c ?g [?HJ _]; eassumption].

(** ** 6: the first reconciliation *)

(** A look-up tells the watcher only about the tag. *)
Lemma look_up_spec tag J : (∀ c g, J c g → armed g = true) →
  (∀ c g x, J c g → J c (g <| cleared := x |> <| intent := None |>)) →
  spec J (ask (BrokerCall (FindByTag tag))) (λ r, both J (λ _ g, r = Ok [] → cleared g = Some tag)).
Proof.
  intros Harm Hstable. apply spec_ask; [intros k g; apply Harm|]. intros k g r HJ _.
  split; [exact (Hstable _ _ _ HJ)|]. by intros ->.
Qed.

Lemma seeing_looks c g x : seeing c g → seeing c (g <| cleared := x |> <| intent := None |>).
Proof. done. Qed.

Lemma seeing_armed c g : seeing c g → armed g = true.
Proof. by intros [[[_ Ha] _] _]. Qed.

Lemma in_flight_from_spec l : spec seeing (in_flight_from ctx l) (goes (λ _, seeing)).
Proof.
  induction l as [|e l IH]; simpl; [by apply spec_go_on|].
  eapply spec_bind; [apply look_up_spec; [apply seeing_armed|apply seeing_looks]|]. intros [rs|err]; drop; repeat quiet.
  eapply spec_bind_may; [apply IH|]. intros rest. by apply spec_go_on.
Qed.

Lemma recon_note_spec step r J : spec J (recon_note step r) (λ _, J).
Proof. apply spec_note. Qed.

Lemma record_recon_spec stage r J : spec J (record_recon stage r) (λ _, J).
Proof. by apply spec_edit. Qed.

Lemma recon_pre_spec : spec seeing (step_recon_pre ctx) (goes (λ _, seeing)).
Proof.
  unfold step_recon_pre. quiet. destruct b as [last|e]; [|by apply store_failed_spec; apply _].
  eapply spec_bind_may.
  { unfold in_flight_orders. quiet. destruct b as [l|e]; [apply in_flight_from_spec|apply store_failed_spec; apply _]. }
  intros flying. quiet. apply (spec_bind_may _ _ _ _ (λ _, seeing)).
  { destruct (summary_baseline <$> last) as [b|]; [|by apply spec_go_on].
    destruct (after_orders _ _); [by apply spec_go_on|]. apply halt_reconciliation_spec, seeing_ready. }
  intros base'. apply (spec_bind_may _ _ _ _ (λ _, seeing)); [apply spec_have; [done|apply _]|]. intros snap. quiet.
  eapply spec_bind; [apply spec_get|]. intros run. drop. eapply spec_then; [apply recon_note_spec|intros []].
  eapply spec_then; [apply record_recon_spec|intros []].
  destruct (is_bad _); [apply halt_reconciliation_spec, seeing_ready|]. quiet. by apply spec_go_on.
Qed.

(** ** 7: risk *)

Lemma halting_step s snap day p rule next d tr : step_with s snap day p rule = (next, d, tr) → is_halting d = true →
  AccountStatus.is_halt (status next) = true.
Proof.
  unfold step_with. intros Hs Hd. destruct (apply_decision _ _ _) as [n t] eqn:Ea. injection Hs as <- <- <-.
  unfold apply_decision in Ea. unfold is_halting in Hd. destruct (AccountStatus.is_halt (status _)) eqn:Eh; [by injection Ea as <- <-|].
  destruct (rd_action _); try done. unfold begin_flatten in Ea. rewrite Eh in Ea. by injection Ea as <- <-.
Qed.

Lemma seeing_saves r s g : seeing (core r) g → seeing (core (r <| st := s |>)) (g <| acct := s |>).
Proof. by intros [[Hs _] Hc]. Qed.

(** Saving a state reached by automatic steps from the one at hand. *)
Lemma save_auto_spec next (run : Run) : rtc auto_step (st run) next →
  spec (both seeing (λ c _, c_st c = st run)) (save_state ctx next)
    (goes (λ _, both seeing (λ c _, status (c_st c) = status next))).
Proof.
  intros Ha. eapply spec_pre; [apply (save_state_spec ctx next seeing); [apply seeing_ready|apply seeing_saves]|].
  intros c g [Hs Hst]. split; [exact Hs|]. by rewrite Hst.
Qed.

Lemma pause_buys_spec snap day J : spec J (pause_buys ctx snap day) (λ _, J).
Proof.
  unfold pause_buys. destruct (day_start _); [by apply spec_ret|]. eapply spec_bind; [apply spec_get|]. intros run. drop.
  destruct (day_start_missing _ _); [|by apply spec_ret]. quiet.
  eapply spec_then; [|intros []; by apply spec_modify_same]. destruct (negb _); [apply spec_alert|by apply spec_ret].
Qed.

Lemma risk_spec : book_ok (cx_rules ctx) → spec seeing (step_risk ctx) (goes (λ _, seeing)).
Proof.
  intros Hrules. unfold step_risk. apply (spec_bind_may _ _ _ _ (λ snap, both seeing (λ _ _, dec_ok (s_equity snap)))).
  { apply spec_have; [|apply _]. intros r g s Hs Hse. split; [exact Hse|]. destruct Hse as [_ [Hc He]]. apply He. rewrite <- Hc. exact Hs. }
  intros snap. apply spec_pure with (F := dec_ok (s_equity snap)); [by intros c g []|]. intros Heq.
  apply (spec_bind_may _ _ _ _ (λ p, both seeing (λ _ _, risk_policy_ok p))).
  { apply spec_have; [|apply _]. intros r g p Hp [Hse _]. split; [exact Hse|]. destruct Hse as [[[(_ & _ & _ & Hr) _] _] _]. by apply Hr. }
  intros p. apply spec_pure with (F := risk_policy_ok p); [by intros c g []|]. intros Hp. drop.
  eapply spec_bind; [apply spec_get|]. intros run. destruct (step_with _ _ _ _ _) as [[next d] tr] eqn:Es.
  assert (rtc auto_step (st run) next) as Hauto.
  { apply rtc_once. pose proof (auto_evaluate (st run) (equity_snapshot snap) (cx_day ctx) p (day_start (cx_config ctx)) Heq Hp) as Ha. by rewrite Es in Ha. }
  repeat quiet. eapply spec_bind_may.
  { eapply spec_pre; [by apply (save_auto_spec next run)|]. by intros c g [Hs ->]. }
  intros []. destruct (is_halting d) eqn:Eh; simpl; [|drop; eapply spec_then; [apply pause_buys_spec|intros []; by apply spec_go_on]].
  pose proof (halting_step _ _ _ _ _ _ _ _ Es Eh) as Hh. repeat quiet. apply (spec_bind_may _ _ _ _ (λ _, base)); [|intros []; by quiet].
  destruct (live ctx) eqn:El.
  - eapply spec_then; [|intros []; by apply spec_go_on]. eapply spec_pre; [by apply finish_flatten_spec|].
    intros c g [Hse Hst]. split; [by apply seeing_ready|]. by rewrite Hst.
  - drop. eapply spec_bind; [apply spec_get|]. intros run'. destruct (complete_flatten _ _) as [halted tr'] eqn:Ec. quiet.
    eapply spec_bind_may.
    { eapply spec_pre; [apply (save_auto_spec halted run')|by intros c g [Hs ->]].
      apply rtc_once. pose proof (auto_complete_flatten (st run') true) as Ha. by rewrite Ec in Ha. }
    intros []. repeat quiet. apply spec_go_on. by intros c g [[[[Hb _] _] _] _].
Qed.

(** ** 8, 9: targets and plan *)

Lemma target_one_spec x J `{!Sound ctx J} : spec J (target_one ctx x) (goes (λ _, J)).
Proof.
  destruct x as [i e]. unfold target_one. apply (spec_bind_may _ _ _ _ (λ _, J)); [by apply spec_have|]. intros s.
  destruct (eval_target _ _); repeat quiet. by apply spec_go_on.
Qed.

Lemma collect_spec {A B} (f : A → may_stop B) l J : (∀ x, spec J (f x) (goes (λ _, J))) → spec J (collect f l) (goes (λ _, J)).
Proof.
  intros Hf. induction l as [|x l IH]; simpl; [by apply spec_go_on|]. eapply spec_bind_may; [apply Hf|]. intros y.
  eapply spec_bind_may; [apply IH|]. intros ys. by apply spec_go_on.
Qed.

Lemma targets_spec : spec seeing (step_targets ctx) (goes (λ _, seeing)).
Proof.
  unfold step_targets. eapply spec_bind; [apply spec_get|]. intros run. drop.
  eapply spec_bind_may; [apply collect_spec; intros x; apply target_one_spec; apply _|]. intros targets. quiet. by apply spec_go_on.
Qed.

(** Whatever holds of the account and the snapshot that was read, the plan is on that snapshot. *)
Lemma plan_with_spec targets snap day credit J :
  (∀ c g, J c g → ready c g ∧ seen g = Some snap) → (∀ c g o, J c g → J c (g <| quoted := o |>)) →
  spec J (plan_with ctx targets snap day credit) (goes (λ p, both J (λ _ g, planned_on ctx g credit p))).
Proof.
  intros HJ Hstable. assert (Sound ctx J) as Hs by (intros c g Hj; by destruct (HJ c g Hj) as [[[Hb _] _] _]).
  unfold plan_with. apply (spec_bind_may _ _ _ _ (λ prices, both J (λ _ g, quoted g = Some prices))).
  { unfold prices_for. quiet. apply (spec_bind _ _ _ _ (λ r, both J (λ _ g, quoted g = ok r))).
    { apply spec_ask; [done|]. intros k g r Hj _. split; [by apply Hstable|done]. }
    intros [prices|e]; [by apply spec_go_on|]. by quiet. }
  intros prices. apply (spec_bind_may _ _ _ _ (λ p, both (both J (λ _ g, quoted g = Some prices)) (λ _ _, admitted ctx p))).
  { apply spec_have; [|apply _]. intros r g p Hp Hj. split; [done|]. destruct (HJ _ _ (proj1 Hj)) as [[[(_ & _ & Ha & _) _] _] _].
    by apply Ha. }
  intros p. eapply spec_bind; [apply spec_get|]. intros run. quiet. destruct (Planner.plan _ _ _ _ _ _) as [q|e] eqn:Ep; [|by quiet].
  apply spec_go_on. intros c g [[[Hj Hq] Hp] Hc]. split; [done|]. destruct (HJ c g Hj) as [[_ Hacct] Hseen].
  assert (acct g = st run) as Ha by by rewrite Hacct, Hc.
  exists snap, prices, targets, at_, day, p. rewrite Ha. done.
Qed.

(** There is a plan on the record. *)
Definition recorded : assertion := λ c _, c_planned c = true.

Lemma plan_spec targets : spec seeing (step_plan ctx targets)
  (goes (λ p, both (both ready recorded) (λ _ g, planned_on ctx g true p))).
Proof.
  unfold step_plan. set (saw snap := both ready (λ _ g, seen g = Some snap) : assertion).
  apply (spec_bind_may _ _ _ _ saw).
  { apply spec_have; [|apply _]. intros r g s Hs [Hr [Hc _]]. split; [done|]. rewrite <- Hc. exact Hs. }
  intros snap. apply (spec_bind_may _ _ _ _ (λ _, saw snap)).
  { unfold counters. quiet. destruct b; [by apply spec_go_on|apply store_failed_spec; apply _]. }
  intros day. eapply spec_bind_may; [by apply plan_with_spec|]. intros p.
  apply (spec_then _ _ _ _ (both (both ready recorded) (λ _ g, planned_on ctx g true p))); [|intros []; quiet; by apply spec_go_on].
  apply spec_modify. by intros r g [[Hr _] Hp].
Qed.

(** ** 10: one order *)

Section order.
Variables (p : OrderPlan) (credit : bool) (phase : Phase).

(** While the orders of a plan are sent: it is a plan of the last snapshot, and buys wait for a snapshot after sells. *)
Definition trading : assertion := λ c g,
  both ready recorded c g ∧ planned_on ctx g credit p ∧ (phase = Phase.Buys → sold g = false).

(** The orders of the phase. *)
Definition fits (o : PlannedOrder) : Prop :=
  o ∈ Planner.orders p ∧
  match phase with
  | Phase.Rehearsal => cx_mode ctx = ExecutionMode.Paper
  | Phase.Sells => cx_mode ctx = ExecutionMode.Live ∧ p_side o = Sell
  | Phase.Buys => cx_mode ctx = ExecutionMode.Live ∧ p_side o = Buy ∧ credit = false
  end.

#[local] Instance trading_sound : Sound ctx trading.
Proof. by intros c g [[[[Hb _] _] _] _]. Qed.

Hypothesis sends : cx_mode ctx ≠ ExecutionMode.Assisted.

Lemma trading_armed c g : trading c g → armed g = true.
Proof. by intros [[[[_ Ha] _] _] _]. Qed.

(** Calls about an order by its id. *)
Lemma order_call_spec {B} (c : Flatten.call B) : match c with GetOrder _ | CancelAndSettle _ | SleepSecs _ => True | _ => False end →
  spec trading (ask (BrokerCall c)) (λ _, trading).
Proof.
  intros Hc. apply spec_ask.
  - intros k g Ht. apply trading_armed in Ht. by destruct c.
  - intros k g b Ht _. by destruct c.
Qed.

Lemma poll_order_spec n id x : spec trading (poll_order ctx n id x) (λ _, trading).
Proof.
  revert x. induction n as [|n IH]; intros x; simpl; [by apply spec_ret|].
  eapply spec_then; [by apply order_call_spec|]. intros [r|e]; [|by apply spec_ret].
  destruct (is_terminal _); [by apply spec_ret|]. eapply spec_then; [|intros []; apply IH].
  destruct n; [by apply spec_ret|by apply order_call_spec].
Qed.

Lemma settle_into_spec x id : spec trading (settle_into ctx x id) (λ _, trading).
Proof.
  unfold settle_into. quiet. eapply spec_then; [apply poll_order_spec|]. intros [y|y]; [by apply spec_ret|].
  eapply spec_then; [by apply order_call_spec|]. intros [[co r]|e]; by apply spec_ret.
Qed.

(** The journal of an id the broker gave. *)
Lemma journal_id_spec t id n : spec trading (journal {| j_tag := t; j_broker_order_id := Some id; j_notional := n |}) (λ _, trading).
Proof.
  unfold journal. eapply spec_bind; [apply spec_get|]. intros run. drop. apply spec_ask_quiet; [done|]. by intros g [].
Qed.

Lemma adopt_spec x first : spec trading (adopt ctx x first) (λ _, trading).
Proof. unfold adopt. eapply spec_then; [apply journal_id_spec|]. intros j. apply settle_into_spec. Qed.

Lemma trading_looks c g x : trading c g → trading c (g <| cleared := x |> <| intent := None |>).
Proof. done. Qed.

Lemma after_place_spec o rehearsal x r : spec trading (after_place ctx o rehearsal x r) (λ _, trading).
Proof.
  unfold after_place. destruct r as [[]|]; try by apply spec_ret.
  - eapply spec_then; [|intros y; apply settle_into_spec]. destruct rehearsal; [by apply spec_ret|].
    eapply spec_then; [apply journal_id_spec|]. intros j. by apply spec_ret.
  - eapply spec_bind; [apply look_up_spec; [apply trading_armed|apply trading_looks]|]. intros [[|first l]|e]; drop; try by apply spec_ret.
    eapply spec_then; [apply adopt_spec|]. intros y. by apply spec_ret.
Qed.

(** An order whose tag is cleared, and whose intent is journaled when it is a real one, may be sent. *)
Definition cleared_for (o : PlannedOrder) : assertion := λ c g,
  AccountStatus.may_add_risk (status (c_st c)) = true ∧ cleared g = Some (tag o) ∧
  (phase ≠ Phase.Rehearsal → intent g = Some (tag o)).

Lemma send_order_spec o x : fits o →
  spec (both trading (cleared_for o)) (send_order ctx o (bool_decide (phase = Phase.Rehearsal)) x) (λ _, trading).
Proof.
  intros [Ho Hf]. unfold send_order. eapply spec_then; [|intros r; apply after_place_spec].
  apply spec_ask.
  - intros c g [Ht (Hadd & Hcl & Hin)]. pose proof (trading_armed _ _ Ht) as Ha. destruct Ht as ([[_ Hacct] _] & Hp & Hs).
    split; [done|]. left. split; [by rewrite Hacct|]. split; [done|]. exists p, o, credit. split_and!; [done|done| |].
    + unfold live. destruct phase; [destruct Hf as [-> _]|destruct Hf as [-> _]|rewrite Hf]; done.
    + destruct phase.
      * destruct Hf as [-> Hsell]. split; [by apply Hin|]. by rewrite Hsell.
      * destruct Hf as (-> & Hbuy & Hc). split; [by apply Hin|]. intros _. split; [by apply Hs|done].
      * by rewrite Hf.
  - intros c g r [(Hr & Hp & Hs) _] _. split; [done|]. split; [done|]. intros Hb. simpl. rewrite Hs by done. simpl.
    rewrite Hb in Hf. destruct Hf as (_ & Hside & _). simpl. by rewrite Hside.
Qed.

(** The intent of an order, once journaled under the key of the run. *)
Lemma journal_intent_spec t n J : (∀ c g, J c g → c_key c = key_of_run ctx) → (∀ c g x, J c g → J c (g <| intent := x |>)) →
  spec J (journal {| j_tag := t; j_broker_order_id := None; j_notional := n |})
    (λ r, both J (λ _ g, is_some (ok r) = true → intent g = Some t)).
Proof.
  intros Hkey Hstable. unfold journal. eapply spec_bind; [apply spec_get|]. intros run. apply spec_ask; [done|].
  intros c g r [HJ Hc] _. pose proof (Hkey _ _ HJ) as Hk. rewrite Hc in Hk. simpl in Hk. destruct r as [u|e]; [|by split].
  split; [by apply Hstable|]. intros _. simpl. by rewrite bool_decide_eq_true_2.
Qed.

Lemma execute_order_spec o : fits o → spec trading (execute_order ctx o phase) (λ _, trading).
Proof.
  intros Hf. unfold execute_order. eapply spec_bind; [apply spec_get|]. intros run.
  destruct (negb _) eqn:Hadd; [drop; by apply spec_ret|]. apply negb_false_iff in Hadd.
  destruct (buy_is_paused run o); [drop; by apply spec_ret|].
  eapply spec_bind; [apply look_up_spec; [intros c g [Ht _]; by eapply trading_armed|done]|].
  intros [[|first l]|e]; try (do 2 drop; by apply spec_ret).
  2: { do 2 drop. apply adopt_spec. }
  set (J := λ c g, trading c g ∧ AccountStatus.may_add_risk (status (c_st c)) = true ∧ cleared g = Some (tag o)).
  apply spec_pre with (J' := J); [|by intros c g [[Ht ->] Hcl]; split_and!; [| |apply Hcl]].
  destruct (bool_decide (phase = Phase.Rehearsal)) eqn:Eph.
  - eapply spec_pre; [rewrite <- Eph; by apply send_order_spec|]. apply bool_decide_eq_true in Eph.
    intros c g (Ht & Ha & Hcl). split; [done|]. by split_and!.
  - apply (spec_bind _ _ _ _ (λ r, both J (λ _ g, is_some (ok r) = true → intent g = Some (tag o)))).
    { apply journal_intent_spec; [|done]. by intros c g [[[[[(Hk & _) _] _] _] _] _]. }
    intros [u|e].
    + eapply spec_pre; [rewrite <- Eph; by apply send_order_spec|]. intros c g [(Ht & Ha & Hcl) Hi]. split; [done|]. split_and!; try done.
      intros _. by apply Hi.
    + apply spec_ret. by intros c g [[Ht _] _].
Qed.

Lemma send_all_spec l : (∀ o, o ∈ l → fits o) → spec trading (for_each (execute_and_record ctx phase) l) (λ _, trading).
Proof.
  intros Hl. apply spec_for_each. intros o Ho. unfold execute_and_record. eapply spec_then; [by apply execute_order_spec, Hl|].
  intros x. by apply spec_edit.
Qed.
End order.

(** ** 10: the orders of the run *)

(** What is left when the orders are done. *)
Definition done_trading : assertion := both ready recorded.

Lemma paper_spec p l : cx_mode ctx = ExecutionMode.Paper → (∀ o, o ∈ l → o ∈ Planner.orders p) →
  spec (both (both ready recorded) (λ _ g, planned_on ctx g true p)) (for_each (execute_and_record ctx Phase.Rehearsal) l) (λ _, done_trading).
Proof.
  intros Hm Hl. eapply spec_conseq; [apply (send_all_spec p true Phase.Rehearsal); [by rewrite Hm|]| |].
  - intros o Ho. split; [by apply Hl|done].
  - intros c g [Hr Hp]. by split_and!.
  - by intros [] c g (Hr & _).
Qed.

Lemma write_tickets_spec p J : spec J (write_tickets p) (λ _, J).
Proof.
  unfold write_tickets. eapply spec_bind; [apply spec_get|]. intros run. drop. eapply spec_then; [|intros []; quiet; apply spec_note].
  destruct (buys_paused run); [by apply spec_modify_same|by apply spec_ret].
Qed.

Lemma is_side_in s o l : o ∈ List.filter (is_side s) l → o ∈ l ∧ p_side o = s.
Proof. rewrite list_elem_of_In, filter_In, <- list_elem_of_In. unfold is_side. by rewrite bool_decide_eq_true. Qed.

Lemma counters_spec J `{!Sound ctx J} : spec J (counters ctx) (goes (λ _, J)).
Proof. unfold counters. quiet. destruct b; [by apply spec_go_on|by apply store_failed_spec]. Qed.

Lemma buys_spec targets : cx_mode ctx = ExecutionMode.Live → spec done_trading (buy_after_sells ctx targets) (goes (λ _, done_trading)).
Proof.
  intros Hm. unfold buy_after_sells.
  eapply spec_bind_may; [apply (read_snapshot_spec ctx _ done_trading); [by intros c g [[[_ Ha] _] _]|done]|]. intros snap.
  eapply spec_bind_may; [apply counters_spec; apply _|]. intros day.
  eapply spec_bind_may; [apply plan_with_spec; [by intros c g [[Hr _] [Hs _]]|done]|]. intros p.
  apply (spec_then _ _ _ _ (trading p false Phase.Buys)).
  { apply spec_modify. intros r g [[[Hr Hrec] (_ & Hs & _)] Hp]. by split_and!. }
  intros []. quiet. eapply spec_then; [|intros []; by apply spec_go_on].
  eapply spec_conseq; [apply (send_all_spec p false Phase.Buys); [by rewrite Hm|]|done|by intros [] c g (Hr & _)].
  intros o Ho. apply is_side_in in Ho as [Ho Hs]. by split.
Qed.

Lemma execute_spec targets p :
  spec (both (both ready recorded) (λ _ g, planned_on ctx g true p)) (step_execute ctx targets p) (goes (λ _, done_trading)).
Proof.
  unfold step_execute. destruct (cx_mode ctx) eqn:Em.
  - drop. eapply spec_then; [apply write_tickets_spec|intros []]. by apply spec_go_on.
  - eapply spec_then; [by apply paper_spec|intros []]. quiet. by apply spec_go_on.
  - apply (spec_then _ _ _ _ done_trading).
    { eapply spec_conseq; [apply (send_all_spec p true Phase.Sells); [by rewrite Em|]| |by intros [] c g (Hr & _)].
      - intros o Ho. apply is_side_in in Ho as [Ho Hs]. by split.
      - intros c g [Hr Hp]. by split_and!. }
    intros []. destruct (negb _); [quiet; by apply spec_go_on|by apply buys_spec].
Qed.

(** ** 11: the reconciliation after trading *)

Lemma look_again_spec x : cx_mode ctx ≠ ExecutionMode.Assisted → spec done_trading (look_again x) (λ _, done_trading).
Proof.
  intros Hm. unfold look_again. destruct (bool_decide _); [|by apply spec_ret].
  eapply spec_bind; [apply look_up_spec; [by intros c g [[[_ Ha] _] _]|done]|]. intros [[|first l]|e]; drop; by apply spec_ret.
Qed.

Lemma map_step_spec {A B} (f : A → rstep B) l J : (∀ x, spec J (f x) (λ _, J)) → spec J (map_step f l) (λ _, J).
Proof.
  intros Hf. induction l as [|x l IH]; simpl; [by apply spec_ret|]. eapply spec_then; [apply Hf|]. intros y.
  eapply spec_then; [apply IH|]. intros ys. by apply spec_ret.
Qed.

Lemma done_ready c g : done_trading c g → ready c g.
Proof. by intros []. Qed.

Lemma recon_post_spec : spec done_trading (step_recon_post ctx) (goes (λ _, done_trading)).
Proof.
  unfold step_recon_post. destruct (bool_decide _) eqn:Em; [quiet; by apply spec_go_on|]. apply bool_decide_eq_false in Em.
  eapply spec_bind; [apply spec_get|]. intros run. drop. eapply spec_then; [apply map_step_spec; intros x; by apply look_again_spec|].
  intros ps. quiet. destruct (pd_tag <$> _) as [|t l]; [|quiet; apply halt_reconciliation_spec, done_ready]. quiet.
  apply (spec_then _ _ _ _ done_trading); [apply spec_ask; [by intros c g [[[_ Ha] _] _]|done]|].
  intros [snap|e]; [|quiet; apply halt_reconciliation_spec, done_ready]. quiet.
  eapply spec_bind; [apply spec_get|]. intros run'. drop. apply (spec_bind_may _ _ _ _ (λ _, done_trading)); [apply spec_have; [done|apply _]|].
  intros bl. apply (spec_bind_may _ _ _ _ (λ _, done_trading)).
  { destruct (live ctx); [|by apply spec_go_on]. destruct (after_orders _ _); [by apply spec_go_on|apply halt_reconciliation_spec, done_ready]. }
  intros after. quiet. eapply spec_then; [apply recon_note_spec|intros []]. eapply spec_then; [apply record_recon_spec|intros []].
  destruct (is_bad _); [apply halt_reconciliation_spec, done_ready|].
  apply (spec_then _ _ _ _ done_trading); [by apply spec_modify|intros []; by apply spec_go_on].
Qed.
End facts.
