(* ===== verification/RunTheorems.v ===== *)
(** * RunTheorems: whole runs

    A run of crates/rebalancer-run/src/pipeline.rs keeps the discipline of RunRules at every call, whatever the broker,
    the stores, the data and the notifier answer; the theorems read it off for orders, broker calls, saved states and
    records; RunScenario applies them. *)

From Stdlib Require Import ZArith Lia String Ascii.
From stdpp Require Import relations.
From S2P Require Import Prelude Assoc Calls Text BTree F64 Externals Decimal DecMath Mandate Policy Broker Venue RiskState Overlay RiskStore View Recon Flatten FlattenFacts RiskFacts Guard Planner Data Decision Record RunStore RunCalls RunSteps RunOrders Pipeline RunRules RunFacts RunTrade.

Local Open Scope Z_scope.

Section facts.
Context `{ReferenceRules} `{RustDecimal, !MandateSerde, Sha256}.
Variable ctx : RunContext.
Hypothesis rules_ok : book_ok (cx_rules ctx).
Hypothesis recovery_ok : dec_ok (cf_recovery_fraction (cx_config ctx)).

Abbreviation rules := (run_discipline ctx).

(** What the run says it carried out, it did. *)
Definition completed : RunOutcome :=
  {| oc_kind := OutcomeKind.Completed; oc_code := RunCode.as_str RunCode.Completed;
     oc_message := ExecutionMode.as_str (cx_mode ctx) +:+ " run completed" |}.

Definition truthful (r : Run) : Prop :=
  run_key (rec r) = key_of_run ctx ∧
  (all_carried r = true → run_outcome (rec r) = completed ∧ is_some (run_plan (rec r)) = true ∧
     ∃ paused, shortfalls (rec r) paused = []).

Lemma base_truthful r g : base ctx (core r) g → truthful r.
Proof. intros (Hk & Hc & _). split; [done|]. simpl in Hc. by rewrite Hc. Qed.

Lemma assess_truthful : triple rules (λ r g, done_trading ctx (core r) g) (step_assess ctx) (λ _ r _, truthful r).
Proof.
  assert (∀ m : rstep unit, spec ctx (base ctx) m (λ _, base ctx) →
    triple rules (λ r g, done_trading ctx (core r) g) m (λ _ r _, truthful r)) as Hbase.
  { intros m Hm. eapply triple_conseq; [exact Hm| |intros a r g; apply base_truthful]. by intros r g [[[Hb _] _] _]. }
  unfold step_assess. eapply triple_bind; [by apply (triple_get rules _ (λ run r g, done_trading ctx (core r) g ∧ run = r))|].
  intros run. destruct (shortfalls _ _) as [|x gaps] eqn:Es.
  - intros r g [Hd ->]. destruct Hd as [[[[Hk _] _] _] Hp]. split; [exact Hk|]. intros _. split_and!; [done|exact Hp|].
    by exists (paused_tickets r).
  - apply triple_pre with (Pre' := λ r g, done_trading ctx (core r) g); [|by intros r g []]. apply Hbase. repeat quiet.
    apply (spec_bind _ _ _ _ (goes ctx (λ _ : unit, base ctx))); [by quiet|]. intros o. apply spec_ret. by destruct o.
Qed.

Lemma execute_truthful : triple rules (λ r g, base ctx (core r) g) (execute ctx) (λ _ r _, truthful r).
Proof.
  assert (∀ {A} (m : may_stop A) (k : A → may_stop unit) (J : assertion) (M : A → assertion),
    spec ctx J m (goes ctx M) → (∀ a, triple rules (λ r g, M a (core r) g) (k a) (λ _ r _, truthful r)) →
    triple rules (λ r g, J (core r) g) (step_bind m (fun o => match o with Some x => k x | None => ret None end)) (λ _ r _, truthful r)) as Hseq.
  { intros A m k J M Hm Hk. eapply triple_bind; [exact Hm|]. intros [a|]; [apply Hk|]. intros r g Hb. by apply (base_truthful r g). }
  unfold execute.
  eapply Hseq; [apply venue_policy_spec|intros []]. eapply Hseq; [apply kill_flag_spec|intros []].
  eapply Hseq; [by apply mandate_spec|intros []]. eapply Hseq; [apply decisions_spec|intros []].
  eapply Hseq; [apply read_account_spec|intros []]. eapply Hseq; [by apply halted_check_spec|intros []].
  eapply Hseq; [apply cleanup_spec|intros []]. eapply Hseq; [apply recon_pre_spec|intros []].
  eapply Hseq; [by apply risk_spec|intros []]. eapply Hseq; [apply targets_spec|intros targets].
  eapply Hseq; [apply plan_spec|intros p]. eapply Hseq; [apply execute_spec|intros []].
  eapply Hseq; [apply recon_post_spec|intros []]. eapply triple_bind; [apply assess_truthful|].
  intros [] r g Ht. exact Ht.
Qed.

Lemma settled_truthful r st' at_ : truthful r → honest_record ctx ((rec r) <| state_after := st' |> <| run_finished_at := at_ |>
  <| decisions := settle_decisions (bool_decide (oc_kind (run_outcome (rec r)) = OutcomeKind.Completed)) (all_carried r)
       (decisions (rec r)) |>).
Proof.
  intros [Hk Hc]. split; [exact Hk|]. simpl. unfold settle_decisions. intros (d & Hd & Ha).
  apply list_elem_of_fmap in Hd as (d0 & -> & Hd0). simpl in Ha. rewrite !andb_true_iff in Ha. destruct Ha as [_ Ha].
  destruct (Hc Ha) as (Ho & Hp & Hs). split_and!; [exact Ho|exact Hp|exact Hs|].
  intros d Hd. apply list_elem_of_fmap in Hd as (d1 & -> & Hd1). simpl. rewrite !andb_true_iff. tauto.
Qed.

(** Nothing is asked of what follows the record. *)
Lemma after_record_spec (written : result RunStoreError unit) :
  spec ctx (λ _ _, True) (let# _ := match written with
    | Ok _ => ret tt
    | Err e =>
        let msg := "the run record could not be written: " +:+ RunStoreError.display e in
        let# _ := edit (fun r => r <| steps := steps r ++
          [{| sn_step := "finish"; sn_at := run_finished_at r; sn_note := msg |}] |>) in
        alert ctx AlertCode.RunFailed AlertSeverity.Critical msg "failed:record"
    end in
    let# run := get in ret (rec run)) (λ _ _ _, True).
Proof.
  apply (spec_then _ _ _ _ (λ _ _, True)).
  - destruct written; [by apply spec_ret|]. cbv zeta. quiet. apply spec_alert.
  - intros []. eapply spec_bind; [apply spec_get|]. intros run. by apply spec_ret.
Qed.

Lemma finish_spec : triple rules (λ r _, truthful r) (finish_run ctx) (λ _ _ _, True).
Proof.
  intros r g Ht. split; [done|]. intros at_ _. split; [exact (settled_truthful r _ at_ Ht)|]. intros w _.
  exact (after_record_spec w _ _ I).
Qed.

Lemma run_steps_spec at_ : spec ctx (base ctx) (run_steps ctx at_) (λ _ _ _, True).
Proof.
  unfold run_steps. quiet. destruct b as [[n|first|since]|e].
  - repeat quiet. eapply triple_bind; [apply execute_truthful|]. intros o. apply finish_spec.
  - by apply spec_ret.
  - repeat quiet. unfold set_outcome, leave. repeat quiet. eapply spec_bind; [apply spec_get|]. intros run. by apply spec_ret.
  - repeat quiet. unfold set_outcome, leave. repeat quiet. eapply spec_bind; [apply spec_get|]. intros run. by apply spec_ret.
Qed.

Lemma run_always memo : always rules (run_once ctx memo) (watcher_start ctx) (λ _ _, True).
Proof.
  split; [done|]. intros at_ _. apply always_bind. eapply always_mono; [|done].
  apply (run_steps_spec at_ (new_run ctx at_ memo)). by split_and!.
Qed.
End facts.

(** ** What the watcher knows is in the trace *)

Section traces.
Context `{ReferenceRules} `{RustDecimal, !MandateSerde, Sha256}.
Variable ctx : RunContext.

Abbreviation rules := (run_discipline ctx).
Abbreviation watched tr := (fold_left (see rules) tr (watcher_start ctx)).

Definition is_send (e : event run_call) : bool :=
  match e with Ev c _ => match c with BrokerCall (Place _) => true | _ => false end end.
Definition sends_nothing (tr : list (event run_call)) : bool := forallb (negb ∘ is_send) tr.

(** The look-up of a tag that found no order, with nothing sent since. *)
Definition looked_up (tr : list (event run_call)) (t : string) : Prop :=
  ∃ tr1 tr2, tr = tr1 ++ Ev (BrokerCall (FindByTag t)) (Ok []) :: tr2 ∧ sends_nothing tr2 = true.

(** That look-up, and then the intent on the run's journal, with nothing sent since. *)
Definition journaled (tr : list (event run_call)) (t t' : string) : Prop :=
  ∃ tr1 tr2 n tr3, tr = tr1 ++ Ev (BrokerCall (FindByTag t)) (Ok []) :: tr2 ++
      Ev (JournalOrder (key_of_run ctx) {| j_tag := t'; j_broker_order_id := None; j_notional := n |}) (Ok tt) :: tr3 ∧
    sends_nothing (tr2 ++ tr3) = true.

(** The event is in the trace. *)
Definition happened (e : event run_call) (tr : list (event run_call)) : Prop := ∃ tr1 tr2, tr = tr1 ++ e :: tr2.

Lemma happened_snoc e e' tr : happened e tr → happened e (tr ++ [e']).
Proof. intros (tr1 & tr2 & ->). exists tr1, (tr2 ++ [e']). by rewrite <- app_assoc. Qed.

Lemma sends_nothing_app l l' : sends_nothing (l ++ l') = sends_nothing l && sends_nothing l'.
Proof. apply forallb_app. Qed.

Lemma looked_up_snoc tr t e : is_send e = false → looked_up tr t → looked_up (tr ++ [e]) t.
Proof.
  intros He (tr1 & tr2 & -> & Hs). exists tr1, (tr2 ++ [e]). rewrite <- app_assoc. split; [done|].
  rewrite sends_nothing_app, Hs. simpl. by rewrite He.
Qed.

Lemma journaled_snoc tr t t' e : is_send e = false → journaled tr t t' → journaled (tr ++ [e]) t t'.
Proof.
  intros He (tr1 & tr2 & n & tr3 & -> & Hs). exists tr1, tr2, n, (tr3 ++ [e]). split.
  - rewrite <- !app_assoc. simpl. by rewrite <- app_assoc.
  - rewrite app_assoc, sends_nothing_app, Hs. simpl. by rewrite He.
Qed.

Lemma watched_snoc tr e : watched (tr ++ [e]) = see rules (watched tr) e.
Proof. by rewrite fold_left_app. Qed.

Lemma watched_armed tr : armed (watched tr) = true → happened (Ev KillFlagIsSet (Ok false)) tr.
Proof.
  induction tr as [|e tr IH] using rev_ind; [done|]. rewrite watched_snoc.
  assert (armed (watched tr) = true → happened (Ev KillFlagIsSet (Ok false)) (tr ++ [e])) as Hold
    by (intros Ha; by apply happened_snoc, IH).
  destruct e as [B [B' c|B' c|syms at_|a|v s|k d t l|k e|a|r|a|a|a d|a s|a|] b]; simpl; try exact Hold.
  - by destruct c.
  - by destruct b as [o|e].
  - by destruct b as [s'|e].
  - destruct b as [u|e']; [destruct (j_broker_order_id e)|]; exact Hold.
  - destruct b as [[]|e]; [done| |done]. intros _. by exists tr, [].
Qed.

Lemma watched_tags tr :
  (∀ t, cleared (watched tr) = Some t → looked_up tr t) ∧
  (∀ t t', cleared (watched tr) = Some t → intent (watched tr) = Some t' → journaled tr t t').
Proof.
  induction tr as [|e tr IH] using rev_ind; [done|]. rewrite watched_snoc. destruct IH as [IHc IHi].
  assert (is_send e = false → cleared (see rules (watched tr) e) = cleared (watched tr) →
    intent (see rules (watched tr) e) = intent (watched tr) →
    (∀ t, cleared (see rules (watched tr) e) = Some t → looked_up (tr ++ [e]) t) ∧
    (∀ t t', cleared (see rules (watched tr) e) = Some t → intent (see rules (watched tr) e) = Some t' → journaled (tr ++ [e]) t t')) as Hold.
  { intros He -> ->. split; [intros t Hc; by apply looked_up_snoc, IHc|intros t t' Hc Hi; by apply journaled_snoc; [|apply IHi]]. }
  destruct e as [B [B' c|B' c|syms at_|a|v s|k d t l|k e|a|r|a|a|a d|a s|a|] b]; try by apply Hold.
  - destruct c as [|secs|at_|req|id| |t|id]; try by apply Hold.
    + by split.
    + split; [|done]. intros t' Hc. destruct b as [[|r l]|e]; [|done..]. injection Hc as <-. by exists tr, [].
  - destruct b as [o|e]; by apply Hold.
  - destruct b as [s'|e]; by apply Hold.
  - destruct b as [[]|e']; [|by apply Hold]. destruct e as [t [i|] n]; [by apply Hold|].
    split; [intros t' Hc; by apply looked_up_snoc, IHc|]. intros t1 t2 Hc Hi.
    simpl in Hc, Hi. destruct (bool_decide (k = key_of_run ctx)) eqn:Ek; [|done]. apply bool_decide_eq_true in Ek as ->.
    injection Hi as <-. destruct (IHc t1 Hc) as (tr1 & tr2 & -> & Hs). exists tr1, tr2, n, [].
    split; [by rewrite <- app_assoc|by rewrite app_nil_r].
Qed.
End traces.

(** ** The ends of a run *)

(** Take the next call off a trace; drop a step that makes none. *)
Ltac next_call Hr b := apply runs_inv in Hr as (b & ? & -> & Hr).
Ltac answered Hr := apply runs_bind in Hr as (? & ? & ? & -> & Hq & Hr); apply runs_inv in Hq as [-> ->].

Section ends.
Context `{ReferenceRules} `{RustDecimal, !MandateSerde, Sha256}.
Variable ctx : RunContext.

(** A look at the clock, or an alert. *)
Definition aside (e : event run_call) : Prop :=
  match e with Ev c _ => match c with BrokerCall Now | NotifyOf _ => True | _ => False end end.

(** A critical alert that the run failed, for this account. *)
Definition cried (tr : list (event run_call)) : Prop :=
  ∃ a sent, happened (Ev (NotifyOf a) sent) tr ∧ al_code a = AlertCode.RunFailed ∧ al_severity a = AlertSeverity.Critical ∧
    al_account a = cx_account ctx.

Lemma aside_app l l' : Forall aside l → Forall aside l' → Forall aside (l ++ l').
Proof. induction 1 as [|e l He Hl IH]; [done|]. intros Hl'. constructor; [exact He|by apply IH]. Qed.

Lemma note_runs step text run tr x : runs (note step text run) tr x →
  Forall aside tr ∧ run_key (rec x.2) = run_key (rec run) ∧ run_outcome (rec x.2) = run_outcome (rec run) ∧ cache x.2 = cache run.
Proof. intros Hr. next_call Hr at_. apply runs_inv in Hr as [-> ->]. by repeat constructor. Qed.

Lemma alert_runs message dedupe run tr x : runs (alert ctx AlertCode.RunFailed AlertSeverity.Critical message dedupe run) tr x →
  Forall aside tr ∧ cried tr ∧ run_outcome (rec x.2) = run_outcome (rec run) ∧ decisions (rec x.2) = decisions (rec run) ∧
  placed (rec x.2) = placed (rec run) ∧ cache x.2 = cache run.
Proof.
  intros Hr. next_call Hr at_. next_call Hr sent. destruct sent as [u|e]; apply runs_inv in Hr as [-> ->].
  all: split; [by repeat constructor|]; split; [|done]; eexists _, _; (split; [by exists [Ev (BrokerCall Now) at_], []|done]).
Qed.

Lemma leave_runs run tr x : runs (leave run) tr x → Forall aside tr ∧ run_outcome x.1 = run_outcome (rec run) ∧ cache x.2 = cache run.
Proof. intros Hr. next_call Hr at_. apply runs_inv in Hr as [-> ->]. by repeat constructor. Qed.

(** The record is written last; when that fails, the failure is on the record returned and alerted. *)
Lemma finish_runs run tr x : runs (finish_run ctx run) tr x → ∃ tr1 tr2 r w, tr = tr1 ++ Ev (FinishRun r) w :: tr2 ∧
  match w with
  | Ok _ => x.1 = r ∧ tr2 = []
  | Err _ => Forall aside tr2 ∧ cried tr2 ∧ decisions x.1 = decisions r ∧ placed x.1 = placed r
  end.
Proof.
  intros Hr. next_call Hr at_. next_call Hr w. eexists [Ev (BrokerCall Now) at_], _, _, w. split; [done|].
  destruct w as [u|e]; [by apply runs_inv in Hr as [-> ->]|].
  answered Hr. apply runs_bind in Hr as ([u run'] & tr1 & tr2 & -> & Ha & Hr). apply runs_inv in Hr as [-> ->]. rewrite app_nil_r.
  cbn [fst] in Ha. answered Ha. apply alert_runs in Ha as (Ha & Hc & _ & Hd & Hp & _). split_and!; [exact Ha|exact Hc|exact Hd|exact Hp].
Qed.
End ends.

(** ** The theorems *)

(** C2. Whatever the broker, the clock, the stores, the data, the notifier and the kill flag answer (decimals well formed,
    and a store that saves a state saving that state), every order a run sends is either an order of the run or an
    order of the flatten. An order of the run is, up to its validate-only flag, one of the orders of a plan that
    [OrderPlanner::plan] made of the LAST snapshot and prices read, under the mandate's compiled policy as admitted, at the risk scale of
    the account state on record, which may add risk; its tag was just found unused; in paper mode it is validate-only;
    in live mode its intent is journaled under the run's key, and a buy is of a plan that counts no sell proceeds, on
    a snapshot with no sell after it. In assisted mode nothing is sent. An order of the flatten is sent only in live mode, while the
    account state on record is halting: a market order under a flatten tag that reduces a position of the last snapshot, in
    an instrument of the mandate, by no more than the position. *)
Theorem run_orders_licensed `{ReferenceRules} `{RustDecimal, !MandateSerde, Sha256} ctx memo tr out tr1 req b tr2 :
  book_ok (cx_rules ctx) → dec_ok (cf_recovery_fraction (cx_config ctx)) →
  runs (run_once ctx memo) tr out → Forall (believable (run_discipline ctx)) tr →
  tr = tr1 ++ Ev (BrokerCall (Place req)) b :: tr2 →
  let w := fold_left (see (run_discipline ctx)) tr1 (watcher_start ctx) in
  run_order ctx w req ∨ flatten_order ctx w req.
Proof.
  intros Hr Hrec Hrun Hb ->. destruct (always_runs _ _ _ _ _ _ (run_always ctx Hr Hrec memo) Hrun Hb) as [Ho _].
  apply (obeys_split (run_discipline ctx)) in Ho. by destruct Ho.
Qed.

(** C6. No call of the broker but its clock is made before the kill flag was read and found unset: with the flag set,
    unreadable, or not yet read, the broker is neither read nor written. In assisted mode nothing is ever sent, cancelled
    or polled. *)
Theorem kill_flag_gates_the_broker `{ReferenceRules} `{RustDecimal, !MandateSerde, Sha256} ctx memo tr out tr1 B (c : Flatten.call B) b tr2 :
  book_ok (cx_rules ctx) → dec_ok (cf_recovery_fraction (cx_config ctx)) →
  runs (run_once ctx memo) tr out → Forall (believable (run_discipline ctx)) tr →
  tr = tr1 ++ Ev (BrokerCall c) b :: tr2 →
  match c with
  | Now | SleepSecs _ => True
  | Snapshot _ | OpenOrders | FindByTag _ => happened (Ev KillFlagIsSet (Ok false)) tr1
  | Place _ | GetOrder _ | CancelAndSettle _ => happened (Ev KillFlagIsSet (Ok false)) tr1 ∧ cx_mode ctx ≠ ExecutionMode.Assisted
  end.
Proof.
  intros Hr Hrec Hrun Hb ->. destruct (always_runs _ _ _ _ _ _ (run_always ctx Hr Hrec memo) Hrun Hb) as [Ho _].
  apply (obeys_split (run_discipline ctx)) in Ho. destruct c; try exact I; simpl in Ho.
  1, 4, 5: by apply (watched_armed ctx).
  - destruct Ho as [Ha Hl]. split; [by apply (watched_armed ctx)|]. intros Hm.
    destruct Hl as [(_ & _ & p & o & credit & _ & _ & _ & Hf)|(Hf & _)].
    + by rewrite Hm in Hf.
    + unfold live in Hf. by rewrite Hm in Hf.
  - destruct Ho as [Ha Hm]. split; [by apply (watched_armed ctx)|done].
  - destruct Ho as [Ha Hm]. split; [by apply (watched_armed ctx)|done].
Qed.

(** C5. In live mode every order but the flatten's was looked up by its own tag and found absent, then its intent was
    journaled under the key of the run and the journal said yes, and nothing was sent between the look-up and the order:
    one look-up and one journaled intent for every order sent, so that a crash can never leave an order the journal does not
    name. *)
Theorem real_orders_are_journaled_first `{ReferenceRules} `{RustDecimal, !MandateSerde, Sha256} ctx memo tr out tr1 req b tr2 :
  book_ok (cx_rules ctx) → dec_ok (cf_recovery_fraction (cx_config ctx)) →
  runs (run_once ctx memo) tr out → Forall (believable (run_discipline ctx)) tr →
  tr = tr1 ++ Ev (BrokerCall (Place req)) b :: tr2 →
  cx_mode ctx = ExecutionMode.Live → starts_with (req_tag req) FLATTEN_TAG_PREFIX = false →
  journaled ctx tr1 (req_tag req) (req_tag req).
Proof.
  intros Hr Hrec Hrun Hb -> Hm Hn. destruct (always_runs _ _ _ _ _ _ (run_always ctx Hr Hrec memo) Hrun Hb) as [Ho _].
  apply (obeys_split (run_discipline ctx)) in Ho. destruct Ho as [_ [(_ & Hc & p & o & credit & _ & _ & _ & Hf)|(_ & _ & m & _ & Hred)]].
  2: { destruct Hred as (_ & _ & Ht & _). by rewrite Ht in Hn. }
  rewrite Hm in Hf. destruct Hf as [Hi _]. by apply (watched_tags ctx tr1).
Qed.

(** A record a run persists that counts a decision as acted is the record of a run that completed, with a plan, and
    none of the ways an order of its plans can be left undone: nothing denied, no material skip, no paused ticket, every
    order placed carried out. Only decisions that were planned are ever acted. *)
Theorem acted_records_honest `{ReferenceRules} `{RustDecimal, !MandateSerde, Sha256} ctx memo tr out r w d :
  book_ok (cx_rules ctx) → dec_ok (cf_recovery_fraction (cx_config ctx)) →
  runs (run_once ctx memo) tr out → Forall (believable (run_discipline ctx)) tr →
  happened (Ev (FinishRun r) w) tr → d ∈ decisions r → acted d = true →
  run_key r = key_of_run ctx ∧ planned d = true ∧ run_outcome r = completed ctx ∧ is_some (run_plan r) = true ∧
  ∃ paused, shortfalls r paused = [].
Proof.
  intros Hr Hrec Hrun Hb (tr1 & tr2 & ->) Hd Ha.
  destruct (always_runs _ _ _ _ _ _ (run_always ctx Hr Hrec memo) Hrun Hb) as [Ho _].
  apply (obeys_split (run_discipline ctx)) in Ho. destruct Ho as [Hk Hc].
  destruct Hc as (Hout & Hp & Hs & Hall); [by exists d|]. split_and!; try done. by apply Hall.
Qed.

(** C7. The machine never leaves a halt. Every state a run saves is saved at the version of the state on record and is
    reached from that state by the automatic steps of the risk state machine alone: an observation of a broker equity,
    an evaluation under the mandate's risk policy, a halt, a flatten begun or completed. A state on record that is halting
    stays so, with its reason, its high-water mark and its resumes: only a person's approval resumes an account. *)
Theorem runs_never_resume `{ReferenceRules} `{RustDecimal, !MandateSerde, Sha256} ctx memo tr out tr1 v next b tr2 :
  book_ok (cx_rules ctx) → dec_ok (cf_recovery_fraction (cx_config ctx)) →
  runs (run_once ctx memo) tr out → Forall (believable (run_discipline ctx)) tr →
  tr = tr1 ++ Ev (SaveState v next) b :: tr2 →
  let s := acct (fold_left (see (run_discipline ctx)) tr1 (watcher_start ctx)) in
  v = version s ∧ rtc auto_step s next ∧ (AccountStatus.is_halt (status s) = true → frozen s next).
Proof.
  intros Hr Hrec Hrun Hb ->. destruct (always_runs _ _ _ _ _ _ (run_always ctx Hr Hrec memo) Hrun Hb) as [Ho _].
  apply (obeys_split (run_discipline ctx)) in Ho. destruct Ho as [Hv Ha]. split; [exact Hv|]. split; [exact Ha|].
  intros Hh. by apply autos_frozen.
Qed.

(** C20. Every run has one of four ends, told by the answer to its run key. A run that started its key hands the store one
    record last of all, and returns exactly that record; when the store refuses it, the failure is alerted as critical and
    the record returned has the same decisions and orders. A key that is done returns the first record, with no other
    call. A key that is busy, or a store that cannot answer, touches nothing: only the clock is read and alerts sent, and
    the outcome says why. *)
Theorem started_runs_are_recorded `{ReferenceRules} `{RustDecimal, !MandateSerde, Sha256} ctx memo tr r memo' :
  runs (run_once ctx memo) tr (r, memo') →
  ∃ t begun tr', tr = Ev (BrokerCall Now) t :: Ev (BeginRun (key_of_run ctx) (cx_day ctx) t (lease_secs (cx_config ctx))) begun :: tr' ∧
  match begun with
  | Ok (Started n) =>
      ∃ tr1 tr2 written w, tr' = tr1 ++ Ev (FinishRun written) w :: tr2 ∧
        match w with
        | Ok _ => r = written ∧ tr2 = []
        | Err _ => Forall aside tr2 ∧ cried ctx tr2 ∧ decisions r = decisions written ∧ placed r = placed written
        end
  | Ok (AlreadyDone first) => tr' = [] ∧ r = first ∧ memo' = memo
  | Ok (Busy _) => Forall aside tr' ∧ oc_code (run_outcome r) = RunCode.as_str RunCode.Busy ∧ memo' = memo
  | Err _ => Forall aside tr' ∧ cried ctx tr' ∧ oc_code (run_outcome r) = RunCode.as_str RunCode.StoreUnavailable ∧ memo' = memo
  end.
Proof.
  intros Hr. apply runs_inv in Hr as (t & tr1 & -> & Hr). apply runs_bind in Hr as ([r1 run1] & tr2 & tr3 & -> & Hr & Hret).
  apply runs_inv in Hret as [-> [= -> ->]]. rewrite app_nil_r. apply runs_inv in Hr as (begun & tr' & -> & Hr).
  exists t, begun, tr'. split; [done|]. answered Hr. cbn [fst] in Hr. destruct begun as [[n|first|since]|e].
  - apply runs_bind in Hr as ([[] run2] & tr2 & tr3 & -> & _ & Hr). apply runs_bind in Hr as ([[] run3] & tr4 & tr5 & -> & _ & Hr).
    apply runs_bind in Hr as ([o run4] & tr6 & tr7 & -> & _ & Hr). apply finish_runs in Hr as (tr8 & tr9 & written & w & -> & Hw).
    exists (tr2 ++ tr4 ++ tr6 ++ tr8), tr9, written, w. by rewrite <- !app_assoc.
  - by apply runs_inv in Hr as [-> [= -> ->]].
  - apply runs_bind in Hr as ([[] run2] & tr2 & tr3 & -> & Hn & Hr). apply runs_bind in Hr as ([[] run3] & tr4 & tr5 & -> & Ho & Hr).
    apply runs_inv in Ho as [-> [= ->]]. apply note_runs in Hn as (Hn & _ & _ & Hc). apply leave_runs in Hr as (Hl & Ho & Hc').
    simpl in *. split; [by apply aside_app|]. split; [by rewrite Ho|congruence].
  - apply runs_bind in Hr as ([[] run2] & tr2 & tr3 & -> & Hn & Hr). apply runs_bind in Hr as ([[] run3] & tr4 & tr5 & -> & Ho & Hr).
    apply runs_inv in Ho as [-> [= ->]]. apply runs_bind in Hr as ([[] run4] & tr6 & tr7 & -> & Ha & Hr).
    apply note_runs in Hn as (Hn & _ & _ & Hc). apply alert_runs in Ha as (Ha & (a & sent & (l1 & l2 & ->) & Hcr) & Ho & _ & _ & Hc').
    apply leave_runs in Hr as (Hl & Ho' & Hc''). simpl in *. split_and!.
    + apply aside_app; [exact Hn|]. apply aside_app; [exact Ha|exact Hl].
    + exists a, sent. split; [|done]. exists (tr2 ++ l1), (l2 ++ tr7). by rewrite <- !app_assoc.
    + by rewrite Ho', Ho.
    + congruence.
Qed.
