(* ===== verification/RunCarried.v ===== *)
(** * RunCarried: a decision counts as acted only when its orders were carried out

    A second reading of the runs of crates/rebalancer-run/src/pipeline.rs, over the record alone: which parts of the
    record each step leaves as they are, what an executed order tells, and what a record that counts a decision as acted
    says of every order of its plans. *)

From Stdlib Require Import ZArith Lia String Ascii.
From S2P Require Import Prelude Assoc Calls Text BTree F64 Externals Decimal DecMath Mandate Policy Broker Venue RiskState Overlay RiskStore View Recon Flatten Guard Planner Data Decision Record RunStore RunCalls RunSteps RunOrders Pipeline RunRules RunFacts RunTrade RunTheorems.

Local Open Scope Z_scope.

(** ** What it means that the orders of a plan were carried out *)

(** [x] is the order [o] of a plan as it was carried out: validated in a rehearsal, or with a report of the broker that it
    filled or that some of it executed. *)
Definition fulfilled (o : PlannedOrder) (x : PlacedOrder) : Prop :=
  (pd_tag x = tag o ∧ pd_symbol x = p_symbol o ∧ pd_side x = p_side o) ∧
  (pd_outcome x = PlacedOutcome.Validated ∨
   ∃ r, r ∈ pd_reports x ∧ (rep_status r = OrderStatus.Filled ∨ is_positive (rep_executed r) = true)).

(** A skip that leaves nothing to do: dust, or no money. *)
Definition tolerable (r : SkipReason.t) : Prop :=
  match r with
  | SkipReason.BelowMinTradeAbs _ _ | SkipReason.BelowMinTradePct _ _ | SkipReason.CutBelowVenueMinimum
  | SkipReason.NoCashAvailable => True
  | SkipReason.VenueRefused SizeRefusal.RoundsToZero | SkipReason.VenueRefused (SizeRefusal.BelowMinQuantity _)
  | SkipReason.VenueRefused (SizeRefusal.BelowMinCost _) => True
  | _ => False
  end.

(** The plan takes exposure in a symbol off. *)
Definition sheds (p : PlanSummary) (symbol : string) : Prop :=
  ∃ l, l ∈ ps_lines p ∧ eq_ignore_ascii_case (i_symbol l) symbol = true ∧
    dec_ltb (target_notional l) (current_notional l) = true.

Section carried.
Context `{Chrono}.

Definition orders_done (mode : ExecutionMode) (r : RunRecord) (p : PlanSummary) : Prop :=
  match mode with
  | ExecutionMode.Assisted => tickets r = ps_orders p
  | ExecutionMode.Paper => Forall2 fulfilled (ps_orders p) (placed r)
  | ExecutionMode.Live =>
      match replan r with
      | None => (∀ o, o ∈ ps_orders p → p_side o = Sell) ∧ Forall2 fulfilled (ps_orders p) (placed r)
      | Some q => Forall2 fulfilled (List.filter (is_side Sell) (ps_orders p) ++ List.filter (is_side Buy) (ps_orders q)) (placed r)
      end
  end.

Definition none_denied (r : RunRecord) (p : PlanSummary) : Prop :=
  match replan r with
  | None => ps_denied p = []
  | Some q => (∀ d, d ∈ ps_denied p → p_side (ds_order d) = Buy) ∧ (∀ d, d ∈ ps_denied q → p_side (ds_order d) = Sell)
  end.

Definition none_skipped (r : RunRecord) (p : PlanSummary) : Prop :=
  match replan r with
  | None => ∀ s, s ∈ ps_skipped p → tolerable (s_reason s)
  | Some q =>
      (∀ s, s ∈ ps_skipped p → sheds p (s_symbol s) → tolerable (s_reason s)) ∧
      (∀ s, s ∈ ps_skipped q → ¬ sheds p (s_symbol s) → tolerable (s_reason s))
  end.

(** Every order of the plans is ticketed (assisted) or was carried out, nothing was denied, and nothing that matters was
    skipped. The sells are those of the first plan, the buys those of the plan made again after them. *)
Definition carried_out (mode : ExecutionMode) (r : RunRecord) : Prop :=
  ∃ p, run_plan r = Some p ∧ orders_done mode r p ∧ none_denied r p ∧ none_skipped r p.
End carried.

(** ** Steps that leave the record's plans and orders as they are *)

Section logic.
Context `{ReferenceRules} `{RustDecimal, !MandateSerde, Sha256}.
Variable ctx : RunContext.

Definition acted_means_done (r : RunRecord) : Prop :=
  (∃ d, d ∈ decisions r ∧ acted d = true) → carried_out (cx_mode ctx) r.

Definition record_rules : protocol run_call :=
  {| Calls.ghost := unit;
     Calls.allowed _ B c := match c with FinishRun r => acted_means_done r | _ => True end;
     Calls.observe _ _ _ _ := tt; Calls.plausible _ _ _ := True |}.

Definition hoare {A} (P : Run → Prop) (m : rstep A) (Q : A → Run → Prop) : Prop :=
  triple record_rules (λ r _, P r) m (λ a r _, Q a r).

Definition part (r : Run) :=
  (run_plan (rec r), replan (rec r), tickets (rec r), placed (rec r), paused_tickets r, all_carried r).

(** [m] changes none of those parts, and what it returns satisfies [Q]. *)
Definition keeps {A} (m : rstep A) (Q : A → Prop) : Prop :=
  ∀ v, hoare (λ r, part r = v) m (λ a r, part r = v ∧ Q a).

Definition any {A} : A → Prop := λ _, True.

Lemma hoare_bind {A B} (m : rstep A) (k : A → rstep B) P M Q : hoare P m M → (∀ a, hoare (M a) (k a) Q) → hoare P (step_bind m k) Q.
Proof. apply triple_bind. Qed.

Lemma hoare_pre {A} (m : rstep A) (P P' : Run → Prop) Q : hoare P' m Q → (∀ r, P r → P' r) → hoare P m Q.
Proof. intros Hm Hp. eapply triple_pre; [exact Hm|]. intros r g. apply Hp. Qed.

Lemma hoare_post {A} (m : rstep A) P (Q Q' : A → Run → Prop) : hoare P m Q' → (∀ a r, Q' a r → Q a r) → hoare P m Q.
Proof. intros Hm Hq. eapply triple_post; [exact Hm|]. intros a r g. apply Hq. Qed.

Lemma hoare_ret {A} (a : A) (P : Run → Prop) (Q : A → Run → Prop) : (∀ r, P r → Q a r) → hoare P (ret a) Q.
Proof. intros Hq r g Hp. by apply Hq. Qed.

Lemma hoare_modify h (P : Run → Prop) (Q : unit → Run → Prop) : (∀ r, P r → Q tt (h r)) → hoare P (modify h) Q.
Proof. intros Hq. apply triple_modify. intros r g. apply Hq. Qed.

(** Whatever depends on those parts alone is kept. *)
Lemma keeps_hoare {A} (m : rstep A) Q (P : Run → Prop) : keeps m Q → (∀ r r', part r = part r' → P r → P r') →
  hoare P m (λ a r, P r ∧ Q a).
Proof.
  intros Hm Hp r g Hr. pose proof (Hm (part r) r g eq_refl) as Ha. eapply always_mono; [exact Ha|].
  intros [a r'] g' [Hv Hq]. split; [|done]. by apply (Hp r).
Qed.

Lemma keeps_mono {A} (m : rstep A) (Q Q' : A → Prop) : keeps m Q' → (∀ a, Q' a → Q a) → keeps m Q.
Proof. intros Hm Hq v. eapply hoare_post; [apply Hm|]. intros a r [Hv Ha]. split; [done|by apply Hq]. Qed.

Lemma keeps_bind {A B} (m : rstep A) (k : A → rstep B) M Q : keeps m M → (∀ a, M a → keeps (k a) Q) → keeps (step_bind m k) Q.
Proof.
  intros Hm Hk v. eapply hoare_bind; [apply Hm|]. intros a. apply triple_pure with (F := M a); [by intros r g []|].
  intros Ha. eapply hoare_pre; [by apply Hk|]. by intros r [].
Qed.

Lemma keeps_then {A B} (m : rstep A) (k : A → rstep B) Q : keeps m any → (∀ a, keeps (k a) Q) → keeps (step_bind m k) Q.
Proof. intros Hm Hk. eapply keeps_bind; [exact Hm|]. intros a _. apply Hk. Qed.

Lemma keeps_ret {A} (a : A) (Q : A → Prop) : Q a → keeps (ret a) Q.
Proof. intros Ha v. by apply hoare_ret. Qed.

Lemma keeps_get : keeps get any.
Proof. by intros v r g Hr. Qed.

Lemma keeps_have {A} (f : Run → option A) : keeps (have f) any.
Proof. by intros v r g Hr. Qed.

Lemma keeps_ask {B} (c : run_call B) : match c with FinishRun _ => False | _ => True end → keeps (ask c) any.
Proof. intros Hc v. apply triple_ask; [|done]. intros r g _. by destruct c. Qed.

Lemma keeps_modify h : (∀ r, part (h r) = part r) → keeps (modify h) any.
Proof. intros Hh v. apply hoare_modify. intros r <-. by rewrite Hh. Qed.

Lemma keeps_edit f : (∀ r, run_plan (f r) = run_plan r ∧ replan (f r) = replan r ∧ tickets (f r) = tickets r ∧ placed (f r) = placed r) →
  keeps (edit f) any.
Proof. intros Hf. apply keeps_modify. intros r. unfold part. simpl. by destruct (Hf (rec r)) as (-> & -> & -> & ->). Qed.

Lemma keeps_for_each {A} (f : A → rstep unit) l : (∀ x, keeps (f x) any) → keeps (for_each f l) any.
Proof. intros Hf. induction l as [|x l IH]; simpl; [by apply keeps_ret|]. by apply keeps_then. Qed.

Lemma keeps_call_out {A} (p : prog Flatten.call A) : keeps (call_out (fun B c => BrokerCall c) p) any.
Proof.
  intros v r g Hr. unfold call_out. apply always_bind.
  assert (always record_rules (embed (λ B c, BrokerCall c) p) g (λ _ _, True)) as Ha.
  { revert g. induction p as [a|B c k IH]; intros g; simpl; [done|]. split; [done|]. intros b _. apply IH. }
  eapply always_mono; [exact Ha|]. by intros a g' _.
Qed.

Lemma keeps_evaluate s day : keeps (evaluate_sleeve s day) any.
Proof.
  intros v r g Hr. unfold evaluate_sleeve. apply always_bind.
  assert (∀ p : prog data_call (result EvalError Evaluation * option EvalCache),
    always record_rules (embed (λ B c, DataCall c) p) g (λ _ _, True)) as Ha.
  { intros p. generalize g. induction p as [a|B c k IH]; intros g'; simpl; [done|]. split; [done|]. intros b _. apply IH. }
  eapply always_mono; [apply Ha|]. by intros a g' _.
Qed.
End logic.

Create HintDb keeps.
#[export] Hint Resolve keeps_get keeps_have keeps_call_out keeps_evaluate : keeps.

(** Walk through a step; what it calls is in the database. *)
Ltac keep :=
  cbv zeta;
  lazymatch goal with
  | |- keeps _ (step_bind _ _) _ => apply keeps_then; [keep|intros ?; keep]
  | |- keeps _ (ret _) _ => by apply keeps_ret
  | |- keeps _ (go_on _) _ => by apply keeps_ret
  | |- keeps _ (ask _) _ => by apply keeps_ask
  | |- keeps _ (modify _) _ => apply keeps_modify; intros ?; first [done | by repeat case_match]
  | |- keeps _ (edit _) _ => by apply keeps_edit
  | |- keeps _ (for_each _ _) _ => apply keeps_for_each; intros ?; keep
  | |- keeps _ (match ?x with _ => _ end) _ => destruct x; keep
  | |- _ => by eauto with keeps
  end.

Section steps.
Context `{ReferenceRules} `{RustDecimal, !MandateSerde, Sha256}.
Variable ctx : RunContext.

Abbreviation keeps m := (keeps ctx m any).

Lemma keeps_note step text : keeps (note step text).
Proof. unfold note, now_. keep. Qed.
#[local] Hint Resolve keeps_note : keeps.
Lemma keeps_alert code sev msg dd : keeps (alert ctx code sev msg dd).
Proof. unfold alert, now_. keep. Qed.
#[local] Hint Resolve keeps_alert : keeps.
Lemma keeps_stop {A} k c m : keeps (stop (A := A) k c m).
Proof. unfold stop. keep. Qed.
#[local] Hint Resolve keeps_stop : keeps.
Lemma keeps_fail_closed {A} c m : keeps (fail_closed ctx (A := A) c m).
Proof. unfold fail_closed. keep. Qed.
#[local] Hint Resolve keeps_fail_closed : keeps.
Lemma keeps_read_snapshot s : keeps (read_snapshot ctx s).
Proof. unfold read_snapshot, now_. keep. Qed.
Lemma keeps_save_state n : keeps (save_state ctx n).
Proof. unfold save_state. keep. Qed.
Lemma keeps_push t : keeps (push_transition t).
Proof. unfold push_transition. keep. Qed.
#[local] Hint Resolve keeps_read_snapshot keeps_save_state keeps_push : keeps.
Lemma keeps_halt_reconciliation {A} d : keeps (halt_reconciliation ctx (A := A) d).
Proof. unfold halt_reconciliation, now_. keep. Qed.
Lemma keeps_store_failed {A} e : keeps (store_failed ctx (A := A) e).
Proof. unfold store_failed. keep. Qed.
#[local] Hint Resolve keeps_halt_reconciliation keeps_store_failed : keeps.

Lemma keeps_know_ids ids : keeps (know_ids ids).
Proof. unfold know_ids. keep. Qed.
Lemma keeps_record_pre s : keeps (record_pre s).
Proof. unfold record_pre. keep. Qed.
Lemma keeps_take_snapshot s : keeps (take_snapshot s).
Proof. unfold take_snapshot. keep. Qed.
Lemma keeps_record_recon st r : keeps (record_recon st r).
Proof. unfold record_recon. keep. Qed.
Lemma keeps_recon_note st r : keeps (recon_note st r).
Proof. unfold recon_note. keep. Qed.
#[local] Hint Resolve keeps_know_ids keeps_record_pre keeps_take_snapshot keeps_record_recon keeps_recon_note : keeps.

(** *** Up to the account *)

Lemma keeps_venue_policy : keeps (step_venue_policy ctx).
Proof. unfold step_venue_policy. keep. Qed.
Lemma keeps_kill_flag : keeps (step_kill_flag ctx).
Proof. unfold step_kill_flag. keep. Qed.
Lemma keeps_admit p st : keeps (admit_standing ctx p st).
Proof. unfold admit_standing. keep. Qed.
#[local] Hint Resolve keeps_admit : keeps.
Lemma keeps_mandate : keeps (step_mandate ctx).
Proof. unfold step_mandate, now_. keep. Qed.
Lemma keeps_evaluated s : keeps (evaluated ctx s).
Proof. unfold evaluated. keep. Qed.
Lemma keeps_acted_on s : keeps (acted_on ctx s).
Proof. unfold acted_on. keep. Qed.
Lemma keeps_alert_refusal s g r : keeps (alert_refusal ctx s g r).
Proof. unfold alert_refusal. keep. Qed.
#[local] Hint Resolve keeps_evaluated keeps_acted_on keeps_alert_refusal : keeps.
Lemma keeps_note_gate s e : keeps (note_gate ctx s e).
Proof. unfold note_gate. keep. Qed.
#[local] Hint Resolve keeps_note_gate : keeps.
Lemma keeps_decide_one i s : keeps (decide_one ctx i s).
Proof. unfold decide_one. keep. Qed.
#[local] Hint Resolve keeps_decide_one : keeps.
Lemma keeps_decide_all i l : keeps (decide_all ctx i l).
Proof. revert i. induction l as [|s l IH]; intros i; simpl; keep. Qed.
#[local] Hint Resolve keeps_decide_all : keeps.
Lemma keeps_decisions : keeps (step_decisions ctx).
Proof. unfold step_decisions. keep. Qed.
Lemma keeps_read_account : keeps (step_read_account ctx).
Proof. unfold step_read_account. keep. Qed.
Lemma keeps_finish_flatten why : keeps (finish_flatten ctx why).
Proof. unfold finish_flatten. keep. Qed.
#[local] Hint Resolve keeps_finish_flatten : keeps.
Lemma keeps_halted_check : keeps (step_halted_check ctx).
Proof. unfold step_halted_check. keep. Qed.
Lemma keeps_cleanup : keeps (step_cleanup ctx).
Proof. unfold step_cleanup. keep. Qed.

(** *** Up to the plan *)

Lemma keeps_in_flight_from l : keeps (in_flight_from ctx l).
Proof. induction l as [|e l IH]; simpl; keep. Qed.
#[local] Hint Resolve keeps_in_flight_from : keeps.
Lemma keeps_recon_pre : keeps (step_recon_pre ctx).
Proof. unfold step_recon_pre, in_flight_orders, now_. keep. Qed.
Lemma keeps_pause_buys snap day : keeps (pause_buys ctx snap day).
Proof. unfold pause_buys. keep. Qed.
#[local] Hint Resolve keeps_pause_buys : keeps.
Lemma keeps_risk : keeps (step_risk ctx).
Proof. unfold step_risk. keep. Qed.
Lemma keeps_target_one x : keeps (target_one ctx x).
Proof. unfold target_one. keep. Qed.
#[local] Hint Resolve keeps_target_one : keeps.
Lemma keeps_collect l : keeps (collect (target_one ctx) l).
Proof. induction l as [|x l IH]; simpl; keep. Qed.
#[local] Hint Resolve keeps_collect : keeps.
Lemma keeps_targets : keeps (step_targets ctx).
Proof. unfold step_targets. keep. Qed.
Lemma keeps_counters : keeps (counters ctx).
Proof. unfold counters. keep. Qed.
Lemma keeps_plan_with targets snap day credit : keeps (plan_with ctx targets snap day credit).
Proof. unfold plan_with, prices_for, now_. keep. Qed.
End steps.
#[export] Hint Resolve keeps_note keeps_alert keeps_stop keeps_fail_closed keeps_read_snapshot keeps_push keeps_halt_reconciliation
  keeps_know_ids keeps_record_recon keeps_recon_note : keeps.

(** ** One order: what the record says of it is what the broker reported *)

Definition names (o : PlannedOrder) (x : PlacedOrder) : Prop :=
  pd_tag x = tag o ∧ pd_symbol x = p_symbol o ∧ pd_side x = p_side o.

(** An outcome that tells of an execution is backed by a report. *)
Definition backed (x : PlacedOrder) : Prop :=
  match pd_outcome x with
  | PlacedOutcome.Filled => ∃ r, r ∈ pd_reports x ∧ rep_status r = OrderStatus.Filled
  | PlacedOutcome.PartiallyFilled => ∃ r, r ∈ pd_reports x ∧ is_positive (rep_executed r) = true
  | PlacedOutcome.AdoptedExisting => is_positive (pd_executed x) = true → ∃ r, r ∈ pd_reports x ∧ is_positive (rep_executed r) = true
  | _ => True
  end.

Definition reported (o : PlannedOrder) (x : PlacedOrder) : Prop := names o x ∧ backed x.

(** Nothing is known to have executed yet. *)
Definition untold (x : PlacedOrder) : Prop :=
  is_positive (pd_executed x) = false ∧ match pd_outcome x with PlacedOutcome.Filled | PlacedOutcome.PartiallyFilled => False | _ => True end.

Lemma untold_backed x : untold x → backed x.
Proof. unfold untold, backed. intros [He Ho]. destruct (pd_outcome x); try done. by rewrite He. Qed.

Lemma finalize_reported o x r : names o x → reported o (finalize x r).
Proof.
  intros (Ht & Hs & Hd). unfold finalize, reported, names, backed. simpl.
  destruct (bool_decide_reflect (pd_outcome x = PlacedOutcome.AdoptedExisting)) as [E|E]; simpl; split; try done.
  - rewrite E. intros Hp. exists r. split; [|done]. apply elem_of_app. right. left.
  - unfold final_outcome.
    destruct (bool_decide_reflect (rep_status r = OrderStatus.Filled)) as [Ef|Ef].
    { exists r. split; [|done]. apply elem_of_app. right. left. }
    destruct (is_positive (rep_executed r)) eqn:Ep; simpl; [|by destruct (is_terminal _)].
    destruct (is_terminal _); [|done]. exists r. split; [|done]. apply elem_of_app. right. left.
Qed.

Lemma carried_fulfilled o x : reported o x → carried x = true → fulfilled o x.
Proof.
  intros [Hn Hb] Hc. split; [exact Hn|]. unfold carried, backed in *. destruct (pd_outcome x); try done; try (by left); right.
  - destruct Hb as (r & Hr & Hs). exists r. auto.
  - destruct Hb as (r & Hr & Hs). exists r. auto.
  - destruct (Hb Hc) as (r & Hr & Hs). exists r. auto.
  - apply existsb_exists in Hc as (r & Hr & Hs). exists r. split; [by apply list_elem_of_In|]. auto.
Qed.

Section orders.
Context `{ReferenceRules} `{RustDecimal, !MandateSerde, Sha256}.
Variable ctx : RunContext.

Lemma keeps_poll n id o x : names o x → untold x →
  keeps ctx (poll_order ctx n id x) (λ s, match s with inl y => reported o y | inr y => names o y ∧ untold y end).
Proof.
  revert x. induction n as [|n IH]; intros x Hn Hu; simpl; [by apply keeps_ret|].
  apply keeps_then; [by apply keeps_ask|]. intros [r|e].
  - destruct (is_terminal _); [apply keeps_ret; by apply finalize_reported|].
    apply keeps_then; [destruct n; [by apply keeps_ret|by apply keeps_ask]|]. intros _. by apply IH.
  - apply keeps_ret. unfold note_anomaly. destruct (is_anomaly e); (split; [done|]); [done|]. by apply untold_backed.
Qed.

Lemma keeps_settle id o x : names o x → untold x → keeps ctx (settle_into ctx x id) (reported o).
Proof.
  intros Hn Hu. unfold settle_into. cbv zeta. apply keeps_then; [apply keeps_know_ids|]. intros _.
  eapply keeps_bind; [by apply keeps_poll|]. intros [y|y]; [by apply keeps_ret|]. intros [Hy Huy].
  apply keeps_then; [by apply keeps_ask|]. intros [[c r]|e]; apply keeps_ret; [by apply finalize_reported|by split].
Qed.

Lemma keeps_journal e : keeps ctx (journal e) any.
Proof. unfold journal. keep. Qed.

Lemma keeps_adopt o x first : names o x → is_positive (pd_executed x) = false → keeps ctx (adopt ctx x first) (reported o).
Proof.
  intros Hn Hu. unfold adopt. cbv zeta. apply keeps_then; [apply keeps_journal|]. intros [u|e]; by apply keeps_settle.
Qed.

Lemma names_unsent o phase : names o (not_yet_sent o phase).
Proof. done. Qed.

Lemma keeps_after_place o rehearsal x r : names o x → untold x → keeps ctx (after_place ctx o rehearsal x r) (reported o).
Proof.
  intros Hn [Hu Ho]. unfold after_place. destruct r as [[id ? ? ?|? ? ?|errs ?|reason ?]|e]; try (apply keeps_ret; by split).
  - cbv zeta. eapply (keeps_bind ctx _ _ (λ y, names o y ∧ untold y)).
    + destruct rehearsal; [by apply keeps_ret|]. apply keeps_then; [apply keeps_journal|]. intros [u|e]; by apply keeps_ret.
    + intros y [Hy Huy]. by apply keeps_settle.
  - apply keeps_then; [by apply keeps_ask|]. intros [[|first l]|e]; try (apply keeps_ret; by split).
    cbv zeta. eapply (keeps_bind ctx _ _ (reported o)); [by apply keeps_adopt; destruct rehearsal|]. intros y Hy. by apply keeps_ret.
Qed.

Lemma keeps_execute_order o phase : keeps ctx (execute_order ctx o phase) (reported o).
Proof.
  unfold execute_order. cbv zeta. apply keeps_then; [apply keeps_get|]. intros run.
  destruct (negb _); [by apply keeps_ret|]. destruct (buy_is_paused _ _); [by apply keeps_ret|].
  apply keeps_then; [by apply keeps_ask|]. intros [[|first l]|e]; [| |by apply keeps_ret].
  - destruct (bool_decide _).
    + unfold send_order. apply keeps_then; [by apply keeps_ask|]. intros r. by apply keeps_after_place.
    + apply keeps_then; [apply keeps_journal|]. intros [u|e]; [|by apply keeps_ret].
      unfold send_order. apply keeps_then; [by apply keeps_ask|]. intros r. by apply keeps_after_place.
  - apply keeps_adopt; by destruct (bool_decide _).
Qed.

Lemma place_all phase l : ∀ a b c pl e f,
  hoare ctx (λ r, part r = (a, b, c, pl, e, f)) (for_each (execute_and_record ctx phase) l)
    (λ _ r, ∃ xs, Forall2 reported l xs ∧ part r = (a, b, c, pl ++ xs, e, f)).
Proof.
  induction l as [|o l IH]; intros a b c pl e f; simpl.
  { apply hoare_ret. intros r Hr. exists []. by rewrite app_nil_r. }
  eapply (hoare_bind ctx _ _ _ (λ _ r, ∃ x, reported o x ∧ part r = (a, b, c, pl ++ [x], e, f))).
  - unfold execute_and_record. eapply hoare_bind; [apply (keeps_execute_order o phase)|]. intros x. apply hoare_modify.
    intros r [[=] Hx]. exists x. split; [exact Hx|]. unfold part. simpl. congruence.
  - intros [] r g (x & Hx & Hr). eapply always_mono; [exact (IH a b c (pl ++ [x]) e f r g Hr)|].
    intros ys g' (xs & Hxs & Hp). exists (x :: xs). split; [by constructor|]. by rewrite Hp, <- app_assoc.
Qed.
End orders.

(** ** No shortfall: every order was carried out *)

Lemma filter_none {A} (f : A → bool) l : List.filter f l = [] → ∀ x, x ∈ l → f x = false.
Proof.
  intros Hf x Hx. destruct (f x) eqn:E; [|done]. exfalso.
  assert (x ∈ List.filter f l) as Hin by (by apply list_elem_of_In, List.filter_In; rewrite <- list_elem_of_In).
  rewrite Hf in Hin. by apply not_elem_of_nil in Hin.
Qed.

Lemma filter_all {A} (f : A → bool) l : (∀ x, x ∈ l → f x = true) → List.filter f l = l.
Proof.
  induction l as [|x l IH]; intros Hf; simpl; [done|]. rewrite Hf by left. f_equal. apply IH. intros y Hy. apply Hf. by right.
Qed.

Lemma map_none {A B} (g : A → B) l : g <$> l = [] → l = [].
Proof. by destruct l. Qed.

Lemma not_material r : material r = false → tolerable r.
Proof. destruct r as [| | | | |[]| | |]; simpl; done. Qed.

Lemma sells_sheds p s : plan_sells_symbol p s = true ↔ sheds p s.
Proof.
  unfold plan_sells_symbol, sheds. rewrite existsb_exists. setoid_rewrite <- list_elem_of_In. setoid_rewrite andb_true_iff. done.
Qed.

Section verdict.
Context `{Chrono}.

(** What the orders of a run leave on the record, by mode. *)
Definition left_behind (mode : ExecutionMode) (p : PlanSummary) (q : option PlanSummary) (ts : list PlannedOrder) (xs : list PlacedOrder)
    (paused : list string) : Prop :=
  match mode with
  | ExecutionMode.Assisted => q = None ∧ xs = [] ∧ (paused = [] → ts = ps_orders p)
  | ExecutionMode.Paper => q = None ∧ Forall2 reported (ps_orders p) xs
  | ExecutionMode.Live =>
      match q with
      | None => (∀ o, o ∈ ps_orders p → p_side o = Sell) ∧ Forall2 reported (ps_orders p) xs
      | Some q => Forall2 reported (List.filter (is_side Sell) (ps_orders p) ++ List.filter (is_side Buy) (ps_orders q)) xs
      end
  end.

Lemma reported_fulfilled l xs : Forall2 reported l xs → List.filter (λ x, negb (carried x)) xs = [] → Forall2 fulfilled l xs.
Proof.
  intros Hl Hf. pose proof (filter_none _ _ Hf) as Hc. clear Hf. induction Hl as [|o x l xs Ho Hl IH]; constructor.
  - apply carried_fulfilled; [exact Ho|]. apply negb_false_iff, Hc. left.
  - apply IH. intros y Hy. apply Hc. by right.
Qed.

Lemma no_shortfall mode r p paused : run_plan r = Some p → left_behind mode p (replan r) (tickets r) (placed r) paused →
  shortfalls r paused = [] → carried_out mode r.
Proof.
  intros Hp Hl Hs. exists p. split; [exact Hp|]. unfold shortfalls in Hs. rewrite Hp in Hs.
  apply app_nil in Hs as [Hd1 Hs]. apply app_nil in Hs as [Hd2 Hs]. apply app_nil in Hs as [Hk1 Hs]. apply app_nil in Hs as [Hk2 Hs].
  apply app_nil in Hs as [Hpa Hx].
  apply map_none in Hd1, Hk1, Hpa, Hx. split; [|split].
  - unfold left_behind in Hl. unfold orders_done. destruct mode.
    + by apply Hl.
    + by apply reported_fulfilled; [apply Hl|].
    + destruct (replan r) as [q|]; [by apply reported_fulfilled|]. destruct Hl as [Hsell Hl]. split; [exact Hsell|by apply reported_fulfilled].
  - unfold none_denied. destruct (replan r) as [q|]; simpl in *.
    + apply map_none in Hd2. split; intros d Hd.
      * pose proof (filter_none _ _ Hd1 d Hd) as Hf. unfold denied_side in Hf. apply bool_decide_eq_false in Hf. by destruct (p_side _).
      * pose proof (filter_none _ _ Hd2 d Hd) as Hf. unfold denied_side in Hf. apply bool_decide_eq_false in Hf. by destruct (p_side _).
    + by rewrite filter_all in Hd1.
  - unfold none_skipped. destruct (replan r) as [q|]; simpl in *.
    + apply map_none in Hk2. split; intros s Hin Hsh; apply not_material.
      * pose proof (filter_none _ _ Hk1 s Hin) as Hf. simpl in Hf. rewrite (proj2 (sells_sheds p (s_symbol s)) Hsh), andb_true_r in Hf. done.
      * pose proof (filter_none _ _ Hk2 s Hin) as Hf. simpl in Hf. destruct (plan_sells_symbol p (s_symbol s)) eqn:E.
        { by apply sells_sheds in E. } by rewrite andb_true_r in Hf.
    + intros s Hin. apply not_material. pose proof (filter_none _ _ Hk1 s Hin) as Hf. simpl in Hf. by rewrite andb_true_r in Hf.
Qed.
End verdict.

(** ** The whole run *)

Section runs.
Context `{ReferenceRules} `{RustDecimal, !MandateSerde, Sha256}.
Variable ctx : RunContext.

(** What depends on the parts of the record alone. *)
Class Stable (P : Run → Prop) : Prop := stable r r' : part r = part r' → P r → P r'.

(** A step that may stop: a run that stops has not carried its orders out. *)
Definition unsure (r : Run) : Prop := all_carried r = false.
Definition on {A} (Q : A → Run → Prop) (o : option A) (r : Run) : Prop := match o with Some a => Q a r | None => unsure r end.

Lemma hoare_keep {A B} (m : rstep A) (k : A → rstep B) P `{!Stable P} Q :
  keeps ctx m any → (∀ a, hoare ctx P (k a) Q) → hoare ctx P (step_bind m k) Q.
Proof.
  intros Hm Hk. eapply hoare_bind; [apply (keeps_hoare ctx m any P Hm stable)|]. intros a. eapply hoare_pre; [apply Hk|]. by intros r [].
Qed.

Lemma hoare_may {A B} (m : may_stop A) (k : A → may_stop B) P M Q :
  hoare ctx P m (on M) → (∀ a, hoare ctx (M a) (k a) (on Q)) → hoare ctx P (let#? x := m in k x) (on Q).
Proof. intros Hm Hk. eapply hoare_bind; [exact Hm|]. intros [a|]; [apply Hk|by apply hoare_ret]. Qed.

Lemma hoare_on {A} (m : may_stop A) P `{!Stable P} : keeps ctx m any → (∀ r, P r → unsure r) → hoare ctx P m (on (λ _, P)).
Proof.
  intros Hm Hu. eapply hoare_post; [apply (keeps_hoare ctx m any P Hm stable)|]. intros [a|] r [Hp _]; [exact Hp|by apply Hu].
Qed.

Lemma hoare_keep_may {A B} (m : may_stop A) (k : A → may_stop B) P `{!Stable P} Q :
  keeps ctx m any → (∀ r, P r → unsure r) → (∀ a, hoare ctx P (k a) (on Q)) → hoare ctx P (let#? x := m in k x) (on Q).
Proof. intros Hm Hu Hk. eapply hoare_may; [by apply hoare_on|exact Hk]. Qed.

(** Nothing placed or ticketed, with the plan [q] on record, if any. *)
Definition clean (q : option PlanSummary) (r : Run) : Prop := part r = (q, None, [], [], [], false).

#[local] Instance clean_stable q : Stable (clean q).
Proof. intros r r' Hp Hr. unfold clean. by rewrite <- Hp. Qed.

Lemma clean_unsure q r : clean q r → unsure r.
Proof. by intros [=]. Qed.

(** The orders of the run are on the record. *)
Definition executed (r : Run) : Prop :=
  unsure r ∧ ∃ p, run_plan (rec r) = Some p ∧
    left_behind (cx_mode ctx) p (replan (rec r)) (tickets (rec r)) (placed (rec r)) (paused_tickets r).

#[local] Instance executed_stable : Stable executed.
Proof.
  intros r r' E (Hu & p & Hp & Hl). injection E as E1 E2 E3 E4 E5 E6. unfold executed, unsure in *.
  split; [by rewrite <- E6|]. exists p. split; [by rewrite <- E1|]. by rewrite <- E2, <- E3, <- E4, <- E5.
Qed.

Lemma plan_clean targets : hoare ctx (clean None) (step_plan ctx targets) (on (λ p, clean (Some (summarize_plan p)))).
Proof.
  unfold step_plan. apply hoare_keep_may; [apply _|apply keeps_have|apply clean_unsure|]. intros snap.
  apply hoare_keep_may; [apply _|apply keeps_counters|apply clean_unsure|]. intros day.
  apply hoare_keep_may; [apply _|apply keeps_plan_with|apply clean_unsure|]. intros p.
  eapply (hoare_bind ctx _ _ _ (λ _, clean (Some (summarize_plan p)))).
  { apply hoare_modify. intros r [=]. unfold clean, part. simpl. congruence. }
  intros []. apply hoare_keep; [apply _|apply keeps_note|]. intros []. by apply hoare_ret.
Qed.

(** Reading the state: the value is the state. *)
Lemma hoare_get {B} (k : Run → rstep B) P Q : (∀ run, hoare ctx (λ r, P r ∧ part r = part run ∧ P run) (k run) Q) → hoare ctx P (step_bind get k) Q.
Proof. intros Hk r g Hr. exact (Hk r r g (conj Hr (conj eq_refl Hr))). Qed.

Lemma keeps_note_hoare step text P `{!Stable P} : hoare ctx P (note step text) (λ _, P).
Proof. eapply hoare_post; [apply (keeps_hoare ctx _ any P); [apply keeps_note|exact stable]|]. by intros a r []. Qed.

Lemma tickets_clean p : cx_mode ctx = ExecutionMode.Assisted →
  hoare ctx (clean (Some (summarize_plan p))) (write_tickets p) (λ _, executed).
Proof.
  intros Hm. unfold write_tickets. apply hoare_get. intros run. cbv zeta.
  set (allowed := List.filter (λ o, negb (buy_is_paused run o)) (Planner.orders p)).
  eapply (hoare_bind ctx _ _ _ (λ _ r, ∃ pt, part r = (Some (summarize_plan p), None, [], [], pt, false) ∧ (pt = [] → allowed = Planner.orders p))).
  - destruct (buys_paused run) as [why|] eqn:Eb.
    + apply hoare_modify. intros r ([=] & _ & _). eexists. split; [unfold part; simpl; repeat f_equal; congruence|].
      intros Hn. apply map_none in Hn. apply filter_all. intros o Ho. apply negb_true_iff. by apply (filter_none _ _ Hn).
    + apply hoare_ret. intros r (Hc & _ & _). exists []. split; [exact Hc|]. intros _. apply filter_all. intros o _.
      unfold buy_is_paused. by rewrite Eb.
  - intros []. eapply (hoare_bind ctx _ _ _ (λ _, executed)); [|intros []; apply keeps_note_hoare, _].
    apply hoare_modify. intros r (pt & [=] & Ha). split; [done|]. exists (summarize_plan p). split; [done|].
    unfold left_behind. rewrite Hm. simpl. split; [done|]. split; [done|]. intros Hn. apply Ha. congruence.
Qed.

Lemma buy_orders targets p xs0 : cx_mode ctx = ExecutionMode.Live → Forall2 reported (List.filter (is_side Sell) (Planner.orders p)) xs0 →
  hoare ctx (λ r, part r = (Some (summarize_plan p), None, [], xs0, [], false)) (buy_after_sells ctx targets) (on (λ _, executed)).
Proof.
  intros Hm Hsells. unfold buy_after_sells. set (sold r := part r = _).
  assert (Stable sold) by (intros r r' Hp Hr; unfold sold; by rewrite <- Hp).
  assert (∀ r, sold r → unsure r) as Hu by (by intros r [=]).
  apply hoare_keep_may; [apply _|apply keeps_read_snapshot|exact Hu|]. intros snap.
  apply hoare_keep_may; [apply _|apply keeps_counters|exact Hu|]. intros day.
  apply hoare_keep_may; [apply _|apply keeps_plan_with|exact Hu|]. intros q.
  eapply (hoare_bind ctx _ _ _ (λ _ r, part r = (Some (summarize_plan p), Some (summarize_plan q), [], xs0, [], false))).
  { apply hoare_modify. intros r [=]. unfold part. simpl. repeat f_equal; congruence. }
  intros []. cbv zeta. apply hoare_keep; [intros r r' Hp; by rewrite Hp|apply keeps_note|]. intros [].
  eapply hoare_bind; [apply place_all|]. intros []. apply hoare_ret. intros r (xs & Hxs & [=]).
  split; [done|]. exists (summarize_plan p). split; [done|]. unfold left_behind. rewrite Hm.
  replace (replan (rec r)) with (Some (summarize_plan q)). replace (placed (rec r)) with (xs0 ++ xs). by apply Forall2_app.
Qed.

Lemma execute_orders targets p : hoare ctx (clean (Some (summarize_plan p))) (step_execute ctx targets p) (on (λ _, executed)).
Proof.
  unfold step_execute. destruct (cx_mode ctx) eqn:Em.
  - eapply hoare_bind; [by apply tickets_clean|]. intros []. by apply hoare_ret.
  - eapply hoare_bind; [apply place_all|]. intros []. eapply (hoare_pre ctx _ _ executed).
    + apply hoare_keep; [apply _|apply keeps_note|]. intros []. by apply hoare_ret.
    + intros r (xs & Hxs & [=]). split; [done|]. exists (summarize_plan p). split; [done|]. unfold left_behind. rewrite Em.
      split; [done|]. simpl in *. congruence.
  - eapply hoare_bind; [apply place_all|]. intros []. destruct (existsb (is_side Buy) (Planner.orders p)) eqn:Eb; simpl.
    + intros r g (xs & Hxs & Hr). exact (buy_orders targets p xs Em Hxs r g Hr).
    + eapply (hoare_pre ctx _ _ executed).
      * apply hoare_keep; [apply _|apply keeps_note|]. intros []. by apply hoare_ret.
      * intros r (xs & Hxs & [=]). split; [done|]. exists (summarize_plan p). split; [done|]. unfold left_behind. rewrite Em.
        assert (∀ o, o ∈ Planner.orders p → p_side o = Sell) as Hsell.
        { intros o Ho. destruct (p_side o) eqn:Es; [|done]. exfalso. apply not_true_iff_false in Eb. apply Eb, existsb_exists.
          exists o. split; [by apply list_elem_of_In|]. unfold is_side. by rewrite Es. }
        rewrite filter_all in Hxs by (intros o Ho; unfold is_side; by rewrite Hsell).
        replace (replan (rec r)) with (@None PlanSummary). split; [exact Hsell|]. simpl in *. congruence.
Qed.

(** *** After the orders *)

(** A last look changes neither the order nor what was reported of it. *)
Definition same_order (x y : PlacedOrder) : Prop := ∀ o, reported o x → reported o y.

Lemma keeps_look_again x : keeps ctx (look_again x) (same_order x).
Proof.
  unfold look_again. destruct (bool_decide_reflect (pd_outcome x = PlacedOutcome.UnknownNotFound)) as [E|E]; [|apply keeps_ret; by intros o].
  apply keeps_then; [by apply keeps_ask|]. intros [[|first l]|e]; apply keeps_ret; intros o [Hn Hb]; (split; [exact Hn|]); [exact Hb| |exact Hb].
  unfold backed. simpl. by rewrite E.
Qed.

Lemma keeps_map_step l : keeps ctx (map_step look_again l) (Forall2 same_order l).
Proof.
  induction l as [|x l IH]; simpl; [by apply keeps_ret|]. eapply keeps_bind; [apply keeps_look_again|]. intros y Hy.
  eapply keeps_bind; [apply IH|]. intros ys Hys. apply keeps_ret. by constructor.
Qed.

Lemma reported_same l xs ys : Forall2 reported l xs → Forall2 same_order xs ys → Forall2 reported l ys.
Proof.
  intros Hl. revert ys. induction Hl as [|o x l xs Ho Hl IH]; intros ys Hs; inversion Hs; subst; constructor; auto.
Qed.

Lemma left_behind_same p q ts xs ys paused : cx_mode ctx ≠ ExecutionMode.Assisted → Forall2 same_order xs ys →
  left_behind (cx_mode ctx) p q ts xs paused → left_behind (cx_mode ctx) p q ts ys paused.
Proof.
  intros Hm Hs. unfold left_behind. destruct (cx_mode ctx); [done| |].
  - intros [Hq Hl]. split; [exact Hq|by eapply reported_same].
  - destruct q as [q|]; [intros Hl; by eapply reported_same|]. intros [Hq Hl]. split; [exact Hq|by eapply reported_same].
Qed.

Lemma executed_unsure r : executed r → unsure r.
Proof. by intros []. Qed.

Lemma recon_post_executed : hoare ctx executed (step_recon_post ctx) (on (λ _, executed)).
Proof.
  unfold step_recon_post. destruct (bool_decide_reflect (cx_mode ctx = ExecutionMode.Assisted)) as [Hm|Hm].
  { apply hoare_keep; [apply _|apply keeps_note|]. intros []. by apply hoare_ret. }
  apply hoare_get. intros run. cbv zeta.
  assert (Stable (λ r, executed r ∧ part r = part run ∧ executed run)) as Hst.
  { intros r r' E (Hr & Hp & He). split; [exact (stable r r' E Hr)|]. split; [congruence|exact He]. }
  eapply hoare_bind; [apply (keeps_hoare ctx _ _ _ (keeps_map_step (placed (rec run))) stable)|]. intros ps.
  eapply (hoare_bind ctx _ _ _ (λ _, executed)).
  { apply hoare_modify. intros r ((_ & [=] & (Hu & p & Hp & Hl)) & Hs). split; [unfold unsure in *; simpl; congruence|].
    exists p. split; [simpl; congruence|]. eapply left_behind_same in Hl; [|exact Hm|exact Hs]. simpl. congruence. }
  intros []. apply hoare_on; [apply _| |apply executed_unsure]. generalize (expectation ctx <$> ps). intros expected. unfold now_. keep.
Qed.

(** A run whose orders count as carried out did carry them out. *)
Definition assessed (r : Run) : Prop := all_carried r = true → carried_out (cx_mode ctx) (rec r).

(** The verdict reads the parts of the record a step keeps. *)
Lemma carried_out_part mode r r' : run_plan r = run_plan r' → replan r = replan r' → tickets r = tickets r' → placed r = placed r' →
  carried_out mode r → carried_out mode r'.
Proof.
  intros E1 E2 E3 E4. unfold carried_out, orders_done, none_denied, none_skipped. by rewrite E1, E2, E3, E4.
Qed.

#[local] Instance assessed_stable : Stable assessed.
Proof.
  intros r r' E Hr. injection E as E1 E2 E3 E4 _ E6. unfold assessed. intros Ha. eapply carried_out_part; [exact E1|exact E2|exact E3|exact E4|].
  apply Hr. congruence.
Qed.

Lemma unsure_assessed r : unsure r → assessed r.
Proof. unfold unsure, assessed. congruence. Qed.

Lemma assess_assessed : hoare ctx executed (step_assess ctx) (λ _, assessed).
Proof.
  unfold step_assess. apply hoare_get. intros run. cbv zeta. destruct (shortfalls _ _) as [|gap gaps] eqn:Es.
  - eapply (hoare_bind ctx _ _ _ (λ _, assessed)).
    + apply hoare_modify. intros r (_ & E & (_ & p & Hp & Hl)). injection E as E1 E2 E3 E4 _ _. intros _.
      eapply carried_out_part; [symmetry; exact E1|symmetry; exact E2|symmetry; exact E3|symmetry; exact E4|]. by eapply no_shortfall.
    + intros []. apply hoare_keep; [apply _|apply keeps_stop|]. intros u. by apply hoare_ret.
  - eapply (hoare_pre ctx _ _ assessed); [|intros r [Hr _]; by apply unsure_assessed, executed_unsure].
    apply hoare_keep; [apply _|apply keeps_note|]. intros []. apply hoare_keep; [apply _|apply keeps_alert|]. intros [].
    apply hoare_keep; [apply _|apply keeps_stop|]. intros u. by apply hoare_ret.
Qed.

#[local] Hint Resolve keeps_venue_policy keeps_kill_flag keeps_mandate keeps_decisions keeps_read_account keeps_halted_check keeps_cleanup
  keeps_recon_pre keeps_risk keeps_targets : keeps.

Lemma execute_assessed : hoare ctx (clean None) (execute ctx) (λ _, assessed).
Proof.
  eapply (hoare_post ctx _ _ _ (on (λ _, assessed))).
  2: { intros [u|] r Hr; [exact Hr|by apply unsure_assessed]. }
  unfold execute. repeat (apply hoare_keep_may; [apply _|by auto with keeps|apply clean_unsure|intros ?]).
  eapply hoare_may; [apply plan_clean|]. intros p. eapply hoare_may; [apply execute_orders|]. intros [].
  eapply hoare_may; [apply recon_post_executed|]. intros []. eapply hoare_bind; [apply assess_assessed|]. intros []. by apply hoare_ret.
Qed.

Lemma finish_allowed : hoare ctx assessed (finish_run ctx) (λ _ _, True).
Proof.
  unfold finish_run. apply hoare_get. intros run.
  set (mid r := assessed r ∧ part r = part run).
  assert (Stable mid) as Hst.
  { intros r r' E [Hr Hp]. split; [exact (stable r r' E Hr)|congruence]. }
  eapply (hoare_pre ctx _ _ mid); [|by intros r (Ha & Hp & _)].
  apply hoare_keep; [apply _|by apply keeps_edit|]. intros []. apply hoare_keep; [apply _|by apply keeps_ask|]. intros t. cbv zeta.
  set (completed := bool_decide _).
  set (settled r := mid r ∧ ∃ l, decisions (rec r) = settle_decisions completed (all_carried run) l).
  eapply (hoare_bind ctx _ _ _ (λ _, settled)).
  { apply hoare_modify. intros r Hm. split; [exact (stable _ _ eq_refl Hm)|]. by exists (decisions (rec r)). }
  intros []. unfold settled. intros r g ([Ha Hp] & l & Hl). simpl. split.
  { intros (d & Hd & Hacted). rewrite Hl in Hd. unfold settle_decisions in Hd. apply list_elem_of_fmap in Hd as (d0 & -> & _).
    simpl in Hacted. apply Ha. apply andb_true_iff in Hacted as [_ Hc]. injection Hp as _ _ _ _ _ ->. exact Hc. }
  intros w _. 
  assert (keeps ctx (let# _ := match w with
    | Ok _ => ret tt
    | Err e =>
        let msg := "the run record could not be written: " +:+ RunStoreError.display e in
        let# _ := edit (fun r => r <| steps := steps r ++
          [{| sn_step := "finish"; sn_at := run_finished_at r; sn_note := msg |}] |>) in
        alert ctx AlertCode.RunFailed AlertSeverity.Critical msg "failed:record"
    end in
  let# run := get in
  ret (rec run)) any) as Hk.
  { destruct w; keep. }
  eapply always_mono; [exact (Hk (part r) r tt eq_refl)|]. done.
Qed.

Lemma run_once_carried memo : always (record_rules ctx) (run_once ctx memo) tt (λ _ _, True).
Proof.
  assert (∀ started, hoare ctx (clean None) (run_steps ctx started) (λ _ _, True)) as Hsteps.
  { intros started. unfold run_steps. apply hoare_keep; [apply _|by apply keeps_ask|].
    assert (∀ m : rstep RunRecord, keeps ctx m any → hoare ctx (clean None) m (λ _ _, True)) as Hend.
    { intros m Hm. eapply hoare_post; [apply (keeps_hoare ctx m any (clean None) Hm stable)|]. done. }
    intros [[n|first|since]|e].
    - apply hoare_keep; [apply _|by apply keeps_edit|]. intros []. apply hoare_keep; [apply _|apply keeps_note|]. intros [].
      eapply hoare_bind; [apply execute_assessed|]. intros o. apply finish_allowed.
    - by apply hoare_ret.
    - apply Hend. unfold set_outcome, leave, now_. keep.
    - apply Hend. unfold set_outcome, leave, now_. keep. }
  unfold run_once. split; [done|]. intros started _. apply always_bind.
  eapply always_mono; [by apply (Hsteps started (new_run ctx started memo) tt)|]. done.
Qed.
End runs.

(** C12. A record a run persists that counts a decision as acted is the record of a run that completed and did what it
    planned. The record is of the run's key, its outcome is the completed one, the decision was planned, and there is a
    plan. In assisted mode every order of the plan is on a ticket. In paper mode every order of the plan, in order, and in
    live mode every sell of the plan and every buy of the plan made again after the sells (a plan without buys has only
    sells), is on the record as placed under its tag, symbol and side, and was validated or has a report of the broker
    that it filled or that some of it executed. No sell of the first plan and no buy of the second was denied by the guard
    (no order at all when there is no second plan), and what was skipped was dust or had no money. Whatever the broker, the
    clock, the stores and the data answer. *)
Theorem acted_records_are_truthful `{ReferenceRules} `{RustDecimal, !MandateSerde, Sha256} ctx memo tr out r w d :
  book_ok (cx_rules ctx) → dec_ok (cf_recovery_fraction (cx_config ctx)) →
  runs (run_once ctx memo) tr out → Forall (believable (run_discipline ctx)) tr →
  happened (Ev (FinishRun r) w) tr → d ∈ decisions r → acted d = true →
  run_key r = key_of_run ctx ∧ planned d = true ∧ run_outcome r = completed ctx ∧ carried_out (cx_mode ctx) r.
Proof.
  intros Hr Hrec Hrun Hb Hh Hd Ha.
  destruct (acted_records_honest ctx memo tr out r w d Hr Hrec Hrun Hb Hh Hd Ha) as (Hk & Hp & Ho & _).
  split; [exact Hk|]. split; [exact Hp|]. split; [exact Ho|]. destruct Hh as (tr1 & tr2 & ->).
  assert (∀ l, Forall (believable (record_rules ctx)) l) as Hany by (induction l as [|[B c b] l IH]; by constructor).
  destruct (always_runs _ _ _ _ _ _ (run_once_carried ctx memo) Hrun (Hany _)) as [Hobeys _].
  apply (obeys_split (record_rules ctx)) in Hobeys. apply Hobeys. by exists d.
Qed.
