(* ===== verification/RunScenario.v ===== *)
(** * RunScenario: a live run against a concrete broker

    A run that sells, re-reads the account, buys, reconciles and records what it did: the theorems on runs apply to it. *)

From Stdlib Require Import ZArith Lia String Ascii.
From stdpp Require Import relations.
From S2P Require Import Prelude Assoc Calls Text BTree F64 Externals Decimal DecMath Mandate Policy Broker Alpaca Venue RiskState Overlay RiskStore View Recon Flatten FlattenFacts RiskFacts Guard Planner PlanFacts Data Decision Record RunStore RunCalls RunSteps RunOrders Pipeline RunRules RunFacts RunTrade RunTheorems RunCarried.

Local Open Scope Z_scope.

Module RunScene.
Import Baseline.

(** A rule that always wants 60% of SPY and 10% of EFA; a panel is the day it ends on, which is the decision date. *)
Definition wants (s : string) (w : f64) : InstrumentDecision :=
  {| id_symbol := s; id_close := f64_one; id_sma := f64_one; id_signal := Long; id_weight := w |}.

#[export] Instance fixed_rules : ReferenceRules := {|
  PriceSeries := unit; Panel := Z; Options := unit; CryptoDecision := unit; RuleError := string;
  rule_error_display e := e;
  ETF_SYMBOLS := ["SPY"; "EFA"]; CRYPTO_SYMBOLS := []; ETF_SMA_MONTH_ENDS := 10; CRYPTO_SMA_DAYS := 100;
  MOMENTUM_RANK_WEIGHTED_DEFAULT_LOOKBACK := 126; ETF_WEIGHT_PER_INSTRUMENT := f64_of_ratio 1 5;
  CRYPTO_WEIGHT_PER_INSTRUMENT := f64_of_ratio 1 2; ETF_MAX_STALE_DAYS := 7; ETF_MAX_MISSING_WEEKDAYS := 5;
  series_symbol _ := "SPY"; series_dates _ := [5]; series_closes _ := [f64_one]; last_date _ := 5;
  panel_series _ := [tt]; panel_get _ _ := Ok tt; data_fingerprint _ := "f";
  latest_decision_date p _ := Ok p; missing_weekdays_between _ _ := 0;
  options_etf_live _ := tt; options_crypto_live _ := tt; any_panel_end o := o;
  decide_etf_trend_with_weight _ d _ _ _ _ :=
    Ok {| etf_decision_date := d; etf_month_end_dates := [];
          etf_instruments := [wants "SPY" (f64_of_ratio 6 10); wants "EFA" (f64_of_ratio 1 10)] |};
  decide_crypto_trend_with _ _ _ _ _ := Err "no crypto"; crypto_instruments _ := [];
  momentum_rank_weights _ _ _ := [];
  FormingBar s _ _ := s; StaleData s _ _ _ := s; EmptySeries s := s; DateNotInPanel s _ := s; DataGap s _ _ _ _ _ := s;
|}.

(** ** The world: a broker that fills every order at its price, and the in-memory stores *)

Record World := { clock : DateTime; runs_ : RunStore; states_ : Inner; filled : list OrderRequest }.

#[export] Instance world_eta : Eta World := fun w =>
  {| clock := clock w; runs_ := runs_ w; states_ := states_ w; filled := filled w |}.

Definition dec (m : math Dec) : Dec := match m with Ok d => d | Err _ => ZERO end.
Definition price_of_symbol (s : string) : Dec := if bool_decide (s = "SPY") then lit "484.75" else lit "85".
Definition cost_of (r : OrderRequest) : Dec := dec (mul (req_quantity r) (price_of_symbol (req_symbol r))).

Definition position_of (l : list OrderRequest) (s start : string) : Dec :=
  fold_left (fun q r =>
    if negb (bool_decide (req_symbol r = s)) then q
    else dec (match req_side r with Buy => add q (req_quantity r) | Sell => sub q (req_quantity r) end)) l (lit start).

Definition cash_of (l : list OrderRequest) : Dec :=
  fold_left (fun c r => dec (match req_side r with Buy => sub c (cost_of r) | Sell => add c (cost_of r) end)) l (lit "60.5").

Definition position_row (s : string) (q : Dec) : list Holding :=
  if is_zero q then [] else
  [{| hold_symbol := s; hold_class := "us_etf"; hold_quantity := q; mark := Some (price_of_symbol s);
      hold_value := dec (mul q (price_of_symbol s)) |}].

Definition snapshot_of (t : DateTime) (l : list OrderRequest) : BrokerSnapshot :=
  {| s_venue := "alpaca"; s_ccy := "USD"; s_equity := lit "1030"; s_cash := cash_of l;
     holdings := position_row "SPY" (position_of l "SPY" "2") ++ position_row "EFA" (position_of l "EFA" "0");
     unvalued := []; open_orders := []; excluded_balances := []; taken_at := t; derived_equity := lit "1030" |}.

Definition order_id (n : nat) : string := show_int (Z.of_nat n).

Definition report_of (id : string) (r : OrderRequest) : OrderReport :=
  {| rep_id := id; rep_userref := None; rep_tag := Some (req_tag r); rep_symbol := req_symbol r; rep_side := Some (req_side r);
     rep_kind := Some Market; rep_status := OrderStatus.Filled; rep_raw_status := "filled"; rep_reason := None;
     rep_quantity := req_quantity r; rep_executed := req_quantity r; rep_avg_price := Some (price_of_symbol (req_symbol r));
     rep_cost := Some (cost_of r); rep_fee := Some ZERO; rep_financing := f64_zero; rep_open_time := None; rep_close_time := None |}.

Definition reports_of (l : list OrderRequest) : list OrderReport := imap (fun n r => report_of (order_id n) r) l.

Definition find_report (l : list OrderReport) (id : string) : broker OrderReport :=
  match List.filter (fun r => bool_decide (rep_id r = id)) l with
  | r :: _ => Ok r
  | [] => Err (BrokerError.Malformed "no such order")
  end.

Definition sent (r : OrderRequest) : SentOrder :=
  {| sent_broker_pair := req_symbol r; sent_side := req_side r; sent_quantity := req_quantity r; sent_price := None;
     sent_userref := 0; sent_validate_only := req_validate_only r |}.

(** Only well-formed answers leave the broker. *)
Definition well_formed {E A} (f : A → bool) (r : result E A) (e : E) : result E A :=
  match r with Ok a => if f a then Ok a else Err e | Err e => Err e end.
Definition holdings_okb (s : BrokerSnapshot) : bool :=
  forallb (fun h => dec_okb (hold_quantity h) && dec_okb (hold_value h) && match mark h with Some m => dec_okb m | None => true end)
    (holdings s).

Definition ask_broker (w : World) {B} (c : Flatten.call B) : B * World :=
  match c in Flatten.call B' return B' * World with
  | Now => (clock w, w)
  | SleepSecs _ => (tt, w)
  | Snapshot t => (well_formed holdings_okb (Ok (snapshot_of t (filled w))) (SnapshotError.View (ViewError.Overflow "holdings")), w)
  | Place req =>
      if req_validate_only req then (Ok (PlaceOutcome.ValidatedOnly None (sent req) []), w)
      else (Ok (PlaceOutcome.Accepted (order_id (length (filled w))) None (sent req) []),
            w <| filled := filled w ++ [req] |>)
  | GetOrder id => (well_formed (fun r => dec_okb (rep_executed r)) (find_report (reports_of (filled w)) id) (BrokerError.Malformed "decimals"), w)
  | OpenOrders => (Ok [], w)
  | FindByTag t => (Ok (List.filter (fun r => bool_decide (rep_tag r = Some t)) (reports_of (filled w))), w)
  | CancelAndSettle id => (Err (BrokerError.CancelTargetNotFound id), w)
  end.

Definition with_runs {B} (w : World) (x : B * RunStore) : B * World := (x.1, w <| runs_ := x.2 |>).
Definition with_states {B} (w : World) (x : B * Inner) : B * World := (x.1, w <| states_ := x.2 |>).

Definition price_points (t : DateTime) : BTreeMap string PricePoint :=
  bt_of_list ((fun s => (s, {| price := price_of_symbol s; as_of := t |})) <$> ["SPY"; "EFA"]%string).

Definition world (B : Type) (c : run_call B) (w : World) : B * World :=
  match c in run_call B' return B' * World with
  | BrokerCall c => ask_broker w c
  | DataCall c => (match c in data_call B' return B' with SleeveDataOf _ day => Ok {| panel := (day : Z) : Panel; gate := None |} end, w)
  | PricesOf _ _ => (Ok (price_points (clock w)), w)
  | LoadState a => with_states w (mem_load (states_ w) a)
  | SaveState v s => with_states w (mem_save (states_ w) v s)
  | BeginRun k d t lease => with_runs w (begin (runs_ w) k d t lease)
  | JournalOrder k e => with_runs w (journal_order (runs_ w) k e)
  | InFlight a => with_runs w (in_flight (runs_ w) a)
  | FinishRun r => with_runs w (finish (runs_ w) r)
  | LastSnapshot a => with_runs w (last_snapshot (runs_ w) a)
  | KnownOrderIds a => with_runs w (RunStore.known_order_ids (runs_ w) a)
  | DayCountersOf a d => with_runs w (day_counters (runs_ w) a d)
  | LastActedDecision a s => with_runs w (last_acted_decision (runs_ w) a s)
  | NotifyOf _ => (Ok tt, w)
  | KillFlagIsSet => (Ok false, w)
  end.

Definition sleeve_spec : SleeveSpec :=
  {| sp_id := "etf"; sp_kind := SleeveKind.EtfTrend; sp_share := lit "1"; sp_venue := "alpaca"; sp_asset_class := "us_etf";
     sp_quote := "USD"; sp_instruments := []; sp_tranche_sessions := 0; sp_lookback := None |}.

(** In force for a month. *)
Definition envelope : MandateEnvelope :=
  {| env_version := 3; env_status := MandateStatus.Active; effective_from := at_secs 1000; review_by := at_secs 2592000 |}.

(** The slot of a day, and the run of it ten seconds later. *)
Definition slot (day : Z) : DateTime := at_secs (86400 * day + 1990).

Definition ctx_of (m : ExecutionMode) (day : Z) : RunContext :=
  {| cx_account := "acct"; cx_scheduled_for := slot day; cx_day := date_naive (slot day); cx_mode := m;
     cx_sleeves := [sleeve_spec]; cx_mandate := Some mandate; cx_envelope := Some envelope; cx_venue := "alpaca";
     cx_environment := VenueEnvironment.Live; cx_rules := Rebalance.book; cx_config := default_config |}.

Definition new_world : World := {| clock := at_secs 2000; runs_ := empty_store; states_ := new_store; filled := [] |}.
Definition on_day (day : Z) (w : World) : World := w <| clock := at_secs (86400 * day + 2000) |>.

(** The run of a day in a world: its calls and its record; and the world it leaves. *)
Definition scene (m : ExecutionMode) (day : Z) (w : World) : list (event run_call) * (RunRecord * option EvalCache) :=
  exec world (run_once (ctx_of m day) None) (on_day day w).
Definition record_of (m : ExecutionMode) (day : Z) (w : World) : RunRecord := (scene m day w).2.1.

Fixpoint world_after {A} (p : prog run_call A) (w : World) : World :=
  match p with
  | Ret _ => w
  | Do c k => let '(b, w') := world _ c w in world_after (k b) w'
  end.
Definition after_run (m : ExecutionMode) (day : Z) (w : World) : World := world_after (run_once (ctx_of m day) None) (on_day day w).

(** What the tests look at: the outcome's code and the orders filled so far. *)
Definition code_of (r : RunRecord) : string := oc_code (run_outcome r).
Definition fills (w : World) : list (string * Side) := (fun r => (req_symbol r, req_side r)) <$> filled w.

Definition first_day : World := after_run ExecutionMode.Live 1 new_world.

(** An attempt on day 2 journals an order and dies; the broker fills the order. *)
Definition lost_order : OrderRequest := req_with_reference (req_market "rb1:lost" "EFA" Buy (lit "0.5")) (lit "85").
Definition crashed : World :=
  let key := key_of_run (ctx_of ExecutionMode.Live 2) in
  let g := (begin (runs_ first_day) key (date_naive (slot 2)) (slot 2) 900).2 in
  let g := (journal_order g key {| j_tag := "rb1:lost"; j_broker_order_id := None; j_notional := lit "42.5" |}).2 in
  first_day <| runs_ := g |> <| filled := filled first_day ++ [lost_order] |>.
Definition third_day : World := after_run ExecutionMode.Live 3 crashed.

(** An account whose high-water mark was 2000: half of it is gone. *)
Definition fallen : World :=
  let s := new_state "acct" in
  let s := {| account := account s; version := version s; status := status s; scale_now := scale_now s; shrink_rung := shrink_rung s;
              hwm := Some (lit "2000"); day_start_equity := day_start_equity s; trading_day := trading_day s;
              last_equity := last_equity s; last_equity_at := last_equity_at s; halt_record := halt_record s; resumes := resumes s |} in
  new_world <| states_ := (mem_save new_store 0 s).2 |>.

(** ** What a trace says *)

Definition sent_of (e : event run_call) : list OrderRequest :=
  match e with Ev c _ => match c with BrokerCall (Place r) => [r] | _ => [] end end.
Definition record_in (e : event run_call) : list RunRecord :=
  match e with Ev c _ => match c with FinishRun r => [r] | _ => [] end end.
(** The status of the saved states, with their versions. *)
Definition save_in (e : event run_call) : list (Z * AccountState) :=
  match e with Ev c _ => match c with SaveState v s => [(v, s)] | _ => [] end end.
Fixpoint collect_events {A} (f : event run_call → list A) (tr : list (event run_call)) : list A :=
  match tr with
  | [] => []
  | e :: tr' => f e ++ collect_events f tr'
  end.
End RunScene.

(** A first run sells, re-reads the account and buys; its record is complete, and a second run of the slot is the same
    record without a call to the broker. *)
Example first_run :
  (RunScene.code_of (RunScene.record_of ExecutionMode.Live 1 RunScene.new_world), RunScene.fills RunScene.first_day)
    = ("RUN_COMPLETED", [("SPY", Sell); ("EFA", Buy)])%string ∧
  length (RunScene.scene ExecutionMode.Live 1 RunScene.first_day).1 = 2%nat ∧
  RunScene.fills (RunScene.after_run ExecutionMode.Live 1 RunScene.first_day) = RunScene.fills RunScene.first_day.
Proof. vm_compute. done. Qed.

(** A drawdown of half the account: the flatten sells everything, and the next run is refused. *)
Example fallen_run :
  (RunScene.code_of (RunScene.record_of ExecutionMode.Live 1 RunScene.fallen),
   RunScene.fills (RunScene.after_run ExecutionMode.Live 1 RunScene.fallen),
   RunScene.code_of (RunScene.record_of ExecutionMode.Live 2 (RunScene.after_run ExecutionMode.Live 1 RunScene.fallen)))
    = ("HALT_DRAWDOWN_LADDER", [("SPY", Sell)], "RUN_ACCOUNT_HALTED")%string.
Proof. vm_compute. done. Qed.

(** The journal of an attempt that crashed stays in flight: the run after the crash accounts for its fill, and the run
    after that accounts for it again and halts the account, which holds exactly what it should. *)
Example crashed_attempt_counts_twice :
  RunScene.code_of (RunScene.record_of ExecutionMode.Live 3 RunScene.crashed) = "RUN_COMPLETED"%string ∧
  RunScene.code_of (RunScene.record_of ExecutionMode.Live 4 RunScene.third_day) = "HALT_RECONCILIATION"%string ∧
  (j_tag <$> default [] (ok (in_flight (RunScene.runs_ RunScene.third_day) "acct").1)) = ["rb1:lost"]%string.
Proof. vm_compute. done. Qed.

(** ** The theorems applied to the first run *)

Module RunApplied.
Import RunScene Baseline.

Lemma collect_events_split {A} (f : event run_call → list A) tr x : (∀ e, f e = [] ∨ ∃ y, f e = [y]) →
  ∀ n, collect_events f tr !! n = Some x → ∃ tr1 e tr2, tr = tr1 ++ e :: tr2 ∧ f e = [x].
Proof.
  intros Hf. induction tr as [|e tr IH]; simpl; intros n Hn; [done|]. destruct (Hf e) as [He|[y He]]; rewrite He in Hn; simpl in Hn.
  - destruct (IH _ Hn) as (tr1 & e' & tr2 & -> & He'). by exists (e :: tr1), e', tr2.
  - destruct n as [|n]; simpl in Hn.
    + injection Hn as ->. by exists [], e, tr.
    + destruct (IH _ Hn) as (tr1 & e' & tr2 & -> & He'). by exists (e :: tr1), e', tr2.
Qed.

Lemma nth_send tr n req : collect_events sent_of tr !! n = Some req →
  ∃ tr1 b tr2, tr = tr1 ++ Ev (BrokerCall (Place req)) b :: tr2.
Proof.
  intros Hn. apply (collect_events_split sent_of) in Hn as (tr1 & e & tr2 & -> & He).
  - destruct e as [B [B' c|B' c| | | | | | | | | | | | |] b]; try done. destruct c; try done. injection He as <-. by exists tr1, b, tr2.
  - intros [B [B' c|B' c| | | | | | | | | | | | |] b]; simpl; try by left. destruct c; simpl; try (by left). right. by eexists.
Qed.

Lemma nth_record tr n r : collect_events record_in tr !! n = Some r → ∃ w, happened (Ev (FinishRun r) w) tr.
Proof.
  intros Hn. apply (collect_events_split record_in) in Hn as (tr1 & e & tr2 & -> & He).
  - destruct e as [B [B' c|B' c| | | | | | | | | | | | |] b]; try done. injection He as <-. exists b. by exists tr1, tr2.
  - intros [B [B' c|B' c| | | | | | | | | | | | |] b]; simpl; try by left. right. by eexists.
Qed.

Lemma nth_save tr n v s : collect_events save_in tr !! n = Some (v, s) → ∃ tr1 b tr2, tr = tr1 ++ Ev (SaveState v s) b :: tr2.
Proof.
  intros Hn. apply (collect_events_split save_in) in Hn as (tr1 & e & tr2 & -> & He).
  - destruct e as [B [B' c|B' c| | | | | | | | | | | | |] b]; try done. injection He as <- <-. by exists tr1, b, tr2.
  - intros [B [B' c|B' c| | | | | | | | | | | | |] b]; simpl; try by left. right. by eexists.
Qed.

(** Every answer of the world is believable. *)
Lemma holdings_okb_spec s : holdings_okb s = true → snapshot_ok s.
Proof.
  unfold holdings_okb. rewrite forallb_forall. intros Hs h Hh%list_elem_of_In. specialize (Hs h Hh).
  rewrite !andb_true_iff, !dec_okb_spec in Hs. destruct Hs as [[Hq Hv] Hm]. split; [done|done|].
  intros m Hm'. rewrite Hm' in Hm. by apply dec_okb_spec.
Qed.

Lemma world_believable B (c : run_call B) w : run_plausible B c (world B c w).1.
Proof.
  destruct c as [B' c|B' c| | |v s| | | | | | | | | |]; simpl; try done.
  - destruct c as [| |t|req|id| |t|id]; simpl; try done.
    + intros s. unfold well_formed. destruct (holdings_okb _) eqn:Eh; [|done]. intros [= <-]. split; [by apply holdings_okb_spec|apply lit_ok].
    + intros o. unfold well_formed. destruct (find_report _ _) as [r|]; [|done]. destruct (dec_okb _) eqn:Eo; [|done].
      intros [= <-]. by apply dec_okb_spec.
  - intros s' Hs. destruct (mem_save (states_ w) v s) as [r st'] eqn:E. simpl in Hs. subst r.
    change (save (states_ w) v s = (Ok s', st')) in E. apply save_ok in E as (_ & _ & -> & _). by eexists.
Qed.

Lemma exec_run_believable ctx {A} (p : prog run_call A) w : Forall (believable (run_discipline ctx)) (exec world p w).1.
Proof.
  revert w. induction p as [a|B c k IH]; intros w; simpl; [constructor|].
  pose proof (world_believable B c w) as Hb. destruct (world B c w) as [b w']. specialize (IH b w').
  destruct (exec world (k b) w') as [tr a]. by constructor.
Qed.

Abbreviation live_ctx := (ctx_of ExecutionMode.Live 1).
Abbreviation day_one := (scene ExecutionMode.Live 1 new_world).

Lemma runs_scene m day w : runs (run_once (ctx_of m day) None) (scene m day w).1 (scene m day w).2.
Proof. apply exec_runs. Qed.

Lemma runs_scene_pair m day w : runs (run_once (ctx_of m day) None) (scene m day w).1 ((scene m day w).2.1, (scene m day w).2.2).
Proof. rewrite <- surjective_pairing. apply runs_scene. Qed.

Lemma scene_believable m day w : Forall (believable (run_discipline (ctx_of m day))) (scene m day w).1.
Proof. apply exec_run_believable. Qed.

(** The second order of the run: the buy. *)
Lemma second_order :
  (λ r, (req_symbol r, starts_with (req_tag r) FLATTEN_TAG_PREFIX)) <$> collect_events sent_of day_one.1 !! 1%nat
    = Some ("EFA"%string, false).
Proof. vm_compute. reflexivity. Qed.

(** Where it is sent. *)
Lemma second_order_sent : ∃ tr1 req b tr2, day_one.1 = tr1 ++ Ev (BrokerCall (Place req)) b :: tr2 ∧
  req_symbol req = "EFA"%string ∧ starts_with (req_tag req) FLATTEN_TAG_PREFIX = false.
Proof.
  destruct (proj1 (fmap_Some _ _ _) second_order) as (req & E & Hr). apply nth_send in E as (tr1 & b & tr2 & E).
  injection Hr as Hs Ht. exists tr1, req, b, tr2. split; [exact E|]. split; symmetry; [exact Hs|exact Ht].
Qed.

Lemma recovery_ok : dec_ok (cf_recovery_fraction default_config).
Proof. by apply dec_okb_spec. Qed.

Lemma run_orders_licensed_witness : ∃ tr1 req b tr2, day_one.1 = tr1 ++ Ev (BrokerCall (Place req)) b :: tr2 ∧
  req_symbol req = "EFA"%string ∧
  let w := fold_left (see (run_discipline live_ctx)) tr1 (watcher_start live_ctx) in run_order live_ctx w req ∨ flatten_order live_ctx w req.
Proof.
  destruct second_order_sent as (tr1 & req & b & tr2 & E & Hs & _). exists tr1, req, b, tr2. split; [exact E|]. split; [exact Hs|].
  exact (run_orders_licensed live_ctx None _ _ tr1 req b tr2 Rebalance.book_is_ok recovery_ok (runs_scene _ _ _) (scene_believable _ _ _) E).
Defined.

Lemma kill_flag_gates_the_broker_witness : ∃ tr1 req b tr2, day_one.1 = tr1 ++ Ev (BrokerCall (Place req)) b :: tr2 ∧
  req_symbol req = "EFA"%string ∧ happened (Ev KillFlagIsSet (Ok false)) tr1.
Proof.
  destruct second_order_sent as (tr1 & req & b & tr2 & E & Hs & _). exists tr1, req, b, tr2. split; [exact E|]. split; [exact Hs|].
  exact (proj1 (kill_flag_gates_the_broker live_ctx None _ _ tr1 _ (Place req) b tr2 Rebalance.book_is_ok recovery_ok (runs_scene _ _ _) (scene_believable _ _ _) E)).
Defined.

Lemma real_orders_are_journaled_first_witness : ∃ tr1 req b tr2, day_one.1 = tr1 ++ Ev (BrokerCall (Place req)) b :: tr2 ∧
  req_symbol req = "EFA"%string ∧ journaled live_ctx tr1 (req_tag req) (req_tag req).
Proof.
  destruct second_order_sent as (tr1 & req & b & tr2 & E & Hs & Ht). exists tr1, req, b, tr2. split; [exact E|]. split; [exact Hs|].
  exact (real_orders_are_journaled_first live_ctx None _ _ tr1 req b tr2 Rebalance.book_is_ok recovery_ok (runs_scene _ _ _) (scene_believable _ _ _) E eq_refl Ht).
Defined.

(** A run of the fallen account: the halt is saved, then its completion. *)
Abbreviation fall := (scene ExecutionMode.Live 1 fallen).
Lemma second_save : (λ x, (x.1, AccountStatus.as_str (status x.2))) <$> collect_events save_in fall.1 !! 1%nat = Some (2, "halted"%string).
Proof. vm_compute. reflexivity. Qed.

Lemma second_save_made : ∃ tr1 next b tr2, fall.1 = tr1 ++ Ev (SaveState 2 next) b :: tr2 ∧ AccountStatus.as_str (status next) = "halted"%string.
Proof.
  destruct (proj1 (fmap_Some _ _ _) second_save) as ([v next] & E & Hr). injection Hr as Hv Hs. simpl in Hv, Hs. subst v.
  apply nth_save in E as (tr1 & b & tr2 & E). exists tr1, next, b, tr2. split; [exact E|]. symmetry. exact Hs.
Qed.

Lemma runs_never_resume_witness : ∃ tr1 next b tr2, fall.1 = tr1 ++ Ev (SaveState 2 next) b :: tr2 ∧
  let s := acct (fold_left (see (run_discipline live_ctx)) tr1 (watcher_start live_ctx)) in
  2 = version s ∧ rtc auto_step s next ∧ (AccountStatus.is_halt (status s) = true → frozen s next).
Proof.
  destruct second_save_made as (tr1 & next & b & tr2 & E & Hs). exists tr1, next, b, tr2. split; [exact E|].
  exact (runs_never_resume live_ctx None _ _ tr1 2 next b tr2 Rebalance.book_is_ok recovery_ok (runs_scene _ _ _) (scene_believable _ _ _) E).
Defined.

(** The record of the run counts its one decision as acted. *)
Lemma acted_decision : ((λ r, existsb acted (decisions r)) <$> collect_events record_in day_one.1 !! 0%nat) = Some true.
Proof. vm_compute. done. Qed.

Lemma acted_on_day_one : ∃ r w d, happened (Ev (FinishRun r) w) day_one.1 ∧ d ∈ decisions r ∧ acted d = true.
Proof.
  destruct (proj1 (fmap_Some _ _ _) acted_decision) as (r & E & Ha). apply nth_record in E as [w Hw].
  symmetry in Ha. apply existsb_exists in Ha as (d & Hd%list_elem_of_In & Ha). exists r, w, d. split; [exact Hw|]. by split.
Qed.

Lemma acted_records_are_truthful_witness : ∃ r w d, happened (Ev (FinishRun r) w) day_one.1 ∧ d ∈ decisions r ∧
  acted d = true ∧ run_outcome r = completed live_ctx ∧ carried_out (cx_mode live_ctx) r.
Proof.
  destruct acted_on_day_one as (r & w & d & Hh & Hd & Ha). exists r, w, d. split; [exact Hh|]. split; [exact Hd|]. split; [exact Ha|].
  by destruct (acted_records_are_truthful live_ctx None _ _ r w d Rebalance.book_is_ok recovery_ok (runs_scene _ _ _) (scene_believable _ _ _) Hh Hd Ha)
    as (_ & _ & Ho & Hp).
Defined.

Lemma started_runs_are_recorded_witness : ∃ t begun tr',
  day_one.1 = Ev (BrokerCall Now) t :: Ev (BeginRun (key_of_run live_ctx) (cx_day live_ctx) t (lease_secs (cx_config live_ctx))) begun :: tr'.
Proof.
  destruct (started_runs_are_recorded live_ctx None day_one.1 day_one.2.1 day_one.2.2 (runs_scene_pair _ _ _)) as (t & begun & tr' & E & _).
  exists t, begun, tr'. exact E.
Defined.
End RunApplied.
