(* ===== verification/Service.v ===== *)
(** * Service: what the unattended service shares (crates/rebalancer-run/src/driver.rs)

    The accounts it acts for, their runtimes, the per-account lock, and a run or a reading as it is called: under
    [catch_unwind], so that a panic in one account ends there. *)

From Stdlib Require Import ZArith Lia String Ascii.
From S2P Require Import Prelude Assoc Calls Text BTree F64 Externals Decimal DecMath Mandate Policy Broker Venue RiskState Overlay RiskStore View Recon Flatten Guard Planner Data Decision Record RunStore RunCalls RunSteps RunOrders Pipeline.

Local Open Scope Z_scope.

Section service.
Context `{ReferenceRules}.

(** ** Accounts and runtimes *)

Record ActiveAccount := {
  aa_account : string;
  aa_tenant : string;
  aa_mandate : MandateBody;
  aa_envelope : MandateEnvelope;
  plan_approved : bool;
  aa_sleeves : list SleeveSpec;
  aa_mode : ExecutionMode;
}.

(** An active mandate and an approved plan. *)
Definition eligible (a : ActiveAccount) : bool := bool_decide (env_status (aa_envelope a) = MandateStatus.Active) && plan_approved a.

(** The runtime of an account without its trait objects: what the adapter says of itself. *)
Record AccountRuntime := { rt_venue : string; rt_environment : VenueEnvironment.t; rt_rules : VenueRuleBook }.

(** ** Calls *)

(** The equity log comes on top of what a run may call. *)
Inductive monitor_call : Type → Type :=
| OfRun {B : Type} (c : run_call B) : monitor_call B
| AppendReading (r : EquityReading) : monitor_call (result string unit).

(** A call made for an account under [catch_unwind] may panic instead of answering; [try_lock] says whether the lock was
    taken, dropping the guard releases it; [LeftMemo] is the memo as a panicking run left it. *)
Inductive service_call : Type → Type :=
| Guarded {B : Type} (account : string) (c : monitor_call B) : service_call (string + B)
| Direct {B : Type} (c : monitor_call B) : service_call B
| TryLock (account : string) : service_call (result string bool)
| DropGuard (account : string) : service_call unit
| LeftMemo : service_call (option EvalCache).

(** [panic::catch_unwind]: [inl] is the message of the panic. *)
Fixpoint catching {A} (account : string) (p : prog monitor_call A) : prog service_call (string + A) :=
  match p with
  | Ret a => Ret (inr a)
  | Do c k => Do (Guarded account c) (fun x => match x with inl m => Ret (inl m) | inr b => catching account (k b) end)
  end.
End service.
