(* ===== verification/Monitor.v ===== *)
(** * Monitor: crates/rebalancer-run/src/monitor.rs

    The continuous equity monitor: one reading of one account through the risk step, the failure streaks that alert once,
    and a pass over every protected account. *)

From Stdlib Require Import ZArith Lia String Ascii.
From S2P Require Import Prelude Assoc Calls Text BTree F64 Externals Decimal DecMath Mandate Policy Broker Venue RiskState Overlay RiskStore View Recon Flatten Guard Planner Data Decision Record RunStore RunCalls RunSteps RunOrders Pipeline Service.

Local Open Scope Z_scope.

(** ** Codes *)

Module MonitorCode.
Inductive t :=
| Observed | Halted | FlattenResumed | AccountHalted | KillFlagSet | KillFlagUnreadable | VenueNotPaper | MandateInvalid
| BrokerUnreachable | StateStoreError | RunStoreUnavailable | LockBusy | LockUnavailable | NoRuntime | Panicked.

Definition ALL : list t :=
  [Observed; Halted; FlattenResumed; AccountHalted; KillFlagSet; KillFlagUnreadable; VenueNotPaper; MandateInvalid;
   BrokerUnreachable; StateStoreError; RunStoreUnavailable; LockBusy; LockUnavailable; NoRuntime; Panicked].

Definition as_str (c : t) : string :=
  match c with
  | Observed => "MONITOR_OBSERVED"
  | Halted => "MONITOR_HALTED"
  | FlattenResumed => "MONITOR_FLATTEN_RESUMED"
  | AccountHalted => "MONITOR_ACCOUNT_HALTED"
  | KillFlagSet => "MONITOR_KILL_FLAG_SET"
  | KillFlagUnreadable => "MONITOR_KILL_FLAG_UNREADABLE"
  | VenueNotPaper => "MONITOR_VENUE_NOT_PAPER"
  | MandateInvalid => "MONITOR_MANDATE_INVALID"
  | BrokerUnreachable => "MONITOR_BROKER_UNREACHABLE"
  | StateStoreError => "MONITOR_STATE_STORE_ERROR"
  | RunStoreUnavailable => "MONITOR_RUN_STORE_UNAVAILABLE"
  | LockBusy => "MONITOR_LOCK_BUSY"
  | LockUnavailable => "MONITOR_LOCK_UNAVAILABLE"
  | NoRuntime => "MONITOR_NO_RUNTIME"
  | Panicked => "MONITOR_PANICKED"
  end.

Definition is_failure (c : t) : bool :=
  match c with
  | KillFlagUnreadable | VenueNotPaper | MandateInvalid | BrokerUnreachable | StateStoreError | RunStoreUnavailable
  | LockUnavailable | NoRuntime | Panicked => true
  | _ => false
  end.
End MonitorCode.
Abbreviation MonitorCode := MonitorCode.t.

#[export] Instance monitor_code_eq_dec : EqDecision MonitorCode.
Proof. solve_decision. Defined.

Section monitor.
Context `{ReferenceRules} `{RustDecimal, !MandateSerde, Sha256}.

(** ** Reports *)

Record MonitorReport := {
  mo_account : string;
  mo_at : DateTime;
  mo_code : MonitorCode;
  mo_message : string;
  mo_equity : option Dec;
  log_error : option string;
  mo_decision : option RiskDecision;
  status_before : option AccountStatus;
  status_after : option AccountStatus;
  mo_transitions : list Transition;
  mo_flatten : option FlattenReport;
  mo_alerts : list Alert;
  mo_delivery_failures : list string;
  reads : Z;
  mo_day_start_missing : bool;
}.

#[export] Instance monitor_report_eta : Eta MonitorReport := fun r =>
  {| mo_account := mo_account r; mo_at := mo_at r; mo_code := mo_code r; mo_message := mo_message r; mo_equity := mo_equity r;
     log_error := log_error r; mo_decision := mo_decision r; status_before := status_before r; status_after := status_after r;
     mo_transitions := mo_transitions r; mo_flatten := mo_flatten r; mo_alerts := mo_alerts r;
     mo_delivery_failures := mo_delivery_failures r; reads := reads r; mo_day_start_missing := mo_day_start_missing r |}.

Definition report_new (account : string) (at_ : DateTime) : MonitorReport :=
  {| mo_account := account; mo_at := at_; mo_code := MonitorCode.Observed; mo_message := EmptyString; mo_equity := None;
     log_error := None; mo_decision := None; status_before := None; status_after := None; mo_transitions := [];
     mo_flatten := None; mo_alerts := []; mo_delivery_failures := []; reads := 0; mo_day_start_missing := false |}.

Definition not_attempted (account : string) (at_ : DateTime) (code : MonitorCode) (message : string) : MonitorReport :=
  (report_new account at_) <| mo_code := code |> <| mo_message := message |>.

Definition report_summary (r : MonitorReport) : string :=
  let equity := match mo_equity r with Some e => to_string e | None => "-" end in
  let risk := match mo_decision r with Some d => join "," (risk_codes d) | None => "-" end in
  let status := match status_before r, status_after r with
    | Some a, Some b =>
        if bool_decide (a = b) then AccountStatus.as_str a else AccountStatus.as_str a +:+ " -> " +:+ AccountStatus.as_str b
    | Some a, None => AccountStatus.as_str a
    | None, _ => "-"
    end in
  let line := mo_account r +:+ ": " +:+ MonitorCode.as_str (mo_code r) +:+ " equity " +:+ equity +:+ " risk " +:+ risk +:+
    " status " +:+ status in
  let line := if String.eqb (mo_message r) EmptyString then line else line +:+ " (" +:+ mo_message r +:+ ")" in
  match log_error r with Some e => line +:+ " [equity log append failed: " +:+ e +:+ "]" | None => line end.

(** ** One reading *)

(** The context without its trait objects. *)
Record MonitorContext := {
  mc_account : string;
  mc_mode : ExecutionMode;
  mc_mandate : MandateBody;
  mc_venue : string;
  mc_environment : VenueEnvironment.t;
  mc_rules : VenueRuleBook;
  mc_config : RunConfig;
}.

Record Monitor := { report : MonitorReport; mo_state : AccountState }.

#[export] Instance monitor_eta : Eta Monitor := fun m => {| report := report m; mo_state := mo_state m |}.

Abbreviation mstep A := (program monitor_call Monitor A).

Definition call_run {B} (c : run_call B) : mstep B := ask (OfRun c).

Definition on_report (f : MonitorReport → MonitorReport) : mstep unit := modify (fun m => m <| report := f (report m) |>).

Definition now_m : mstep DateTime := call_run (BrokerCall Now).

Definition finished (code : MonitorCode) (message : string) : mstep unit :=
  on_report (fun r => r <| mo_code := code |> <| mo_message := message |>).

(** The run key of an alert of the monitor. *)
Definition monitor_key (account : string) (at_ : DateTime) : string := account +:+ "|" +:+ dt_to_rfc3339 at_ +:+ "|monitor".

Definition push_transition_m (t : option Transition) : mstep unit :=
  match t with
  | Some t => on_report (fun r => r <| mo_transitions := mo_transitions r ++ [t] |>)
  | None => ret tt
  end.

Variable ctx : MonitorContext.
Abbreviation cfg := (mc_config ctx).

Definition live_mode : bool := bool_decide (mc_mode ctx = ExecutionMode.Live).

Definition alert_m (code : AlertCode.t) (severity : AlertSeverity.t) (message dedupe : string) : mstep unit :=
  let# at_ := now_m in
  let# m := get in
  let a := {| al_code := code; al_severity := severity; al_account := mc_account ctx;
              al_run_key := monitor_key (mc_account ctx) (mo_at (report m)); al_message := message;
              dedupe_key := mc_account ctx +:+ ":" +:+ dedupe; al_at := at_ |} in
  let# sent := call_run (NotifyOf a) in
  let# _ := match sent with
    | Err e => on_report (fun r => r <| mo_delivery_failures := mo_delivery_failures r ++ [AlertCode.as_str code +:+ ": " +:+ e] |>)
    | Ok _ => ret tt
    end in
  on_report (fun r => r <| mo_alerts := mo_alerts r ++ [a] |>).

(** Nothing to save when nothing changed. *)
Definition save_m (next : AccountState) : mstep (result StoreError unit) :=
  let# m := get in
  if state_eqb next (mo_state m) then ret (Ok tt)
  else
    let# saved := call_run (SaveState (version (mo_state m)) next) in
    match saved with
    | Ok s => let# _ := modify (fun m => m <| mo_state := s |>) in ret (Ok tt)
    | Err e => ret (Err e)
    end.

Definition log_reading (s : BrokerSnapshot) : mstep unit :=
  let# done := ask (AppendReading
    {| er_account := mc_account ctx; er_taken_at := taken_at s; er_equity := s_equity s; er_cash := s_cash s;
       er_derived_equity := derived_equity s; er_source := MONITOR_SNAPSHOT_SOURCE |}) in
  match done with
  | Err e => on_report (fun r => r <| log_error := Some e |>)
  | Ok _ => ret tt
  end.

Definition flatten_spec_m (h : HaltRecord) (known : BTreeSet string) : FlattenSpec :=
  let universe := match limits (compile (mc_mandate ctx)) with Some l => l_instrument_allow l | None => [] end in
  let s := spec_new (mc_account ctx) (dt_compact (h_at h)) universe (mc_rules ctx) known in
  {| fs_account_id := fs_account_id s; attempt_key := attempt_key s; Flatten.universe := Flatten.universe s;
     venue_rules := venue_rules s; fs_known_order_ids := fs_known_order_ids s; max_rounds := flatten_max_rounds cfg;
     max_polls := cf_max_polls cfg; poll_secs := cf_poll_secs cfg; max_tag_index := max_tag_index s |}.

(** [false]: the flatten could not start. *)
Definition finish_flatten_m (why : string) : mstep bool :=
  let# m := get in
  match halt_record (mo_state m) with
  | None => ret true
  | Some h =>
      let# ids := call_run (KnownOrderIds (mc_account ctx)) in
      match ids with
      | Err e =>
          let# _ := alert_m AlertCode.FlattenIncomplete AlertSeverity.Critical
            ("halt (" +:+ why +:+ "): the flatten could not start because our own order ids could not be read (" +:+
             RunStoreError.display e +:+ "); it is retried on the next reading or run") "flatten" in
          ret false
      | Ok known =>
          let# rep := call_out (fun B c => OfRun (BrokerCall c)) (flatten (flatten_spec_m h known) (mc_venue ctx)) in
          let flat := match fr_verdict rep with FlattenVerdict.HaltAndAlert => false | _ => true end in
          let# _ := on_report (fun r => r <| mo_flatten := Some rep |>) in
          let# m := get in
          let '(next, tr) := complete_flatten (mo_state m) flat in
          let# _ := push_transition_m tr in
          let# saved := save_m next in
          let# _ := match saved with
            | Err e => alert_m AlertCode.FlattenIncomplete AlertSeverity.Critical
                ("halt (" +:+ why +:+ "): the flatten ran (" +:+ flatten_summary rep +:+ ") but its result could not be saved: " +:+
                 StoreError.display e) "flatten"
            | Ok _ =>
                if flat then ret tt
                else alert_m AlertCode.FlattenIncomplete AlertSeverity.Critical
                  ("halt (" +:+ why +:+ "): the flatten did not verify flat: " +:+ flatten_summary rep) "flatten"
            end in
          ret true
      end
  end.

Definition equity_read (s : BrokerSnapshot) : mstep unit := on_report (fun r => r <| mo_equity := Some (s_equity s) |>).

(** A halted account is read and logged only; a flattening one has its flatten retried in live mode. *)
Definition halted_reading (status : AccountStatus) : mstep unit :=
  let# m := get in
  match status with
  | AccountStatus.Flattening =>
      if negb live_mode then
        finished MonitorCode.AccountHalted ("the account is flattening and " +:+ ExecutionMode.as_str (mc_mode ctx) +:+
          " mode sends nothing: read and logged only")
      else
        let# started := finish_flatten_m "a flatten was in progress" in
        let# m := get in
        finished (if started then MonitorCode.FlattenResumed else MonitorCode.RunStoreUnavailable)
          (match mo_flatten (report m) with Some f => flatten_summary f | None => "the flatten could not start" end)
  | _ =>
      let why := match halt_record (mo_state m) with
        | Some h => HaltReason.code (h_reason h) +:+ " at " +:+ dt_display (h_at h)
        | None => "unknown"
        end in
      finished MonitorCode.AccountHalted ("the account is halted (" +:+ why +:+ "): read and logged only")
  end.

(** No halt: the day without a start is reported, and alerted by the reading that found it. *)
Definition observed (snap : BrokerSnapshot) (prior_day : option NaiveDate) : mstep unit :=
  match day_start cfg with
  | FirstObservation => finished MonitorCode.Observed EmptyString
  | UtcMidnight max_lag_secs =>
      let# m := get in
      let day := date_naive (taken_at snap) in
      if day_start_missing (mo_state m) day then
        let# _ := on_report (fun r => r <| mo_day_start_missing := true |>) in
        let first_at := if bool_decide (prior_day = Some day) then None else Some (taken_at snap) in
        let message := day_start_missing_message day max_lag_secs first_at in
        let# _ :=
          if is_some first_at then alert_m AlertCode.RunFailed AlertSeverity.Warning message ("day_start_missing:" +:+ date_display day)
          else ret tt in
        finished MonitorCode.Observed message
      else finished MonitorCode.Observed EmptyString
  end.

(** A halt: alert, then flatten (live) or tell a person. *)
Definition halting_reading (d : RiskDecision) : mstep unit :=
  let reason := default HaltReason.EquityInvalid (rd_halt_reason d) in
  let reasons := reasons_text d in
  let# _ := alert_m AlertCode.Halt AlertSeverity.Critical
    (HaltReason.code reason +:+ ": " +:+ reasons +:+ " (found by the continuous monitor, no decision was pending)") "halt" in
  if live_mode then
    let# started := finish_flatten_m reasons in
    if started then finished MonitorCode.Halted (HaltReason.code reason)
    else finished MonitorCode.RunStoreUnavailable
      (HaltReason.code reason +:+ ": halted, but the flatten could not start; it is retried on the next reading or run")
  else
    let# m := get in
    let '(halted, tr) := complete_flatten (mo_state m) true in
    let# _ := push_transition_m tr in
    let# saved := save_m halted in
    match saved with
    | Err e => finished MonitorCode.StateStoreError
        (HaltReason.code reason +:+ ": the halt could not be completed: " +:+ StoreError.display e)
    | Ok _ =>
        let# _ := alert_m AlertCode.FlattenIncomplete AlertSeverity.Critical
          (ExecutionMode.as_str (mc_mode ctx) +:+
           " mode: no orders were sent, so nothing was flattened; flatten the account by hand") "flatten" in
        finished MonitorCode.Halted (HaltReason.code reason)
    end.

(** The risk step on the broker's equity, on the reading's UTC date. *)
Definition risk_reading (p : RiskPolicy) (snap : BrokerSnapshot) (at_ : DateTime) : mstep unit :=
  let# m := get in
  let prior_day := trading_day (mo_state m) in
  let '(next, d, tr) := step_with (mo_state m) (equity_snapshot snap) (date_naive at_) p (day_start cfg) in
  let# _ := on_report (fun r => r <| mo_decision := Some d |>) in
  let# _ := push_transition_m tr in
  let# saved := save_m next in
  match saved with
  | Err e =>
      let# _ :=
        if is_halting d then
          alert_m AlertCode.RunFailed AlertSeverity.Critical
            ("MONITOR_STATE_STORE_ERROR: the continuous monitor found " +:+
             HaltReason.code (default HaltReason.EquityInvalid (rd_halt_reason d)) +:+ " but could not save the halt (" +:+
             StoreError.display e +:+ "); nothing was sent") "monitor:halt_not_saved"
        else ret tt in
      finished MonitorCode.StateStoreError ("the account state could not be saved: " +:+ StoreError.display e)
  | Ok _ => if is_halting d then halting_reading d else observed snap prior_day
  end.

(** One broker read, logged; then the branch of the account's status. *)
Definition reading (p : RiskPolicy) : mstep unit :=
  let# at_ := now_m in
  let# _ := on_report (fun r => r <| reads := reads r + 1 |>) in
  let# snap := call_run (BrokerCall (Snapshot at_)) in
  match snap with
  | Err e => finished MonitorCode.BrokerUnreachable ("the broker account could not be read: " +:+ SnapshotError.display e +:+
      "; nothing was evaluated or saved")
  | Ok snap =>
      let# _ := equity_read snap in
      let# _ := log_reading snap in
      let# m := get in
      if AccountStatus.is_halt (status (mo_state m)) then halted_reading (status (mo_state m)) else risk_reading p snap at_
  end.

Definition execute_m : mstep unit :=
  if bool_decide (venue_policy cfg = PaperOnly) && negb (bool_decide (mc_environment ctx = VenueEnvironment.Paper)) then
    finished MonitorCode.VenueNotPaper ("the paper-only policy is in force and the " +:+ mc_venue ctx +:+
      " broker connection reports " +:+ VenueEnvironment.as_str (mc_environment ctx) +:+ ": not read")
  else
    let# flag := call_run KillFlagIsSet in
    match flag with
    | Ok true => finished MonitorCode.KillFlagSet "the kill flag is set: nothing read, nothing sent"
    | Err e => finished MonitorCode.KillFlagUnreadable ("the kill flag could not be read: " +:+ e)
    | Ok false =>
        match from_mandate_with_recovery (mc_mandate ctx) (cf_recovery_fraction cfg) with
        | Err e => finished MonitorCode.MandateInvalid e
        | Ok p =>
            let# loaded := call_run (LoadState (mc_account ctx)) in
            match loaded with
            | Err e => finished MonitorCode.StateStoreError ("the account state could not be loaded: " +:+ StoreError.display e)
            | Ok o =>
                let s := default (new_state (mc_account ctx)) o in
                let# _ := modify (fun m => m <| mo_state := s |>) in
                let# _ := on_report (fun r => r <| status_before := Some (status s) |>) in
                reading p
            end
        end
    end.

Definition monitor_new (at_ : DateTime) : Monitor := {| report := report_new (mc_account ctx) at_; mo_state := new_state (mc_account ctx) |}.

Definition monitor_once : prog monitor_call MonitorReport :=
  Do (OfRun (BrokerCall Now)) (fun at_ =>
    prog_bind (execute_m (monitor_new at_)) (fun x => Ret ((report x.2) <| status_after := Some (status (mo_state x.2)) |>))).
End monitor.
Abbreviation mstep A := (program monitor_call Monitor A).

(** ** Many accounts *)

Definition monitored_accounts `{ReferenceRules} (l : list ActiveAccount) : list ActiveAccount := List.filter eligible l.

(** [failing]: the failure each account's streak is in. *)
Definition FailureStreaks : Type := BTreeMap string MonitorCode.

Section all.
Context `{ReferenceRules} `{RustDecimal, !MandateSerde, Sha256}.

(** Does the report start a streak? and the streaks after it. *)
Definition observe_streak (s : FailureStreaks) (r : MonitorReport) : bool * FailureStreaks :=
  if MonitorCode.is_failure (mo_code r) then
    (negb (bool_decide (bt_get s (mo_account r) = Some (mo_code r))), bt_insert (mo_account r) (mo_code r) s)
  else (false, if bool_decide (mo_code r = MonitorCode.LockBusy) then s else bt_remove (mo_account r) s).

Definition is_failing (s : FailureStreaks) (account : string) : bool := is_some (bt_get s account).

Variable runtimes : BTreeMap string AccountRuntime.
Variable config : RunConfig.

Definition service_now : prog service_call DateTime := Do (Direct (OfRun (BrokerCall Now))) Ret.

Definition skipped_account (id : string) (code : MonitorCode) (message : string) : prog service_call MonitorReport :=
  prog_bind service_now (fun at_ => Ret (not_attempted id at_ code message)).

Definition monitor_context (a : ActiveAccount) (rt : AccountRuntime) : MonitorContext :=
  {| mc_account := aa_account a; mc_mode := aa_mode a; mc_mandate := aa_mandate a; mc_venue := rt_venue rt;
     mc_environment := rt_environment rt; mc_rules := rt_rules rt; mc_config := config |}.

Definition read_account (a : ActiveAccount) : prog service_call MonitorReport :=
  let id := aa_account a in
  match bt_get runtimes id with
  | None => skipped_account id MonitorCode.NoRuntime "no broker runtime is registered for this account"
  | Some rt =>
      Do (TryLock id) (fun locked =>
        match locked with
        | Ok false => skipped_account id MonitorCode.LockBusy "another process holds the account's lock"
        | Err e => skipped_account id MonitorCode.LockUnavailable e
        | Ok true =>
            prog_bind (catching id (monitor_once (monitor_context a rt))) (fun r =>
              Do (DropGuard id) (fun _ =>
                match r with
                | inr r => Ret r
                | inl message => skipped_account id MonitorCode.Panicked message
                end))
        end)
  end.

(** The first failure of a streak raises one alert. *)
Definition alert_streak (id : string) (r : MonitorReport) : prog service_call MonitorReport :=
  prog_bind service_now (fun at_ =>
    let a := {| al_code := AlertCode.RunFailed; al_severity := AlertSeverity.Warning; al_account := id;
                al_run_key := monitor_key id (mo_at r);
                al_message := MonitorCode.as_str (mo_code r) +:+ ": the continuous monitor could not check this account (" +:+
                  mo_message r +:+
                  "); the drawdown ladder and the daily-loss limit are checked only when a run reads the account until it recovers";
                dedupe_key := id +:+ ":monitor:" +:+ MonitorCode.as_str (mo_code r); al_at := at_ |} in
    Do (Direct (OfRun (NotifyOf a))) (fun sent =>
      let r := match sent with
        | Err e => r <| mo_delivery_failures := mo_delivery_failures r ++ [AlertCode.as_str (al_code a) +:+ ": " +:+ e] |>
        | Ok _ => r
        end in
      Ret (r <| mo_alerts := mo_alerts r ++ [a] |>))).

Fixpoint monitor_each (l : list ActiveAccount) (s : FailureStreaks) : prog service_call (list MonitorReport * FailureStreaks) :=
  match l with
  | [] => Ret ([], s)
  | a :: l' =>
      prog_bind (read_account a) (fun r =>
        let '(starts, s) := observe_streak s r in
        prog_bind (if starts then alert_streak (aa_account a) r else Ret r) (fun r =>
          prog_bind (monitor_each l' s) (fun x => Ret (r :: x.1, x.2))))
  end.

Definition monitor_all (accounts : list ActiveAccount) (s : FailureStreaks) : prog service_call (list MonitorReport * FailureStreaks) :=
  monitor_each (monitored_accounts accounts) s.

Definition count_code (m : BTreeMap string Z) (r : MonitorReport) : BTreeMap string Z :=
  let c := MonitorCode.as_str (mo_code r) in bt_insert c (default 0 (bt_get m c) + 1) m.

Definition monitor_summary (reports : list MonitorReport) : string :=
  let parts := (fun e => e.1 +:+ "=" +:+ show_int e.2) <$> fold_left count_code reports [] in
  show_int (Z.of_nat (length reports)) +:+ " account(s) monitored: " +:+
  match parts with [] => "none" | _ => join ", " parts end.
End all.
