(* ===== verification/Driver.v ===== *)
(** * Driver: crates/rebalancer-run/src/driver.rs

    The slots, the accounts that are due, and one tick of the service: every due account once, each under its lock, one
    memo for the tick. *)

From Stdlib Require Import ZArith Lia String Ascii.
From S2P Require Import Prelude Assoc Calls Text BTree F64 Externals Decimal DecMath Mandate Policy Broker Venue RiskState Overlay RiskStore View Recon Flatten Guard Planner Data Decision Record RunStore RunCalls RunSteps RunOrders Pipeline Service.

Local Open Scope Z_scope.

(** ** Slots *)

Definition DAILY_RUN_HOUR_UTC : Z := 0.
Definition DAILY_RUN_MINUTE_UTC : Z := 10.
Definition MARKET_HOURS_RUN_HOUR_UTC : Z := 15.
Definition MARKET_HOURS_RUN_MINUTE_UTC : Z := 0.

Definition run_slot_utc (k : SleeveKind) : Z * Z :=
  match k with
  | SleeveKind.CryptoTrend => (DAILY_RUN_HOUR_UTC, DAILY_RUN_MINUTE_UTC)
  | SleeveKind.EtfTrend | SleeveKind.EtfMomentum => (MARKET_HOURS_RUN_HOUR_UTC, MARKET_HOURS_RUN_MINUTE_UTC)
  end.

(** The order of pairs (hour, minute) *)
Definition slot_leb (a b : Z * Z) : bool := (a.1 <? b.1) || ((a.1 =? b.1) && (a.2 <=? b.2)).
Definition slot_max (a b : Z * Z) : Z * Z := if slot_leb a b then b else a.

(** The latest of the sleeves' slots; [None] without a sleeve. *)
Definition account_run_slot_utc (sleeves : list SleeveSpec) : option (Z * Z) :=
  match sleeves with
  | [] => None
  | s :: l => Some (fold_left (fun m s => slot_max m (run_slot_utc (sp_kind s))) l (run_slot_utc (sp_kind s)))
  end.

(** ** Why a due run was not attempted *)

Module DueRunError.
Inductive t := LockBusy | LockUnavailable (e : string) | NoRuntime | Panicked (message : string).
Definition display (e : t) : string :=
  match e with
  | LockBusy => "DRIVER_LOCK_BUSY: another process is already running this account"
  | LockUnavailable e => "DRIVER_LOCK_UNAVAILABLE: " +:+ e
  | NoRuntime => "DRIVER_NO_RUNTIME: no broker/data is registered for this account"
  | Panicked m => "DRIVER_PANICKED: " +:+ m
  end.
End DueRunError.
Abbreviation DueRunError := DueRunError.t.

Section driver.
Context `{ReferenceRules} `{RustDecimal, !MandateSerde, Sha256}.

Definition run_slot_on (sleeves : list SleeveSpec) (date : NaiveDate) : option DateTime :=
  let* (h, m) := account_run_slot_utc sleeves in and_hms_opt date h m 0.

(** Every kind, on every date. *)
Definition sleeve_due_on (k : SleeveKind) (_date : NaiveDate) : bool :=
  match k with SleeveKind.CryptoTrend | SleeveKind.EtfTrend | SleeveKind.EtfMomentum => true end.

(** The slot of today, if it has come. *)
Definition slot_for (sleeves : list SleeveSpec) (now : DateTime) : option DateTime :=
  let today := date_naive now in
  let* slot := run_slot_on sleeves today in
  if dt_ltb now slot then None
  else if negb (existsb (fun s => sleeve_due_on (sp_kind s) today) sleeves) then None
  else Some slot.

(** ** The due runs *)

Record RunSpec := {
  ru_account : string;
  ru_tenant : string;
  ru_scheduled_for : DateTime;
  ru_day : NaiveDate;
  ru_mode : ExecutionMode;
  ru_sleeves : list SleeveSpec;
  ru_mandate : MandateBody;
  ru_envelope : MandateEnvelope;
}.

Definition due_run (now : DateTime) (a : ActiveAccount) : option RunSpec :=
  if negb (bool_decide (env_status (aa_envelope a) = MandateStatus.Active)) || negb (plan_approved a) then None
  else
    let* at_ := slot_for (aa_sleeves a) now in
    Some {| ru_account := aa_account a; ru_tenant := aa_tenant a; ru_scheduled_for := at_; ru_day := date_naive at_;
            ru_mode := aa_mode a; ru_sleeves := aa_sleeves a; ru_mandate := aa_mandate a; ru_envelope := aa_envelope a |}.

(** [accounts]: the answer of the account source. *)
Definition find_due_runs (accounts : result string (list ActiveAccount)) (now : DateTime) : result string (list RunSpec) :=
  let? l := accounts in Ok (omap (due_run now) l).

(** ** One tick *)

Record DueOutcome := { do_spec : RunSpec; do_result : result DueRunError RunRecord }.

Variable runtimes : BTreeMap string AccountRuntime.
Variable config : RunConfig.

Definition run_context (s : RunSpec) (rt : AccountRuntime) : RunContext :=
  {| cx_account := ru_account s; cx_scheduled_for := ru_scheduled_for s; cx_day := ru_day s; cx_mode := ru_mode s;
     cx_sleeves := ru_sleeves s; cx_mandate := Some (ru_mandate s); cx_envelope := Some (ru_envelope s);
     cx_venue := rt_venue rt; cx_environment := rt_environment rt; cx_rules := rt_rules rt; cx_config := config |}.

(** A run under [catch_unwind]: the record or the panic, and the memo of the tick after it. *)
Definition attempt_run (s : RunSpec) (rt : AccountRuntime) (memo : option EvalCache)
    : prog service_call (result DueRunError RunRecord * option EvalCache) :=
  let id := ru_account s in
  prog_bind (catching id (embed (fun B c => OfRun c) (run_once (run_context s rt) memo))) (fun r =>
    Do (DropGuard id) (fun _ =>
      match r with
      | inr (r, memo) => Ret (Ok r, memo)
      | inl m => Do LeftMemo (fun memo => Ret (Err (DueRunError.Panicked m), memo))
      end)).

(** The lock is asked for before the runtime is looked up. *)
Definition run_due (s : RunSpec) (memo : option EvalCache) : prog service_call (result DueRunError RunRecord * option EvalCache) :=
  let id := ru_account s in
  Do (TryLock id) (fun locked =>
    match locked with
    | Ok false => Ret (Err DueRunError.LockBusy, memo)
    | Err e => Ret (Err (DueRunError.LockUnavailable e), memo)
    | Ok true =>
        match bt_get runtimes id with
        | None => Do (DropGuard id) (fun _ => Ret (Err DueRunError.NoRuntime, memo))
        | Some rt => attempt_run s rt memo
        end
    end).

Fixpoint run_each (due : list RunSpec) (memo : option EvalCache) : prog service_call (list DueOutcome) :=
  match due with
  | [] => Ret []
  | s :: due' =>
      prog_bind (run_due s memo) (fun x =>
        prog_bind (run_each due' x.2) (fun rest => Ret ({| do_spec := s; do_result := x.1 |} :: rest)))
  end.

Definition run_all_due (due : list RunSpec) : prog service_call (list DueOutcome) := run_each due (Some new_cache).

Record RunAllDueSummary := { ran : Z; not_attempted_count : Z }.

Definition summarize_due (l : list DueOutcome) : RunAllDueSummary :=
  let n := Z.of_nat (length (List.filter (fun o => is_some (ok (do_result o))) l)) in
  {| ran := n; not_attempted_count := Z.of_nat (length l) - n |}.
End driver.
