(* ===== verification/ServiceFacts.v ===== *)
(** * ServiceFacts: ticks of the service

    What is due and when (driver.rs), that every run and every reading of an account happens under the account's lock and
    leaves it released whatever fails, and that a failure is alerted once per streak (monitor.rs). *)

From Stdlib Require Import ZArith Lia String Ascii.
From S2P Require Import Prelude Assoc Calls Text BTree F64 Externals Decimal DecMath Mandate Policy Broker Venue RiskState Overlay RiskStore View Recon Flatten Guard Planner Data Decision Record RunStore RunCalls RunSteps RunOrders Pipeline Service Monitor Driver.

Local Open Scope Z_scope.

(** ** Slots *)

Definition market_hours (s : SleeveSpec) : bool := match sp_kind s with SleeveKind.CryptoTrend => false | _ => true end.

Definition daily_slot (sleeves : list SleeveSpec) : Z * Z :=
  if existsb market_hours sleeves then (MARKET_HOURS_RUN_HOUR_UTC, MARKET_HOURS_RUN_MINUTE_UTC)
  else (DAILY_RUN_HOUR_UTC, DAILY_RUN_MINUTE_UTC).

Lemma slot_fold l m : m = (0, 10) ∨ m = (15, 0) →
  fold_left (fun m s => slot_max m (run_slot_utc (sp_kind s))) l m = if existsb market_hours l || bool_decide (m = (15, 0)) then (15, 0) else (0, 10).
Proof.
  revert m. induction l as [|s l IH]; intros m Hm; simpl; [by destruct Hm as [->| ->]|].
  rewrite IH by (destruct Hm as [->| ->]; destruct (sp_kind s); vm_compute; auto). unfold market_hours at 2.
  destruct Hm as [->| ->]; destruct (sp_kind s), (existsb market_hours l); reflexivity.
Qed.

Lemma account_slot l : account_run_slot_utc l = match l with [] => None | _ => Some (daily_slot l) end.
Proof.
  destruct l as [|s l]; [done|]. unfold account_run_slot_utc, daily_slot. rewrite slot_fold.
  - simpl. unfold market_hours at 2. destruct (sp_kind s), (existsb market_hours l); reflexivity.
  - destruct (sp_kind s); vm_compute; auto.
Qed.

Section due.
Context `{ReferenceRules}.

(** The run of an eligible account at its slot. *)
Definition run_at (a : ActiveAccount) (t : DateTime) : RunSpec :=
  {| ru_account := aa_account a; ru_tenant := aa_tenant a; ru_scheduled_for := t; ru_day := date_naive t; ru_mode := aa_mode a;
     ru_sleeves := aa_sleeves a; ru_mandate := aa_mandate a; ru_envelope := aa_envelope a |}.

Lemma due_run_some now a s : due_run now a = Some s ↔
  eligible a = true ∧ aa_sleeves a ≠ [] ∧ ∃ t, and_hms_opt (date_naive now) (daily_slot (aa_sleeves a)).1 (daily_slot (aa_sleeves a)).2 0 = Some t ∧
    dt_ltb now t = false ∧ s = run_at a t.
Proof.
  unfold due_run, eligible, slot_for, run_slot_on. rewrite account_slot. rewrite <- negb_andb.
  destruct (_ && _) eqn:Ee; simpl; [|split; [done|by intros []]].
  unfold run_at. destruct (aa_sleeves a) as [|x l]; simpl; [split; [done|by intros (_ & ? & _)]|].
  destruct (daily_slot _) as [h m]. simpl. destruct (and_hms_opt _ _ _ _) as [t|]; simpl; [|split; [done|by intros (_ & _ & t & ? & _)]].
  destruct (dt_ltb now t) eqn:El; [split; [done|]; intros (_ & _ & t' & [= <-] & ? & _); congruence|].
  assert (sleeve_due_on (sp_kind x) (date_naive now) = true) as -> by (by destruct (sp_kind x)). simpl.
  split; [intros [= <-]; split_and!; [done|done|by exists t]|]. by intros (_ & _ & t' & [= <-] & _ & ->).
Qed.

Lemma due_exact l now out : find_due_runs (Ok l) now = Ok out → ∀ s, s ∈ out ↔ ∃ a, a ∈ l ∧ due_run now a = Some s.
Proof. intros [= <-] s. rewrite list_elem_of_omap. done. Qed.
End due.

(** ** Locks *)

Section locks.
Context `{ReferenceRules}.

(** The ghost is the account whose lock is held: one lock at a time, every guarded call under the lock of its account,
    nothing else while a lock is held. *)
Definition locking : protocol service_call :=
  {| Calls.ghost := option string;
     Calls.allowed := λ g _ c,
       match c with
       | Guarded a _ | DropGuard a => g = Some a
       | TryLock _ | Direct _ | LeftMemo => g = None
       end;
     Calls.observe := λ g _ c,
       match c in service_call B return B → option string with
       | TryLock a => fun r => match r with Ok true => Some a | _ => None end
       | DropGuard _ => fun _ => None
       | _ => fun _ => g
       end;
     Calls.plausible := λ _ _ _, True |}.

Lemma catching_locked {A} a (p : prog monitor_call A) : always locking (catching a p) (Some a : ghost locking) (λ _ g, g = Some a).
Proof. induction p as [x|B c k IH]; simpl; [done|]. split; [done|]. intros [m|b] _; [done|apply IH]. Qed.

End locks.

Section driver.
Context `{ReferenceRules} `{RustDecimal, !MandateSerde, Sha256}.
Variable runtimes : BTreeMap string AccountRuntime.
Variable config : RunConfig.

(** What a due run comes to says why it did not run. *)
Definition excused (s : RunSpec) (r : result DueRunError RunRecord) : Prop :=
  match r with Err DueRunError.NoRuntime => bt_get runtimes (ru_account s) = None | _ => True end.

Lemma run_due_locked s memo : always locking (run_due runtimes config s memo) (None : ghost locking) (λ x g, g = None ∧ excused s x.1).
Proof.
  unfold run_due. split; [done|]. intros [[]|e] _; [|by split|by split]. simpl. destruct (bt_get runtimes _) as [rt|] eqn:Er.
  - unfold attempt_run. apply always_bind. eapply always_mono; [apply catching_locked|]. intros [m|[r memo']] g ->; simpl.
    + split; [done|]. intros [] _. split; [done|]. by intros memo' _.
    + split; [done|]. by intros [] _.
  - simpl. split; [done|]. by intros [] _.
Qed.

Lemma run_each_locked due memo : always locking (run_each runtimes config due memo) (None : ghost locking)
  (λ out g, g = None ∧ do_spec <$> out = due ∧ Forall (λ o, excused (do_spec o) (do_result o)) out).
Proof.
  revert memo. induction due as [|s due IH]; intros memo; [by repeat constructor|]. cbn [run_each].
  apply always_bind. eapply always_mono; [apply run_due_locked|]. intros [r memo'] g [-> Hx].
  apply always_bind. eapply always_mono; [apply IH|]. intros out g' (-> & Ho & Hall). simpl.
  split; [done|]. split; [by rewrite <- Ho|]. by constructor.
Qed.

Lemma read_account_locked a : always locking (read_account runtimes config a) (None : ghost locking) (λ _ g, g = None).
Proof.
  unfold read_account. destruct (bt_get _ _) as [rt|]; [|by split].
  split; [done|]. intros [[]|e] _; [|by split|by split]. cbv iota. apply always_bind. eapply always_mono; [apply catching_locked|].
  intros [m|r] g ->; simpl; (split; [done|]); intros [] _; [by split|done].
Qed.

Lemma alert_streak_locked id r : always locking (alert_streak id r) (None : ghost locking) (λ _ g, g = None).
Proof. split; [done|]. intros at_ _. split; [done|]. by intros [u|e] _. Qed.

Lemma monitor_each_locked l s : always locking (monitor_each runtimes config l s) (None : ghost locking) (λ x g, g = None ∧ length x.1 = length l).
Proof.
  revert s. induction l as [|a l IH]; intros s; [done|]. cbn [monitor_each]. apply always_bind. eapply always_mono; [apply read_account_locked|].
  intros r g ->. destruct (observe_streak s r) as [starts s']. apply always_bind.
  apply (always_mono locking _ _ (λ _ g, g = None)); [by destruct starts; [apply alert_streak_locked|]|]. intros r' g ->.
  apply always_bind. eapply always_mono; [apply IH|]. intros [rs s''] g [-> Hl]. simpl in *. by rewrite Hl.
Qed.
End driver.

(** ** Streaks *)

Section streaks.
Context `{ReferenceRules}.

(** What the last telling report of the account says: a busy lock tells nothing. *)
Definition tells (account : string) (r : MonitorReport) : bool :=
  String.eqb (mo_account r) account && negb (bool_decide (mo_code r = MonitorCode.LockBusy)).
Definition last_told (account : string) (l : list MonitorReport) : option MonitorCode := mo_code <$> last (List.filter (tells account) l).

(** The streak an account is in, by its history. *)
Definition failing_with (account : string) (l : list MonitorReport) : option MonitorCode :=
  match last_told account l with Some c => if MonitorCode.is_failure c then Some c else None | None => None end.

Lemma last_told_snoc account l r :
  last_told account (l ++ [r]) = if tells account r then Some (mo_code r) else last_told account l.
Proof.
  unfold last_told. rewrite List.filter_app. simpl. destruct (tells account r); [by rewrite last_snoc|by rewrite app_nil_r].
Qed.

(** The map of streaks is what the history says. *)
Definition streaks_of (l : list MonitorReport) : FailureStreaks := fold_left (λ s r, (observe_streak s r).2) l [].

Lemma streaks_exact l account : bt_get (streaks_of l) account = failing_with account l.
Proof.
  unfold streaks_of. induction l as [|r l IH] using rev_ind; [done|]. rewrite fold_left_app. simpl.
  set (s := fold_left _ l _) in *. unfold failing_with. rewrite last_told_snoc. unfold failing_with in IH.
  unfold observe_streak, tells. destruct (MonitorCode.is_failure (mo_code r)) eqn:Ef; simpl.
  - assert (bool_decide (mo_code r = MonitorCode.LockBusy) = false) as ->.
    { apply bool_decide_eq_false. intros E. by rewrite E in Ef. }
    rewrite andb_true_r. destruct (String.eqb_spec (mo_account r) account) as [->|Hne].
    + by rewrite bt_get_insert_eq, Ef.
    + rewrite bt_get_insert_ne by done. exact IH.
  - destruct (bool_decide (mo_code r = MonitorCode.LockBusy)) eqn:El; simpl; [rewrite andb_false_r; exact IH|].
    rewrite andb_true_r, bt_get_remove. destruct (String.eqb_spec (mo_account r) account) as [->|Hne].
    + by rewrite kcmp_refl, Ef.
    + destruct (kcmp account (mo_account r)) eqn:Ek; try exact IH. apply kcmp_eq in Ek. congruence.
Qed.
End streaks.

(** ** The theorems *)

(** C25. What is due. The tick's runs are exactly those of the accounts with an active mandate, an approved plan and a
    sleeve, whose slot of the current day has come: 15:00 UTC for an account with a market-hours sleeve, 00:10 UTC for the
    others. An account gets one run a day: a later tick of the same day repeats every run of an earlier one with the same
    run key, which is what makes it a no-op for the run store. *)
Theorem due_once_a_day `{ReferenceRules, !ChronoLaws} l now out : find_due_runs (Ok l) now = Ok out →
  (∀ s, s ∈ out ↔ ∃ a t, a ∈ l ∧ eligible a = true ∧ aa_sleeves a ≠ [] ∧
    and_hms_opt (date_naive now) (daily_slot (aa_sleeves a)).1 (daily_slot (aa_sleeves a)).2 0 = Some t ∧ dt_ltb now t = false ∧
    s = run_at a t) ∧
  (∀ now' out' s, find_due_runs (Ok l) now' = Ok out' → date_naive now' = date_naive now → dt_leb now now' = true → s ∈ out → s ∈ out').
Proof.
  intros Hf. assert (∀ s, s ∈ out ↔ ∃ a, a ∈ l ∧ due_run now a = Some s) as Hx by by apply due_exact. split.
  - intros s. rewrite Hx. split.
    + intros (a & Ha & (He & Hne & t & Ht & Hl & ->)%due_run_some). by exists a, t.
    + intros (a & t & Ha & He & Hne & Ht & Hl & ->). exists a. split; [done|]. apply due_run_some. split_and!; [done|done|by exists t].
  - intros now' out' s Hf' Hd Hle. rewrite Hx, (due_exact l now' out' Hf'). intros (a & Ha & (He & Hne & t & Ht & Hl & ->)%due_run_some).
    exists a. split; [done|]. apply due_run_some. split_and!; [done|done|]. exists t. rewrite Hd. split_and!; [done| |done].
    rewrite dt_ltb_negb in Hl |- *. apply negb_false_iff in Hl. apply negb_false_iff.
    apply Is_true_true, (dt_leb_trans _ now); by apply Is_true_true.
Qed.

(** C15. Every tick keeps the locks. Whatever the calls answer, panics included: one account's lock is held at a time, every
    call of a run is made under the lock of its account, no lock is left held, and there is exactly one outcome for every due
    run, in order: neither a busy lock, a missing runtime nor a panic in one account stops the others. A run is
    reported without a runtime only when none is registered. *)
Theorem runs_keep_locks `{ReferenceRules} `{RustDecimal, !MandateSerde, Sha256} runtimes config due tr out :
  runs (run_all_due runtimes config due) tr out →
  obeys locking (None : ghost locking) tr ∧ fold_left (see locking) tr None = None ∧
  do_spec <$> out = due ∧ Forall (λ o, excused runtimes (do_spec o) (do_result o)) out.
Proof.
  intros Hr. destruct (always_runs locking _ _ _ _ _ (run_each_locked runtimes config due (Some new_cache)) Hr) as (Ho & Hg & Hd & Hall).
  - clear. induction tr as [|[B c b] tr IH]; by constructor.
  - done.
Qed.

(** Every pass of the monitor keeps the locks: as for runs, each reading is made under the lock of its account and the lock
    is released whatever happens, and every protected account gets its report. *)
Theorem readings_keep_locks `{ReferenceRules} `{RustDecimal, !MandateSerde, Sha256} runtimes config accounts s tr out :
  runs (monitor_all runtimes config accounts s) tr out →
  obeys locking (None : ghost locking) tr ∧ fold_left (see locking) tr None = None ∧
  length out.1 = length (monitored_accounts accounts).
Proof.
  intros Hr. destruct (always_runs locking _ _ _ _ _ (monitor_each_locked runtimes config (monitored_accounts accounts) s) Hr) as (Ho & Hg & Hd).
  - clear. induction tr as [|[B c b] tr IH]; by constructor.
  - done.
Qed.

(** A failure is alerted once per streak: after any history of reports a report alerts exactly when it is a failure and
    the account's last report that tells anything (a busy lock does not) was not the same failure. *)
Theorem streak_alerts_once `{ReferenceRules} l r :
  (observe_streak (streaks_of l) r).1 =
    MonitorCode.is_failure (mo_code r) && negb (bool_decide (last_told (mo_account r) l = Some (mo_code r))).
Proof.
  unfold observe_streak. destruct (MonitorCode.is_failure (mo_code r)) eqn:Ef; [|done]. simpl. f_equal.
  rewrite streaks_exact. unfold failing_with. apply bool_decide_ext. destruct (last_told _ l) as [c|]; [|done].
  destruct (MonitorCode.is_failure c) eqn:Ec; [done|]. split; [done|]. intros [= ->]. congruence.
Qed.
