(* ===== verification/MonitorFacts.v ===== *)
(** * MonitorFacts: what a reading of the monitor may do

    A watcher of the calls of [monitor_once] (monitor.rs) and the discipline they keep: read and log first, move the
    account state only as the risk machine does, and send nothing but the reducing orders of a flatten. *)

From Stdlib Require Import ZArith Lia String Ascii.
From stdpp Require Import relations.
From S2P Require Import Prelude Assoc Calls Text BTree F64 Externals Decimal DecMath Mandate Policy Broker Venue RiskState Overlay RiskStore View Recon Flatten FlattenFacts RiskFacts Guard Planner Data Decision Record RunStore RunCalls RunSteps RunOrders Pipeline RunRules RunTrade Service Monitor.

Local Open Scope Z_scope.

Section discipline.
Context `{ReferenceRules} `{RustDecimal, !MandateSerde, Sha256}.
Variable ctx : MonitorContext.

(** ** The watcher *)

(** The kill flag was read unset; the account state on record; the last snapshot, and whether a sell was sent since; whether the
    reading was put on the equity log. *)
Record Reader := {
  rd_armed : bool;
  rd_acct : AccountState;
  rd_seen : option BrokerSnapshot;
  rd_sold : bool;
  rd_logged : bool;
}.

#[export] Instance reader_eta : Eta Reader := fun g =>
  {| rd_armed := rd_armed g; rd_acct := rd_acct g; rd_seen := rd_seen g; rd_sold := rd_sold g; rd_logged := rd_logged g |}.

Definition reader_start : Reader :=
  {| rd_armed := false; rd_acct := new_state (mc_account ctx); rd_seen := None; rd_sold := false; rd_logged := false |}.

Definition read_broker (g : Reader) {B} (c : Flatten.call B) : B → Reader :=
  match c in Flatten.call B' return B' → Reader with
  | Snapshot _ => fun r => g <| rd_seen := ok r |> <| rd_sold := false |>
  | Place req => fun _ => g <| rd_sold := rd_sold g || bool_decide (req_side req = Sell) |>
  | _ => fun _ => g
  end.

Definition read_run (g : Reader) {B} (c : run_call B) : B → Reader :=
  match c in run_call B' return B' → Reader with
  | BrokerCall c => read_broker g c
  | LoadState _ => fun r => match r with Ok o => g <| rd_acct := default (new_state (mc_account ctx)) o |> | Err _ => g end
  | SaveState _ _ => fun r => match r with Ok s => g <| rd_acct := s |> | Err _ => g end
  | KillFlagIsSet => fun r => g <| rd_armed := match r with Ok false => true | _ => false end |>
  | _ => fun _ => g
  end.

Definition watch_monitor (g : Reader) (B : Type) (c : monitor_call B) : B → Reader :=
  match c in monitor_call B' return B' → Reader with
  | OfRun c => read_run g c
  | AppendReading _ => fun _ => g <| rd_logged := true |>
  end.

(** ** The discipline *)

(** In live mode, of an account that is halting, after the reading was logged. *)
Definition may_flatten (g : Reader) : Prop :=
  rd_armed g = true ∧ rd_logged g = true ∧ live_mode ctx = true ∧ AccountStatus.is_halt (status (rd_acct g)) = true.

Definition monitor_allowed (g : Reader) (B : Type) (c : monitor_call B) : Prop :=
  match c with
  | AppendReading r => rd_armed g = true ∧ ∃ s, rd_seen g = Some s ∧ er_equity r = s_equity s ∧ er_account r = mc_account ctx
  | OfRun (BrokerCall c) =>
      match c with
      | Now | SleepSecs _ => True
      | Snapshot _ => rd_armed g = true
      | OpenOrders | FindByTag _ | GetOrder _ | CancelAndSettle _ => may_flatten g
      | Place req => may_flatten g ∧ reducing_order (mandate_universe (mc_mandate ctx)) (rd_seen g) (rd_sold g) req
      end
  | OfRun (SaveState v next) =>
      rd_armed g = true ∧ rd_logged g = true ∧ v = version (rd_acct g) ∧ rtc auto_step (rd_acct g) next
  | OfRun (LoadState _) | OfRun (KnownOrderIds _) => rd_armed g = true
  | OfRun (NotifyOf _) | OfRun KillFlagIsSet => True
  | OfRun _ => False
  end.

Definition monitor_plausible (B : Type) (c : monitor_call B) : B → Prop :=
  match c in monitor_call B' return B' → Prop with
  | OfRun c => run_plausible _ c
  | AppendReading _ => fun _ => True
  end.

Definition monitor_discipline : protocol monitor_call :=
  {| Calls.ghost := Reader; Calls.allowed := monitor_allowed; Calls.observe := watch_monitor; Calls.plausible := monitor_plausible |}.

(** ** The logic of a reading: assertions on the account state at hand and the watcher *)

Definition massert : Type := AccountState → Reader → Prop.

Definition mspec {A} (J : massert) (m : mstep A) (Q : A → massert) : Prop :=
  triple monitor_discipline (λ s g, J (mo_state s) g) m (λ a s g, Q a (mo_state s) g).

Lemma mspec_conseq {A} (m : mstep A) (J J' : massert) (Q Q' : A → massert) : mspec J' m Q' →
  (∀ s g, J s g → J' s g) → (∀ a s g, Q' a s g → Q a s g) → mspec J m Q.
Proof. intros Hm HJ HQ. eapply triple_conseq; [exact Hm|intros s g; apply HJ|intros a s g; apply HQ]. Qed.

Lemma mspec_pre {A} (m : mstep A) (J J' : massert) (Q : A → massert) : mspec J' m Q → (∀ s g, J s g → J' s g) → mspec J m Q.
Proof. intros Hm HJ. by eapply mspec_conseq. Qed.

Lemma mspec_bind {A B} (m : mstep A) (k : A → mstep B) J (M : A → massert) Q :
  mspec J m M → (∀ a, mspec (M a) (k a) Q) → mspec J (step_bind m k) Q.
Proof. apply triple_bind. Qed.

Lemma mspec_then {A B} (m : mstep A) (k : A → mstep B) J J' Q :
  mspec J m (λ _, J') → (∀ a, mspec J' (k a) Q) → mspec J (step_bind m k) Q.
Proof. apply mspec_bind. Qed.

Lemma mspec_ret {A} (a : A) (J : massert) (Q : A → massert) : (∀ s g, J s g → Q a s g) → mspec J (ret a) Q.
Proof. intros HQ s g HJ. by apply HQ. Qed.

Lemma mspec_pure {A} (F : Prop) (m : mstep A) J Q : (∀ s g, J s g → F) → (F → mspec J m Q) → mspec J m Q.
Proof. intros HF Hm s g HJ. apply Hm; [by eapply HF|done]. Qed.

Lemma mspec_get J : mspec J get (λ m s g, J s g ∧ s = mo_state m).
Proof. by intros s g HJ. Qed.

Lemma mspec_ask {B} (c : monitor_call B) J Q : (∀ s g, J s g → monitor_allowed g B c) →
  (∀ s g b, J s g → monitor_plausible B c b → Q b s (watch_monitor g B c b)) → mspec J (ask c) Q.
Proof.
  intros Ha Hq. apply triple_ask.
  - intros s g HJ. by apply (Ha (mo_state s)).
  - intros s g b HJ Hb. by apply Hq.
Qed.

Lemma mspec_report f J : mspec J (on_report f) (λ _, J).
Proof. by intros s g HJ. Qed.

Lemma mspec_finished code msg (J J' : massert) : (∀ s g, J s g → J' s g) → mspec J (finished code msg) (λ _, J').
Proof. intros HJ s g Hs. by apply HJ. Qed.

Lemma mspec_now J : mspec J now_m (λ _, J).
Proof. by apply mspec_ask. Qed.

Lemma mspec_push t J : mspec J (push_transition_m t) (λ _, J).
Proof. destruct t; [apply mspec_report|by apply mspec_ret]. Qed.

Lemma mspec_alert code severity message dedupe J : mspec J (alert_m ctx code severity message dedupe) (λ _, J).
Proof.
  unfold alert_m. eapply mspec_then; [apply mspec_now|]. intros at_. eapply mspec_bind; [apply mspec_get|]. intros m.
  eapply mspec_pre; [|intros s g [HJ _]; exact HJ]. apply (mspec_then _ _ _ J); [by apply mspec_ask|]. intros sent.
  eapply mspec_then; [|intros []; apply mspec_report]. destruct sent; [by apply mspec_ret|apply mspec_report].
Qed.

(** ** The stages *)

(** The kill flag was read unset and the state at hand is the account's. *)
Definition loaded : massert := λ s g, rd_armed g = true ∧ rd_acct g = s.
Definition logged : massert := λ s g, loaded s g ∧ rd_logged g = true.
Definition halting : massert := λ s g, logged s g ∧ AccountStatus.is_halt (status s) = true.

Lemma save_m_spec next s0 : rtc auto_step s0 next →
  mspec (λ s g, logged s g ∧ s = s0) (save_m next) (λ r s g, logged s g ∧ (r = Ok tt → status s = status next)).
Proof.
  intros Hauto. unfold save_m. eapply mspec_bind; [apply mspec_get|]. intros m. destruct (state_eqb _ _) eqn:Eq.
  { unfold state_eqb in Eq. rewrite !andb_true_iff, !bool_decide_eq_true in Eq. apply mspec_ret. intros s g [[Hl _] ->].
    split; [done|]. intros _. symmetry. tauto. }
  apply (mspec_bind _ _ _ (λ a s g, match a with
    | Ok s' => rd_armed g = true ∧ rd_logged g = true ∧ rd_acct g = s' ∧ status s' = status next
    | Err _ => logged s g end)).
  { apply mspec_ask.
    - intros s g [[[[Ha Hs] Hl] ->] E]. simpl. rewrite Hs. rewrite <- E. done.
    - intros s g [s'|e] [[[[Ha Hs] Hl] ->] E] Hb; simpl; [|done]. split; [done|]. split; [done|]. split; [done|].
      by destruct (Hb s' eq_refl) as [v ->]. }
  intros [s'|e].
  - apply (mspec_then _ _ _ (λ s g, logged s g ∧ status s = status next)).
    + apply triple_modify. intros x g (Ha & Hl & Hs & Hst). by split.
    + intros []. apply mspec_ret. by intros s g [Hl Hs].
  - by apply mspec_ret.
Qed.

(** ** The flatten *)

Lemma flatten_spec_universe h known x : bs_contains (Flatten.universe (flatten_spec_m ctx h known)) x = true →
  Flatten.universe (flatten_spec_m ctx h known) = mandate_universe (mc_mandate ctx).
Proof. done. Qed.

Lemma flatten_m_spec h known venue s0 : book_ok (mc_rules ctx) → live_mode ctx = true →
  mspec (λ s g, halting s g ∧ s = s0) (call_out (fun B c => OfRun (BrokerCall c)) (flatten (flatten_spec_m ctx h known) venue))
    (λ _ s g, halting s g ∧ s = s0).
Proof.
  intros Hrules Hlive m g [Hg Hs]. set (fs := flatten_spec_m ctx h known).
  assert (triple monitor_discipline (λ m' g', m' = m ∧ g' = g) (call_out (fun B c => OfRun (BrokerCall c)) (flatten fs venue))
    (λ _ m' g', m' = m ∧ may_flatten g' ∧ rd_acct g' = rd_acct g)) as Ht.
  2: { eapply always_mono; [by apply Ht|]. intros [a m'] g' (-> & (Ha & Hl & _ & _) & Hacct). destruct Hg as [[[_ Hc] _] Hh].
       split; [|exact Hs]. split; [split; [split; [done|]|done]|exact Hh]. simpl. by rewrite Hacct. }
  destruct Hg as [[[Harm Hacct] Hlog] Hhalt].
  assert (may_flatten g) as Hmay by (unfold may_flatten; by rewrite Hacct).
  apply triple_call_out with (P := reducing_only fs) (g0 := watch_start) (Q := λ _ _, True)
    (R := λ g0 g', may_flatten g' ∧ rd_acct g' = rd_acct g ∧ (last_snap g0 = None ∨ last_snap g0 = rd_seen g' ∧ selling g0 = rd_sold g')).
  - intros g0 g' B c (Hm & Hac & Hw) Hc. destruct c; try done; [by destruct Hm|].
    destruct Hc as (s & Hs' & Hr & Hk & Ht & Hsell). split; [done|].
    destruct Hw as [Hn|[Hw1 Hw2]]; [by rewrite Hs' in Hn|].
    split; [exists fs, s; by rewrite <- Hw1|]. split; [done|]. split; [done|]. by rewrite <- Hw2.
  - intros g0 g' B c b (Hm & Hac & Hw) _ Hb. split; [by apply well_formed_typed|]. destruct c; try done; simpl.
    + split; [done|]. split; [done|]. by right.
    + split; [done|]. split; [done|]. destruct Hw as [Hn|[Hw1 Hw2]]; [left; by destruct b as [[]|]|right].
      rewrite <- Hw2. by destruct b as [[]|].
    + split; [done|]. split; [done|]. by destruct b.
    + split; [done|]. split; [done|]. by destruct b.
  - by apply flatten_always.
  - intros m' g' [-> ->]. split; [done|]. split; [done|]. by left.
  - intros m' g' rep g1 g'' [-> ->] (Hm & Hac & _) _. done.
Qed.

(** Keeps the calls a step makes in a state of halting that nothing but the watcher reads. *)
Definition over {A} : A → massert := λ _ _ _, True.

Lemma mspec_over {A} (m : mstep A) J (Q : A → massert) : mspec J m Q → mspec J m over.
Proof. intros Hm. by eapply mspec_conseq. Qed.

Lemma mspec_end code msg J : mspec J (finished code msg) over.
Proof. by eapply mspec_over, (mspec_finished _ _ J J). Qed.

Ltac silent :=
  eapply mspec_then; [first [apply mspec_alert | apply mspec_push | apply mspec_report]|intros []].
Ltac keep := eapply mspec_pre; [|intros ?s ?g [?HJ _]; eassumption].

Lemma finish_flatten_m_spec why : book_ok (mc_rules ctx) → live_mode ctx = true →
  mspec halting (finish_flatten_m ctx why) over.
Proof.
  intros Hrules Hlive. unfold finish_flatten_m. eapply mspec_bind; [apply mspec_get|]. intros m.
  destruct (halt_record (mo_state m)) as [h|]; [|by apply mspec_ret].
  apply (mspec_then _ _ _ (λ s g, halting s g ∧ s = mo_state m)).
  { apply mspec_ask; [by intros s g [[[[Ha _] _] _] _]|done]. }
  intros [known|e]; [|eapply mspec_then; [apply mspec_alert|intros []; by apply mspec_ret]].
  eapply mspec_then; [by apply flatten_m_spec|]. intros rep. silent. eapply mspec_bind; [apply mspec_get|]. intros m'.
  destruct (complete_flatten _ _) as [next tr] eqn:Ec. silent.
  eapply mspec_then; [|intros saved; apply (mspec_then _ _ _ (λ _ _, True)); [|intros []; by apply mspec_ret]].
  - eapply mspec_conseq; [apply (save_m_spec next (mo_state m'))| |by intros a s g [HJ _]; exact HJ].
    + apply rtc_once. pose proof (auto_complete_flatten (mo_state m')
        (match fr_verdict rep with FlattenVerdict.HaltAndAlert => false | _ => true end)) as Ha. by rewrite Ec in Ha.
    + by intros s g [[[Hl _] _] Hs].
  - destruct saved; [|by eapply mspec_over, mspec_alert].
    destruct (match fr_verdict rep with FlattenVerdict.HaltAndAlert => false | _ => true end); [by apply mspec_ret|].
    by eapply mspec_over, mspec_alert.
Qed.

(** ** The branches of a reading *)

Lemma halted_reading_spec st : book_ok (mc_rules ctx) → mspec halting (halted_reading ctx st) over.
Proof.
  intros Hrules. unfold halted_reading. eapply mspec_bind; [apply mspec_get|]. intros m. keep.
  destruct st; try apply mspec_end. destruct (live_mode ctx) eqn:El; [|apply mspec_end].
  eapply mspec_bind; [by apply finish_flatten_m_spec|]. intros b. eapply mspec_bind; [apply mspec_get|]. intros m'. apply mspec_end.
Qed.

Lemma observed_spec snap prior J : mspec J (observed ctx snap prior) over.
Proof.
  unfold observed. destruct (day_start _); [apply mspec_end|]. eapply mspec_bind; [apply mspec_get|]. intros m. keep.
  destruct (day_start_missing _ _); [|apply mspec_end]. silent. eapply mspec_then; [|intros []; apply mspec_end].
  destruct (is_some _); [apply mspec_alert|by apply mspec_ret].
Qed.

Lemma halting_reading_spec d : book_ok (mc_rules ctx) → mspec halting (halting_reading ctx d) over.
Proof.
  intros Hrules. unfold halting_reading. silent. destruct (live_mode ctx) eqn:El.
  - eapply mspec_bind; [by apply finish_flatten_m_spec|]. intros []; apply mspec_end.
  - eapply mspec_bind; [apply mspec_get|]. intros m. destruct (complete_flatten _ _) as [halted tr] eqn:Ec. silent.
    eapply mspec_bind.
    { eapply mspec_pre; [apply (save_m_spec halted (mo_state m))|by intros s g [[Hl _] Hs]].
      apply rtc_once. pose proof (auto_complete_flatten (mo_state m) true) as Ha. by rewrite Ec in Ha. }
    intros [u|e]; [silent|]; apply mspec_end.
Qed.

(** The snapshot is the one the watcher saw, well formed. *)
Lemma risk_reading_spec p snap at_ : book_ok (mc_rules ctx) → risk_policy_ok p → dec_ok (s_equity snap) →
  mspec logged (risk_reading ctx p snap at_) over.
Proof.
  intros Hrules Hp Heq. unfold risk_reading. eapply mspec_bind; [apply mspec_get|]. intros m.
  destruct (step_with _ _ _ _ _) as [[next d] tr] eqn:Es. silent. silent.
  eapply mspec_bind.
  { apply (save_m_spec next (mo_state m)). apply rtc_once.
    pose proof (auto_evaluate (mo_state m) (equity_snapshot snap) (date_naive at_) p (day_start (mc_config ctx)) Heq Hp) as Ha.
    by rewrite Es in Ha. }
  intros [u|e].
  - destruct (is_halting d) eqn:Eh; [|apply observed_spec]. pose proof (halting_step _ _ _ _ _ _ _ _ Es Eh) as Hh.
    eapply mspec_pre; [by apply halting_reading_spec|]. intros s g [Hl Hs]. split; [exact Hl|]. destruct u. by rewrite Hs.
  - eapply (mspec_then _ _ _ (λ _ _, True)); [|intros []; apply mspec_end].
    destruct (is_halting d); [by eapply mspec_over, mspec_alert|by apply mspec_ret].
Qed.

Lemma log_reading_spec snap : mspec (λ s g, loaded s g ∧ rd_seen g = Some snap) (log_reading ctx snap) (λ _, logged).
Proof.
  unfold log_reading. apply (mspec_then _ _ _ logged).
  - apply mspec_ask; [|by intros s g b [Hl _] _]. intros s g [[Ha _] Hs]. split; [exact Ha|]. by exists snap.
  - intros [u|e]; [by apply mspec_ret|apply mspec_report].
Qed.

Lemma reading_spec p : book_ok (mc_rules ctx) → risk_policy_ok p → mspec loaded (reading ctx p) over.
Proof.
  intros Hrules Hp. unfold reading. eapply mspec_then; [apply mspec_now|]. intros at_. silent.
  apply (mspec_bind _ _ _ (λ r s g, loaded s g ∧ ∀ snap, r = Ok snap → rd_seen g = Some snap ∧ dec_ok (s_equity snap))).
  { apply mspec_ask; [by intros s g [Ha _]|]. intros s g b Hl Hb. split; [exact Hl|]. intros snap ->.
    split; [done|]. by destruct (Hb snap eq_refl). }
  intros [snap|e]; [|apply mspec_end]. silent. apply mspec_pure with (F := dec_ok (s_equity snap)).
  { intros s g [_ Hs]. by apply Hs. }
  intros Heq. eapply mspec_bind.
  { eapply mspec_pre; [apply log_reading_spec|]. intros s g [Hl Hs]. split; [exact Hl|]. by apply Hs. }
  intros []. eapply mspec_bind; [apply mspec_get|]. intros m. destruct (AccountStatus.is_halt _) eqn:Eh.
  - eapply mspec_pre; [by apply halted_reading_spec|]. intros s g [Hl ->]. by split.
  - keep. by apply risk_reading_spec.
Qed.

Definition at_start : massert := λ s g, s = new_state (mc_account ctx) ∧ rd_acct g = s.

Lemma execute_m_spec : book_ok (mc_rules ctx) → dec_ok (cf_recovery_fraction (mc_config ctx)) →
  mspec at_start (execute_m ctx) over.
Proof.
  intros Hrules Hrec. unfold execute_m. destruct (_ && _); [apply mspec_end|].
  apply (mspec_bind _ _ _ (λ r s g, at_start s g ∧ (r = Ok false → rd_armed g = true))).
  { apply mspec_ask; [done|]. intros s g b Hl _. split; [exact Hl|]. by intros ->. }
  intros [[]|e]; [apply mspec_end| |apply mspec_end].
  destruct (from_mandate_with_recovery _ _) as [p|e] eqn:Ep; [|apply mspec_end].
  pose proof (from_mandate_ok _ _ _ Hrec Ep) as Hp.
  apply (mspec_bind _ _ _ (λ r s g, ∀ o, r = Ok o → rd_armed g = true ∧ rd_acct g = default (new_state (mc_account ctx)) o)).
  { apply mspec_ask; [by intros s g [_ Ha]; apply Ha|]. intros s g b [_ Ha] _ o ->. simpl. split; [by apply Ha|done]. }
  intros [o|e]; [|apply mspec_end]. set (s0 := default (new_state (mc_account ctx)) o).
  apply (mspec_then _ _ _ loaded).
  { apply triple_modify. intros x g Ho. destruct (Ho o eq_refl) as [Ha Hs]. by split. }
  intros []. silent. by apply reading_spec.
Qed.

Lemma monitor_always : book_ok (mc_rules ctx) → dec_ok (cf_recovery_fraction (mc_config ctx)) →
  always monitor_discipline (monitor_once ctx) reader_start (λ _ _, True).
Proof.
  intros Hrules Hrec. split; [done|]. intros at_ _. apply always_bind. eapply always_mono; [by apply execute_m_spec|].
  by intros [a m] g _.
Qed.
End discipline.

(** ** The theorem *)

Section theorem.
Context `{ReferenceRules} `{RustDecimal, !MandateSerde, Sha256}.

(** C13. Whatever the broker, the stores and the alert sink answer: a reading of the continuous monitor asks the broker for an
    account only after it read the kill flag unset; puts on the equity log the equity of the snapshot it was given, before
    any state is saved and any order is sent; saves only states that automatic steps of the risk machine reach, on the
    version it read; and every order it sends is a market order under a flatten tag that reduces a position of the last
    snapshot, in live mode, of an account that is halting. *)
Theorem monitor_only_reduces (ctx : MonitorContext) tr1 B (c : monitor_call B) b tr2 rep : book_ok (mc_rules ctx) →
  dec_ok (cf_recovery_fraction (mc_config ctx)) → runs (monitor_once ctx) (tr1 ++ Ev c b :: tr2) rep →
  Forall (believable (monitor_discipline ctx)) (tr1 ++ Ev c b :: tr2) →
  monitor_allowed ctx (fold_left (see (monitor_discipline ctx)) tr1 (reader_start ctx)) B c.
Proof.
  intros Hrules Hrec Hr Hb. eapply (obeys_split (monitor_discipline ctx)).
  exact (proj1 (always_runs _ _ _ _ _ _ (monitor_always ctx Hrules Hrec) Hr Hb)).
Qed.
End theorem.
