(* ===== verification/ServiceScenario.v ===== *)
(** * ServiceScenario: a tick of the service and readings of the monitor

    One account of three runs, one panics and one has no runtime; a reading of a fallen account flattens it. The theorems
    on the run store, the service and the monitor apply here. *)

From Stdlib Require Import ZArith Lia String Ascii.
From stdpp Require Import relations.
From S2P Require Import Prelude Assoc Calls Text BTree F64 Externals Decimal DecMath Mandate Policy Broker Alpaca Venue RiskState Overlay RiskStore View Recon Flatten FlattenFacts RiskFacts Guard Planner PlanFacts Data Decision Record RunStore RunStoreFacts RunCalls RunSteps RunOrders Pipeline RunRules RunFacts RunTrade RunTheorems RunScenario Service Monitor Driver ServiceFacts MonitorFacts.

Local Open Scope Z_scope.

Module ServiceScene.
Import RunScene Baseline.

Definition monitor_world (B : Type) (c : monitor_call B) (w : World) : B * World :=
  match c in monitor_call B' return B' * World with
  | OfRun c => world _ c w
  | AppendReading _ => (Ok tt, w)
  end.

(** The broker of the account "broken" panics when it is asked for a snapshot. *)
Definition panics {B} (account : string) (c : monitor_call B) : bool :=
  String.eqb account "broken" && match c with OfRun (BrokerCall (Snapshot _)) => true | _ => false end.

Definition service_world (B : Type) (c : service_call B) (w : World) : B * World :=
  match c in service_call B' return B' * World with
  | Guarded a c => if panics a c then (inl "index out of bounds", w) else let '(b, w') := monitor_world _ c w in (inr b, w')
  | Direct c => monitor_world _ c w
  | TryLock _ => (Ok true, w)
  | DropGuard _ => (tt, w)
  | LeftMemo => (None, w)
  end.

Definition account_named (id : string) : ActiveAccount :=
  {| aa_account := id; aa_tenant := "tenant"; aa_mandate := mandate; aa_envelope := envelope; plan_approved := true;
     aa_sleeves := [sleeve_spec]; aa_mode := ExecutionMode.Live |}.
Definition accounts_ : list ActiveAccount := account_named <$> ["acct"; "broken"; "new"]%string.

Definition runtime : AccountRuntime :=
  {| rt_venue := "alpaca"; rt_environment := VenueEnvironment.Live; rt_rules := Rebalance.book |}.
Definition runtimes_ : BTreeMap string AccountRuntime := bt_of_list [("acct", runtime); ("broken", runtime)].

(** 15:00:10 UTC of a day. *)
Definition afternoon (day : Z) : DateTime := at_secs (86400 * day + 54010).
Definition at_three (w : World) : World := w <| clock := afternoon 1 |>.
Definition due_on (day : Z) : list RunSpec := default [] (ok (find_due_runs (Ok accounts_) (afternoon day))).

Definition tick (due : list RunSpec) (w : World) : list (event service_call) * list DueOutcome :=
  exec service_world (run_all_due runtimes_ default_config due) w.
Definition pass (l : list ActiveAccount) (w : World) : list (event service_call) * (list MonitorReport * FailureStreaks) :=
  exec service_world (monitor_all runtimes_ default_config l []) w.

Definition result_of (o : DueOutcome) : string :=
  match do_result o with Ok r => code_of r | Err e => DueRunError.display e end.

(** ** A reading *)

Definition mctx : MonitorContext := monitor_context default_config (account_named "acct") runtime.
Definition read (w : World) : list (event monitor_call) * MonitorReport :=
  exec monitor_world (monitor_once mctx) w.

Definition order_in (e : event monitor_call) : list OrderRequest :=
  match e with Ev c _ => match c with OfRun (BrokerCall (Place r)) => [r] | _ => [] end end.
Fixpoint orders_in (tr : list (event monitor_call)) : list OrderRequest :=
  match tr with
  | [] => []
  | e :: tr' => order_in e ++ orders_in tr'
  end.

(** ** A run key, from its first attempt to its record *)

Definition key : RunKey := key_of_run (ctx_of ExecutionMode.Live 1).
Definition a_record : RunRecord := record_of ExecutionMode.Live 1 new_world.
Definition day_one_date : NaiveDate := date_naive (slot 1).
End ServiceScene.

(** Three accounts are due, and none before 15:00; each has its outcome. *)
Example a_tick :
  (ru_account <$> ServiceScene.due_on 1) = ["acct"; "broken"; "new"]%string ∧
  length (default [] (ok (find_due_runs (Ok ServiceScene.accounts_) (Baseline.at_secs (86400 + 53999))))) = 0%nat ∧
  (ServiceScene.result_of <$> (ServiceScene.tick (ServiceScene.due_on 1) (ServiceScene.at_three RunScene.new_world)).2) =
    ["RUN_COMPLETED"; "DRIVER_PANICKED: index out of bounds"; "DRIVER_NO_RUNTIME: no broker/data is registered for this account"]%string.
Proof. vm_compute. done. Qed.

(** A pass over the three accounts, the first of which has fallen: it is flattened; the two failures are alerted. *)
Example a_pass :
  ((λ r, (mo_account r, MonitorCode.as_str (mo_code r), AlertCode.as_str <$> (al_code <$> mo_alerts r))) <$> (ServiceScene.pass ServiceScene.accounts_ (ServiceScene.at_three RunScene.fallen)).2.1) =
    [("acct", "MONITOR_HALTED", ["ALERT_HALT"]); ("broken", "MONITOR_PANICKED", ["ALERT_RUN_FAILED"]); ("new", "MONITOR_NO_RUNTIME", ["ALERT_RUN_FAILED"])]%string.
Proof. vm_compute. done. Qed.

(** ** The theorems applied *)

Module ServiceApplied.
Import RunScene RunApplied ServiceScene Baseline.

Lemma runs_tick due w : runs (run_all_due runtimes_ default_config due) (tick due w).1 (tick due w).2.
Proof. apply exec_runs. Qed.

Lemma runs_pass l w : runs (monitor_all runtimes_ default_config l []) (pass l w).1 (pass l w).2.
Proof. apply exec_runs. Qed.

Abbreviation the_tick := (tick (due_on 1) (at_three new_world)).
Abbreviation the_pass := (pass accounts_ (at_three fallen)).

Lemma runs_keep_locks_witness :
  obeys locking (None : ghost locking) the_tick.1 ∧ fold_left (see locking) the_tick.1 None = None ∧ do_spec <$> the_tick.2 = due_on 1 ∧
  Forall (λ o, excused runtimes_ (do_spec o) (do_result o)) the_tick.2.
Proof. exact (runs_keep_locks runtimes_ default_config (due_on 1) the_tick.1 the_tick.2 (runs_tick (due_on 1) (at_three new_world))). Defined.

Lemma readings_keep_locks_witness :
  obeys locking (None : ghost locking) the_pass.1 ∧ fold_left (see locking) the_pass.1 None = None ∧
  length the_pass.2.1 = length (monitored_accounts accounts_).
Proof. exact (readings_keep_locks runtimes_ default_config accounts_ [] the_pass.1 the_pass.2 (runs_pass accounts_ (at_three fallen))). Defined.

(** The run due first at 15:00:10 is due a minute later. *)
Lemma due_once_a_day_witness : ∃ s, s ∈ due_on 1 ∧ ru_account s = "acct"%string ∧
  s ∈ default [] (ok (find_due_runs (Ok accounts_) (at_secs (86400 + 54070)))).
Proof.
  assert (∃ s l, due_on 1 = s :: l ∧ ru_account s = "acct"%string) as (s & l & E & Ha) by (by eexists _, _).
  assert (s ∈ due_on 1) as Hs by (rewrite E; left). exists s. split; [exact Hs|]. split; [exact Ha|].
  refine (proj2 (due_once_a_day accounts_ (afternoon 1) (due_on 1) _) (at_secs (86400 + 54070)) _ s _ _ _ Hs);
    first [exact epoch_chrono_laws | reflexivity].
Defined.

(** ** A run key *)

Lemma finish_done g r n d t l j : fails g ≤ 0 → as_get (entries g) (run_key r) = Some (InProgress n d t l j) →
  as_get (entries (finish g r).2) (run_key r) = Some (Done r) ∧ fails (finish g r).2 = fails g.
Proof.
  intros Hf Hg. unfold finish, guarded. rewrite (proj2 (Z.ltb_ge 0 (fails g)) Hf), Hg. cbn [snd].
  change (entries (setter ledger _ ?x)) with (entries x). by rewrite put_get, bool_decide_true.
Qed.

Abbreviation begun := ((begin empty_store key day_one_date (slot 1) 900).2).

Lemma begun_first : (begin empty_store key day_one_date (slot 1) 900).1 = Ok (Started 1).
Proof. reflexivity. Qed.

Lemma record_key : run_key a_record = key.
Proof. apply (bool_decide_eq_true_1 (run_key a_record = key)). vm_compute. reflexivity. Qed.

Lemma begun_entry : as_get (entries begun) key = Some (InProgress 1 day_one_date (slot 1) (dt_add (slot 1) (duration_seconds 900)) []).
Proof. exact (proj1 (@started_inv epoch_chrono epoch_chrono_laws empty_store key day_one_date (slot 1) 900 1 begun_first)). Qed.

Lemma finished_once r : run_key r = key → as_get (entries (fold_left apply_op [OpFinish r] begun)) key = Some (Done r) ∧
  fails (fold_left apply_op [] (fold_left apply_op [OpFinish r] begun)) ≤ 0.
Proof.
  intros Hk. change (as_get (entries (finish begun r).2) key = Some (Done r) ∧ fails (finish begun r).2 ≤ 0).
  destruct (finish_done begun r 1 day_one_date (slot 1) (dt_add (slot 1) (duration_seconds 900)) []) as [Hd Hf].
  - exact (Z.le_refl 0).
  - rewrite Hk. exact begun_entry.
  - rewrite Hk in Hd. split; [exact Hd|]. rewrite Hf. exact (Z.le_refl 0).
Qed.

(** Another attempt starts a thousand seconds after the slot's first, when its lease is over; and once the record is written
    it is what [begin] returns. *)
Abbreviation later_on := (dt_add (slot 1) (duration_seconds 1000)).

Lemma second_attempt : (begin begun key day_one_date later_on 900).1 = Ok (Started 2).
Proof. reflexivity. Qed.

Lemma run_key_is_one_run_witness :
  dt_ltb later_on (dt_add (slot 1) (duration_seconds 900)) = false ∧
  (begin (fold_left apply_op [] (fold_left apply_op [OpFinish a_record] begun)) key day_one_date (slot 1) 900).1 = Ok (AlreadyDone a_record).
Proof.
  split.
  - refine (proj1 (run_key_is_one_run (H0 := epoch_chrono_laws) empty_store key day_one_date (slot 1) 900 1 [] day_one_date later_on 900 begun_first _ _) 2 second_attempt); [lia|constructor].
  - refine (proj1 (proj2 (run_key_is_one_run (H0 := epoch_chrono_laws) empty_store key day_one_date (slot 1) 900 1 [OpFinish a_record] day_one_date (slot 1) 900 begun_first _ _) a_record (proj1 (finished_once a_record record_key)) [] (proj2 (finished_once a_record record_key))));
      [lia|by repeat constructor].
Defined.

(** ** A reading that flattens *)

Lemma nth_order tr n req : orders_in tr !! n = Some req → ∃ tr1 b tr2, tr = tr1 ++ Ev (OfRun (BrokerCall (Place req))) b :: tr2.
Proof.
  revert n. induction tr as [|e tr IH]; simpl; intros n Hn; [done|]. destruct (order_in e) as [|r l] eqn:He.
  - destruct (IH n Hn) as (tr1 & b & tr2 & ->). by exists (e :: tr1), b, tr2.
  - destruct e as [B c b]. destruct c as [B c|]; [|done]. destruct c as [B c| | | | | | | | | | | | | |]; try done. destruct c; try done.
    injection He as <- <-. destruct n as [|n]; simpl in Hn; [injection Hn as <-; by exists [], b, tr|].
    destruct (IH n Hn) as (tr1 & b' & tr2 & ->). by exists (Ev (OfRun (BrokerCall (Place req0))) b :: tr1), b', tr2.
Qed.

Lemma exec_monitor_believable {A} ctx (p : prog monitor_call A) w : Forall (believable (monitor_discipline ctx)) (exec monitor_world p w).1.
Proof.
  revert w. induction p as [a|B c k IH]; intros w; simpl; [constructor|].
  assert (monitor_plausible B c (monitor_world B c w).1) as Hb by (destruct c; [apply world_believable|done]).
  destruct (monitor_world B c w) as [b w']. specialize (IH b w'). destruct (exec monitor_world (k b) w') as [tr a]. by constructor.
Qed.

Lemma runs_read w : runs (monitor_once mctx) (read w).1 (read w).2.
Proof. apply exec_runs. Qed.

Lemma read_believable w : Forall (believable (monitor_discipline mctx)) (read w).1.
Proof. apply exec_monitor_believable. Qed.

Abbreviation the_read := (read (at_three fallen)).

Lemma the_order : (λ r, (req_symbol r, req_side r)) <$> orders_in the_read.1 !! 0%nat = Some ("SPY"%string, Sell).
Proof. vm_compute. reflexivity. Qed.

Lemma monitor_only_reduces_witness : ∃ tr1 req b tr2, the_read.1 = tr1 ++ Ev (OfRun (BrokerCall (Place req))) b :: tr2 ∧
  req_symbol req = "SPY"%string ∧
  monitor_allowed mctx (fold_left (see (monitor_discipline mctx)) tr1 (reader_start mctx)) _ (OfRun (BrokerCall (Place req))).
Proof.
  destruct (proj1 (fmap_Some _ _ _) the_order) as (req & E & Hr). apply nth_order in E as (tr1 & b & tr2 & E).
  injection Hr as Hs _. exists tr1, req, b, tr2. split; [exact E|]. split; [symmetry; exact Hs|].
  pose proof (runs_read (at_three fallen)) as Hruns. pose proof (read_believable (at_three fallen)) as Hbel. rewrite E in Hruns, Hbel.
  exact (monitor_only_reduces mctx tr1 _ (OfRun (BrokerCall (Place req))) b tr2 _ Rebalance.book_is_ok recovery_ok Hruns Hbel).
Defined.

(** ** The ledger after the run of day 1 *)

Lemma acted_ledger_exact_witness :
  newest (bt_get (ledger (fold_left apply_op [OpBegin key day_one_date (slot 1) 900; OpFinish a_record] empty_store)) ("acct", "etf")%string)
    (acted_in (fold_left apply_op [OpBegin key day_one_date (slot 1) 900; OpFinish a_record] empty_store) "acct" "etf").
Proof. exact (acted_ledger_exact (H0 := epoch_chrono_laws) [OpBegin key day_one_date (slot 1) 900; OpFinish a_record] "acct" "etf"). Defined.
End ServiceApplied.
